(* ===== verification/_CoqProject ===== *)
-Q . S2P
Prelude.v
RustStd.v
Types.v
Units.v
Keys.v
State.v
Chain.v
StoreSpec.v
SqliteStore.v
Recovery.v
StoreRuns.v
Typing.v
Engine.v
JobSpec.v
EngineProofs.v
ToyNode.v
ChainClient.v
NodeQueries.v
ChainEngine.v
EngineTheorems.v
Liveness.v
FileStore.v
FileEngine.v
Connect.v
Cli.v
Machine.v
Http.v
RecoveryChain.v
Commands.v
UnitTests.v
StoreTests.v
EngineTests.v
