(* ===== verification/Prelude.v ===== *)
(** A verification library for the buyback crate.

    The crate takes payments in subnet alpha (or TAO) on deposit addresses it
    generates, sweeps them to a treasury, and spends a fixed budget per job on
    buying alpha back and burning or recycling it.  Everything that matters is
    a transaction that must not be sent twice: an engine advances one record
    per payment through a small state machine, and before each broadcast it
    writes the transaction's identity (its journal) into the record, under an
    exclusive reservation of the signer, in a store that several processes may
    share.  After a crash or a lost answer the journal is looked up on the
    finalized chain before anything else happens to the job.

    * The parts and their files

    - [Prelude]: [Result], the state-and-error monad [M] ([?] is [let?], a
      fallible effect [let!]; effects done before an error are kept, as in an
      [async fn]), its [wp], record updates, tactics, the hint databases.
    - [RustStd]: what is used of Rust's standard library: integers at their
      width (the release profile: plain arithmetic wraps, checked and saturating
      forms are themselves), strings as bytes, [trim], [split], [parse],
      [{:?}], UTF-8.
    - [Types] (state.rs, config.rs, chain.rs, keys.rs, recovery.rs, error.rs):
      the data, with the source's fields and constructors.
    - [Units] (units.rs): amounts, fees, prices.
    - [Keys] (keys.rs): sealing, the keyring, payment wallets, hard derivation,
      over the primitives of the cryptographic crates (the class [Crypto], its
      laws [CryptoLaws], and the concrete instance [ToyKeys]).
    - [State] (state.rs): the transition table, [transition], [record_failure],
      the budget check, the public status.
    - [Chain] (chain.rs, its pure part): calls and payloads, event summaries,
      the metadata check, fixed-point prices, fee and signer decoding, URLs.
    - [StoreSpec] (store.rs, [trait Store]): the operations of a store as the
      class [StoreOps], and what it promises the engine as [StoreLaws], stated
      on the observable records ([StoreView]).
    - [SqliteStore] (store.rs, [SqliteStore]): the two tables as maps, each
      operation one immediate transaction, rolled back on any failure; the
      instance [SqliteStore_laws] discharges [StoreLaws].
    - [Recovery] (recovery.rs, [SqliteStore::recover_legacy]): the audit of a
      manifest, the replay of archived events, and their application.
    - [StoreRuns] (store.rs): every operation that can change the database,
      [recover_legacy] among them ([sqlite_op], [run_op]), a step of any process
      ([sqlite_step]), and the invariants of the databases that steps reach.
    - [Typing]: the ranges of the record's machine types, and that every such
      database keeps them.
    - [FileStore] (store.rs, [FileStore], [open_store]): one file per record.
    - [FileEngine]: an engine on it, which refuses every request and signs nothing.
    - [Engine] (engine.rs): one definition per method of [Engine], over a
      store, an environment ([EngineEnv]: the node, clock, randomness,
      webhooks) and peers that may change the store between any two of the
      engine's operations on it; a ghost trace records the observable effects.
    - [JobSpec]: the abstract protocol of a job: what one write may do to its
      record ([micro], [job_step]), the invariant [job_ok], and what only grows
      ([grows]).
    - [EngineProofs]: the engine refines the protocol: each method, from any
      good store, makes only protocol steps and journals what it broadcasts
      ([quiet], [sent], [follows]); the assumptions on the node ([RpcLaws]) and
      the peers ([PeersLaws]).
    - [ToyNode]: a concrete node, engine and payment, on which the witnesses run.
    - [ChainClient] (chain.rs, [impl Chain]): the node client over what the
      crate calls of subxt ([NodeApi]); [Chain_env] makes it an environment of
      the engine and [Chain_rpc_laws] discharges [RpcLaws]; [FinalizedChain] is
      what a node of a finalized chain promises.
    - [NodeQueries] (chain.rs): the best block, timestamps, the stream of
      finalized numbers and the metadata check ([HeadApi]), and what the batched
      stake query is equivalent to.
    - [ChainEngine]: the engine on the node client: what a step writes about a
      journaled transaction is the verdict of the finalized chain.
    - [EngineTheorems]: the guarantees of the engine.
    - [Liveness]: the engine alone on a node that answers ([Responsive]); how
      many finalized blocks settle a job.
    - [Connect] (chain.rs, [Chain::connect_endpoint], [Chain::connect_any]): the
      transport policy and the rotation over endpoints.
    - [Cli] (bin/buyback.rs, and key loading from keys.rs): the options, the
      configuration and the engine they start.
    - [Http], with webhooks (http.rs, webhook.rs): routes, handlers, delivery.
    - [RecoveryChain]: a recovery whose archive is the node client's scan.
    - [Machine] (store.rs, the [open]s and [init]): a machine with its files, its
      database files and their schemas, its store directories and their modes, its
      node and the trace; what opening a store does to it.
    - [Commands] (bin/buyback.rs, [main]): every command, on such a machine.
    - [UnitTests], [StoreTests], [EngineTests]: the unit tests of the crate, with
      the chains they simulate, run by the kernel on these definitions.

    * What the theorems show

    - Safety of sending: [tick_journals_before_broadcast],
      [one_journal_per_signer], [pending_only_reconciles],
      [step_broadcasts_at_most_once], [reservation_released_only_by_owner], and
      [find_pending_sound] with [journal_resolved_by_chain]: on a node of a
      finalized chain a step drops a journal only when a block holds its
      transaction, whose events it then applies, or when the transaction can never
      be included.  (The protocol of [JobSpec] alone does not say why a journal is
      dropped; that theorem does.)
    - Liveness: [jobs_settle], with [run] over any sequence of subscriptions.
    - The job protocol: [engine_refines_protocol], with peers that change the
      store between any two operations, and [job_never_repeats_work],
      [settled_job_completed], [completed_steps_never_rerun]; the pieces
      [apply_accepts_exactly], [validate_completed_buyback_exact],
      [consolidation_terminates], [transition_spec], [record_failure_spec].
    - The store: [database_well_typed], [version_identifies_record],
      [sqlite_update_exact], [file_update_exact], [file_list_exact].
    - Requests: [create_payment_reopens], [create_sweep_job_checks_address],
      [file_engine_signs_nothing], [http_opaque], the process around them,
      [cli_engine_safeguarded], [connect_any_secure], and the whole program,
      [commands_journal_before_broadcast] and [looking_changes_nothing]; the
      secrets behind them: [sealed_treasury_loads], [keyring_seal_open],
      [keyring_reseal_sound], [wallet_seal_unseal].
    - Recovery: [validate_manifest_sound], [replay_reproduces_accounting],
      [recover_legacy_atomic], [archive_scan_complete] and, end to end,
      [recovered_job_matches_chain].
    - Decoding and arithmetic: [verified_metadata_covers_calls],
      [from_events_sound], [deposits_in_block_exact], [stake_batch_equivalent],
      [fixed_bits_to_rao_exact], [parse_amount_spec], [format_parse_roundtrip],
      [funding_needed_exact], [buy_limit_price_bounds].

    A theorem with hypotheses is applied at a concrete input by the lemma of
    the same name with [_witness].

    * Fuel

    The [while] loop of [step_swept] is [consolidate_loop]; its fuel is the
    number of positions not yet consolidated, each turn that goes round again
    consolidates one, so it is enough ([consolidation_terminates]).  [chunks]
    cuts a list with the list's length as fuel: each turn removes an element.
    In the tests [reach_from] pops its first state and each state at most once
    more, eight in all.
    All other loops are structural: over the records, blocks, extrinsics and
    events the code iterates.

    * What is assumed, and what is not modelled

    A record and its JSON text are identified (serde's round trip); files that
    do not parse are kept as such.  The clock, randomness, identifiers and every
    answer of the node are arbitrary.  [treasury_lock] serializes tasks of one
    process, and the model is stronger: peers interleave anywhere.  [run] never
    returns, so it is a fold over the subscriptions made so far and the blocks
    each delivered; its pauses are not observed.  A command arrives parsed and
    returns what it prints.

    A transaction of SQLite that reports a failure, of a statement or of the
    commit, has changed nothing.  Opening a database is a connection and the
    statements of [init], each of which may fail after those before it; the files
    SQLite keeps beside a database in WAL mode are not shown, nor are the parents
    of a directory that is made.  The audit table, which [recover_legacy] creates
    in its transaction, is a map of the database and not an object of its schema.
    The counter [consolidated], a [usize], is an integer that is never more than
    the length of a [Vec] ([ok_consolidated]).

    Not modelled: argument parsing, logging and the text of the output; the HTTP
    server around the routes; [Debug] implementations and serde; of the tests,
    those of these and the ones that need sr25519, HMAC or a running node; the
    integration tests and the example. *)
From stdpp Require Export base option list gmap strings fin_maps.
From Stdlib Require Export ZArith Lia.
#[export] Set Warnings "-clear-no-such-hyp,-postfix-notation-not-level-1,-register-all".

(** * Fallible code: [Result<T, E>] *)

Inductive result (E A : Type) : Type :=
| Ok (a : A)
| Err (e : E).
Arguments Ok {E A} a.
Arguments Err {E A} e.

Declare Scope rust_scope.
Delimit Scope rust_scope with rust.

Section Result.
Context {E A B : Type}.

(** [r?] followed by the rest of the function. *)
Definition result_bind (r : result E A) (k : A -> result E B) : result E B :=
  match r with
  | Ok a => k a
  | Err e => Err e
  end.

Definition result_map (f : A -> B) (r : result E A) : result E B :=
  match r with
  | Ok a => Ok (f a)
  | Err e => Err e
  end.

(** [Option::ok_or], [Option::ok_or_else]. *)
Definition ok_or (o : option A) (e : E) : result E A :=
  match o with
  | Some a => Ok a
  | None => Err e
  end.

(** [Result::ok]. *)
Definition result_ok (r : result E A) : option A :=
  match r with
  | Ok a => Some a
  | Err _ => None
  end.

Definition is_ok (r : result E A) : bool :=
  match r with
  | Ok _ => true
  | Err _ => false
  end.

Lemma result_bind_ok r k b :
  result_bind r k = Ok b <-> exists a, r = Ok a /\ k a = Ok b.
Proof. destruct r; cbn; split; intros; naive_solver. Qed.

Lemma result_bind_err r k e :
  result_bind r k = Err e <->
  r = Err e \/ exists a, r = Ok a /\ k a = Err e.
Proof. destruct r; cbn; split; intros; naive_solver. Qed.

Lemma result_map_ok f r b :
  result_map f r = Ok b <-> exists a, r = Ok a /\ b = f a.
Proof. destruct r; cbn; split; intros; naive_solver. Qed.

Lemma ok_or_ok o e a : ok_or o e = Ok a <-> o = Some a.
Proof. destruct o; cbn; split; intros; naive_solver. Qed.

Lemma ok_or_err o e e' : ok_or o e = Err e' <-> o = None /\ e' = e.
Proof. destruct o; cbn; split; intros; naive_solver. Qed.

Lemma is_ok_true r : is_ok r = true <-> exists a, r = Ok a.
Proof. destruct r; cbn; split; intros; naive_solver. Qed.
End Result.

Notation "'let?' x := r 'in' k" := (result_bind r (fun x => k))
  (at level 10, x pattern, r at level 100, k at level 200) : rust_scope.
Open Scope rust_scope.

#[export] Instance result_eq_dec {E A} `{EqDecision E} `{EqDecision A} :
  EqDecision (result E A).
Proof. solve_decision. Defined.

(** Collecting an iterator of results: the first error wins. *)
Fixpoint collect {E A} (l : list (result E A)) : result E (list A) :=
  match l with
  | [] => Ok []
  | r :: rest => let? a := r in let? xs := collect rest in Ok (a :: xs)
  end.

Lemma collect_ok {E A} (l : list (result E A)) xs :
  collect l = Ok xs <-> l = Ok <$> xs.
Proof.
  revert xs. induction l as [|r l IH]; intros xs; cbn.
  - destruct xs; cbn; naive_solver.
  - rewrite result_bind_ok. split.
    + intros (a & -> & H). apply result_bind_ok in H as (ys & H & [= <-]).
      apply IH in H as ->. done.
    + destruct xs as [|x xs]; [done|]. intros [= -> H]. exists x.
      split; [done|]. apply result_bind_ok. exists xs. by rewrite IH.
Qed.

(** * Effectful code: explicit state passing, with the effects done before an
    error kept, as an [async fn] returning [Result] keeps them. *)

Definition M (W E A : Type) : Type := W -> result E A * W.

Section Monad.
Context {W E : Type}.

Definition m_ret {A} (a : A) : M W E A := fun w => (Ok a, w).
Definition m_throw {A} (e : E) : M W E A := fun w => (Err e, w).
Definition m_lift {A} (r : result E A) : M W E A := fun w => (r, w).
Definition m_bind {A B} (m : M W E A) (k : A -> M W E B) : M W E B :=
  fun w => match m w with
           | (Ok a, w') => k a w'
           | (Err e, w') => (Err e, w')
           end.
(** [match m { Ok(..) => .., Err(..) => .. }]: the outcome as a value. *)
Definition m_try {A} (m : M W E A) : M W E (result E A) :=
  fun w => let '(r, w') := m w in (Ok r, w').

(** [wp m Q w]: running [m] from [w] ends with an outcome and a world that
    satisfy [Q]. *)
Definition wp {A} (m : M W E A) (Q : result E A -> W -> Prop) (w : W) : Prop :=
  Q (m w).1 (m w).2.

Lemma wp_run {A} (m : M W E A) Q w r w' :
  wp m Q w -> m w = (r, w') -> Q r w'.
Proof. unfold wp. intros H Hm. by rewrite Hm in H. Qed.

Lemma wp_ret {A} (a : A) Q w : Q (Ok a) w -> wp (m_ret a) Q w.
Proof. done. Qed.

Lemma wp_throw {A} (e : E) (Q : result E A -> W -> Prop) w :
  Q (Err e) w -> wp (m_throw e) Q w.
Proof. done. Qed.

Lemma wp_lift {A} (r : result E A) Q w : Q r w -> wp (m_lift r) Q w.
Proof. done. Qed.

Lemma wp_bind {A B} (m : M W E A) (k : A -> M W E B) Q w :
  wp m (fun r w' => match r with
                    | Ok a => wp (k a) Q w'
                    | Err e => Q (Err e) w'
                    end) w ->
  wp (m_bind m k) Q w.
Proof. unfold wp, m_bind. by destruct (m w) as [[a|e] w']. Qed.

Lemma wp_try {A} (m : M W E A) (Q : result E (result E A) -> W -> Prop) w :
  wp m (fun r w' => Q (Ok r) w') w -> wp (m_try m) Q w.
Proof. unfold wp, m_try. destruct (m w) as [r w']. done. Qed.

Lemma wp_mono {A} (m : M W E A) (Q R : result E A -> W -> Prop) w :
  wp m Q w -> (forall r w', Q r w' -> R r w') -> wp m R w.
Proof. unfold wp. auto. Qed.

Lemma wp_and {A} (m : M W E A) (Q R : result E A -> W -> Prop) w :
  wp m Q w -> wp m R w -> wp m (fun r w' => Q r w' /\ R r w') w.
Proof. unfold wp. auto. Qed.
End Monad.

Notation "'let!' x := m 'in' k" := (m_bind m (fun x => k))
  (at level 10, x pattern, m at level 100, k at level 200) : rust_scope.

Create HintDb rust.
#[export] Hint Resolve wp_ret wp_throw wp_lift : rust.

(** * Tactics *)

(** Walk an equation through the binds of fallible code. *)
Ltac res_step :=
  match goal with
  | H : result_bind _ _ = Ok _ |- _ =>
      let a := fresh "a" in let Ha := fresh "Hr" in
      apply result_bind_ok in H as (a & Ha & H)
  | H : ok_or _ _ = Ok _ |- _ => apply ok_or_ok in H
  | H : result_map _ _ = Ok _ |- _ =>
      let a := fresh "a" in let Ha := fresh "Hr" in
      apply result_map_ok in H as (a & Ha & H)
  | H : Ok _ = Ok _ |- _ => injection H as H
  | H : Ok _ = Err _ |- _ => discriminate H
  | H : Err _ = Ok _ |- _ => discriminate H
  end.
Ltac res_inv := repeat res_step.

(** Split on the innermost [if]/[match] scrutinee of a hypothesis. *)
Ltac case_in H :=
  match type of H with
  | context [match ?x with _ => _ end] =>
      lazymatch x with
      | context [match _ with _ => _ end] => fail
      | _ => destruct x eqn:?
      end
  end.

(** One step of symbolic execution. *)
Ltac wp_step :=
  lazymatch goal with
  | |- wp (m_bind _ _) _ _ => apply wp_bind
  | |- wp (m_ret _) _ _ => apply wp_ret
  | |- wp (m_throw _) _ _ => apply wp_throw
  | |- wp (m_lift _) _ _ => apply wp_lift
  | |- wp (m_try _) _ _ => apply wp_try
  end.

(** * Record updates: [r <| field := v |>] *)

Class Updater {R T : Type} (proj : R -> T) := update : (T -> T) -> R -> R.
Arguments update {R T} proj {_} _ _.
#[global] Hint Mode Updater - - + : typeclass_instances.

Notation "r <| p := v |>" := (update p (fun _ => v) r)
  (at level 12, left associativity, p constr at level 9, v at level 99) : rust_scope.

(** [solve_updater eta p] builds the updater of projection [p] from the eta
    expansion [eta] of the record. *)
Ltac solve_updater eta p :=
  let f := fresh "f" in
  let r := fresh "r" in
  unfold Updater; refine (fun f r => _);
  let e := eval cbv beta delta [eta] in (eta r) in
  let e := eval pattern (p r) in e in
  lazymatch e with
  | ?g _ => let t := eval cbv beta in (g (f (p r))) in exact t
  end.

(** * Booleans *)

(** Reflect boolean connectives of guards into propositions. *)
Ltac bool_simpl :=
  repeat match goal with
  | H : _ && _ = true |- _ => apply andb_true_iff in H as [? H]
  | H : _ || _ = false |- _ => apply orb_false_iff in H as [? H]
  | H : negb _ = true |- _ => apply negb_true_iff in H
  | H : negb _ = false |- _ => apply negb_false_iff in H
  | H : bool_decide _ = true |- _ => apply bool_decide_eq_true in H
  | H : bool_decide _ = false |- _ => apply bool_decide_eq_false in H
  | H : (_ <? _)%Z = true |- _ => apply Z.ltb_lt in H
  | H : (_ <? _)%Z = false |- _ => apply Z.ltb_ge in H
  | H : (_ <=? _)%Z = true |- _ => apply Z.leb_le in H
  | H : (_ <=? _)%Z = false |- _ => apply Z.leb_gt in H
  | H : (_ =? _)%Z = true |- _ => apply Z.eqb_eq in H
  | H : (_ =? _)%Z = false |- _ => apply Z.eqb_neq in H
  end.

(** Evaluate the decisions of closed propositions. *)
Ltac decide_closed :=
  repeat match goal with
  | |- context [bool_decide ?P] =>
      first [change (bool_decide P) with true | change (bool_decide P) with false]
  | H : context [bool_decide ?P] |- _ =>
      first [change (bool_decide P) with true in H | change (bool_decide P) with false in H]
  end; cbn [negb andb orb] in *.

(** [o == Some x], [is_some()], [is_none()]. *)
Definition is_some {A} (o : option A) : bool :=
  match o with Some _ => true | None => false end.
Definition is_none {A} (o : option A) : bool := negb (is_some o).

Lemma is_some_true {A} (o : option A) : is_some o = true <-> exists a, o = Some a.
Proof. destruct o; cbn; split; intros; naive_solver. Qed.
Lemma is_some_false {A} (o : option A) : is_some o = false <-> o = None.
Proof. by destruct o. Qed.
Lemma is_none_true {A} (o : option A) : is_none o = true <-> o = None.
Proof. by destruct o. Qed.
Lemma is_none_false {A} (o : option A) : is_none o = false <-> exists a, o = Some a.
Proof. destruct o; cbn; split; intros; naive_solver. Qed.
Create Rewrite HintDb rust_bool.
#[export] Hint Rewrite @is_some_true @is_some_false @is_none_true @is_none_false : rust_bool.

(** Reachability: the reflexive transitive closure is stdpp's [rtc]; an
    invariant of the steps is an invariant of the reachable states. *)
Lemma rtc_invariant {A} (R : A -> A -> Prop) (I : A -> Prop) a b :
  (forall x y, I x -> R x y -> I y) -> rtc R a b -> I a -> I b.
Proof. intros Hstep Hr. induction Hr; eauto. Qed.

(** Filters: a stronger predicate that drops an element keeps fewer. *)
Lemma filter_length_lt {A} (P Q : A -> Prop) `{!forall x, Decision (P x), !forall x, Decision (Q x)}
  (l : list A) x :
  (forall y, Q y -> P y) -> x ∈ l -> P x -> ~ Q x -> (length (filter Q l) < length (filter P l))%nat.
Proof.
  intros Himp Hx HP HQ.
  assert (Hle : forall l', (length (filter Q l') <= length (filter P l'))%nat).
  { induction l' as [|y l' IH]; [done|]. rewrite !filter_cons.
    destruct (decide (Q y)), (decide (P y)); cbn; naive_solver lia. }
  induction l as [|y l IH]; [by apply elem_of_nil in Hx|]. rewrite !filter_cons.
  apply elem_of_cons in Hx as [<-|Hx].
  - rewrite decide_False, decide_True by done. cbn. pose proof (Hle l). lia.
  - specialize (IH Hx). destruct (decide (Q y)), (decide (P y)); cbn; naive_solver lia.
Qed.
