(* ===== verification/RustStd.v ===== *)
(** Rust's machine integers and strings, as far as the crate uses them.

    - [u64]/[u32]/[u128] values are [Z] in range; [+] and [+=] wrap, which is
      what the release profile does (Cargo.toml turns no overflow checks on;
      a debug build panics instead); [checked_*] and [saturating_*] are the
      methods of the same name.
    - [str] is the [string] of its UTF-8 bytes: [len] counts bytes, [chars]
      counts scalar values, [trim] strips Unicode [White_Space]. *)
From S2P Require Import Prelude.
From Stdlib Require Import Ascii.
Local Open Scope Z_scope.

(** * Integers *)

Definition u16_max : Z := 65535.
Definition u32_max : Z := 4294967295.
Definition u64_max : Z := 18446744073709551615.
Definition u128_max : Z := 340282366920938463463374607431768211455.
Definition i64_max : Z := 9223372036854775807.
Definition usize_max : Z := u64_max.

Definition is_u64 (z : Z) : Prop := 0 <= z <= u64_max.

Definition u64_wrap (z : Z) : Z := z mod 18446744073709551616.
Definition u32_wrap (z : Z) : Z := z mod 4294967296.
Definition u64_add (a b : Z) : Z := u64_wrap (a + b).
Definition u64_checked_add (a b : Z) : option Z :=
  if a + b <=? u64_max then Some (a + b) else None.
Definition u64_checked_sub (a b : Z) : option Z :=
  if b <=? a then Some (a - b) else None.
Definition u64_checked_mul (a b : Z) : option Z :=
  if a * b <=? u64_max then Some (a * b) else None.
Definition u64_saturating_add (a b : Z) : Z := Z.min (a + b) u64_max.
Definition u64_saturating_sub (a b : Z) : Z := Z.max (a - b) 0.
Definition u128_saturating_add (a b : Z) : Z := Z.min (a + b) u128_max.
Definition u128_saturating_mul (a b : Z) : Z := Z.min (a * b) u128_max.
(** [u64::try_from] of a wider unsigned value. *)
Definition u64_try_from (z : Z) : option Z :=
  if (0 <=? z) && (z <=? u64_max) then Some z else None.
(** [i64::try_from] of a [u64]. *)
Definition i64_try_from (z : Z) : option Z := if z <=? i64_max then Some z else None.
(** [z as i64] of a [u64]: two's complement. *)
Definition u64_as_i64 (z : Z) : Z := if z <=? i64_max then z else z - 18446744073709551616.
(** [u128::div_ceil] by a positive divisor. *)
Definition div_ceil (a b : Z) : Z := if a mod b =? 0 then a / b else a / b + 1.

Lemma u64_wrap_small z : is_u64 z -> u64_wrap z = z.
Proof. unfold is_u64, u64_max, u64_wrap. intros. apply Z.mod_small. lia. Qed.

Lemma u64_wrap_range z : is_u64 (u64_wrap z).
Proof.
  unfold is_u64, u64_max, u64_wrap.
  pose proof (Z.mod_pos_bound z 18446744073709551616). lia.
Qed.

Lemma u64_add_small a b : is_u64 (a + b) -> u64_add a b = a + b.
Proof. apply u64_wrap_small. Qed.

Lemma div_ceil_spec a b : 0 < b -> (div_ceil a b - 1) * b < a <= div_ceil a b * b.
Proof.
  intros Hb. unfold div_ceil.
  pose proof (Z.div_mod a b ltac:(lia)). pose proof (Z.mod_pos_bound a b Hb).
  destruct (Z.eqb_spec (a mod b) 0); nia.
Qed.

Lemma div_ceil_nonneg a b : 0 <= a -> 0 < b -> 0 <= div_ceil a b.
Proof. intros Ha Hb. pose proof (div_ceil_spec a b Hb). nia. Qed.

Lemma i64_try_from_some z v : i64_try_from z = Some v <-> v = z /\ z <= i64_max.
Proof. unfold i64_try_from. destruct (Z.leb_spec z i64_max); naive_solver lia. Qed.

Lemma u64_checked_add_some a b c :
  u64_checked_add a b = Some c <-> c = a + b /\ a + b <= u64_max.
Proof. unfold u64_checked_add. destruct (Z.leb_spec (a + b) u64_max); naive_solver lia. Qed.

Lemma u64_checked_mul_some a b c :
  u64_checked_mul a b = Some c <-> c = a * b /\ a * b <= u64_max.
Proof. unfold u64_checked_mul. destruct (Z.leb_spec (a * b) u64_max); naive_solver lia. Qed.

Lemma u64_try_from_some z x : u64_try_from z = Some x <-> x = z /\ is_u64 z.
Proof.
  unfold u64_try_from, is_u64.
  destruct (Z.leb_spec 0 z), (Z.leb_spec z u64_max); cbn; naive_solver lia.
Qed.

(** [u64::try_from(v).unwrap_or(u64::MAX)] saturates a non-negative value. *)
Lemma u64_try_from_saturates z :
  0 <= z -> default u64_max (u64_try_from z) = Z.min z u64_max.
Proof.
  intros Hz. unfold u64_try_from.
  destruct (Z.leb_spec 0 z), (Z.leb_spec z u64_max); cbn; lia.
Qed.

Ltac u64_unfold :=
  unfold is_u64, u64_saturating_add, u64_saturating_sub, u64_max in *.

(** * Strings *)

Definition byte_of (a : ascii) : Z := Z.of_N (N_of_ascii a).

Definition is_ascii_digit (a : ascii) : bool :=
  (48 <=? byte_of a) && (byte_of a <=? 57).
Definition is_ascii_alphanumeric (a : ascii) : bool :=
  is_ascii_digit a || ((65 <=? byte_of a) && (byte_of a <=? 90))
  || ((97 <=? byte_of a) && (byte_of a <=? 122)).

Fixpoint str_forall (p : ascii -> bool) (s : string) : bool :=
  match s with
  | EmptyString => true
  | String a s => p a && str_forall p s
  end.

Definition str_is_empty (s : string) : bool :=
  match s with EmptyString => true | _ => false end.
(** [s.len()], in bytes. *)
Definition str_len (s : string) : Z := Z.of_nat (String.length s).

(** Encodings of the [White_Space] scalar values, by length. *)
Definition ws1 (a : ascii) : bool :=
  ((9 <=? byte_of a) && (byte_of a <=? 13)) || (byte_of a =? 32).
Definition ws2 (a b : ascii) : bool :=
  (byte_of a =? 194) && ((byte_of b =? 133) || (byte_of b =? 160)).
Definition ws3 (a b c : ascii) : bool :=
  ((byte_of a =? 225) && (byte_of b =? 154) && (byte_of c =? 128))
  || ((byte_of a =? 226) && (byte_of b =? 128)
      && (((128 <=? byte_of c) && (byte_of c <=? 138))
          || (byte_of c =? 168) || (byte_of c =? 169) || (byte_of c =? 175)))
  || ((byte_of a =? 226) && (byte_of b =? 129) && (byte_of c =? 159))
  || ((byte_of a =? 227) && (byte_of b =? 128) && (byte_of c =? 128)).

Fixpoint trim_start (s : string) : string :=
  match s with
  | EmptyString => s
  | String a s1 =>
      if ws1 a then trim_start s1 else
      match s1 with
      | EmptyString => s
      | String b s2 =>
          if ws2 a b then trim_start s2 else
          match s2 with
          | EmptyString => s
          | String c s3 => if ws3 a b c then trim_start s3 else s
          end
      end
  end.

(** The same on the reversed bytes, for the end of the string. *)
Fixpoint trim_start_rev (s : string) : string :=
  match s with
  | EmptyString => s
  | String a s1 =>
      if ws1 a then trim_start_rev s1 else
      match s1 with
      | EmptyString => s
      | String b s2 =>
          if ws2 b a then trim_start_rev s2 else
          match s2 with
          | EmptyString => s
          | String c s3 => if ws3 c b a then trim_start_rev s3 else s
          end
      end
  end.

Fixpoint str_rev_app (s acc : string) : string :=
  match s with
  | EmptyString => acc
  | String a s => str_rev_app s (String a acc)
  end.
Definition str_rev (s : string) : string := str_rev_app s EmptyString.

(** [s.trim()]. *)
Definition str_trim (s : string) : string :=
  str_rev (trim_start_rev (str_rev (trim_start s))).

(** [s.strip_prefix(p)]. *)
Fixpoint strip_prefix (p s : string) : option string :=
  match p, s with
  | EmptyString, _ => Some s
  | String a p, String b s => if ascii_dec a b then strip_prefix p s else None
  | String _ _, EmptyString => None
  end.

(** [s.split_once(pat)]. *)
Fixpoint split_once (pat s : string) : option (string * string) :=
  match strip_prefix pat s with
  | Some rest => Some (EmptyString, rest)
  | None =>
      match s with
      | EmptyString => None
      | String a s =>
          match split_once pat s with
          | Some (x, y) => Some (String a x, y)
          | None => None
          end
      end
  end.

(** [s.chars().take(n).collect()]: a byte that does not continue a UTF-8
    sequence starts a scalar value. *)
Definition is_continuation (a : ascii) : bool :=
  (128 <=? byte_of a) && (byte_of a <=? 191).
Fixpoint take_chars (n : nat) (s : string) : string :=
  match s with
  | EmptyString => EmptyString
  | String a s =>
      if is_continuation a then String a (take_chars n s)
      else match n with
           | O => EmptyString
           | S n => String a (take_chars n s)
           end
  end.

(** [{:?}] of a [str] (non-printable Unicode scalars are left as they are). *)
Definition debug_char (a : ascii) : string :=
  let b := byte_of a in
  if b =? 34 then "\" +:+ String a EmptyString
  else if b =? 92 then "\\"
  else if b =? 9 then "\t" else if b =? 10 then "\n" else if b =? 13 then "\r"
  else if b =? 0 then "\0"
  else String a EmptyString.
Fixpoint debug_chars (s : string) : string :=
  match s with
  | EmptyString => EmptyString
  | String a s => debug_char a +:+ debug_chars s
  end.
Definition str_debug (s : string) : string :=
  String (ascii_of_nat 34) (debug_chars s) +:+ String (ascii_of_nat 34) EmptyString.

(** * Decimal numbers *)

Definition digit_char (d : Z) : ascii := ascii_of_N (Z.to_N (48 + d)).
Definition digit_val (a : ascii) : Z := byte_of a - 48.

(** [Display] of an unsigned integer of at most [fuel] digits. *)
Fixpoint dec_go (fuel : nat) (n : Z) (acc : string) : string :=
  match fuel with
  | O => acc
  | S fuel =>
      let acc := String (digit_char (n mod 10)) acc in
      if n <? 10 then acc else dec_go fuel (n / 10) acc
  end.
(** A [u64] has at most 20 digits. *)
Definition u64_display (n : Z) : string := dec_go 20 n EmptyString.

Arguments u64_display : simpl never.

Fixpoint zeros (n : nat) : string :=
  match n with O => EmptyString | S n => String "0" (zeros n) end.
(** [{:0w$}] of a number and [{:0<w$}] of a string. *)
Definition pad_left_zeros (w : nat) (s : string) : string := zeros (w - String.length s) +:+ s.
Definition pad_right_zeros (w : nat) (s : string) : string := s +:+ zeros (w - String.length s).

(** The digit loop of [u64::from_str]: overflow is an error at every step. *)
Fixpoint parse_digits (acc : Z) (s : string) : option Z :=
  match s with
  | EmptyString => Some acc
  | String a s =>
      if is_ascii_digit a then
        match u64_checked_mul acc 10 with
        | Some v => match u64_checked_add v (digit_val a) with
                    | Some v => parse_digits v s
                    | None => None
                    end
        | None => None
        end
      else None
  end.
(** [s.parse::<u64>()]: a leading [+] is accepted when something follows. *)
Definition u64_parse (s : string) : option Z :=
  match s with
  | EmptyString => None
  | String a EmptyString => if is_ascii_digit a then Some (digit_val a) else None
  | String a rest => if byte_of a =? 43 then parse_digits 0 rest else parse_digits 0 s
  end.

(** * Lemmas on strings *)

Lemma str_app_cons a (s t : string) : String a s +:+ t = String a (s +:+ t).
Proof. reflexivity. Qed.

Lemma str_app_nil (s : string) : EmptyString +:+ s = s.
Proof. reflexivity. Qed.

Lemma str_app_nil_r (s : string) : s +:+ EmptyString = s.
Proof. induction s as [|a s IH]; [done|]. by rewrite str_app_cons, IH. Qed.

Lemma str_app_assoc (s t u : string) : (s +:+ t) +:+ u = s +:+ (t +:+ u).
Proof. induction s as [|a s IH]; [done|]. by rewrite !str_app_cons, IH. Qed.

Lemma str_length_app (s t : string) :
  String.length (s +:+ t) = (String.length s + String.length t)%nat.
Proof. induction s as [|a s IH]; [done|]. rewrite str_app_cons. cbn. by rewrite IH. Qed.

Lemma str_forall_app p s t : str_forall p (s +:+ t) = str_forall p s && str_forall p t.
Proof.
  induction s as [|a s IH]; [done|].
  rewrite str_app_cons. cbn. by rewrite IH, andb_assoc.
Qed.

Lemma str_forall_impl (p q : ascii -> bool) s :
  (forall a, p a = true -> q a = true) -> str_forall p s = true -> str_forall q s = true.
Proof.
  intros Hpq. induction s as [|a s IH]; cbn; [done|]. intros H.
  bool_simpl. rewrite Hpq, IH; done.
Qed.

Lemma str_rev_app_spec s acc p :
  str_forall p (str_rev_app s acc) = str_forall p s && str_forall p acc.
Proof.
  revert acc. induction s as [|a s IH]; intros acc; cbn; [done|].
  rewrite IH. cbn. destruct (p a), (str_forall p s), (str_forall p acc); done.
Qed.

Lemma str_rev_forall p s : str_forall p (str_rev s) = str_forall p s.
Proof. unfold str_rev. rewrite str_rev_app_spec. cbn. apply andb_true_r. Qed.

Lemma str_rev_app_rev s t acc : str_rev_app (str_rev_app s t) acc = str_rev_app t (s +:+ acc).
Proof.
  revert t acc. induction s as [|a s IH]; intros t acc; cbn; [done|].
  rewrite IH. done.
Qed.

Lemma str_rev_involutive s : str_rev (str_rev s) = s.
Proof. unfold str_rev. rewrite str_rev_app_rev. cbn. apply str_app_nil_r. Qed.

(** ASCII bytes that are not white space survive [trim]. *)
Definition plain (a : ascii) : bool := (byte_of a <? 128) && negb (ws1 a).

Lemma plain_not_ws2 a b : plain a = true -> plain b = true -> ws2 a b = false /\ ws2 b a = false.
Proof.
  unfold plain, ws2. intros Ha Hb. bool_simpl.
  destruct (Z.eqb_spec (byte_of a) 194), (Z.eqb_spec (byte_of b) 194); lia || done.
Qed.

Lemma plain_not_ws3 a b c :
  plain a = true -> plain c = true -> ws3 a b c = false.
Proof.
  unfold plain, ws3. intros Ha Hc. bool_simpl.
  destruct (Z.eqb_spec (byte_of a) 225), (Z.eqb_spec (byte_of a) 226),
    (Z.eqb_spec (byte_of a) 227); lia || done.
Qed.

Ltac trim_plain :=
  intros s H; destruct s as [|a s]; [done|]; cbn in *; bool_simpl;
  match goal with Ha : plain a = true |- _ =>
    assert (ws1 a = false) as -> by (unfold plain in Ha; bool_simpl; done) end;
  destruct s as [|b s]; [done|]; cbn in *; bool_simpl;
  match goal with Ha : plain a = true, Hb : plain b = true |- _ =>
    destruct (plain_not_ws2 a b Ha Hb) as [-> _] || destruct (plain_not_ws2 a b Ha Hb) as [_ ->] end;
  destruct s as [|c s]; [done|]; cbn in *; bool_simpl;
  rewrite plain_not_ws3 by done; done.

Lemma trim_start_plain : forall s, str_forall plain s = true -> trim_start s = s.
Proof. trim_plain. Qed.

Lemma trim_start_rev_plain : forall s, str_forall plain s = true -> trim_start_rev s = s.
Proof. trim_plain. Qed.

Lemma str_trim_plain s : str_forall plain s = true -> str_trim s = s.
Proof.
  intros H. unfold str_trim.
  rewrite trim_start_plain, trim_start_rev_plain, str_rev_involutive; try done.
  by rewrite str_rev_forall.
Qed.

(** *** [trim] is idempotent *)

(** The string starts with a white space, forwards or as reversed bytes. *)
Definition lead_ws (w2 : ascii -> ascii -> bool) (w3 : ascii -> ascii -> ascii -> bool) (s : string) : bool :=
  match s with
  | EmptyString => false
  | String a s1 =>
      ws1 a || match s1 with
               | EmptyString => false
               | String b s2 => w2 a b || match s2 with
                                          | EmptyString => false
                                          | String c _ => w3 a b c
                                          end
               end
  end.
Definition starts_ws : string -> bool := lead_ws ws2 ws3.
Definition starts_ws_rev : string -> bool :=
  lead_ws (fun a b => ws2 b a) (fun a b c => ws3 c b a).

Lemma lead_ws_app w2 w3 s t : lead_ws w2 w3 (s +:+ t) = false -> lead_ws w2 w3 s = false.
Proof.
  destruct s as [|a [|b [|c s]]]; try done; cbn [String.append lead_ws].
  - intros Hs. rewrite str_app_cons in Hs. cbn in Hs. apply orb_false_iff in Hs as [-> _]. done.
  - intros Hs. rewrite !str_app_cons in Hs. cbn in Hs. apply orb_false_iff in Hs as [-> Hs].
    apply orb_false_iff in Hs as [-> _]. done.
Qed.

Lemma trim_start_spec s :
  starts_ws (trim_start s) = false /\ (starts_ws s = false -> trim_start s = s) /\
  exists u, s = u +:+ trim_start s.
Proof.
  remember (String.length s) as n eqn:Hn. revert s Hn.
  induction n as [n IH] using lt_wf_ind. intros s ->.
  assert (Hrec : forall u t, s = u +:+ t -> (String.length t < String.length s)%nat ->
    starts_ws (trim_start t) = false /\ exists v, s = v +:+ trim_start t).
  { intros u t -> Hlt. destruct (IH _ Hlt t eq_refl) as (Hs & _ & v & Hv). split; [done|].
    exists (u +:+ v). by rewrite str_app_assoc, <- Hv. }
  destruct s as [|a s1]; [split_and!; try done; by exists EmptyString|].
  cbn [trim_start]. unfold starts_ws. cbn [lead_ws].
  destruct (ws1 a) eqn:H1.
  { destruct (Hrec (String a EmptyString) s1 eq_refl) as [? ?]; [cbn; lia|]. by split_and!. }
  destruct s1 as [|b s2]; [cbn; rewrite H1; split_and!; try done; by exists EmptyString|].
  destruct (ws2 a b) eqn:H2.
  { destruct (Hrec (String a (String b EmptyString)) s2 eq_refl) as [? ?]; [cbn; lia|]. by split_and!. }
  destruct s2 as [|c s3]; [cbn; rewrite H1, H2; split_and!; try done; by exists EmptyString|].
  destruct (ws3 a b c) eqn:H3.
  { destruct (Hrec (String a (String b (String c EmptyString))) s3 eq_refl) as [? ?]; [cbn; lia|].
    by split_and!. }
  cbn. rewrite H1, H2, H3. split_and!; try done. by exists EmptyString.
Qed.

Lemma trim_start_rev_spec s :
  starts_ws_rev (trim_start_rev s) = false /\ (starts_ws_rev s = false -> trim_start_rev s = s) /\
  exists u, s = u +:+ trim_start_rev s.
Proof.
  remember (String.length s) as n eqn:Hn. revert s Hn.
  induction n as [n IH] using lt_wf_ind. intros s ->.
  assert (Hrec : forall u t, s = u +:+ t -> (String.length t < String.length s)%nat ->
    starts_ws_rev (trim_start_rev t) = false /\ exists v, s = v +:+ trim_start_rev t).
  { intros u t -> Hlt. destruct (IH _ Hlt t eq_refl) as (Hs & _ & v & Hv). split; [done|].
    exists (u +:+ v). by rewrite str_app_assoc, <- Hv. }
  destruct s as [|a s1]; [split_and!; try done; by exists EmptyString|].
  cbn [trim_start_rev]. unfold starts_ws_rev. cbn [lead_ws].
  destruct (ws1 a) eqn:H1.
  { destruct (Hrec (String a EmptyString) s1 eq_refl) as [? ?]; [cbn; lia|]. by split_and!. }
  destruct s1 as [|b s2]; [cbn; rewrite H1; split_and!; try done; by exists EmptyString|].
  destruct (ws2 b a) eqn:H2.
  { destruct (Hrec (String a (String b EmptyString)) s2 eq_refl) as [? ?]; [cbn; lia|]. by split_and!. }
  destruct s2 as [|c s3]; [cbn; rewrite H1, H2; split_and!; try done; by exists EmptyString|].
  destruct (ws3 c b a) eqn:H3.
  { destruct (Hrec (String a (String b (String c EmptyString))) s3 eq_refl) as [? ?]; [cbn; lia|].
    by split_and!. }
  cbn. rewrite H1, H2, H3. split_and!; try done. by exists EmptyString.
Qed.

Lemma str_rev_app_acc s acc : str_rev_app s acc = str_rev s +:+ acc.
Proof.
  unfold str_rev. revert acc. induction s as [|a s IH]; intros acc; [done|].
  cbn [str_rev_app]. rewrite IH, (IH (String a EmptyString)), str_app_assoc. done.
Qed.

Lemma str_rev_append s t : str_rev (s +:+ t) = str_rev t +:+ str_rev s.
Proof.
  induction s as [|a s IH]; [by rewrite str_app_nil, str_app_nil_r|].
  rewrite str_app_cons. unfold str_rev at 1 3. cbn [str_rev_app].
  rewrite !str_rev_app_acc, IH, str_app_assoc. done.
Qed.

Lemma str_trim_idem s : str_trim (str_trim s) = str_trim s.
Proof.
  unfold str_trim.
  destruct (trim_start_spec s) as (Hs & _ & _). set (u := trim_start s) in *.
  destruct (trim_start_rev_spec (str_rev u)) as (Hr & _ & v & Hv).
  set (t := trim_start_rev (str_rev u)) in *.
  assert (Hu : u = str_rev t +:+ str_rev v).
  { rewrite <- (str_rev_involutive u), Hv. apply str_rev_append. }
  destruct (trim_start_spec (str_rev t)) as (_ & Hfix & _).
  rewrite Hfix by (rewrite Hu in Hs; by apply lead_ws_app in Hs).
  rewrite str_rev_involutive. destruct (trim_start_rev_spec t) as (_ & Hfix' & _).
  by rewrite Hfix'.
Qed.

Lemma digit_plain a : is_ascii_digit a = true -> plain a = true.
Proof.
  unfold is_ascii_digit, plain, ws1. intros H. bool_simpl.
  apply andb_true_iff. split; [apply Z.ltb_lt; lia|].
  destruct (Z.leb_spec 9 (byte_of a)), (Z.leb_spec (byte_of a) 13),
    (Z.eqb_spec (byte_of a) 32); done || lia.
Qed.

Lemma strip_prefix_app p s t : strip_prefix p s = Some t <-> s = p +:+ t.
Proof.
  revert s. induction p as [|a p IH]; intros s; cbn.
  - split; [by intros [= ->]|by intros ->].
  - destruct s as [|b s]; [done|]. destruct (ascii_dec a b) as [->|Hne].
    + rewrite IH. split; [by intros ->|by intros [= ->]].
    + split; [done|]. by intros [= -> _].
Qed.

(** Splitting at the first occurrence of a character that the left part does
    not contain. *)
Lemma split_once_char c (s t : string) :
  str_forall (fun a => negb (bool_decide (a = c))) s = true ->
  split_once (String c EmptyString) (s +:+ String c t) = Some (s, t).
Proof.
  induction s as [|a s IH]; intros H.
  - rewrite str_app_nil. cbn. destruct (ascii_dec c c); done.
  - cbn in H. bool_simpl. rewrite str_app_cons. cbn.
    destruct (ascii_dec c a) as [->|]; [done|]. by rewrite IH.
Qed.

Lemma split_once_char_none c (s : string) :
  str_forall (fun a => negb (bool_decide (a = c))) s = true ->
  split_once (String c EmptyString) s = None.
Proof.
  induction s as [|a s IH]; intros H; [done|].
  cbn in *. bool_simpl. destruct (ascii_dec c a) as [->|]; [done|].
  by rewrite IH.
Qed.

Lemma split_once_some pat s x y :
  split_once pat s = Some (x, y) -> s = x +:+ (pat +:+ y).
Proof.
  revert x y. induction s as [|a s IH]; intros x y; cbn [split_once].
  - destruct (strip_prefix pat EmptyString) eqn:Hs; [|done].
    apply strip_prefix_app in Hs. intros [= <- <-]. done.
  - destruct (strip_prefix pat (String a s)) eqn:Hs.
    + apply strip_prefix_app in Hs. intros [= <- <-]. done.
    + destruct (split_once pat s) as [[x' y']|]; [|done].
      intros [= <- <-]. rewrite str_app_cons. f_equal. by apply IH.
Qed.

(** * Lemmas on decimal numbers *)

(** The number a digit string denotes, without bound. *)
Fixpoint dec_value (acc : Z) (s : string) : Z :=
  match s with
  | EmptyString => acc
  | String a s => dec_value (acc * 10 + digit_val a) s
  end.

Lemma digit_val_range a : is_ascii_digit a = true -> 0 <= digit_val a <= 9.
Proof. unfold is_ascii_digit, digit_val. intros. bool_simpl. lia. Qed.

Lemma dec_value_ge s acc :
  str_forall is_ascii_digit s = true -> 0 <= acc -> acc <= dec_value acc s.
Proof.
  revert acc. induction s as [|a s IH]; intros acc H Hacc; cbn in *; [lia|].
  bool_simpl. match goal with Ha : is_ascii_digit a = true |- _ => apply digit_val_range in Ha end.
  etrans; [|apply IH; [done|lia]]. lia.
Qed.

Lemma dec_value_shift s acc :
  dec_value acc s = acc * 10 ^ Z.of_nat (String.length s) + dec_value 0 s.
Proof.
  revert acc. induction s as [|a s IH]; intros acc.
  - cbn. lia.
  - cbn [dec_value String.length]. rewrite (IH (acc * 10 + _)), (IH (0 * 10 + _)).
    rewrite Nat2Z.inj_succ, Z.pow_succ_r by lia. ring.
Qed.

Lemma parse_digits_spec s acc v :
  is_u64 acc ->
  parse_digits acc s = Some v <->
  str_forall is_ascii_digit s = true /\ v = dec_value acc s /\ v <= u64_max.
Proof.
  revert acc. induction s as [|a s IH]; intros acc Hacc; cbn [parse_digits str_forall dec_value].
  - u64_unfold. split; [intros [= ->]; lia|by intros (_ & -> & _)].
  - destruct (is_ascii_digit a) eqn:Ha; cbn [andb]; [|by split; [|intros (? & _)]].
    pose proof (digit_val_range a Ha) as Hd.
    destruct (u64_checked_mul acc 10) as [m|] eqn:Hm.
    + apply u64_checked_mul_some in Hm as [-> Hm].
      destruct (u64_checked_add (acc * 10) (digit_val a)) as [m|] eqn:Hm'.
      * apply u64_checked_add_some in Hm' as [-> Hm']. apply IH. u64_unfold. lia.
      * split; [done|]. intros (Hs & -> & Hv). exfalso.
        pose proof (dec_value_ge s (acc * 10 + digit_val a) Hs) as Hge.
        unfold u64_checked_add in Hm'. destruct (Z.leb_spec (acc * 10 + digit_val a) u64_max); [done|].
        u64_unfold. lia.
    + split; [done|]. intros (Hs & -> & Hv). exfalso.
      pose proof (dec_value_ge s (acc * 10 + digit_val a) Hs) as Hge.
      unfold u64_checked_mul in Hm. destruct (Z.leb_spec (acc * 10) u64_max); [done|].
      u64_unfold. lia.
Qed.

Lemma u64_parse_digits s :
  str_forall is_ascii_digit s = true -> s <> EmptyString -> u64_parse s = parse_digits 0 s.
Proof.
  intros H Hne. destruct s as [|a [|b s]]; [done| |].
  - pose proof H as Ha. cbn in Ha. rewrite andb_true_r in Ha.
    cbn [u64_parse]. rewrite Ha. symmetry.
    apply parse_digits_spec; [u64_unfold; lia|]. split; [done|].
    apply digit_val_range in Ha. cbn [dec_value]. u64_unfold. lia.
  - cbn in H. bool_simpl. cbn [u64_parse].
    destruct (Z.eqb_spec (byte_of a) 43) as [Heq|]; [|done].
    match goal with Ha : is_ascii_digit a = true |- _ => unfold is_ascii_digit in Ha end.
    bool_simpl. lia.
Qed.

Lemma digit_char_spec d :
  0 <= d <= 9 -> is_ascii_digit (digit_char d) = true /\ digit_val (digit_char d) = d.
Proof.
  intros Hd.
  assert (d = 0 \/ d = 1 \/ d = 2 \/ d = 3 \/ d = 4 \/ d = 5 \/ d = 6 \/ d = 7 \/ d = 8 \/ d = 9)
    as Hcases by lia.
  destruct_or! Hcases; subst d; split; vm_compute; reflexivity.
Qed.

Lemma dec_go_digits fuel n s :
  0 <= n -> str_forall is_ascii_digit (dec_go fuel n s) = str_forall is_ascii_digit s.
Proof.
  revert n s. induction fuel as [|fuel IH]; intros n s Hn; [done|].
  pose proof (Z.mod_pos_bound n 10 ltac:(lia)).
  destruct (digit_char_spec (n mod 10) ltac:(lia)) as [Hd _].
  cbn [dec_go]. destruct (n <? 10).
  - cbn. by rewrite Hd.
  - rewrite IH by (apply Z.div_pos; lia). cbn. by rewrite Hd.
Qed.

Lemma dec_go_value fuel n s :
  (0 < fuel)%nat -> 0 <= n < 10 ^ Z.of_nat fuel ->
  dec_value 0 (dec_go fuel n s) = dec_value n s.
Proof.
  revert n s. induction fuel as [|fuel IH]; intros n s Hf Hn; [lia|].
  pose proof (Z.mod_pos_bound n 10 ltac:(lia)). pose proof (Z.div_mod n 10 ltac:(lia)) as Hdm.
  destruct (digit_char_spec (n mod 10) ltac:(lia)) as [_ Hd].
  rewrite Nat2Z.inj_succ, Z.pow_succ_r in Hn by lia.
  cbn [dec_go]. destruct (Z.ltb_spec n 10) as [Hlt|Hge].
  - cbn [dec_value]. by rewrite Hd, Z.mod_small by lia.
  - assert (0 < fuel)%nat. { destruct fuel; [|lia]. cbn in Hn. lia. }
    rewrite IH; [|done|].
    + cbn [dec_value]. rewrite Hd. f_equal. lia.
    + split; [apply Z.div_pos; lia|apply Z.div_lt_upper_bound; lia].
Qed.

Lemma dec_go_length fuel n s k :
  (0 < k)%nat -> 0 <= n < 10 ^ Z.of_nat k ->
  (String.length (dec_go fuel n s) <= k + String.length s)%nat.
Proof.
  revert n s k. induction fuel as [|fuel IH]; intros n s k Hk Hn; [cbn; lia|].
  cbn [dec_go]. destruct (Z.ltb_spec n 10) as [Hlt|Hge]; [cbn; lia|].
  destruct k as [|k]; [lia|].
  rewrite Nat2Z.inj_succ, Z.pow_succ_r in Hn by lia.
  assert (0 < k)%nat. { destruct k; [|lia]. cbn in Hn. lia. }
  etrans; [apply (IH _ _ k)|cbn; lia]; [done|].
  split; [apply Z.div_pos; lia|apply Z.div_lt_upper_bound; lia].
Qed.

Lemma dec_go_nonempty fuel n s : (0 < fuel)%nat -> dec_go fuel n s <> EmptyString.
Proof.
  assert (forall fuel n a s, dec_go fuel n (String a s) <> EmptyString) as Hcons.
  { clear. induction fuel as [|fuel IH]; intros ???; cbn; [done|]. destruct (_ <? _); [done|]. apply IH. }
  destruct fuel; [lia|]. intros _. cbn. destruct (_ <? _); [done|]. apply Hcons.
Qed.

Lemma u64_display_parse n : is_u64 n -> u64_parse (u64_display n) = Some n.
Proof.
  intros Hn. unfold u64_display.
  assert (0 <= n < 10 ^ Z.of_nat 20) by (u64_unfold; cbn; lia).
  rewrite u64_parse_digits.
  - apply parse_digits_spec; [u64_unfold; lia|].
    rewrite dec_go_digits, dec_go_value; [|lia..]. cbn. u64_unfold. lia.
  - rewrite dec_go_digits; [done|lia].
  - apply dec_go_nonempty. lia.
Qed.

Lemma zeros_length n : String.length (zeros n) = n.
Proof. induction n; cbn; congruence. Qed.

Lemma zeros_digits n : str_forall is_ascii_digit (zeros n) = true.
Proof. induction n; cbn; [done|]. exact IHn. Qed.

Lemma dec_value_zeros_app n s : dec_value 0 (zeros n +:+ s) = dec_value 0 s.
Proof. induction n as [|n IH]; [done|]. cbn [zeros]. rewrite str_app_cons. exact IH. Qed.

Lemma dec_value_app acc s t : dec_value acc (s +:+ t) = dec_value (dec_value acc s) t.
Proof. revert acc. induction s as [|a s IH]; intros acc; [done|]. rewrite str_app_cons. cbn. apply IH. Qed.

Lemma dec_value_zeros acc n : dec_value acc (zeros n) = acc * 10 ^ Z.of_nat n.
Proof.
  rewrite dec_value_shift, zeros_length.
  pose proof (dec_value_zeros_app n EmptyString) as H. rewrite str_app_nil_r in H.
  rewrite H. cbn [dec_value]. lia.
Qed.

(** * More of [str] *)

(** [s.split(pat)] for a non-empty pattern: the pieces between the matches. *)
Fixpoint split_go (fuel : nat) (pat s : string) : list string :=
  match fuel with
  | O => [s]
  | S fuel =>
      match split_once pat s with
      | Some (x, y) => x :: split_go fuel pat y
      | None => [s]
      end
  end.
(** Every match consumes a byte, so the length bounds the number of pieces. *)
Definition str_split (pat s : string) : list string := split_go (String.length s) pat s.

(** [s.contains(c)]. *)
Definition str_contains (c : ascii) (s : string) : bool :=
  negb (str_forall (fun a => negb (bool_decide (a = c))) s).

(** [s.starts_with(p)]. *)
Definition starts_with (p s : string) : bool := is_some (strip_prefix p s).

(** [s.contains(p)] of a string. *)
Fixpoint str_contains_str (p s : string) : bool :=
  starts_with p s || match s with EmptyString => false | String _ s => str_contains_str p s end.

(** [s.trim_start_matches(p)]: strips every leading [p]. *)
Fixpoint trim_start_matches_go (fuel : nat) (p s : string) : string :=
  match fuel with
  | O => s
  | S fuel => match strip_prefix p s with
              | Some rest => trim_start_matches_go fuel p rest
              | None => s
              end
  end.
Definition trim_start_matches (p s : string) : string :=
  trim_start_matches_go (String.length s) p s.

Definition in_range (lo hi z : Z) : bool := (lo <=? z) && (z <=? hi).

(** The check of [String::from_utf8]. *)
Fixpoint utf8_valid (l : list Z) : bool :=
  match l with
  | [] => true
  | b0 :: t =>
      if b0 <? 128 then utf8_valid t
      else if in_range 194 223 b0 then
        match t with
        | b1 :: t => in_range 128 191 b1 && utf8_valid t
        | _ => false
        end
      else if in_range 224 239 b0 then
        match t with
        | b1 :: b2 :: t =>
            in_range (if b0 =? 224 then 160 else 128) (if b0 =? 237 then 159 else 191) b1
            && in_range 128 191 b2 && utf8_valid t
        | _ => false
        end
      else if in_range 240 244 b0 then
        match t with
        | b1 :: b2 :: b3 :: t =>
            in_range (if b0 =? 240 then 144 else 128) (if b0 =? 244 then 143 else 191) b1
            && in_range 128 191 b2 && in_range 128 191 b3 && utf8_valid t
        | _ => false
        end
      else false
  end.
