(* ===== verification/Types.v ===== *)
(** The crate's data: errors, configuration, calls, journals and the payment
    record (src/src/error.rs, config.rs, and the type declarations of state.rs,
    chain.rs, engine.rs, keys.rs).

    Integers are [Z] in the range of their Rust type; [String] is the UTF-8
    byte string of [RustStd]; a [serde_json::Value] is opaque ([Json]) because
    no modelled code looks inside one. *)
From S2P Require Import Prelude RustStd.
From Stdlib Require Import Strings.Byte.
Local Open Scope Z_scope.

(** * Accounts *)

(** [subxt::utils::AccountId32]: a newtype over its bytes. *)
Record AccountId32 := mkAccountId32 { acc_bytes : list Byte.byte }.

#[export] Instance byte_eq_dec : EqDecision Byte.byte := Byte.byte_eq_dec.
#[export] Instance AccountId32_eq_dec : EqDecision AccountId32.
Proof. solve_decision. Defined.
#[export] Program Instance byte_countable : Countable Byte.byte :=
  {| encode b := encode (Byte.to_N b);
     decode p := n ← decode p; Byte.of_N n |}.
Next Obligation. intros b. cbn. rewrite decode_encode. cbn. apply Byte.of_to_N. Qed.
#[export] Program Instance AccountId32_countable : Countable AccountId32 :=
  {| encode a := encode (acc_bytes a);
     decode p := mkAccountId32 <$> decode p |}.
Next Obligation. intros [l]. cbn. by rewrite decode_encode. Qed.

(** An opaque JSON document. *)
Definition Json : Type := string.

(** * error.rs *)

Inductive PaymentState : Type :=
| Pending | Detected | Funded | Swept | Settled | Failed | Expired.

#[export] Instance PaymentState_eq_dec : EqDecision PaymentState.
Proof. solve_decision. Defined.

Inductive Error : Type :=
| Error_Chain (msg : string)
| Error_Store (msg : string)
| Error_Crypto (msg : string)
| Error_Config (msg : string)
| Error_InvalidTransition (from to : PaymentState)
| Error_NotFound (id : string)
| Error_Conflict (id : string)
| Error_Insufficient (msg : string)
| Error_EventMissing (event : string).

#[export] Instance Error_eq_dec : EqDecision Error.
Proof. solve_decision. Defined.

Abbreviation Result A := (result Error A).

(** [{:?}] of a [PaymentState]. *)
Definition PaymentState_debug (s : PaymentState) : string :=
  match s with
  | Pending => "Pending" | Detected => "Detected" | Funded => "Funded"
  | Swept => "Swept" | Settled => "Settled" | Failed => "Failed"
  | Expired => "Expired"
  end.

(** The [Display] that [thiserror] derives from the [#[error]] attributes. *)
Definition Error_to_string (e : Error) : string :=
  match e with
  | Error_Chain m => "chain: " +:+ m
  | Error_Store m => "store: " +:+ m
  | Error_Crypto m => "crypto: " +:+ m
  | Error_Config m => "config: " +:+ m
  | Error_InvalidTransition from to =>
      "invalid state transition " +:+ PaymentState_debug from +:+ " -> " +:+ PaymentState_debug to
  | Error_NotFound id => "payment " +:+ id +:+ " not found"
  | Error_Conflict id => "concurrent update of payment " +:+ id
  | Error_Insufficient m => "insufficient funds: " +:+ m
  | Error_EventMissing ev => "expected event " +:+ ev +:+ " not found in finalized block"
  end.

(** * config.rs *)

Inductive Destroy : Type := Keep | Burn | Recycle.
#[export] Instance Destroy_eq_dec : EqDecision Destroy.
Proof. solve_decision. Defined.

Inductive AutoAmount : Type :=
| AutoAmount_All
| AutoAmount_Fixed (rao : Z)
| AutoAmount_PaymentValueBps (bps : Z).

Inductive AutoBuyback : Type :=
| AutoBuyback_Off
| AutoBuyback_On (destroy : Destroy) (amount : AutoAmount).

(** * state.rs: the records *)

Record TxRef := mkTxRef {
  tx_action : string;
  tx_tx_hash : string;
  tx_block_hash : string;
  tx_amount : Z }.
#[export] Instance TxRef_eq_dec : EqDecision TxRef.
Proof. solve_decision. Defined.

Record BuybackReceipt := mkBuybackReceipt {
  br_netuid : Z;
  br_tao_spent : Z;
  br_alpha_bought : Z;
  br_limit_price : Z;
  br_stake_tx : TxRef;
  br_destroy_tx : option TxRef;
  br_alpha_destroyed : Z }.
#[export] Instance BuybackReceipt_eq_dec : EqDecision BuybackReceipt.
Proof. solve_decision. Defined.

Record BuybackBudget := mkBuybackBudget {
  bb_amount_rao : Z;
  bb_currency : string;
  bb_source : string;
  bb_netuid : Z;
  bb_destroy : Destroy;
  bb_hotkey : string }.
#[export] Instance BuybackBudget_eq_dec : EqDecision BuybackBudget.
Proof. solve_decision. Defined.

Record JobIdentity := mkJobIdentity {
  ji_genesis_hash : string;
  ji_treasury : string;
  ji_treasury_hotkey : string;
  ji_consolidate : bool;
  ji_return_dust : bool }.
#[export] Instance JobIdentity_eq_dec : EqDecision JobIdentity.
Proof. solve_decision. Defined.

(** * engine.rs: why a journaled extrinsic was sent *)

Inductive Action : Type :=
| Action_Fund
| Action_Sweep (hotkey : string)
| Action_Consolidate (hotkey : string)
| Action_ReturnDust
| Action_BuyStake (netuid limit_price : Z)
| Action_Destroy (netuid : Z) (recycle : bool).
#[export] Instance Action_eq_dec : EqDecision Action.
Proof. solve_decision. Defined.

(** * chain.rs: journals, summaries and calls *)

Record PendingTx := mkPendingTx {
  pd_action : Action;
  pd_reservation : option string;
  pd_signer : string;
  pd_nonce : Z;
  pd_tx_hash : string;
  pd_birth_block : Z;
  pd_amount : Z }.
#[export] Instance PendingTx_eq_dec : EqDecision PendingTx.
Proof. solve_decision. Defined.

Record EventSummary := mkEventSummary {
  es_names : list (string * string);
  es_failed : bool;
  es_stake_added : option (Z * Z);
  es_alpha_destroyed : option Z;
  es_stake_moved_tao : option Z;
  es_transferred : option Z }.
Definition EventSummary_default : EventSummary := mkEventSummary [] false None None None None.

Inductive ChainCall : Type :=
| TransferTao (dest : AccountId32) (amount : Z)
| TransferAll (dest : AccountId32)
| TransferStake (dest_coldkey hotkey : AccountId32) (netuid alpha : Z)
| MoveStake (from_hotkey to_hotkey : AccountId32) (netuid alpha : Z)
| AddStakeLimit (hotkey : AccountId32) (netuid tao limit_price : Z) (allow_partial : bool)
| AssociateHotkey (hotkey : AccountId32)
| BurnAlpha (hotkey : AccountId32) (netuid alpha : Z)
| RecycleAlpha (hotkey : AccountId32) (netuid alpha : Z).
#[export] Instance ChainCall_eq_dec : EqDecision ChainCall.
Proof. solve_decision. Defined.

Record StakePosition := mkStakePosition {
  sp_hotkey : AccountId32;
  sp_netuid : Z;
  sp_alpha : Z }.

Record FinalizedTx := mkFinalizedTx {
  ft_tx : TxRef;
  ft_summary : EventSummary }.

Record PreparedTx := mkPreparedTx {
  pt_call : ChainCall;
  pt_signer : string;
  pt_nonce : Z;
  pt_tx_hash : string;
  pt_birth_block : Z;
  pt_bytes : list Byte.byte }.

Inductive PendingOutcome : Type :=
| Wait
| Dead
| Included (block_hash : string) (summary : EventSummary).

(** * keys.rs: the stored secret *)

Record SealedSecret := mkSealedSecret {
  ss_v : Z;
  ss_nonce : string;
  ss_ct : string;
  ss_kid : option string }.
#[export] Instance SealedSecret_eq_dec : EqDecision SealedSecret.
Proof. solve_decision. Defined.

(** * config.rs: the engine configuration *)

Record Config := mkConfig {
  cfg_url : string;
  cfg_netuid : Z;
  cfg_min_alpha : Z;
  cfg_min_tao : option Z;
  cfg_expiry_secs : Z;
  cfg_treasury_hotkey : AccountId32;
  cfg_sweep_dust : Z;
  cfg_consolidate : bool;
  cfg_return_dust : bool;
  cfg_fee_margin_bps : Z;
  cfg_fee_reserve : Z;
  cfg_buyback_netuid : Z;
  cfg_slippage_bps : Z;
  cfg_allow_partial : bool;
  cfg_auto : AutoBuyback;
  cfg_buyback_budget : option BuybackBudget;
  cfg_max_attempts : Z;
  cfg_webhook_url : option string }.

Definition Config_new (url : string) (netuid : Z) (treasury_hotkey : AccountId32) : Config :=
  {| cfg_url := url;
     cfg_netuid := netuid;
     cfg_min_alpha := 1000000000;
     cfg_min_tao := None;
     cfg_expiry_secs := 24 * 3600;
     cfg_treasury_hotkey := treasury_hotkey;
     cfg_sweep_dust := 1000000000 / 1000;
     cfg_consolidate := true;
     cfg_return_dust := true;
     cfg_fee_margin_bps := 5000;
     cfg_fee_reserve := 1000000000 / 10;
     cfg_buyback_netuid := 100;
     cfg_slippage_bps := 100;
     cfg_allow_partial := false;
     cfg_auto := AutoBuyback_Off;
     cfg_buyback_budget := None;
     cfg_max_attempts := 8;
     cfg_webhook_url := None |}.

(** * state.rs: the persisted record *)

Record PaymentRecord := mkPaymentRecord {
  pr_id : string;
  pr_address : string;
  pr_netuid : Z;
  pr_min_alpha : Z;
  pr_min_tao : option Z;
  pr_created_at : Z;
  pr_expires_at : Z;
  pr_state : PaymentState;
  pr_version : Z;
  pr_sealed_secret : SealedSecret;
  pr_metadata : option Json;
  pr_callback_url : option string;
  pr_detected_alpha : Z;
  pr_detected_tao : Z;
  pr_funded_tao : Z;
  pr_swept_alpha : Z;
  pr_txs : list TxRef;
  pr_buyback : option BuybackReceipt;
  pr_buyback_budget : option BuybackBudget;
  pr_auto_required : option bool;
  pr_identity : option JobIdentity;
  pr_attempts : Z;
  pr_next_attempt_at : Z;
  pr_last_error : option string;
  pr_failed_from : option PaymentState;
  pr_pending : option PendingTx;
  pr_quarantined : option PendingTx;
  pr_swept_positions : list (string * Z);
  pr_consolidated : Z;
  pr_dust_returned : bool;
  pr_buyback_done : bool;
  pr_notified : bool;
  pr_updated_at : Z;
  pr_derivation_path : option string }.

Definition eta_PaymentRecord (r : PaymentRecord) : PaymentRecord :=
  mkPaymentRecord (pr_id r) (pr_address r) (pr_netuid r) (pr_min_alpha r) (pr_min_tao r)
    (pr_created_at r) (pr_expires_at r) (pr_state r) (pr_version r) (pr_sealed_secret r)
    (pr_metadata r) (pr_callback_url r) (pr_detected_alpha r) (pr_detected_tao r)
    (pr_funded_tao r) (pr_swept_alpha r) (pr_txs r) (pr_buyback r) (pr_buyback_budget r)
    (pr_auto_required r) (pr_identity r) (pr_attempts r) (pr_next_attempt_at r)
    (pr_last_error r) (pr_failed_from r) (pr_pending r) (pr_quarantined r)
    (pr_swept_positions r) (pr_consolidated r) (pr_dust_returned r) (pr_buyback_done r)
    (pr_notified r) (pr_updated_at r) (pr_derivation_path r).

Ltac pr_updater p := solve_updater eta_PaymentRecord p.
#[export] Instance upd_state : Updater pr_state := ltac:(pr_updater pr_state).
#[export] Instance upd_version : Updater pr_version := ltac:(pr_updater pr_version).
#[export] Instance upd_detected_alpha : Updater pr_detected_alpha := ltac:(pr_updater pr_detected_alpha).
#[export] Instance upd_detected_tao : Updater pr_detected_tao := ltac:(pr_updater pr_detected_tao).
#[export] Instance upd_funded_tao : Updater pr_funded_tao := ltac:(pr_updater pr_funded_tao).
#[export] Instance upd_swept_alpha : Updater pr_swept_alpha := ltac:(pr_updater pr_swept_alpha).
#[export] Instance upd_txs : Updater pr_txs := ltac:(pr_updater pr_txs).
#[export] Instance upd_buyback : Updater pr_buyback := ltac:(pr_updater pr_buyback).
#[export] Instance upd_buyback_budget : Updater pr_buyback_budget := ltac:(pr_updater pr_buyback_budget).
#[export] Instance upd_auto_required : Updater pr_auto_required := ltac:(pr_updater pr_auto_required).
#[export] Instance upd_identity : Updater pr_identity := ltac:(pr_updater pr_identity).
#[export] Instance upd_attempts : Updater pr_attempts := ltac:(pr_updater pr_attempts).
#[export] Instance upd_next_attempt_at : Updater pr_next_attempt_at := ltac:(pr_updater pr_next_attempt_at).
#[export] Instance upd_last_error : Updater pr_last_error := ltac:(pr_updater pr_last_error).
#[export] Instance upd_failed_from : Updater pr_failed_from := ltac:(pr_updater pr_failed_from).
#[export] Instance upd_pending : Updater pr_pending := ltac:(pr_updater pr_pending).
#[export] Instance upd_quarantined : Updater pr_quarantined := ltac:(pr_updater pr_quarantined).
#[export] Instance upd_swept_positions : Updater pr_swept_positions := ltac:(pr_updater pr_swept_positions).
#[export] Instance upd_consolidated : Updater pr_consolidated := ltac:(pr_updater pr_consolidated).
#[export] Instance upd_dust_returned : Updater pr_dust_returned := ltac:(pr_updater pr_dust_returned).
#[export] Instance upd_buyback_done : Updater pr_buyback_done := ltac:(pr_updater pr_buyback_done).
#[export] Instance upd_notified : Updater pr_notified := ltac:(pr_updater pr_notified).
#[export] Instance upd_updated_at : Updater pr_updated_at := ltac:(pr_updater pr_updated_at).

Ltac pr_cbn :=
  cbn [update upd_state upd_version upd_detected_alpha upd_detected_tao upd_funded_tao
       upd_swept_alpha upd_txs upd_buyback upd_buyback_budget upd_auto_required upd_identity
       upd_attempts upd_next_attempt_at upd_last_error upd_failed_from upd_pending
       upd_quarantined upd_swept_positions upd_consolidated upd_dust_returned
       upd_buyback_done upd_notified upd_updated_at
       pr_id pr_address pr_netuid pr_min_alpha pr_min_tao pr_created_at pr_expires_at pr_state
       pr_version pr_sealed_secret pr_metadata pr_callback_url pr_detected_alpha
       pr_detected_tao pr_funded_tao pr_swept_alpha pr_txs pr_buyback pr_buyback_budget
       pr_auto_required pr_identity pr_attempts pr_next_attempt_at pr_last_error
       pr_failed_from pr_pending pr_quarantined pr_swept_positions pr_consolidated
       pr_dust_returned pr_buyback_done pr_notified pr_updated_at pr_derivation_path] in *.

(** * state.rs: what clients see *)

Record PaymentStatus := mkPaymentStatus {
  st_id : string;
  st_address : string;
  st_netuid : Z;
  st_min_alpha : Z;
  st_min_tao : option Z;
  st_created_at : Z;
  st_expires_at : Z;
  st_state : PaymentState;
  st_detected_alpha : Z;
  st_detected_tao : Z;
  st_funded_tao : Z;
  st_swept_alpha : Z;
  st_txs : list TxRef;
  st_buyback : option BuybackReceipt;
  st_last_error : option string;
  st_metadata : option Json }.

Record PaymentRequest := mkPaymentRequest {
  rq_id : string;
  rq_address : string;
  rq_netuid : Z;
  rq_min_alpha : Z;
  rq_min_tao : option Z;
  rq_expires_at : Z }.

(** * recovery.rs: the audited manifest of a legacy job *)

Record LegacyTransaction := mkLegacyTransaction {
  lt_block : Z;
  lt_index : Z;
  lt_signer : string;
  lt_nonce : Z;
  lt_receipt : TxRef;
  lt_call : ChainCall }.
#[export] Instance LegacyTransaction_eq_dec : EqDecision LegacyTransaction.
Proof. solve_decision. Defined.

Record LegacyManifest := mkLegacyManifest {
  lm_job : string;
  lm_version : Z;
  lm_genesis_hash : string;
  lm_treasury : string;
  lm_treasury_hotkey : string;
  lm_consolidate : bool;
  lm_return_dust : bool;
  lm_budget : option BuybackBudget;
  lm_first_block : Z;
  lm_stopped_at : Z;
  lm_maximum_mortality : Z;
  lm_operator_attestation : string;
  lm_all_old_emitters_stopped_no_immortal_signatures : bool;
  lm_transactions : list LegacyTransaction }.

Record RecoveryReport := mkRecoveryReport {
  rr_job : string;
  rr_previous_version : Z;
  rr_genesis_hash : string;
  rr_finalized_block : Z;
  rr_finalized_hash : string;
  rr_transactions : Z;
  rr_applied : bool }.
