(* ===== verification/Units.v ===== *)
(** Units and pure math (src/src/units.rs): amounts in rao, parsing and
    printing of decimal amounts, fee margins and slippage limits. *)
From S2P Require Import Prelude RustStd Types.
From Stdlib Require Import Ascii.
Local Open Scope Z_scope.

Definition RAO_PER_TAO : Z := 1000000000.
Definition BPS : Z := 10000.

Definition invalid_amount (s : string) : Error :=
  Error_Config ("invalid amount " +:+ str_debug s).

Definition parse_amount (s : string) : Result Z :=
  let bad := invalid_amount s in
  let s := str_trim s in
  let '(int, frac) := default (s, EmptyString) (split_once "." s) in
  if (str_is_empty int && str_is_empty frac)
     || (9 <? str_len frac)
     || negb (str_forall is_ascii_digit int && str_forall is_ascii_digit frac)
  then Err bad
  else
    let? int := if str_is_empty int then Ok 0 else ok_or (u64_parse int) bad in
    let? frac_rao := ok_or (u64_parse (pad_right_zeros 9 frac)) bad in
    ok_or (v ← u64_checked_mul int RAO_PER_TAO; u64_checked_add v frac_rao) bad.

Definition format_amount (rao : Z) : string :=
  u64_display (rao / RAO_PER_TAO) +:+ "." +:+ pad_left_zeros 9 (u64_display (rao mod RAO_PER_TAO)).

(** [(BPS + bps)] is a [u64] sum, the product a [u128] one. *)
Definition add_bps_ceil (value bps : Z) : Z :=
  let v := value * u64_add BPS bps in
  default u64_max (u64_try_from (div_ceil v BPS)).

Definition funding_needed (fees margin_bps existential_deposit current_free : Z) : Z :=
  u64_saturating_sub (u64_saturating_add (add_bps_ceil fees margin_bps) existential_deposit)
    current_free.

Definition buy_limit_price (current_price slippage_bps : Z) : Z :=
  Z.max (add_bps_ceil current_price slippage_bps) 1.

Definition alpha_value_in_tao (alpha price : Z) : Z :=
  default u64_max (u64_try_from (alpha * price / RAO_PER_TAO)).

(** Spendable treasury TAO: what the fee reserve and the existential deposit leave. *)
Definition units_spendable (free fee_reserve existential_deposit : Z) : Z :=
  u64_saturating_sub (u64_saturating_sub free fee_reserve) existential_deposit.

(** * Lemmas *)

Lemma add_bps_ceil_eq value bps :
  0 <= value -> 0 <= bps -> bps + BPS <= u64_max ->
  add_bps_ceil value bps = Z.min (div_ceil (value * (BPS + bps)) BPS) u64_max.
Proof.
  intros Hv Hb Hmax. unfold add_bps_ceil.
  rewrite u64_add_small by (unfold BPS in *; u64_unfold; lia).
  apply u64_try_from_saturates, div_ceil_nonneg; unfold BPS in *; nia.
Qed.

Lemma add_bps_ceil_range value bps : 0 <= value -> is_u64 (add_bps_ceil value bps).
Proof.
  intros Hv. unfold add_bps_ceil. pose proof (u64_wrap_range (BPS + bps)) as Hw.
  rewrite u64_try_from_saturates.
  - pose proof (div_ceil_nonneg (value * u64_add BPS bps) BPS) as Hd.
    unfold u64_add, BPS in *. u64_unfold. lia.
  - apply div_ceil_nonneg; [|done]. unfold u64_add, is_u64 in *. nia.
Qed.

(** The decimal amounts [parse_amount] accepts, and their value in rao. *)
Definition amount_parts (s : string) : string * string :=
  default (str_trim s, EmptyString) (split_once "." (str_trim s)).
Definition amount_value (int frac : string) : Z :=
  dec_value 0 int * RAO_PER_TAO + dec_value 0 frac * 10 ^ (9 - str_len frac).

Lemma dec_value_pad frac :
  str_len frac <= 9 ->
  dec_value 0 (pad_right_zeros 9 frac) = dec_value 0 frac * 10 ^ (9 - str_len frac).
Proof.
  intros Hl. unfold pad_right_zeros, str_len in *.
  rewrite dec_value_app, dec_value_zeros. do 2 f_equal. lia.
Qed.

Lemma pad_right_zeros_digits w s :
  str_forall is_ascii_digit (pad_right_zeros w s) = str_forall is_ascii_digit s.
Proof.
  unfold pad_right_zeros. rewrite str_forall_app, zeros_digits. apply andb_true_r.
Qed.

Lemma u64_parse_some s v :
  str_forall is_ascii_digit s = true -> s <> EmptyString ->
  u64_parse s = Some v <-> v = dec_value 0 s /\ v <= u64_max.
Proof.
  intros Hs Hne. rewrite u64_parse_digits by done.
  rewrite parse_digits_spec by (u64_unfold; lia). naive_solver.
Qed.

Lemma str_is_empty_true s : str_is_empty s = true <-> s = EmptyString.
Proof. by destruct s. Qed.

Lemma pad_right_zeros_nonempty w s : (0 < w)%nat -> pad_right_zeros w s <> EmptyString.
Proof. unfold pad_right_zeros. destruct s; [destruct w; [lia|done]|done]. Qed.

(** Bound on the fractional part. *)
Lemma dec_value_lt s :
  str_forall is_ascii_digit s = true -> 0 <= dec_value 0 s < 10 ^ str_len s.
Proof.
  induction s as [|a s IH]; intros H; [done|].
  cbn in H. bool_simpl. specialize (IH ltac:(done)).
  cbn [dec_value]. rewrite dec_value_shift. unfold str_len in *. cbn [String.length].
  rewrite Nat2Z.inj_succ, Z.pow_succ_r by lia.
  match goal with Ha : is_ascii_digit a = true |- _ => apply digit_val_range in Ha end.
  nia.
Qed.

Lemma frac_value_lt frac :
  str_forall is_ascii_digit frac = true -> str_len frac <= 9 ->
  0 <= dec_value 0 frac * 10 ^ (9 - str_len frac) < RAO_PER_TAO.
Proof.
  intros Hd Hl. pose proof (dec_value_lt frac Hd) as Hv.
  assert (0 <= str_len frac) by (unfold str_len; lia).
  assert (10 ^ str_len frac * 10 ^ (9 - str_len frac) = RAO_PER_TAO) as Hp.
  { rewrite <- Z.pow_add_r by lia. replace (_ + _) with 9 by lia. done. }
  pose proof (Z.pow_pos_nonneg 10 (9 - str_len frac)). nia.
Qed.

(** * Theorems *)

(** C37: [parse_amount] accepts exactly the trimmed decimals with at most nine
    fractional digits, at least one digit on one side of the dot and a value
    that fits a [u64], and returns that value in rao. *)
Theorem parse_amount_spec (s : string) (v : Z) :
  parse_amount s = Ok v <->
  let '(int, frac) := amount_parts s in
  (int <> EmptyString \/ frac <> EmptyString) /\ str_len frac <= 9 /\
  str_forall is_ascii_digit int = true /\ str_forall is_ascii_digit frac = true /\
  v = amount_value int frac /\ v <= u64_max.
Proof.
  unfold parse_amount, amount_parts, amount_value.
  destruct (default _ _) as [int frac].
  destruct (_ || _ || _) eqn:Hg.
  { split; [done|]. intros (Hne & Hl & Hi & Hf & _). exfalso.
    rewrite Hi, Hf in Hg. apply orb_true_iff in Hg as [Hg|Hg]; [|done].
    apply orb_true_iff in Hg as [Hg|Hg].
    - apply andb_true_iff in Hg as [H1%str_is_empty_true H2%str_is_empty_true]. naive_solver.
    - apply Z.ltb_lt in Hg. lia. }
  bool_simpl. rename Hg into Hdf.
  match goal with H : str_forall _ int = true |- _ => rename H into Hdi end.
  assert (Hne : int <> EmptyString \/ frac <> EmptyString).
  { destruct int, frac; naive_solver. }
  assert (Hpad := pad_right_zeros_digits 9 frac). rewrite Hdf in Hpad.
  assert (Hfr := frac_value_lt frac Hdf ltac:(lia)).
  rewrite result_bind_ok. setoid_rewrite result_bind_ok.
  split.
  - intros (i & Hint & f & Hf & Hv).
    apply ok_or_ok, u64_parse_some in Hf as [-> _]; [|done|apply pad_right_zeros_nonempty; lia].
    rewrite dec_value_pad in Hv by lia.
    assert (i = dec_value 0 int) as ->.
    { destruct (str_is_empty int) eqn:He.
      - apply str_is_empty_true in He as ->. by injection Hint as <-.
      - apply ok_or_ok, u64_parse_some in Hint as [-> _]; [done|done|]. by intros ->. }
    apply ok_or_ok in Hv. destruct (u64_checked_mul _ _) as [m|] eqn:Hm; [|done].
    cbn in Hv. apply u64_checked_mul_some in Hm as [-> Hm].
    apply u64_checked_add_some in Hv as [-> Hv]. naive_solver.
  - intros (_ & Hl & _ & _ & -> & Hmax).
    pose proof (dec_value_lt int Hdi) as Hi0.
    exists (dec_value 0 int). split.
    { destruct (str_is_empty int) eqn:He.
      - by apply str_is_empty_true in He as ->.
      - apply ok_or_ok, u64_parse_some; [done|by intros ->|]. unfold RAO_PER_TAO in *. lia. }
    eexists. split.
    { apply ok_or_ok, u64_parse_some; [done|apply pad_right_zeros_nonempty; lia|].
      split; [done|]. rewrite dec_value_pad by lia. unfold RAO_PER_TAO in *. u64_unfold. lia. }
    rewrite dec_value_pad by lia. apply ok_or_ok.
    destruct (u64_checked_mul _ _) as [m|] eqn:Hm; cbn.
    + apply u64_checked_mul_some in Hm as [-> _]. by apply u64_checked_add_some.
    + unfold u64_checked_mul in Hm. destruct (Z.leb_spec (dec_value 0 int * RAO_PER_TAO) u64_max); [done|]. lia.
Qed.

(** C38: printing an amount and parsing it back gives the amount. *)
Theorem format_parse_roundtrip (rao : Z) (Hrao : is_u64 rao) :
  parse_amount (format_amount rao) = Ok rao.
Proof.
  set (q := rao / RAO_PER_TAO). set (m := rao mod RAO_PER_TAO).
  assert (Hdm : rao = RAO_PER_TAO * q + m) by (apply Z.div_mod; done).
  assert (Hm : 0 <= m < RAO_PER_TAO) by (by apply Z.mod_pos_bound).
  assert (Hq : is_u64 q) by (unfold RAO_PER_TAO in *; u64_unfold; nia).
  set (int := u64_display q). set (frac := pad_left_zeros 9 (u64_display m)).
  assert (Hint : str_forall is_ascii_digit int = true).
  { unfold int, u64_display. rewrite dec_go_digits; [done|]. u64_unfold. lia. }
  assert (Hfrac : str_forall is_ascii_digit frac = true).
  { unfold frac, pad_left_zeros, u64_display.
    rewrite str_forall_app, zeros_digits, dec_go_digits; [done|lia]. }
  assert (Hlen : String.length frac = 9%nat).
  { unfold frac, pad_left_zeros. rewrite str_length_app, zeros_length.
    pose proof (dec_go_length 20 m EmptyString 9 ltac:(lia)) as Hl.
    change (10 ^ Z.of_nat 9) with RAO_PER_TAO in Hl. change (String.length EmptyString) with 0%nat in Hl.
    unfold u64_display. lia. }
  assert (Hparts : amount_parts (format_amount rao) = (int, frac)).
  { unfold amount_parts. rewrite str_trim_plain.
    - unfold format_amount. fold q m int frac. change ("." +:+ frac) with (String "." frac).
      rewrite (split_once_char "." int frac); [done|].
      eapply str_forall_impl; [|exact Hint]. intros a Ha.
      apply negb_true_iff, bool_decide_eq_false. by intros ->.
    - unfold format_amount. fold q m int frac. rewrite !str_forall_app.
      rewrite (str_forall_impl is_ascii_digit plain int), (str_forall_impl is_ascii_digit plain frac)
        by (done || apply digit_plain). done. }
  apply parse_amount_spec. rewrite Hparts. unfold str_len, amount_value, str_len. rewrite Hlen.
  assert (dec_value 0 int = q) as ->.
  { unfold int, u64_display. rewrite dec_go_value; [done|lia|]. u64_unfold. cbn. lia. }
  assert (dec_value 0 frac = m) as ->.
  { unfold frac, pad_left_zeros, u64_display. rewrite dec_value_zeros_app, dec_go_value; [done|lia|].
    unfold RAO_PER_TAO in *. cbn. lia. }
  repeat split; try done; [|lia|u64_unfold; lia].
  left. by apply dec_go_nonempty; lia.
Qed.

Lemma format_parse_roundtrip_witness :
  is_u64 123456789012 /\ parse_amount (format_amount 123456789012) = Ok 123456789012.
Proof.
  split; [u64_unfold; lia|].
  apply (format_parse_roundtrip 123456789012). u64_unfold. lia.
Defined.

(** The funding transfer is exact. Unless the [u64] sums saturate, the
    wallet ends up with at least the estimated fees raised by the margin plus
    the existential deposit, and a positive transfer brings it to that target
    rounded up to one rao, never above. *)
Theorem funding_needed_exact (fees margin_bps ed free : Z)
  (Hfees : is_u64 fees) (Hmargin : 0 <= margin_bps <= u64_max - BPS)
  (Hed : is_u64 ed) (Hfree : is_u64 free)
  (Hsat : div_ceil (fees * (BPS + margin_bps)) BPS + ed <= u64_max) :
  let need := funding_needed fees margin_bps ed free in
  let target := div_ceil (fees * (BPS + margin_bps)) BPS + ed in
  need = Z.max (target - free) 0 /\
  fees * (BPS + margin_bps) <= (free + need - ed) * BPS /\
  (0 < need -> (free + need - ed - 1) * BPS < fees * (BPS + margin_bps)).
Proof.
  intros need target.
  pose proof (div_ceil_spec (fees * (BPS + margin_bps)) BPS ltac:(done)) as Hc.
  assert (Hneed : need = Z.max (target - free) 0).
  { unfold need, target, funding_needed. rewrite add_bps_ceil_eq by (u64_unfold; lia).
    u64_unfold. lia. }
  split; [done|]. unfold target in *. unfold BPS in *. lia.
Qed.

Lemma funding_needed_exact_witness :
  let need := funding_needed 200000 5000 500 300000 in
  need = 500 /\ 200000 * (BPS + 5000) <= (300000 + need - 500) * BPS.
Proof.
  split; [reflexivity|].
  apply (funding_needed_exact 200000 5000 500 300000); vm_compute; intuition discriminate.
Defined.

(** C39: the limit price is the spot price raised by the slippage, rounded up to
    the next rao: the least price that is not below [price * (1 + slippage)].  It
    saturates at the largest [u64], and is one rao when there is no price. *)
Theorem buy_limit_price_bounds (price slippage_bps : Z)
  (Hprice : is_u64 price) (Hslip : 0 <= slippage_bps <= u64_max - BPS) :
  let limit := buy_limit_price price slippage_bps in
  let raised := price * (BPS + slippage_bps) in
  1 <= limit <= u64_max /\ price <= limit /\
  (0 < price -> raised <= u64_max * BPS -> raised <= limit * BPS < raised + BPS) /\
  (u64_max * BPS < raised -> limit = u64_max) /\
  (price = 0 -> limit = 1).
Proof.
  intros limit raised. unfold limit, buy_limit_price.
  rewrite add_bps_ceil_eq by (u64_unfold; lia). fold raised.
  pose proof (div_ceil_spec raised BPS ltac:(done)) as Hc.
  assert (Hr : price * BPS <= raised) by (u64_unfold; unfold raised, BPS in *; apply Z.mul_le_mono_nonneg_l; lia).
  assert (H0 : price = 0 -> raised = 0) by (unfold raised; by intros ->).
  clearbody raised. unfold BPS in *. u64_unfold. lia.
Qed.

(** One percent on 0.02 TAO, and a third of a rao rounded up. *)
Lemma buy_limit_price_bounds_witness :
  buy_limit_price 20000000 100 = 20200000 /\ buy_limit_price 33 100 = 34 /\
  20000000 * (BPS + 100) <= buy_limit_price 20000000 100 * BPS < 20000000 * (BPS + 100) + BPS.
Proof.
  split; [reflexivity|]. split; [reflexivity|].
  apply (buy_limit_price_bounds 20000000 100); vm_compute; intuition discriminate.
Defined.
