(* ===== verification/Keys.v ===== *)
(** Keys and secrets (src/src/keys.rs).

    The cryptography, the SS58 codec, BIP39 and hexadecimal come from crates
    outside the repository: they are the fields of [Ss58] and [Crypto], and the
    documented behaviour the theorems rely on is the laws [Ss58Laws] and
    [CryptoLaws].  Randomness ([OsRng]) is an argument; zeroizing memory has no
    functional effect. *)
From S2P Require Import Prelude RustStd Types.
From Stdlib Require Import Ascii Strings.Byte.
Local Open Scope Z_scope.

(** [Display] and [FromStr] of [subxt::utils::AccountId32]; the error is its
    [Debug] text. *)
Class Ss58 : Type := {
  AccountId32_to_string : AccountId32 -> string;
  AccountId32_from_str : string -> result string AccountId32 }.

Class Ss58Laws `{Ss58} : Prop :=
  ss58_round_trip : forall a, AccountId32_from_str (AccountId32_to_string a) = Ok a.

Class Crypto : Type := {
  (** subxt_signer::sr25519 *)
  Keypair : Type;
  Keypair_account_id : Keypair -> AccountId32;
  Keypair_from_secret_key : list Byte.byte -> option Keypair;
  (** bip39 *)
  Mnemonic : Type;
  Mnemonic_from_entropy : list Byte.byte -> result string Mnemonic;
  Mnemonic_parse : string -> result string Mnemonic;
  Mnemonic_to_string : Mnemonic -> string;
  Mnemonic_to_entropy : Mnemonic -> list Byte.byte;
  Keypair_from_phrase : Mnemonic -> result string Keypair;
  (** pbkdf2 of the entropy with the salt "mnemonic", 2048 rounds: 64 bytes *)
  pbkdf2_seed : list Byte.byte -> option (list Byte.byte);
  (** schnorrkel: one hard derivation step on mini secrets, by chain code *)
  mini_secret_ok : list Byte.byte -> bool;
  hard_derive : list Byte.byte -> list Byte.byte -> list Byte.byte;
  (** subxt_signer::DeriveJunction::from: hardness and chain code *)
  DeriveJunction_from : string -> bool * list Byte.byte;
  (** XChaCha20-Poly1305: key, nonce, message, associated data *)
  aead_encrypt : list Byte.byte -> list Byte.byte -> list Byte.byte -> list Byte.byte ->
                 option (list Byte.byte);
  aead_decrypt : list Byte.byte -> list Byte.byte -> list Byte.byte -> list Byte.byte ->
                 option (list Byte.byte);
  (** hex *)
  hex_encode : list Byte.byte -> string;
  hex_decode : string -> option (list Byte.byte) }.

(** Decryption inverts encryption under the same key, nonce and associated
    data; hexadecimal is invertible. *)
Class CryptoLaws `{Crypto} : Prop := {
  aead_round_trip : forall key nonce msg aad ct,
    aead_encrypt key nonce msg aad = Some ct ->
    aead_decrypt key nonce ct aad = Some msg;
  hex_round_trip : forall b, hex_decode (hex_encode b) = Some b }.

(** A 24-word phrase is longer than 32 bytes, and ASCII. *)
Class MnemonicLaws `{Crypto} : Prop :=
  mnemonic_phrase : forall entropy m, length entropy = 32%nat ->
    Mnemonic_from_entropy entropy = Ok m ->
    (32 < String.length (Mnemonic_to_string m))%nat /\
    str_forall (fun c => (Ascii.N_of_ascii c <? 128)%N) (Mnemonic_to_string m) = true.

Definition bytes_of_string (s : string) : list Byte.byte := Stdlib.Strings.String.list_byte_of_string s.
Definition byte_to_Z (b : Byte.byte) : Z := Z.of_N (Byte.to_N b).
(** [String::from_utf8]. *)
Definition string_from_utf8 (l : list Byte.byte) : option string :=
  if utf8_valid (byte_to_Z <$> l) then Some (Stdlib.Strings.String.string_of_list_byte l) else None.

Section Keys.
Context `{Ss58} `{Crypto}.

Definition ss58 (account : AccountId32) : string := AccountId32_to_string account.

Definition parse_ss58 (s : string) : Result AccountId32 :=
  match AccountId32_from_str s with
  | Ok a => Ok a
  | Err e => Err (Error_Config ("bad ss58 address " +:+ str_debug s +:+ ": " +:+ e))
  end.

(** ** Sealed secrets *)

(** [MasterKey]: 32 bytes. *)
Record MasterKey := mkMasterKey { mk_bytes : list Byte.byte }.

Definition MasterKey_from_hex (s : string) : Result MasterKey :=
  match hex_decode (trim_start_matches "0x" (str_trim s)) with
  | Some b =>
      if decide (length b = 32%nat) then Ok (mkMasterKey b)
      else Err (Error_Config "master key must be 32 bytes of hex")
  | None => Err (Error_Config "master key must be 32 bytes of hex")
  end.

(** [entropy]: the 32 bytes [OsRng] fills. *)
Definition MasterKey_generate (entropy : list Byte.byte) : MasterKey := mkMasterKey entropy.
Definition MasterKey_to_hex (k : MasterKey) : string := hex_encode (mk_bytes k).

(** [nonce]: the 24 bytes [OsRng] fills. *)
Definition MasterKey_seal (k : MasterKey) (nonce plaintext aad : list Byte.byte)
  : Result SealedSecret :=
  let? ct := ok_or (aead_encrypt (mk_bytes k) nonce plaintext aad)
               (Error_Crypto "encryption failed") in
  Ok {| ss_v := 1; ss_nonce := hex_encode nonce; ss_ct := hex_encode ct; ss_kid := None |}.

Definition MasterKey_open (k : MasterKey) (sealed : SealedSecret) (aad : list Byte.byte)
  : Result (list Byte.byte) :=
  if negb (ss_v sealed =? 1)
  then Err (Error_Crypto ("unknown sealed version " +:+ u64_display (ss_v sealed)))
  else
    let bad := Error_Crypto "corrupt sealed secret" in
    let? nonce := ok_or (hex_decode (ss_nonce sealed)) bad in
    if negb (bool_decide (length nonce = 24%nat)) then Err bad
    else
      let? ct := ok_or (hex_decode (ss_ct sealed)) bad in
      ok_or (aead_decrypt (mk_bytes k) nonce ct aad)
        (Error_Crypto "decryption failed (wrong key or tampered data)").

(** ** Keyring *)

Record Keyring := mkKeyring {
  kr_active : string;
  kr_keys : gmap string MasterKey }.

Definition DEFAULT_KEY_ID : string := "k0".

Definition Keyring_from_master (key : MasterKey) : Keyring :=
  {| kr_active := DEFAULT_KEY_ID; kr_keys := {[DEFAULT_KEY_ID := key]} |}.

(** Collecting into a [BTreeMap]: a later entry replaces an earlier one. *)
Definition btree_collect (l : list (string * MasterKey)) : gmap string MasterKey :=
  foldl (fun m kv => <[kv.1 := kv.2]> m) ∅ l.

Definition key_id_ok (k : string) : bool :=
  negb (str_is_empty k)
  && str_forall (fun c => is_ascii_alphanumeric c || bool_decide (c = "-"%char)
                          || bool_decide (c = "_"%char)) k.

Definition Keyring_new (active : string) (keys : list (string * MasterKey)) : Result Keyring :=
  let keys := btree_collect keys in
  if is_none (keys !! active)
  then Err (Error_Config ("active key id " +:+ str_debug active +:+ " is not in the keyring"))
  else if existsb (fun kv => negb (key_id_ok kv.1)) (map_to_list keys)
  then Err (Error_Config "key ids are [A-Za-z0-9_-]+")
  else Ok {| kr_active := active; kr_keys := keys |}.

Definition keyring_entry (part : string) : Result (string * MasterKey) :=
  let? (id, hex) := ok_or (split_once ":" part) (Error_Config "keyring entries are id:hex") in
  let? key := MasterKey_from_hex hex in
  Ok (str_trim id, key).

Definition Keyring_parse (spec active : string) : Result Keyring :=
  let parts := filter (fun p => str_is_empty p = false) (str_trim <$> str_split "," spec) in
  let? keys := collect (keyring_entry <$> parts) in
  Keyring_new active keys.

(** [self.keys[&self.active]] panics on a missing key; no constructor makes
    such a keyring ([keyring_active_present]). *)
Definition Keyring_seal (kr : Keyring) (nonce plaintext aad : list Byte.byte)
  : Result SealedSecret :=
  match kr_keys kr !! kr_active kr with
  | Some key =>
      let? s := MasterKey_seal key nonce plaintext aad in
      Ok {| ss_v := ss_v s; ss_nonce := ss_nonce s; ss_ct := ss_ct s;
            ss_kid := Some (kr_active kr) |}
  | None => Err (Error_Crypto "panic: active key missing")
  end.

Definition sealed_kid (sealed : SealedSecret) : string := default DEFAULT_KEY_ID (ss_kid sealed).

Definition Keyring_open (kr : Keyring) (sealed : SealedSecret) (aad : list Byte.byte)
  : Result (list Byte.byte) :=
  let kid := sealed_kid sealed in
  let? key := ok_or (kr_keys kr !! kid)
                (Error_Crypto ("key id " +:+ str_debug kid +:+ " is not in the keyring")) in
  MasterKey_open key sealed aad.

Definition Keyring_reseal (kr : Keyring) (nonce : list Byte.byte) (sealed : SealedSecret)
  (aad : list Byte.byte) : Result (option SealedSecret) :=
  if bool_decide (sealed_kid sealed = kr_active kr) then Ok None
  else
    let? plain := Keyring_open kr sealed aad in
    let? s := Keyring_seal kr nonce plain aad in
    Ok (Some s).

Definition wallet_aad (payment_id address : string) : list Byte.byte :=
  bytes_of_string ("bittensor-buyback/v1/" +:+ payment_id +:+ "/" +:+ address).

(** ** Wallets *)

Record PaymentWallet := mkPaymentWallet {
  pw_secret : list Byte.byte;
  pw_keypair : Keypair }.

Definition keypair_from_mini_secret (mini : list Byte.byte) : Result Keypair :=
  ok_or (Keypair_from_secret_key mini) (Error_Crypto "invalid mini secret").

Definition crypto_err {A} (r : result string A) : Result A :=
  match r with
  | Ok a => Ok a
  | Err e => Err (Error_Crypto e)
  end.

Definition PaymentWallet_from_phrase (phrase : string) : Result PaymentWallet :=
  let? mnemonic := crypto_err (Mnemonic_parse phrase) in
  let? keypair := crypto_err (Keypair_from_phrase mnemonic) in
  Ok {| pw_secret := bytes_of_string phrase; pw_keypair := keypair |}.

(** [entropy]: the 32 bytes [OsRng] fills. *)
Definition PaymentWallet_generate (entropy : list Byte.byte) : Result PaymentWallet :=
  let? mnemonic := crypto_err (Mnemonic_from_entropy entropy) in
  PaymentWallet_from_phrase (Mnemonic_to_string mnemonic).

Definition PaymentWallet_from_mini_secret (mini : list Byte.byte) : Result PaymentWallet :=
  let? keypair := keypair_from_mini_secret mini in
  Ok {| pw_secret := mini; pw_keypair := keypair |}.

Definition PaymentWallet_from_secret_bytes (bytes : list Byte.byte) : Result PaymentWallet :=
  if decide (length bytes = 32%nat) then PaymentWallet_from_mini_secret bytes
  else
    let? phrase := ok_or (string_from_utf8 bytes) (Error_Crypto "sealed secret is not utf-8") in
    PaymentWallet_from_phrase phrase.

Definition PaymentWallet_account_id (w : PaymentWallet) : AccountId32 :=
  Keypair_account_id (pw_keypair w).

Definition PaymentWallet_seal (w : PaymentWallet) (nonce : list Byte.byte) (key : MasterKey)
  (aad : list Byte.byte) : Result SealedSecret :=
  MasterKey_seal key nonce (pw_secret w) aad.

Definition PaymentWallet_unseal (key : MasterKey) (sealed : SealedSecret) (aad : list Byte.byte)
  : Result PaymentWallet :=
  let? bytes := MasterKey_open key sealed aad in
  PaymentWallet_from_secret_bytes bytes.

Definition PaymentWallet_seal_with (w : PaymentWallet) (nonce : list Byte.byte) (kr : Keyring)
  (aad : list Byte.byte) : Result SealedSecret :=
  Keyring_seal kr nonce (pw_secret w) aad.

Definition PaymentWallet_unseal_with (kr : Keyring) (sealed : SealedSecret)
  (aad : list Byte.byte) : Result PaymentWallet :=
  let? bytes := Keyring_open kr sealed aad in
  PaymentWallet_from_secret_bytes bytes.

(** ** Deterministic wallets *)

(** [DerivationSeed]: the root mini secret. *)
Record DerivationSeed := mkDerivationSeed { ds_root : list Byte.byte }.

Definition DerivationSeed_from_phrase (phrase : string) : Result DerivationSeed :=
  let bad := Error_Config "derivation seed is not a valid BIP39 mnemonic" in
  match Mnemonic_parse (str_trim phrase) with
  | Err _ => Err bad
  | Ok mnemonic =>
      let? seed := ok_or (pbkdf2_seed (Mnemonic_to_entropy mnemonic)) bad in
      Ok (mkDerivationSeed (take 32 seed))
  end.

Definition bad_path (path : string) : Error :=
  Error_Config ("derivation path " +:+ str_debug path +:+ " must be //hard//junctions only").

Definition hard_junction (path j : string) : Result (list Byte.byte) :=
  if str_is_empty j || str_contains "/" j then Err (bad_path path)
  else
    let '(is_hard, inner) := DeriveJunction_from ("/" +:+ j) in
    if negb is_hard then Err (bad_path path) else Ok inner.

Definition hard_junctions (path : string) : Result (list (list Byte.byte)) :=
  let? rest := ok_or (strip_prefix "//" path) (bad_path path) in
  collect (hard_junction path <$> str_split "//" rest).

Definition derive_mini (seed : DerivationSeed) (path : string) : Result (list Byte.byte) :=
  let? junctions := hard_junctions path in
  if negb (mini_secret_ok (ds_root seed)) then Err (Error_Crypto "invalid root")
  else Ok (foldl hard_derive (ds_root seed) junctions).

Definition DerivationSeed_wallet (seed : DerivationSeed) (path : string) : Result PaymentWallet :=
  let? mini := derive_mini seed path in
  PaymentWallet_from_mini_secret mini.
End Keys.

(** * A concrete instance, for the witnesses *)
Module ToyKeys.
(** Addresses are the account's bytes after a "5". *)
#[export] Instance toy_ss58 : Ss58 := {|
  AccountId32_to_string a := "5" +:+ Stdlib.Strings.String.string_of_list_byte (acc_bytes a);
  AccountId32_from_str s :=
    match strip_prefix "5" s with
    | Some t => Ok (mkAccountId32 (Stdlib.Strings.String.list_byte_of_string t))
    | None => Err "invalid ss58 address"
    end |}.

#[export] Instance toy_ss58_laws : Ss58Laws.
Proof.
  intros [l]. unfold AccountId32_from_str, AccountId32_to_string, toy_ss58.
  rewrite (proj2 (strip_prefix_app "5" _ _)) by done. cbv match.
  by rewrite Stdlib.Strings.String.list_byte_of_string_of_list_byte.
Qed.

Definition hex_digit (n : N) : Byte.byte :=
  default Byte.x00 (Byte.of_N (if (n <? 10)%N then 48 + n else 87 + n)%N).
Definition unhex_digit (b : Byte.byte) : option N :=
  let n := Byte.to_N b in
  if ((48 <=? n) && (n <=? 57))%N then Some (n - 48)%N
  else if ((97 <=? n) && (n <=? 102))%N then Some (n - 87)%N
  else None.
Definition hex_bytes (l : list Byte.byte) : list Byte.byte :=
  l ≫= (fun b => [hex_digit (Byte.to_N b / 16); hex_digit (Byte.to_N b mod 16)]).
Fixpoint unhex_bytes (l : list Byte.byte) : option (list Byte.byte) :=
  match l with
  | [] => Some []
  | a :: b :: l =>
      x ← unhex_digit a; y ← unhex_digit b; c ← Byte.of_N (x * 16 + y)%N;
      r ← unhex_bytes l; Some (c :: r)
  | _ => None
  end.

Lemma hex_byte b :
  (x ← unhex_digit (hex_digit (Byte.to_N b / 16)); y ← unhex_digit (hex_digit (Byte.to_N b mod 16));
   Byte.of_N (x * 16 + y)%N) = Some b.
Proof. destruct b; vm_compute; reflexivity. Qed.

Lemma unhex_hex l : unhex_bytes (hex_bytes l) = Some l.
Proof.
  induction l as [|b l IH]; [done|].
  change (hex_bytes (b :: l)) with
    (hex_digit (Byte.to_N b / 16) :: hex_digit (Byte.to_N b mod 16) :: hex_bytes l).
  cbn [unhex_bytes]. pose proof (hex_byte b) as Hb. rewrite IH.
  destruct (unhex_digit (hex_digit (Byte.to_N b / 16))) as [x|]; [|discriminate Hb].
  destruct (unhex_digit (hex_digit (Byte.to_N b mod 16))) as [y|]; [|discriminate Hb].
  cbn [mbind option_bind] in *. by rewrite Hb.
Qed.

Definition flip_byte (b : Byte.byte) : Byte.byte :=
  default Byte.x00 (Byte.of_N (255 - Byte.to_N b)).
Lemma flip_byte_twice (l : list Byte.byte) : flip_byte <$> (flip_byte <$> l) = l.
Proof.
  induction l as [|b l IH]; [done|]. cbn. rewrite IH. f_equal. destruct b; vm_compute; reflexivity.
Qed.

(** A keypair is its secret, the account of a secret the secret itself; the
    cipher flips the message and puts the key, the nonce and the associated data
    before it as its tag. *)
#[export] Instance toy_crypto : Crypto := {|
  Keypair := list Byte.byte;
  Keypair_account_id k := mkAccountId32 k;
  Keypair_from_secret_key k := if decide (length k = 32%nat) then Some k else None;
  Mnemonic := list Byte.byte;
  Mnemonic_from_entropy e := Ok e;
  Mnemonic_parse s :=
    match unhex_bytes (bytes_of_string s) with Some m => Ok m | None => Err "bad mnemonic" end;
  Mnemonic_to_string m := Stdlib.Strings.String.string_of_list_byte (hex_bytes m);
  Mnemonic_to_entropy m := m;
  Keypair_from_phrase m := Ok m;
  pbkdf2_seed m := Some (m ++ m);
  mini_secret_ok m := true;
  hard_derive m cc := take 32 (cc ++ m);
  DeriveJunction_from s :=
    match strip_prefix "/" s with
    | Some t => (true, bytes_of_string t)
    | None => (false, bytes_of_string s)
    end;
  aead_encrypt key nonce msg aad := Some ((key ++ nonce ++ aad) ++ (flip_byte <$> msg));
  aead_decrypt key nonce ct aad :=
    let n := length (key ++ nonce ++ aad) in
    if bool_decide (take n ct = key ++ nonce ++ aad) then Some (flip_byte <$> drop n ct) else None;
  hex_encode b := Stdlib.Strings.String.string_of_list_byte (hex_bytes b);
  hex_decode s := unhex_bytes (bytes_of_string s) |}.

#[export] Instance toy_crypto_laws : CryptoLaws.
Proof.
  split.
  - intros key nonce msg aad ct. cbn. intros [= <-].
    rewrite drop_app_length, take_app_length, bool_decide_eq_true_2 by done.
    by rewrite flip_byte_twice.
  - intros b. unfold hex_decode, hex_encode, toy_crypto, bytes_of_string.
    rewrite Stdlib.Strings.String.list_byte_of_string_of_list_byte. apply unhex_hex.
Qed.

Definition ascii_char (c : ascii) : bool := (Ascii.N_of_ascii c <? 128)%N.
Lemma hex_byte_ascii b :
  ascii_char (Ascii.ascii_of_byte (hex_digit (Byte.to_N b / 16))) = true /\
  ascii_char (Ascii.ascii_of_byte (hex_digit (Byte.to_N b mod 16))) = true.
Proof. destruct b; vm_compute; split; reflexivity. Qed.

#[export] Instance toy_mnemonic_laws : MnemonicLaws.
Proof.
  intros entropy m Hlen Hm. cbn in Hm. injection Hm as <-.
  unfold Mnemonic_to_string, toy_crypto. split.
  - assert (Hl : String.length (Stdlib.Strings.String.string_of_list_byte (hex_bytes entropy))
                 = length (hex_bytes entropy)).
    { generalize (hex_bytes entropy). intros l. unfold Stdlib.Strings.String.string_of_list_byte.
      induction l as [|b l IH]; [done|]. cbn. by rewrite IH. }
    rewrite Hl. assert (Hh : length (hex_bytes entropy) = (2 * length entropy)%nat).
    { clear. induction entropy as [|b l IH]; [done|]. unfold hex_bytes in *. cbn in *. lia. }
    lia.
  - clear. induction entropy as [|b l IH]; [done|].
    change (hex_bytes (b :: l)) with
      (hex_digit (Byte.to_N b / 16) :: hex_digit (Byte.to_N b mod 16) :: hex_bytes l).
    destruct (hex_byte_ascii b) as [H1 H2]. unfold ascii_char in *.
    unfold Stdlib.Strings.String.string_of_list_byte in *.
    cbn [List.map Stdlib.Strings.String.string_of_list_ascii str_forall].
    by rewrite H1, H2, IH.
Qed.
End ToyKeys.

(** * Theorems *)

(** What every constructor of a [Keyring] establishes: the active key is
    there, so [Keyring_seal] never takes its panicking branch. *)
Definition keyring_ok (kr : Keyring) : Prop := is_some (kr_keys kr !! kr_active kr) = true.

Lemma keyring_from_master_ok k : keyring_ok (Keyring_from_master k).
Proof. unfold keyring_ok, Keyring_from_master. cbn [kr_keys kr_active]. by rewrite lookup_singleton_eq. Qed.

Lemma keyring_active_present active keys kr : Keyring_new active keys = Ok kr -> keyring_ok kr.
Proof.
  unfold Keyring_new. destruct (is_none _) eqn:Hn; [done|].
  destruct (existsb _ _); [done|]. intros [= <-]. unfold keyring_ok. cbn [kr_keys kr_active].
  apply is_none_false in Hn as [k ->]. done.
Qed.

Section KeysTheorems.
Context `{CryptoLaws}.

Lemma master_seal_open k nonce plaintext aad sealed kid :
  length nonce = 24%nat -> MasterKey_seal k nonce plaintext aad = Ok sealed ->
  MasterKey_open k {| ss_v := ss_v sealed; ss_nonce := ss_nonce sealed; ss_ct := ss_ct sealed;
                      ss_kid := kid |} aad = Ok plaintext.
Proof.
  intros Hlen Hs. unfold MasterKey_seal in Hs.
  apply result_bind_ok in Hs as (ct & Hct & Hs). apply ok_or_ok in Hct. injection Hs as <-.
  unfold MasterKey_open. cbn [ss_v ss_nonce ss_ct Z.eqb Pos.eqb negb].
  rewrite !hex_round_trip. cbn [ok_or result_bind].
  rewrite bool_decide_eq_true_2 by done. cbn [negb ok_or result_bind].
  by rewrite (aead_round_trip _ _ _ _ _ Hct).
Qed.

Lemma keyring_seal_inv kr nonce plaintext aad sealed :
  keyring_ok kr -> Keyring_seal kr nonce plaintext aad = Ok sealed ->
  exists key s, kr_keys kr !! kr_active kr = Some key /\
    MasterKey_seal key nonce plaintext aad = Ok s /\
    sealed = {| ss_v := ss_v s; ss_nonce := ss_nonce s; ss_ct := ss_ct s;
                ss_kid := Some (kr_active kr) |}.
Proof.
  intros Hok Hs. unfold Keyring_seal in Hs.
  apply is_some_true in Hok as [key Hkey]. rewrite Hkey in Hs.
  apply result_bind_ok in Hs as (s & Hs & Heq). injection Heq as <-. eauto.
Qed.

Lemma keyring_sealed_opens kr kr' nonce plaintext aad sealed :
  keyring_ok kr -> length nonce = 24%nat ->
  kr_keys kr' !! kr_active kr = kr_keys kr !! kr_active kr ->
  Keyring_seal kr nonce plaintext aad = Ok sealed ->
  ss_kid sealed = Some (kr_active kr) /\ Keyring_open kr' sealed aad = Ok plaintext.
Proof.
  intros Hok Hnonce Hkept Hseal.
  destruct (keyring_seal_inv _ _ _ _ _ Hok Hseal) as (key & s & Hkey & Hs & ->).
  split; [done|]. unfold Keyring_open, sealed_kid. cbn [ss_kid from_option id].
  rewrite Hkept, Hkey. cbn [ok_or result_bind]. by eapply master_seal_open.
Qed.

(** What a keyring seals, every keyring that holds the same key under
    the same id opens, whichever of its keys is active: rotation never loses
    a stored secret. *)
Theorem keyring_seal_open (kr kr' : Keyring) (nonce plaintext aad : list Byte.byte)
  (sealed : SealedSecret) (Hok : keyring_ok kr) (Hnonce : length nonce = 24%nat)
  (Hkept : kr_keys kr' !! kr_active kr = kr_keys kr !! kr_active kr)
  (Hseal : Keyring_seal kr nonce plaintext aad = Ok sealed) :
  ss_kid sealed = Some (kr_active kr) /\ Keyring_open kr' sealed aad = Ok plaintext.
Proof. by eapply keyring_sealed_opens. Qed.

(** C34: [reseal] keeps the secret: it does nothing exactly when the secret is
    already sealed with the active key, and otherwise what it returns opens
    to the same plaintext, is filed under the active key, and is not resealed
    again. *)
Theorem keyring_reseal_sound (kr : Keyring) (nonce aad : list Byte.byte) (sealed : SealedSecret)
  (res : option SealedSecret) (Hok : keyring_ok kr) (Hnonce : length nonce = 24%nat)
  (Hreseal : Keyring_reseal kr nonce sealed aad = Ok res) :
  (res = None <-> sealed_kid sealed = kr_active kr) /\
  (forall sealed', res = Some sealed' ->
     sealed_kid sealed' = kr_active kr /\
     Keyring_open kr sealed' aad = Keyring_open kr sealed aad /\
     Keyring_reseal kr nonce sealed' aad = Ok None).
Proof.
  unfold Keyring_reseal in Hreseal |- *. case_bool_decide as Hk.
  { injection Hreseal as <-. split; [done|]. intros ? [=]. }
  apply result_bind_ok in Hreseal as (plain & Hopen & Hr).
  apply result_bind_ok in Hr as (s & Hs & Hr). injection Hr as <-.
  split; [split; [done|by intros Hk']|]. intros sealed' [= <-].
  destruct (keyring_seal_inv _ _ _ _ _ Hok Hs) as (key & m & Hkey & Hm & ->).
  unfold sealed_kid. cbn [ss_kid from_option id].
  split; [done|]. split; [|by rewrite bool_decide_eq_true_2 by done].
  rewrite Hopen. unfold Keyring_open, sealed_kid. cbn [ss_kid from_option id].
  rewrite Hkey. cbn [ok_or result_bind]. by eapply master_seal_open.
Qed.

(** ** Wallets *)

Lemma utf8_ascii l : Forall (fun b => (Byte.to_N b <? 128)%N = true) l ->
  utf8_valid (byte_to_Z <$> l) = true.
Proof.
  induction 1 as [|b l Hb _ IH]; [done|]. cbn. unfold byte_to_Z at 1.
  apply N.ltb_lt in Hb. destruct (Z.ltb_spec (Z.of_N (Byte.to_N b)) 128); [done|lia].
Qed.

Lemma ascii_bytes s :
  str_forall (fun c => (Ascii.N_of_ascii c <? 128)%N) s = true ->
  Forall (fun b => (Byte.to_N b <? 128)%N = true) (bytes_of_string s).
Proof.
  unfold bytes_of_string, Stdlib.Strings.String.list_byte_of_string.
  induction s as [|c s IH]; intros Hs; [constructor|]. cbn in *.
  apply andb_true_iff in Hs as [Hc Hs]. constructor; [|by apply IH].
  assert (Byte.to_N (Ascii.byte_of_ascii c) = Ascii.N_of_ascii c) as ->; [|done].
  by destruct c as [[] [] [] [] [] [] [] []].
Qed.

Lemma bytes_length s : length (bytes_of_string s) = String.length s.
Proof.
  unfold bytes_of_string, Stdlib.Strings.String.list_byte_of_string.
  rewrite List.length_map. induction s as [|c s IH]; [done|]. cbn. by rewrite IH.
Qed.

(** A generated wallet is rebuilt from the secret it stores. *)
Lemma generated_from_secret `{!MnemonicLaws} entropy w :
  length entropy = 32%nat -> PaymentWallet_generate entropy = Ok w ->
  PaymentWallet_from_secret_bytes (pw_secret w) = Ok w.
Proof.
  intros Hlen Hw. unfold PaymentWallet_generate in Hw.
  apply result_bind_ok in Hw as (m & Hm & Hw). unfold crypto_err in Hm.
  destruct (Mnemonic_from_entropy entropy) as [m'|] eqn:He; [|done]. injection Hm as ->.
  destruct (mnemonic_phrase entropy m Hlen He) as [Hl Ha].
  set (phrase := Mnemonic_to_string m) in *.
  assert (Hsec : pw_secret w = bytes_of_string phrase).
  { unfold PaymentWallet_from_phrase in Hw. apply result_bind_ok in Hw as (x & _ & Hw).
    apply result_bind_ok in Hw as (kp & _ & Hw). by injection Hw as <-. }
  rewrite Hsec. unfold PaymentWallet_from_secret_bytes.
  rewrite decide_False by (rewrite bytes_length; lia).
  unfold string_from_utf8. rewrite utf8_ascii by (by apply ascii_bytes).
  unfold bytes_of_string. rewrite Stdlib.Strings.String.string_of_list_byte_of_string. exact Hw.
Qed.

(** A wallet that was generated and sealed is opened again, with the same
    secret and keypair, by any keyring that still holds the key it was sealed
    with. *)
Theorem wallet_seal_unseal `{!MnemonicLaws} (entropy nonce aad : list Byte.byte)
  (w : PaymentWallet) (kr kr' : Keyring) (sealed : SealedSecret)
  (Hok : keyring_ok kr) (Hentropy : length entropy = 32%nat) (Hnonce : length nonce = 24%nat)
  (Hkept : kr_keys kr' !! kr_active kr = kr_keys kr !! kr_active kr)
  (Hgen : PaymentWallet_generate entropy = Ok w)
  (Hseal : PaymentWallet_seal_with w nonce kr aad = Ok sealed) :
  PaymentWallet_unseal_with kr' sealed aad = Ok w.
Proof.
  unfold PaymentWallet_unseal_with.
  destruct (keyring_sealed_opens kr kr' nonce (pw_secret w) aad sealed Hok Hnonce Hkept Hseal)
    as [_ Hopen].
  rewrite Hopen. cbn [result_bind]. by eapply generated_from_secret.
Qed.
End KeysTheorems.

Import ToyKeys.

Definition toy_key (b : Byte.byte) : MasterKey := mkMasterKey (replicate 32 b).
Definition toy_nonce : list Byte.byte := replicate 24 Byte.x07.
Definition toy_aad : list Byte.byte := wallet_aad "id" "5addr".
Definition toy_rotated : Keyring :=
  {| kr_active := "k1"; kr_keys := {[ "k0" := toy_key Byte.x01; "k1" := toy_key Byte.x02 ]} |}.
Definition toy_sealed : SealedSecret :=
  match Keyring_seal (Keyring_from_master (toy_key Byte.x01)) toy_nonce [Byte.x61; Byte.x62] toy_aad with
  | Ok s => s
  | Err _ => {| ss_v := 0; ss_nonce := ""; ss_ct := ""; ss_kid := None |}
  end.

Lemma keyring_seal_open_witness :
  Keyring_seal (Keyring_from_master (toy_key Byte.x01)) toy_nonce [Byte.x61; Byte.x62] toy_aad
    = Ok toy_sealed /\
  Keyring_open toy_rotated toy_sealed toy_aad = Ok [Byte.x61; Byte.x62].
Proof.
  assert (H : Keyring_seal (Keyring_from_master (toy_key Byte.x01)) toy_nonce
                [Byte.x61; Byte.x62] toy_aad = Ok toy_sealed) by (vm_compute; reflexivity).
  split; [exact H|].
  apply (keyring_seal_open (Keyring_from_master (toy_key Byte.x01)) toy_rotated toy_nonce
           [Byte.x61; Byte.x62] toy_aad toy_sealed); vm_compute; reflexivity.
Defined.

Lemma keyring_reseal_sound_witness :
  exists s, Keyring_reseal toy_rotated toy_nonce toy_sealed toy_aad = Ok (Some s) /\
    sealed_kid s = "k1" /\ Keyring_open toy_rotated s toy_aad = Ok [Byte.x61; Byte.x62].
Proof.
  destruct (Keyring_reseal toy_rotated toy_nonce toy_sealed toy_aad) as [[s|]|] eqn:Hr;
    [|vm_compute in Hr; discriminate..].
  exists s. split; [reflexivity|].
  assert (Hok : keyring_ok toy_rotated) by (vm_compute; reflexivity).
  destruct (keyring_reseal_sound toy_rotated toy_nonce toy_aad toy_sealed (Some s) Hok eq_refl Hr)
    as [_ Hs].
  destruct (Hs s eq_refl) as (Hk & Ho & _). split; [exact Hk|].
  rewrite Ho. vm_compute. reflexivity.
Defined.

Definition toy_wallet : PaymentWallet :=
  match PaymentWallet_generate (replicate 32 Byte.x61) with
  | Ok w => w
  | Err _ => mkPaymentWallet [] []
  end.
Definition toy_sealed_wallet : SealedSecret :=
  match PaymentWallet_seal_with toy_wallet toy_nonce (Keyring_from_master (toy_key Byte.x01)) toy_aad with
  | Ok s => s
  | Err _ => toy_sealed
  end.

Lemma wallet_seal_unseal_witness :
  PaymentWallet_unseal_with toy_rotated toy_sealed_wallet toy_aad = Ok toy_wallet /\
  length (pw_secret toy_wallet) = 64%nat.
Proof.
  split; [|vm_compute; reflexivity].
  apply (wallet_seal_unseal (replicate 32 Byte.x61) toy_nonce toy_aad toy_wallet
           (Keyring_from_master (toy_key Byte.x01)) toy_rotated toy_sealed_wallet);
    vm_compute; reflexivity.
Defined.
