(* ===== verification/State.v ===== *)
(** The payment record and its state machine (src/src/state.rs): the
    transition table, [transition], [record_failure], the budget check and the
    public status, with the theorems on progress, failure and resumption. *)
From S2P Require Import Prelude RustStd Types Keys.
Local Open Scope Z_scope.

Definition PaymentState_as_str (s : PaymentState) : string :=
  match s with
  | Pending => "pending"
  | Detected => "detected"
  | Funded => "funded"
  | Swept => "swept"
  | Settled => "settled"
  | Failed => "failed"
  | Expired => "expired"
  end.

Definition is_active (s : PaymentState) : bool :=
  match s with
  | Pending | Detected | Funded | Swept => true
  | _ => false
  end.

Definition can_transition (s to : PaymentState) : bool :=
  match s, to with
  | Pending, (Detected | Expired | Failed)
  | Detected, (Funded | Failed)
  | Funded, (Swept | Failed)
  | Swept, (Settled | Failed)
  | Failed, (Detected | Funded | Swept)
  | Expired, Detected => true
  | _, _ => false
  end.

Definition transition (r : PaymentRecord) (to : PaymentState) : Result PaymentRecord :=
  let resume_ok :=
    negb (bool_decide (pr_state r = Failed))
    || bool_decide (pr_failed_from r = Some to)
    || (bool_decide (pr_failed_from r = Some Pending) && bool_decide (to = Detected)) in
  if negb (can_transition (pr_state r) to) || negb resume_ok
  then Err (Error_InvalidTransition (pr_state r) to)
  else
    let r := if bool_decide (to = Failed) then r <| pr_failed_from := Some (pr_state r) |> else r in
    let r := r <| pr_state := to |> <| pr_attempts := 0 |> <| pr_next_attempt_at := 0 |> in
    Ok (if bool_decide (to = Failed) then r else r <| pr_last_error := None |>).

Definition record_failure (r : PaymentRecord) (err : string) (max_attempts now : Z)
  : PaymentRecord :=
  let r := r <| pr_attempts := u32_wrap (pr_attempts r + 1) |> in
  let r := r <| pr_last_error := Some (take_chars 500 err) |> in
  let r := r <| pr_next_attempt_at :=
                  u64_add now (Z.min (Z.shiftl 5 (Z.min (pr_attempts r) 7)) 600) |> in
  if (max_attempts <=? pr_attempts r) && can_transition (pr_state r) Failed
  then r <| pr_failed_from := Some (pr_state r) |> <| pr_state := Failed |>
  else r.

Definition status (r : PaymentRecord) : PaymentStatus :=
  {| st_id := pr_id r;
     st_address := pr_address r;
     st_netuid := pr_netuid r;
     st_min_alpha := pr_min_alpha r;
     st_min_tao := pr_min_tao r;
     st_created_at := pr_created_at r;
     st_expires_at := pr_expires_at r;
     st_state := pr_state r;
     st_detected_alpha := pr_detected_alpha r;
     st_detected_tao := pr_detected_tao r;
     st_funded_tao := pr_funded_tao r;
     st_swept_alpha := pr_swept_alpha r;
     st_txs := pr_txs r;
     st_buyback := pr_buyback r;
     st_last_error := pr_last_error r;
     st_metadata := pr_metadata r |}.

Definition MIN_STAKE_RAO : Z := 2000000.

Definition BuybackBudget_validate `{Ss58} (b : BuybackBudget) : Result unit :=
  let? _ := parse_ss58 (bb_hotkey b) in
  if (bool_decide (bb_netuid b = 0) && negb (bool_decide (bb_destroy b = Keep)))
     || (bb_amount_rao b <? MIN_STAKE_RAO)
     || negb (bool_decide (bb_currency b = "TAO"))
     || str_is_empty (str_trim (bb_source b))
     || (128 <? str_len (bb_source b))
  then Err (Error_Config "explicit TAO buyback budget/source required")
  else Ok tt.

Definition test_record (id : string) : PaymentRecord :=
  {| pr_id := id;
     pr_address := "5GrwvaEF5zXb26Fz9rcQpDWS57CtERHpNehXCPcNoHGKutQY";
     pr_netuid := 1;
     pr_min_alpha := 1000000000;
     pr_min_tao := None;
     pr_created_at := 0;
     pr_expires_at := 100;
     pr_state := Pending;
     pr_version := 0;
     pr_sealed_secret := {| ss_v := 1; ss_nonce := "00"; ss_ct := "00"; ss_kid := None |};
     pr_metadata := None;
     pr_callback_url := None;
     pr_detected_alpha := 0;
     pr_detected_tao := 0;
     pr_funded_tao := 0;
     pr_swept_alpha := 0;
     pr_txs := [];
     pr_buyback := None;
     pr_buyback_budget := None;
     pr_auto_required := Some false;
     pr_identity := None;
     pr_attempts := 0;
     pr_next_attempt_at := 0;
     pr_last_error := None;
     pr_failed_from := None;
     pr_pending := None;
     pr_quarantined := None;
     pr_swept_positions := [];
     pr_consolidated := 0;
     pr_dust_returned := false;
     pr_buyback_done := false;
     pr_notified := false;
     pr_updated_at := 0;
     pr_derivation_path := None |}.

(** * Progress of a record *)

(** How far the payment got: [Failed] remembers where it failed. *)
Definition state_rank (s : PaymentState) : Z :=
  match s with
  | Pending | Expired | Failed => 0
  | Detected => 1
  | Funded => 2
  | Swept => 3
  | Settled => 4
  end.
Definition stage (r : PaymentRecord) : PaymentState :=
  match pr_state r with
  | Failed => default Failed (pr_failed_from r)
  | s => s
  end.
Definition progress (r : PaymentRecord) : Z := state_rank (stage r).

(** What [transition] and [record_failure] do to a record. *)
Inductive record_step : PaymentRecord -> PaymentRecord -> Prop :=
| step_transition r to r' : transition r to = Ok r' -> record_step r r'
| step_failure r err max_attempts now : record_step r (record_failure r err max_attempts now).

(** A failed record knows the active state it failed in. *)
Definition failed_from_ok (r : PaymentRecord) : Prop :=
  pr_state r = Failed -> exists s, pr_failed_from r = Some s /\ is_active s = true.

(** The new record of a successful transition, field by field. *)
Lemma transition_inv r to r' :
  transition r to = Ok r' ->
  can_transition (pr_state r) to = true /\
  (pr_state r = Failed ->
     pr_failed_from r = Some to \/ (pr_failed_from r = Some Pending /\ to = Detected)) /\
  pr_state r' = to /\
  pr_failed_from r' = (if bool_decide (to = Failed) then Some (pr_state r) else pr_failed_from r) /\
  r' = r <| pr_failed_from := pr_failed_from r' |> <| pr_state := to |>
         <| pr_attempts := 0 |> <| pr_next_attempt_at := 0 |>
         <| pr_last_error := if bool_decide (to = Failed) then pr_last_error r else None |>.
Proof.
  unfold transition. destruct (can_transition (pr_state r) to) eqn:Hc; cbn [negb orb]; [|done].
  destruct (negb (_ || _ || _)) eqn:Hres; [done|]. intros Heq. injection Heq as Heq.
  split; [done|]. split.
  { apply negb_false_iff in Hres. intros Hf.
    rewrite (bool_decide_eq_true_2 _ Hf) in Hres. cbn [negb orb] in Hres.
    apply orb_true_iff in Hres as [Hr|Hr]; bool_simpl; [by left|by right]. }
  subst r'. destruct r. destruct (bool_decide (to = Failed)); by pr_cbn.
Qed.

(** A step forward: the record a legal move of the engine makes. *)
Definition moved (r : PaymentRecord) (to : PaymentState) : PaymentRecord :=
  r <| pr_state := to |> <| pr_attempts := 0 |> <| pr_next_attempt_at := 0 |>
    <| pr_last_error := None |>.

Lemma transition_forward r to :
  can_transition (pr_state r) to = true -> pr_state r <> Failed -> to <> Failed ->
  transition r to = Ok (moved r to).
Proof.
  intros Hc Hr Ht. unfold transition. rewrite Hc, (bool_decide_eq_false_2 _ Hr).
  cbn [negb orb]. by rewrite (bool_decide_eq_false_2 _ Ht).
Qed.

Lemma can_transition_failed s : can_transition s Failed = is_active s.
Proof. by destruct s. Qed.

Lemma record_failure_inv r err n now :
  let r' := record_failure r err n now in
  let fails := (n <=? u32_wrap (pr_attempts r + 1)) && is_active (pr_state r) in
  r' = r <| pr_attempts := u32_wrap (pr_attempts r + 1) |>
         <| pr_last_error := Some (take_chars 500 err) |>
         <| pr_next_attempt_at :=
              u64_add now (Z.min (Z.shiftl 5 (Z.min (u32_wrap (pr_attempts r + 1)) 7)) 600) |>
         <| pr_failed_from := if fails then Some (pr_state r) else pr_failed_from r |>
         <| pr_state := if fails then Failed else pr_state r |>.
Proof.
  unfold record_failure. rewrite can_transition_failed. destruct r. pr_cbn.
  destruct (_ && _); by pr_cbn.
Qed.

Lemma transition_failed_from_ok r to r' :
  failed_from_ok r -> transition r to = Ok r' -> failed_from_ok r'.
Proof.
  intros Hok (Hc & Hres & Hst & Hff & _)%transition_inv Hf.
  rewrite Hff. rewrite Hst in Hf. subst to. rewrite Hf in *. cbn.
  exists (pr_state r). split; [done|]. by rewrite <- can_transition_failed.
Qed.

Lemma record_failure_failed_from_ok r err n now :
  failed_from_ok r -> failed_from_ok (record_failure r err n now).
Proof.
  intros Hok Hf. rewrite record_failure_inv in *. pr_cbn.
  destruct (_ && _) eqn:Hfails; [|by apply Hok].
  bool_simpl. eauto.
Qed.

Lemma transition_progress r to r' : transition r to = Ok r' -> progress r <= progress r'.
Proof.
  intros (Hc & Hres & Hst & Hff & _)%transition_inv.
  unfold progress, stage. rewrite Hst, Hff.
  destruct (pr_state r) eqn:Hs, to; try discriminate Hc; decide_closed; cbn; try lia;
    destruct (Hres eq_refl) as [Hf|[Hf Ht]]; rewrite Hf; cbn; lia || done.
Qed.

Lemma record_failure_stage r err n now :
  stage (record_failure r err n now) = stage r.
Proof.
  rewrite record_failure_inv. unfold stage. pr_cbn.
  destruct (_ && _) eqn:Hf; [|done]. bool_simpl. cbn. by destruct (pr_state r).
Qed.

Lemma record_step_progress r r' : record_step r r' -> progress r <= progress r'.
Proof.
  intros [r0 to r1 Hstep | r0 err n now].
  - by eapply transition_progress.
  - unfold progress. by rewrite record_failure_stage.
Qed.

(** * Theorems *)

(** C23: a step that has been done is never done again.  Whatever transitions
    and failures follow, a record that reached some stage never works on an
    earlier one: its state stays, or is a failure remembering, at least that
    stage. *)
Theorem completed_steps_never_rerun (r r' : PaymentRecord) (Hsteps : rtc record_step r r') :
  progress r <= progress r' /\
  (progress r = 3 -> failed_from_ok r ->
   pr_state r' = Swept \/ pr_state r' = Settled \/
   (pr_state r' = Failed /\ pr_failed_from r' = Some Swept)).
Proof.
  assert (Hmono : progress r <= progress r').
  { revert Hsteps. induction 1 as [|? ? ? Hs _ IH]; [lia|].
    pose proof (record_step_progress _ _ Hs). lia. }
  split; [done|]. intros H3 Hok.
  assert (Hok' : failed_from_ok r').
  { apply (rtc_invariant record_step failed_from_ok r r'); [|done..].
    intros x y Hx Hs. destruct Hs as [r0 to r1 Hstep | r0 err n now].
    - by eapply transition_failed_from_ok.
    - by apply record_failure_failed_from_ok. }
  rewrite H3 in Hmono. unfold progress, stage, failed_from_ok in *.
  destruct (pr_state r') eqn:Hs; cbn in Hmono; try lia; auto.
  destruct (Hok' eq_refl) as (s & Hs' & Ha). rewrite Hs' in *.
  destruct s; cbn in *; try lia; try done. auto.
Qed.

Definition swept_record : PaymentRecord := test_record "a" <| pr_state := Swept |>.

Lemma completed_steps_never_rerun_witness :
  let r' := record_failure swept_record "boom" 1 1000 in
  rtc record_step swept_record r' /\ progress swept_record <= progress r'.
Proof.
  assert (rtc record_step swept_record (record_failure swept_record "boom" 1 1000))
    by (apply rtc_once; constructor).
  split; [done|]. by apply completed_steps_never_rerun.
Defined.

(** [transition] moves exactly along the table, and out of [Failed] only
    back into the step that failed ([Detected] when detection itself failed);
    it resets the attempt counters and, except for a move to [Failed], the
    last error, and touches nothing else. *)
Theorem transition_spec (r : PaymentRecord) (to : PaymentState) :
  let allowed :=
    can_transition (pr_state r) to = true /\
    (pr_state r = Failed ->
       pr_failed_from r = Some to \/ (pr_failed_from r = Some Pending /\ to = Detected)) in
  (allowed ->
   transition r to =
   Ok (r <| pr_failed_from := if bool_decide (to = Failed) then Some (pr_state r)
                              else pr_failed_from r |>
         <| pr_state := to |> <| pr_attempts := 0 |> <| pr_next_attempt_at := 0 |>
         <| pr_last_error := if bool_decide (to = Failed) then pr_last_error r else None |>)) /\
  (~ allowed -> transition r to = Err (Error_InvalidTransition (pr_state r) to)).
Proof.
  intros allowed. destruct (transition r to) as [r'|e] eqn:Ht.
  - apply transition_inv in Ht as (Hc & Hres & Hst & Hff & Heq). rewrite Hff in Heq.
    split; [|intros Hn; by destruct Hn]. intros _. by rewrite Heq at 1.
  - unfold transition in Ht.
    destruct (negb _ || negb _) eqn:Hg; [|done]. injection Ht as <-.
    split; [|done]. intros [Hc Hres]. exfalso. rewrite Hc in Hg. cbn in Hg.
    apply negb_true_iff, orb_false_iff in Hg as [[Hg1 Hg2]%orb_false_iff Hg3].
    apply negb_false_iff, bool_decide_eq_true in Hg1.
    apply bool_decide_eq_false in Hg2.
    destruct (Hres Hg1) as [?|[H1 H2]]; [done|].
    by rewrite !bool_decide_eq_true_2 in Hg3.
Qed.

(** C24: a failed attempt backs off between 10 and 600 seconds, and the record
    goes to [Failed] (remembering the state it failed in) exactly when the
    attempts reach the maximum in an active state; accounting, journal and
    receipts are untouched. *)
Theorem record_failure_spec (r : PaymentRecord) (err : string) (max_attempts now : Z)
  (Hatt : 0 <= pr_attempts r < u32_max) (Hnow : 0 <= now <= u64_max - 600) :
  let r' := record_failure r err max_attempts now in
  pr_attempts r' = pr_attempts r + 1 /\
  now + 10 <= pr_next_attempt_at r' <= now + 600 /\
  (pr_attempts r' < 7 -> pr_next_attempt_at r' = now + 5 * 2 ^ pr_attempts r') /\
  (pr_state r' = Failed <->
     pr_state r = Failed \/ (max_attempts <= pr_attempts r' /\ is_active (pr_state r) = true)) /\
  (pr_state r' <> pr_state r -> pr_failed_from r' = Some (pr_state r)) /\
  (pr_pending r' = pr_pending r /\ pr_txs r' = pr_txs r /\ pr_funded_tao r' = pr_funded_tao r /\
   pr_swept_positions r' = pr_swept_positions r /\ pr_buyback r' = pr_buyback r).
Proof.
  intros r'. unfold r'. rewrite record_failure_inv.
  assert (u32_wrap (pr_attempts r + 1) = pr_attempts r + 1) as Hw.
  { unfold u32_wrap, u32_max in *. apply Z.mod_small. lia. }
  rewrite Hw. pr_cbn. set (a := pr_attempts r + 1) in *.
  assert (Ha : 1 <= a) by lia.
  assert (Hsh : Z.shiftl 5 (Z.min a 7) = 5 * 2 ^ Z.min a 7) by (apply Z.shiftl_mul_pow2; lia).
  assert (Hpow : 2 <= 2 ^ Z.min a 7 <= 128).
  { split; [change 2 with (2 ^ 1) at 1|change 128 with (2 ^ 7)]; apply Z.pow_le_mono_r; lia. }
  rewrite Hsh. rewrite u64_add_small by (u64_unfold; lia).
  split; [done|]. split; [lia|]. split.
  { intros Hlt. rewrite Z.min_l with (n := a) by lia.
    assert (2 ^ a <= 2 ^ 6) by (apply Z.pow_le_mono_r; lia). lia. }
  split; [|split; [|done]].
  - destruct (max_attempts <=? a) eqn:Hle; bool_simpl; cbn [andb]; destruct (pr_state r); cbn;
      intuition (try discriminate; try lia).
  - destruct (_ && _); done.
Qed.

Lemma record_failure_spec_witness :
  let r := test_record "a" <| pr_attempts := 2 |> in
  let r' := record_failure r "boom" 3 1000 in
  pr_next_attempt_at r' = 1040 /\ pr_state r' = Failed /\
  1000 + 10 <= pr_next_attempt_at r' <= 1000 + 600.
Proof.
  intros r r'. split; [reflexivity|]. split; [reflexivity|].
  apply (record_failure_spec r "boom" 3 1000); vm_compute; intuition discriminate.
Defined.
