(* ===== verification/Chain.v ===== *)
(** The pure part of the chain client (src/src/chain.rs): the calls the crate
    sends and the metadata it requires, event summaries, fixed-point prices,
    fee decoding and URL redaction.

    [subxt], the SCALE codec and the runtime metadata are outside the
    repository: [Runtime] gathers what this file uses of them. *)
From S2P Require Import Prelude RustStd Types Units Keys.
From Stdlib Require Import Ascii Strings.Byte.
Local Open Scope Z_scope.

Definition PALLET : string := "SubtensorModule".

Definition REQUIRED_CALLS : list (string * string * list string) :=
  [ ("Balances", "transfer_keep_alive", ["dest"; "value"]);
    ("Balances", "transfer_all", ["dest"; "keep_alive"]);
    (PALLET, "transfer_stake",
      ["destination_coldkey"; "hotkey"; "origin_netuid"; "destination_netuid"; "alpha_amount"]);
    (PALLET, "move_stake",
      ["origin_hotkey"; "destination_hotkey"; "origin_netuid"; "destination_netuid"; "alpha_amount"]);
    (PALLET, "add_stake_limit",
      ["hotkey"; "netuid"; "amount_staked"; "limit_price"; "allow_partial"]);
    (PALLET, "burn_alpha", ["hotkey"; "amount"; "netuid"]);
    (PALLET, "recycle_alpha", ["hotkey"; "amount"; "netuid"]);
    (PALLET, "try_associate_hotkey", ["hotkey"]) ].

Definition REQUIRED_EVENTS : list (string * string) :=
  [ ("Balances", "Transfer");
    (PALLET, "StakeTransferred");
    (PALLET, "StakeMoved");
    (PALLET, "StakeAdded");
    (PALLET, "AlphaBurned");
    (PALLET, "AlphaRecycled") ].

(** ** Networks *)

Inductive Network : Type :=
| Finney
| Test
| Local_
| Custom (url : string).

Definition Network_url (n : Network) : string :=
  match n with
  | Finney => "wss://entrypoint-finney.opentensor.ai:443"
  | Test => "wss://test.finney.opentensor.ai:443"
  | Local_ => "ws://127.0.0.1:9944"
  | Custom u => u
  end.

Definition Network_from_str (s : string) : Result Network :=
  if bool_decide (s = "finney") || bool_decide (s = "mainnet") then Ok Finney
  else if bool_decide (s = "test") || bool_decide (s = "testnet") then Ok Test
  else if bool_decide (s = "local") || bool_decide (s = "localnet") then Ok Local_
  else if starts_with "ws://" s || starts_with "wss://" s then Ok (Custom s)
  else Err (Error_Config ("unknown network " +:+ str_debug s)).

(** ** Calls *)

Definition ChainCall_name (c : ChainCall) : string :=
  match c with
  | TransferTao _ _ => "transfer_keep_alive"
  | TransferAll _ => "transfer_all"
  | TransferStake _ _ _ _ => "transfer_stake"
  | MoveStake _ _ _ _ => "move_stake"
  | AddStakeLimit _ _ _ _ _ => "add_stake_limit"
  | BurnAlpha _ _ _ => "burn_alpha"
  | RecycleAlpha _ _ _ => "recycle_alpha"
  | AssociateHotkey _ => "try_associate_hotkey"
  end.

Definition ChainCall_expected_event (c : ChainCall) : string * string :=
  match c with
  | TransferTao _ _ | TransferAll _ => ("Balances", "Transfer")
  | TransferStake _ _ _ _ => (PALLET, "StakeTransferred")
  | MoveStake _ _ _ _ => (PALLET, "StakeMoved")
  | AddStakeLimit _ _ _ _ _ => (PALLET, "StakeAdded")
  | BurnAlpha _ _ _ => (PALLET, "AlphaBurned")
  | RecycleAlpha _ _ _ => (PALLET, "AlphaRecycled")
  | AssociateHotkey _ => ("System", "ExtrinsicSuccess")
  end.

Definition ChainCall_amount (c : ChainCall) : Z :=
  match c with
  | TransferTao _ amount => amount
  | TransferStake _ _ _ alpha
  | MoveStake _ _ _ alpha
  | BurnAlpha _ _ alpha
  | RecycleAlpha _ _ alpha => alpha
  | AddStakeLimit _ _ tao _ _ => tao
  | TransferAll _ | AssociateHotkey _ => 0
  end.

(** The dynamic values the crate builds ([subxt::dynamic::Value]). *)
Inductive Value : Type :=
| V_bytes (b : list Byte.byte)
| V_u128 (z : Z)
| V_bool (b : bool)
| V_variant (name : string) (fields : list Value).

Definition acct (a : AccountId32) : Value := V_bytes (acc_bytes a).

(** [dynamic::tx(pallet, name, args)]. *)
Definition ChainCall_payload (c : ChainCall) : string * string * list Value :=
  let '(pallet, args) :=
    match c with
    | TransferTao dest amount =>
        ("Balances", [V_variant "Id" [acct dest]; V_u128 amount])
    | TransferAll dest =>
        ("Balances", [V_variant "Id" [acct dest]; V_bool false])
    | TransferStake dest_coldkey hotkey netuid alpha =>
        (PALLET, [acct dest_coldkey; acct hotkey; V_u128 netuid; V_u128 netuid; V_u128 alpha])
    | MoveStake from_hotkey to_hotkey netuid alpha =>
        (PALLET, [acct from_hotkey; acct to_hotkey; V_u128 netuid; V_u128 netuid; V_u128 alpha])
    | AddStakeLimit hotkey netuid tao limit_price allow_partial =>
        (PALLET, [acct hotkey; V_u128 netuid; V_u128 tao; V_u128 limit_price; V_bool allow_partial])
    | AssociateHotkey hotkey => (PALLET, [acct hotkey])
    | BurnAlpha hotkey netuid alpha
    | RecycleAlpha hotkey netuid alpha =>
        (PALLET, [acct hotkey; V_u128 alpha; V_u128 netuid])
    end in
  (pallet, ChainCall_name c, args).

(** ** Event summaries *)

Definition EventSummary_has (s : EventSummary) (pallet name : string) : bool :=
  existsb (fun pn => bool_decide (pn.1 = pallet) && bool_decide (pn.2 = name)) (es_names s).

Definition eta_EventSummary (s : EventSummary) : EventSummary :=
  mkEventSummary (es_names s) (es_failed s) (es_stake_added s) (es_alpha_destroyed s)
    (es_stake_moved_tao s) (es_transferred s).
Ltac es_updater p := solve_updater eta_EventSummary p.
#[export] Instance upd_names : Updater es_names := ltac:(es_updater es_names).
#[export] Instance upd_failed : Updater es_failed := ltac:(es_updater es_failed).
#[export] Instance upd_stake_added : Updater es_stake_added := ltac:(es_updater es_stake_added).
#[export] Instance upd_alpha_destroyed : Updater es_alpha_destroyed := ltac:(es_updater es_alpha_destroyed).
#[export] Instance upd_stake_moved_tao : Updater es_stake_moved_tao := ltac:(es_updater es_stake_moved_tao).
#[export] Instance upd_transferred : Updater es_transferred := ltac:(es_updater es_transferred).

Inductive Phase : Type :=
| ApplyExtrinsic (index : Z)
| Finalization
| Initialization.
#[export] Instance Phase_eq_dec : EqDecision Phase.
Proof. solve_decision. Defined.

(** What the crate uses of a decoded event ([subxt::events::Event]), of the
    runtime metadata and of the SCALE codec.  The decoders carry the tuple type
    they decode the fields as, and the error's text. *)
Class Runtime : Type := {
  Event : Type;
  ev_pallet : Event -> string;
  ev_name : Event -> string;
  ev_phase : Event -> Phase;
  ev_index : Event -> Z;
  ev_as_AAu64u64u16u64 :
    Event -> result string (AccountId32 * AccountId32 * Z * Z * Z * Z);
  ev_as_AAu64u16 : Event -> result string (AccountId32 * AccountId32 * Z * Z);
  ev_as_AAAu16u16u64 :
    Event -> result string (AccountId32 * AccountId32 * AccountId32 * Z * Z * Z);
  ev_as_AAu16Au16u64 :
    Event -> result string (AccountId32 * AccountId32 * Z * AccountId32 * Z * Z);
  ev_as_AAu64 : Event -> result string (AccountId32 * AccountId32 * Z);
  (** metadata *)
  Pallet : Type;
  Variant : Type;
  call_variant_by_name : Pallet -> string -> option Variant;
  event_variants : Pallet -> option (list Variant);
  variant_name : Variant -> string;
  variant_index : Variant -> Z;
  variant_fields : Variant -> list (option string);
  (** [(Compact<u64>, Compact<u64>, u8)::decode]: what is left of the input *)
  decode_dispatch_head : list Byte.byte -> option (list Byte.byte);
  decode_u64 : list Byte.byte -> option Z;
  decode_u128 : list Byte.byte -> option Z }.

Definition chain_err {A} (r : result string A) : Result A :=
  match r with
  | Ok a => Ok a
  | Err e => Err (Error_Chain e)
  end.

Section Chain.
Context `{Runtime}.

(** One iteration of the loop of [EventSummary::from_events]. *)
Definition summarize (s : EventSummary) (ev : Event) : Result EventSummary :=
  let p := ev_pallet ev in
  let n := ev_name ev in
  let? s :=
    if bool_decide (p = "System") && bool_decide (n = "ExtrinsicFailed") then
      Ok (s <| es_failed := true |>)
    else if bool_decide (p = PALLET) && bool_decide (n = "StakeAdded") then
      let? (_, _, tao, alpha, _, _) := chain_err (ev_as_AAu64u64u16u64 ev) in
      Ok (s <| es_stake_added := Some (tao, alpha) |>)
    else if bool_decide (p = PALLET)
            && (bool_decide (n = "AlphaBurned") || bool_decide (n = "AlphaRecycled")) then
      let? (_, _, amount, _) := chain_err (ev_as_AAu64u16 ev) in
      Ok (s <| es_alpha_destroyed := Some amount |>)
    else if bool_decide (p = PALLET) && bool_decide (n = "StakeTransferred") then
      let? (_, _, _, _, _, tao) := chain_err (ev_as_AAAu16u16u64 ev) in
      Ok (s <| es_stake_moved_tao := Some tao |>)
    else if bool_decide (p = PALLET) && bool_decide (n = "StakeMoved") then
      let? (_, _, _, _, _, tao) := chain_err (ev_as_AAu16Au16u64 ev) in
      Ok (s <| es_stake_moved_tao := Some tao |>)
    else if bool_decide (p = "Balances") && bool_decide (n = "Transfer") then
      let? (_, _, amount) := chain_err (ev_as_AAu64 ev) in
      Ok (s <| es_transferred := Some (u64_add (default 0 (es_transferred s)) amount) |>)
    else Ok s in
  Ok (s <| es_names := es_names s ++ [(p, n)] |>).

Fixpoint from_events_go (s : EventSummary) (evs : list (result string Event))
  : Result EventSummary :=
  match evs with
  | [] => Ok s
  | ev :: evs =>
      let? ev := chain_err ev in
      let? s := summarize s ev in
      from_events_go s evs
  end.
Definition EventSummary_from_events (evs : list (result string Event)) : Result EventSummary :=
  from_events_go EventSummary_default evs.

(** ** Metadata *)

(** [{names:?}] of a list of names. *)
Fixpoint debug_items (l : list string) : string :=
  match l with
  | [] => EmptyString
  | [s] => str_debug s
  | s :: l => str_debug s +:+ ", " +:+ debug_items l
  end.
Definition list_debug (l : list string) : string := "[" +:+ debug_items l +:+ "]".
Fixpoint join (sep : string) (l : list string) : string :=
  match l with
  | [] => EmptyString
  | [s] => s
  | s :: l => s +:+ sep +:+ join sep l
  end.

Definition verify_call (md : string -> option Pallet) (req : string * string * list string)
  : Result string :=
  let '(pallet, call, args) := req in
  let? p := ok_or (md pallet) (Error_Chain ("pallet " +:+ pallet +:+ " missing")) in
  let? v := ok_or (call_variant_by_name p call)
              (Error_Chain ("call " +:+ pallet +:+ "." +:+ call +:+ " missing from runtime")) in
  let names := omap id (variant_fields v) in
  if negb (bool_decide (names = args)) then
    Err (Error_Chain ("call " +:+ pallet +:+ "." +:+ call +:+ " has args " +:+ list_debug names
                      +:+ ", expected " +:+ list_debug args))
  else
    Ok ("call " +:+ pallet +:+ "." +:+ call +:+ " #" +:+ u64_display (variant_index v)
        +:+ "(" +:+ join ", " names +:+ ")").

Definition verify_event (md : string -> option Pallet) (req : string * string) : Result string :=
  let '(pallet, ev) := req in
  let? p := ok_or (md pallet) (Error_Chain ("pallet " +:+ pallet +:+ " missing")) in
  let? v := ok_or (vs ← event_variants p; List.find (fun v => bool_decide (variant_name v = ev)) vs)
              (Error_Chain ("event " +:+ pallet +:+ "." +:+ ev +:+ " missing")) in
  Ok ("event " +:+ pallet +:+ "." +:+ ev +:+ " #" +:+ u64_display (variant_index v)).

Definition verify_metadata (spec_version : Z) (md : string -> option Pallet)
  : Result (list string) :=
  let? calls := collect (verify_call md <$> REQUIRED_CALLS) in
  let? events := collect (verify_event md <$> REQUIRED_EVENTS) in
  Ok (("spec_version " +:+ u64_display spec_version) :: calls ++ events).

Definition decode_partial_fee (bytes : list Byte.byte) : Result Z :=
  let bad := Error_Chain "cannot decode RuntimeDispatchInfo" in
  let? cur := ok_or (decode_dispatch_head bytes) bad in
  if decide (length cur = 8%nat) then ok_or (decode_u64 cur) bad
  else if decide (length cur = 16%nat) then
    let? v := ok_or (decode_u128 cur) bad in
    ok_or (u64_try_from v) bad
  else Err bad.
End Chain.

(** ** Prices *)

(** [u128] shifts take the amount modulo 128 and [*] wraps (release profile). *)
Definition fixed_bits_to_rao (bits frac : Z) : Z :=
  let sh := frac mod 128 in
  let whole := Z.shiftr bits sh in
  let part := Z.land bits ((2 ^ sh) - 1) in
  let rao := u128_saturating_add (u128_saturating_mul whole RAO_PER_TAO)
               (Z.shiftr ((part * RAO_PER_TAO) mod 340282366920938463463374607431768211456) sh) in
  default u64_max (u64_try_from rao).

(** A decoded storage value ([scale_value::Value]), as far as it is inspected. *)
Inductive ScaleValue : Type :=
| SV_I128 (b : Z)
| SV_U128 (b : Z)
| SV_Composite (values : list ScaleValue)
| SV_Other.

Fixpoint find_bits (v : ScaleValue) : option Z :=
  match v with
  | SV_I128 b => Some b
  | SV_U128 b => if b <=? 170141183460469231731687303715884105727 then Some b else None
  | SV_Composite values =>
      (fix go vs := match vs with
                    | [] => None
                    | v :: vs => match find_bits v with Some b => Some b | None => go vs end
                    end) values
  | SV_Other => None
  end.

Definition i96f32_to_rao (v : ScaleValue) : Result Z :=
  let? bits := ok_or (find_bits v) (Error_Chain "cannot decode SubnetMovingPrice") in
  if bits <=? 0 then Ok 0 else Ok (fixed_bits_to_rao bits 32).

(** ** Signers and URLs *)

Definition signer_of (address : list Byte.byte) : option AccountId32 :=
  match address with
  | Byte.x00 :: rest =>
      if decide (length rest = 32%nat) then Some (mkAccountId32 rest) else None
  | _ => None
  end.

(** [rest.split(['/', '?', '#']).next()]. *)
Fixpoint str_until (p : ascii -> bool) (s : string) : string :=
  match s with
  | EmptyString => EmptyString
  | String a s => if p a then EmptyString else String a (str_until p s)
  end.
(** [host.rsplit('@').next()]: what follows the last [c], or everything. *)
Fixpoint after_last (c : ascii) (s : string) : string :=
  match s with
  | EmptyString => EmptyString
  | String a s' =>
      if str_contains c s' then after_last c s'
      else if ascii_dec a c then s' else s
  end.

Definition url_delimiter (a : ascii) : bool :=
  bool_decide (a = "/"%char) || bool_decide (a = "?"%char) || bool_decide (a = "#"%char).

Definition redact_url (url : string) : string :=
  match split_once "://" url with
  | Some (scheme, rest) =>
      let host := str_until url_delimiter rest in
      let host := after_last "@" host in
      scheme +:+ "://" +:+ host
  | None => "<invalid url>"
  end.

(** ** Endpoints *)

Record Endpoint := mkEndpoint {
  ep_url : string;
  ep_bearer : option string }.

Definition Endpoint_new (url : string) : Endpoint := {| ep_url := url; ep_bearer := None |}.

Definition Endpoint_with_bearer (ep : Endpoint) (key : string) : Endpoint :=
  let k := str_trim key in
  {| ep_url := ep_url ep;
     ep_bearer := if negb (str_is_empty k) then Some k else None |}.

(** * Theorems *)

(** The number of arguments the crate passes is the number it requires. *)
Lemma payload_required (c : ChainCall) :
  exists names, In (ChainCall_payload c).1 ((fun '(p, n, _) => (p, n)) <$> REQUIRED_CALLS) /\
    In ((ChainCall_payload c).1, names) REQUIRED_CALLS /\
    length names = length (ChainCall_payload c).2.
Proof. destruct c; eexists; (split; [|split]); cbn; try (by auto 12); done. Qed.

Lemma expected_event_required (c : ChainCall) :
  (forall h, c <> AssociateHotkey h) -> In (ChainCall_expected_event c) REQUIRED_EVENTS.
Proof. destruct c as [| | | | |h| |]; intros Hc; cbn; auto 8. by destruct (Hc h). Qed.

Section ChainTheorems.
Context `{Runtime}.

Lemma verify_call_ok md pallet call args line :
  verify_call md (pallet, call, args) = Ok line ->
  exists p v, md pallet = Some p /\ call_variant_by_name p call = Some v /\
              omap id (variant_fields v) = args.
Proof.
  unfold verify_call. intros Hv.
  apply result_bind_ok in Hv as (p & Hp & Hv). apply ok_or_ok in Hp.
  apply result_bind_ok in Hv as (v & Hcv & Hv). apply ok_or_ok in Hcv.
  case_bool_decide; [|done]. eauto.
Qed.

Lemma verify_event_ok md pallet ev line :
  verify_event md (pallet, ev) = Ok line ->
  exists p vs v, md pallet = Some p /\ event_variants p = Some vs /\
                 In v vs /\ variant_name v = ev.
Proof.
  unfold verify_event. intros Hv.
  apply result_bind_ok in Hv as (p & Hp & Hv). apply ok_or_ok in Hp.
  apply result_bind_ok in Hv as (v & Hev & _). apply ok_or_ok in Hev.
  destruct (event_variants p) as [vs|] eqn:Hvs; [|done]. cbn in Hev.
  apply find_some in Hev as [Hin Hn]. bool_simpl. eauto 8.
Qed.

Lemma collect_map_in {A B} (f : A -> Result B) l ys x :
  collect (f <$> l) = Ok ys -> In x l -> exists y, f x = Ok y.
Proof.
  intros Hc Hin. apply collect_ok in Hc.
  apply (in_map f) in Hin. change (List.map f l) with (f <$> l) in Hin.
  rewrite Hc in Hin. apply in_map_iff in Hin as (y & <- & _). eauto.
Qed.

(** C35: once [verify_metadata] succeeds, every call the crate can send
    resolves in the connected runtime, with the argument names the crate
    requires and exactly as many arguments as the payload carries; and the
    event the crate waits for exists in the runtime (hotkey association
    waits for no pallet event). *)
Theorem verified_metadata_covers_calls (spec_version : Z) (md : string -> option Pallet)
  (lines : list string) (Hverify : verify_metadata spec_version md = Ok lines) (c : ChainCall) :
  (let '(pallet, name, args) := ChainCall_payload c in
   exists p v, md pallet = Some p /\ call_variant_by_name p name = Some v /\
     In (pallet, name, omap id (variant_fields v)) REQUIRED_CALLS /\
     length (omap id (variant_fields v)) = length args) /\
  ((forall h, c <> AssociateHotkey h) ->
   let '(pallet, ev) := ChainCall_expected_event c in
   exists p vs v, md pallet = Some p /\ event_variants p = Some vs /\
     In v vs /\ variant_name v = ev).
Proof.
  unfold verify_metadata in Hverify.
  apply result_bind_ok in Hverify as (calls & Hcalls & Hverify).
  apply result_bind_ok in Hverify as (events & Hevents & _).
  split.
  - destruct (payload_required c) as (names & _ & Hin & Hlen).
    destruct (ChainCall_payload c) as [[pallet name] args]. cbn [fst snd] in *.
    destruct (collect_map_in _ _ _ _ Hcalls Hin) as [line Hl].
    apply verify_call_ok in Hl as (p & v & Hp & Hv & Hn). subst names. eauto 8.
  - intros Hc. pose proof (expected_event_required c Hc) as Hin.
    destruct (ChainCall_expected_event c) as [pallet ev].
    destruct (collect_map_in _ _ _ _ Hevents Hin) as [line Hl].
    by apply verify_event_ok in Hl.
Qed.

(** The names of one event and what it contributes to the summary. *)
Definition is_event (p n : string) (ev : Event) : bool :=
  bool_decide (ev_pallet ev = p) && bool_decide (ev_name ev = n).

Definition transfer_amount (ev : Event) : option Z :=
  if is_event "Balances" "Transfer" ev then (fun f => f.2) <$> result_ok (ev_as_AAu64 ev) else None.
Definition added_amounts (ev : Event) : option (Z * Z) :=
  if is_event PALLET "StakeAdded" ev
  then (fun '(_, _, tao, alpha, _, _) => (tao, alpha)) <$> result_ok (ev_as_AAu64u64u16u64 ev)
  else None.
Definition destroyed_amount (ev : Event) : option Z :=
  if is_event PALLET "AlphaBurned" ev || is_event PALLET "AlphaRecycled" ev
  then (fun '(_, _, amount, _) => amount) <$> result_ok (ev_as_AAu64u16 ev)
  else None.

(** The TAO a sweep or a consolidation moved: the last field of either event. *)
Definition moved_amount (ev : Event) : option Z :=
  if is_event PALLET "StakeTransferred" ev
  then (fun '(_, _, _, _, _, tao) => tao) <$> result_ok (ev_as_AAAu16u16u64 ev)
  else if is_event PALLET "StakeMoved" ev
  then (fun '(_, _, _, _, _, tao) => tao) <$> result_ok (ev_as_AAu16Au16u64 ev)
  else None.

(** [new] when there is one, [old] otherwise: assignment in a loop. *)
Definition or_keep {A} (old new : option A) : option A :=
  match new with Some a => Some a | None => old end.

Lemma chain_err_ok {A} (r : result string A) a : chain_err r = Ok a <-> r = Ok a.
Proof. by destruct r; cbn; split; intros [= ->]. Qed.

Lemma summarize_ok s ev s' :
  summarize s ev = Ok s' ->
  es_names s' = es_names s ++ [(ev_pallet ev, ev_name ev)] /\
  es_failed s' = es_failed s || is_event "System" "ExtrinsicFailed" ev /\
  es_stake_added s' = or_keep (es_stake_added s) (added_amounts ev) /\
  es_alpha_destroyed s' = or_keep (es_alpha_destroyed s) (destroyed_amount ev) /\
  es_stake_moved_tao s' = or_keep (es_stake_moved_tao s) (moved_amount ev) /\
  es_transferred s' =
    or_keep (es_transferred s)
      ((fun a => u64_add (default 0 (es_transferred s)) a) <$> transfer_amount ev).
Proof.
  unfold summarize, added_amounts, destroyed_amount, moved_amount, transfer_amount, is_event.
  generalize (ev_pallet ev) as p, (ev_name ev) as n. intros p n Hs.
  apply result_bind_ok in Hs as (s1 & H1 & Hs). injection Hs as <-.
  repeat match type of H1 with
  | context [bool_decide (?x = ?v)] =>
      destruct (decide (x = v)) as [->|];
      [decide_closed | rewrite !(bool_decide_eq_false_2 (x = v)) in * by done; cbn [andb orb] in H1]
  end;
  repeat match type of H1 with
  | result_bind _ _ = Ok _ =>
      apply result_bind_ok in H1 as (? & Hdec%chain_err_ok & H1); try rewrite Hdec
  end;
  repeat match goal with q : prod _ _ |- _ => destruct q end;
  injection H1 as <-;
  repeat match goal with
  | |- context [bool_decide (?x = ?v)] => rewrite (bool_decide_eq_false_2 (x = v)) by done
  end;
  destruct s as [? [] [] [] ? []]; cbn; rewrite ?Hr; repeat split.
Qed.

(** A list of events that all decode. *)
Definition decoded (evs : list Event) : list (result string Event) := Ok <$> evs.

Lemma from_events_go_ok s evs s' :
  from_events_go s evs = Ok s' -> exists l, evs = decoded l.
Proof.
  revert s. induction evs as [|r evs IH]; intros s Hgo; cbn in Hgo; [by exists []|].
  apply result_bind_ok in Hgo as (ev & ->%chain_err_ok & Hgo).
  apply result_bind_ok in Hgo as (s1 & _ & Hgo). apply IH in Hgo as [l ->].
  by exists (ev :: l).
Qed.

(** The last one of a list of optional contributions. *)
Definition last_some {A} (old : option A) (l : list (option A)) : option A :=
  fold_left or_keep l old.

(** The wrapping sum of the transfers, [None] when there is none. *)
Definition add_transfer (t : option Z) (a : option Z) : option Z :=
  or_keep t ((fun a => u64_add (default 0 t) a) <$> a).

Lemma from_events_go_spec l s s' :
  from_events_go s (decoded l) = Ok s' ->
  es_names s' = es_names s ++ ((fun ev => (ev_pallet ev, ev_name ev)) <$> l) /\
  es_failed s' = es_failed s || existsb (is_event "System" "ExtrinsicFailed") l /\
  es_stake_added s' = last_some (es_stake_added s) (added_amounts <$> l) /\
  es_alpha_destroyed s' = last_some (es_alpha_destroyed s) (destroyed_amount <$> l) /\
  es_stake_moved_tao s' = last_some (es_stake_moved_tao s) (moved_amount <$> l) /\
  es_transferred s' = fold_left add_transfer (transfer_amount <$> l) (es_transferred s).
Proof.
  revert s. induction l as [|ev l IH]; intros s Hgo; cbn in Hgo |- *.
  { injection Hgo as <-. by rewrite app_nil_r, orb_false_r. }
  apply result_bind_ok in Hgo as (s1 & Hs1 & Hgo).
  apply summarize_ok in Hs1 as (H1 & H2 & H3 & H4 & H5 & H6).
  apply IH in Hgo as (-> & -> & -> & -> & -> & ->).
  rewrite H1, H2, H3, H4, H5, H6, <- app_assoc, orb_assoc. done.
Qed.

Lemma fold_add_transfer l t :
  Forall (fun a => 0 <= a) (omap id l) -> 0 <= default 0 t ->
  default 0 t + foldr Z.add 0 (omap id l) <= u64_max ->
  (t = None -> omap id l <> []) ->
  fold_left add_transfer l t = Some (default 0 t + foldr Z.add 0 (omap id l)).
Proof.
  revert t. induction l as [|[a|] l IH]; intros t Hpos Ht Hsum Hne; cbn in *.
  - destruct t as [t|]; [by rewrite Z.add_0_r|]. by destruct Hne.
  - apply Forall_cons in Hpos as [Ha Hpos].
    assert (0 <= foldr Z.add 0 (omap id l)) by (clear -Hpos; induction Hpos; cbn; lia).
    assert (Hadd : u64_add (default 0 t) a = default 0 t + a) by (apply u64_add_small; u64_unfold; lia).
    rewrite IH; cbn; rewrite ?Hadd; try (f_equal; lia); try lia; done.
  - by apply IH.
Qed.

(** C36: an event summary is exactly what the extrinsic's events say: it
    exists only when every event decodes; the names are all of them in order;
    [failed] is whether [System.ExtrinsicFailed] is among them; the purchase and
    destruction amounts are those of the last such event, the moved stake that of
    the last [StakeTransferred] or [StakeMoved]; and the transferred
    amount is the sum of the [Balances.Transfer]s, when it fits in [u64]. *)
Theorem from_events_sound (evs : list (result string Event)) (s : EventSummary)
  (Hs : EventSummary_from_events evs = Ok s) :
  exists l, evs = decoded l /\
    es_names s = ((fun ev => (ev_pallet ev, ev_name ev)) <$> l) /\
    es_failed s = existsb (is_event "System" "ExtrinsicFailed") l /\
    es_stake_added s = last_some None (added_amounts <$> l) /\
    es_alpha_destroyed s = last_some None (destroyed_amount <$> l) /\
    es_stake_moved_tao s = last_some None (moved_amount <$> l) /\
    (let amounts := omap transfer_amount l in
     (amounts = [] -> es_transferred s = None) /\
     (amounts <> [] -> Forall (fun a => 0 <= a) amounts -> foldr Z.add 0 amounts <= u64_max ->
      es_transferred s = Some (foldr Z.add 0 amounts))).
Proof.
  destruct (from_events_go_ok _ _ _ Hs) as [l ->].
  apply from_events_go_spec in Hs as (H1 & H2 & H3 & H4 & H6 & H5).
  exists l. do 6 (split; [done|]). cbn zeta.
  assert (Hom : omap transfer_amount l = omap id (transfer_amount <$> l)).
  { clear. induction l as [|ev l IH]; [done|]. cbn. destruct (transfer_amount ev); cbn; by rewrite ?IH. }
  rewrite Hom, H5. split.
  - clear. intros He. change (es_transferred EventSummary_default) with (@None Z).
    induction (transfer_amount <$> l) as [|[a|] l' IH]; cbn in *; [done|done|by apply IH].
  - intros Hne Hpos Hsum. rewrite fold_add_transfer; cbn; try done; try lia.
Qed.
End ChainTheorems.

(** ** Prices and URLs *)

(** A fixed-point price converts to the exact floor of its value in rao per
    alpha, saturating at the largest [u64], for the [I96F32] storage format and
    every fraction width the crate decodes. *)
Theorem fixed_bits_to_rao_exact (bits frac : Z)
  (Hbits : 0 <= bits < 2 ^ 128) (Hfrac : 0 <= frac <= 98) :
  fixed_bits_to_rao bits frac = Z.min (bits * RAO_PER_TAO / 2 ^ frac) u64_max.
Proof.
  unfold fixed_bits_to_rao. rewrite (Z.mod_small frac 128) by lia.
  assert (H2 : 0 < 2 ^ frac) by (apply Z.pow_pos_nonneg; lia).
  assert (H98 : 2 ^ frac <= 2 ^ 98) by (apply Z.pow_le_mono_r; lia).
  rewrite Z.shiftr_div_pow2 by lia.
  replace (Z.land bits (2 ^ frac - 1)) with (bits mod 2 ^ frac)
    by (rewrite <- Z.land_ones by lia; f_equal; rewrite Z.ones_equiv; lia).
  set (q := bits / 2 ^ frac). set (p := bits mod 2 ^ frac).
  assert (Hp : 0 <= p < 2 ^ frac) by (apply Z.mod_pos_bound; lia).
  assert (Hq : 0 <= q) by (apply Z.div_pos; lia).
  assert (Hbq : bits = 2 ^ frac * q + p) by (apply Z.div_mod; lia).
  assert (HR : RAO_PER_TAO = 1000000000) by reflexivity.
  assert (Hprod : 0 <= p * RAO_PER_TAO < 340282366920938463463374607431768211456).
  { rewrite HR. change (2 ^ 98) with 316912650057057350374175801344 in H98. lia. }
  rewrite (Z.mod_small (p * RAO_PER_TAO)) by lia.
  rewrite Z.shiftr_div_pow2 by lia.
  assert (Hdiv : bits * RAO_PER_TAO / 2 ^ frac = q * RAO_PER_TAO + p * RAO_PER_TAO / 2 ^ frac).
  { rewrite Hbq. rewrite <- Z.div_add_l by lia. f_equal. lia. }
  rewrite Hdiv.
  assert (Hpd : 0 <= p * RAO_PER_TAO / 2 ^ frac < RAO_PER_TAO).
  { split; [apply Z.div_pos; lia|apply Z.div_lt_upper_bound; [lia|]]. rewrite HR. lia. }
  set (d := p * RAO_PER_TAO / 2 ^ frac) in *. clearbody d q p. clear Hdiv.
  unfold u128_saturating_add, u128_saturating_mul, u64_try_from, u128_max, u64_max in *.
  rewrite HR in *. u64_unfold. 
  destruct (decide (q * 1000000000 + d <= 18446744073709551615)).
  - rewrite !Z.min_l by lia. case_match; cbn; lia.
  - case_match; cbn; lia.
Qed.

Definition no_char (c : ascii) : string -> bool :=
  str_forall (fun a => negb (bool_decide (a = c))).
Definition no_delimiter : string -> bool := str_forall (fun a => negb (url_delimiter a)).

Lemma split_once_first c p s t :
  no_char c s = true ->
  split_once (String c p) (s +:+ (String c p +:+ t)) = Some (s, t).
Proof.
  intros Hs. induction s as [|a s IH].
  - rewrite str_app_nil. cbn [split_once].
    assert (strip_prefix (String c p) (String c p +:+ t) = Some t) as H
      by (by apply (proj2 (strip_prefix_app _ _ _))).
    rewrite str_app_cons in *. cbn [split_once]. by rewrite H.
  - cbn in Hs. bool_simpl. rewrite str_app_cons. cbn.
    destruct (ascii_dec c a) as [->|]; [done|]. by rewrite IH.
Qed.

Lemma str_until_app p s t :
  str_forall (fun a => negb (p a)) s = true ->
  str_until p (s +:+ t) = s +:+ str_until p t.
Proof.
  induction s as [|a s IH]; intros Hs; [done|]. cbn in Hs. bool_simpl.
  rewrite !str_app_cons. cbn [str_until]. by rewrite H, IH.
Qed.

Lemma no_char_contains c s : no_char c s = negb (str_contains c s).
Proof. unfold str_contains. by rewrite negb_involutive. Qed.

Lemma after_last_app c s t :
  no_char c t = true -> after_last c (s +:+ String c t) = t.
Proof.
  intros Ht. induction s as [|a s IH].
  - rewrite str_app_nil. cbn. rewrite no_char_contains in Ht.
    apply negb_true_iff in Ht. rewrite Ht. by destruct (ascii_dec c c).
  - rewrite str_app_cons. cbn.
    assert (str_contains c (s +:+ String c t) = true) as ->; [|done].
    unfold str_contains. rewrite str_forall_app. cbn.
    rewrite (bool_decide_eq_true_2 (c = c)) by done. cbn. by rewrite andb_false_r.
Qed.

(** What is logged of an endpoint URL is its scheme and host: the user
    information (even one that contains an [@]), the path, the query and the
    fragment are dropped. *)
Theorem redact_url_hides (scheme userinfo host tail : string)
  (Hscheme : no_char ":" scheme = true) (Huser : no_delimiter userinfo = true)
  (Hhost : no_delimiter host = true) (Hat : no_char "@" host = true)
  (Htail : str_until url_delimiter tail = EmptyString) :
  redact_url (scheme +:+ ("://" +:+ (userinfo +:+ ("@" +:+ (host +:+ tail))))) =
  scheme +:+ ("://" +:+ host).
Proof.
  unfold redact_url. rewrite (split_once_first ":" "//") by done.
  rewrite str_until_app by done. change ("@" +:+ ?x) with (String "@" x).
  cbn [str_until]. change (url_delimiter "@") with false. cbn iota.
  rewrite str_until_app by done. rewrite Htail, str_app_nil_r.
  by rewrite after_last_app.
Qed.

Lemma redact_url_hides_witness :
  redact_url "wss://user:p@ss@node.example:443/rpc?key=s3cret" = "wss://node.example:443".
Proof.
  apply (redact_url_hides "wss" "user:p@ss" "node.example:443" "/rpc?key=s3cret"); reflexivity.
Defined.

Lemma fixed_bits_to_rao_exact_witness :
  (* 0.0315 TAO per alpha as I96F32 bits *)
  fixed_bits_to_rao 135291470 32 = 31500000.
Proof.
  rewrite (fixed_bits_to_rao_exact 135291470 32); [reflexivity|lia..].
Defined.

(** ** A concrete runtime, for the witnesses *)
Module Toy.
Record toy_event := mkToyEvent {
  te_pallet : string;
  te_name : string;
  te_phase : Phase;
  te_index : Z;
  te_accounts : list AccountId32;
  te_ints : list Z }.

Definition toy_bad {A} : result string A := Err "cannot decode event".

Definition toy_calls (pallet : string) : list (string * list string) :=
  omap (fun '(p, c, args) => if bool_decide (p = pallet) then Some (c, args) else None) REQUIRED_CALLS.
Definition toy_events (pallet : string) : list string :=
  omap (fun '(p, e) => if bool_decide (p = pallet) then Some e else None) REQUIRED_EVENTS.

(** Pallets are their names; variants are a name with its arguments; integers
    are one byte per digit, base 256, big endian. *)
Definition decode_be (l : list Byte.byte) : option Z :=
  Some (fold_left (fun acc b => acc * 256 + Z.of_N (Byte.to_N b)) l 0).

#[export] Instance toy_runtime : Runtime := {|
  Event := toy_event;
  ev_pallet := te_pallet;
  ev_name := te_name;
  ev_phase := te_phase;
  ev_index := te_index;
  ev_as_AAu64u64u16u64 e :=
    match te_accounts e, te_ints e with
    | [a; b], [w; x; y; z] => Ok (a, b, w, x, y, z)
    | _, _ => toy_bad
    end;
  ev_as_AAu64u16 e :=
    match te_accounts e, te_ints e with [a; b], [x; y] => Ok (a, b, x, y) | _, _ => toy_bad end;
  ev_as_AAAu16u16u64 e :=
    match te_accounts e, te_ints e with
    | [a; b; c], [x; y; z] => Ok (a, b, c, x, y, z)
    | _, _ => toy_bad
    end;
  ev_as_AAu16Au16u64 e :=
    match te_accounts e, te_ints e with
    | [a; b; c], [x; y; z] => Ok (a, b, x, c, y, z)
    | _, _ => toy_bad
    end;
  ev_as_AAu64 e :=
    match te_accounts e, te_ints e with [a; b], [x] => Ok (a, b, x) | _, _ => toy_bad end;
  Pallet := string;
  Variant := string * list string;
  call_variant_by_name p c := List.find (fun v => bool_decide (v.1 = c)) (toy_calls p);
  event_variants p := Some ((fun e => (e, [])) <$> toy_events p);
  variant_name := fst;
  variant_index _ := 7;
  variant_fields v := Some <$> v.2;
  decode_dispatch_head l := if decide (3 <= length l)%nat then Some (drop 3 l) else None;
  decode_u64 := decode_be;
  decode_u128 := decode_be |}.

Definition toy_metadata (name : string) : option (@Pallet toy_runtime) :=
  if bool_decide (name = PALLET) || bool_decide (name = "Balances") then Some name else None.

Definition acct_a : AccountId32 := mkAccountId32 (replicate 32 Byte.x61).
Definition acct_b : AccountId32 := mkAccountId32 (replicate 32 Byte.x62).

Definition transfer_event (amount : Z) : toy_event :=
  mkToyEvent "Balances" "Transfer" (ApplyExtrinsic 1) 0 [acct_a; acct_b] [amount].
Definition added_event (tao alpha : Z) : toy_event :=
  mkToyEvent PALLET "StakeAdded" (ApplyExtrinsic 1) 1 [acct_a; acct_b] [tao; alpha; 7; 0].

Definition moved_event (tao : Z) : toy_event :=
  mkToyEvent PALLET "StakeMoved" (ApplyExtrinsic 1) 1 [acct_a; acct_b; acct_b] [1; 1; tao].

Definition toy_lines : list string :=
  match verify_metadata 1 toy_metadata with Ok l => l | Err _ => [] end.
End Toy.
Import Toy.

Lemma verified_metadata_covers_calls_witness :
  verify_metadata 1 toy_metadata = Ok toy_lines /\
  exists p v, toy_metadata "Balances" = Some p /\
    call_variant_by_name p "transfer_keep_alive" = Some v /\
    length (omap id (variant_fields v)) = 2%nat.
Proof.
  assert (H : verify_metadata 1 toy_metadata = Ok toy_lines) by (vm_compute; reflexivity).
  split; [exact H|].
  destruct (@verified_metadata_covers_calls toy_runtime 1 toy_metadata toy_lines H (TransferTao acct_a 5))
    as [(p & v & Hp & Hv & _ & Hlen) _].
  exists p, v. auto.
Defined.

Lemma from_events_sound_witness :
  let evs : list (result string (@Event toy_runtime)) :=
    [Ok (transfer_event 3); Ok (added_event 10 20); Ok (moved_event 6); Ok (transfer_event 4)] in
  exists s l, EventSummary_from_events evs = Ok s /\ evs = decoded l /\
    es_transferred s = Some 7 /\ es_stake_added s = Some (10, 20) /\ es_failed s = false /\
    es_stake_moved_tao s = last_some None (moved_amount <$> l) /\ es_stake_moved_tao s = Some 6.
Proof.
  intros evs.
  destruct (EventSummary_from_events evs) as [s|] eqn:Hs; [|vm_compute in Hs; discriminate].
  exists s. destruct (from_events_sound evs s Hs) as (l & Hl & _ & _ & _ & _ & Hm & _).
  exists l. split; [reflexivity|]. split; [exact Hl|].
  assert (Hv : es_transferred s = Some 7 /\ es_stake_added s = Some (10, 20) /\ es_failed s = false /\
               es_stake_moved_tao s = Some 6)
    by (vm_compute in Hs; injection Hs as <-; repeat split; reflexivity).
  destruct Hv as (H1 & H2 & H3 & H4).
  split; [exact H1|]. split; [exact H2|]. split; [exact H3|]. split; [exact Hm|exact H4].
Defined.
