(* ===== verification/StoreSpec.v ===== *)
(** The [Store] trait (src/src/store.rs): its operations with the default
    methods, and the contract every client relies on.

    An operation runs on a store state [S] in an environment [SEnv]: the clock,
    the fresh uuid and the fault the operation meets.  [StoreLaws] states the
    contract over the abstract content of a store, [view]: a finite map from
    payment ids to records. *)
From S2P Require Import Prelude RustStd Types Keys State.
Local Open Scope Z_scope.

(** What goes wrong in the database or the file system: nothing, an error
    before the operation's effect is durable, or an error reported after it. *)
Inductive Fault : Type :=
| NoFault
| FaultBefore (e : string)
| FaultAfter (e : string).

Record SEnv := mkSEnv {
  se_now : Z;
  se_uuid : string;
  se_fault : Fault }.

Class StoreOps (S : Type) : Type := {
  require_signing : SEnv -> M S Error unit;
  reserve_signer_for_record : string -> PaymentRecord -> SEnv -> M S Error string;
  reserve_signer : string -> string -> SEnv -> M S Error string;
  cancel_preparation : string -> string -> string -> SEnv -> M S Error unit;
  migrate_legacy_policy : string -> Z -> option BuybackBudget -> SEnv -> M S Error PaymentRecord;
  insert_record : PaymentRecord -> SEnv -> M S Error unit;
  get_record : string -> SEnv -> M S Error (option PaymentRecord);
  list_records : list PaymentState -> SEnv -> M S Error (list PaymentRecord);
  update_record : PaymentRecord -> SEnv -> M S Error PaymentRecord }.

(** ** The default methods of the trait *)
Section Defaults.
Context {S : Type}.

Definition default_require_signing (_ : SEnv) : M S Error unit :=
  m_throw (Error_Store "shared signer reservations unsupported; requests disabled").
Definition default_reserve_signer_for_record (_ : string) (_ : PaymentRecord) (_ : SEnv)
  : M S Error string :=
  m_throw (Error_Store "atomic signer reservation unsupported").
Definition default_reserve_signer (_ _ : string) (_ : SEnv) : M S Error string :=
  m_throw (Error_Store "shared durable signer reservations unsupported; signing disabled").
Definition default_cancel_preparation (_ _ _ : string) (_ : SEnv) : M S Error unit :=
  m_throw (Error_Store "preparation cancellation unsupported").
End Defaults.

(** ** Shared rules *)

(** The fields [update] refuses to change. *)
Definition same_policy (a b : PaymentRecord) : bool :=
  bool_decide (pr_buyback_budget a = pr_buyback_budget b)
  && bool_decide (pr_auto_required a = pr_auto_required b)
  && bool_decide (pr_identity a = pr_identity b).

(** What a successful write stores. *)
Definition bump (now : Z) (r : PaymentRecord) : PaymentRecord :=
  r <| pr_version := pr_version r + 1 |> <| pr_updated_at := now |>.

(** The part of the guard of [migrated_policy] that looks for evidence. *)
Definition pristine (r : PaymentRecord) : bool :=
  negb (is_some (pr_auto_required r)
        || is_some (pr_buyback_budget r)
        || is_some (pr_pending r)
        || is_some (pr_quarantined r)
        || negb (bool_decide (pr_txs r = []))
        || is_some (pr_buyback r)
        || pr_buyback_done r
        || negb (pr_funded_tao r =? 0)
        || negb (pr_swept_alpha r =? 0)
        || negb (bool_decide (pr_swept_positions r = []))
        || negb (pr_consolidated r =? 0)
        || pr_dust_returned r
        || negb (bool_decide (pr_state r = Pending) || bool_decide (pr_state r = Detected))).

Definition migrated_policy `{Ss58} (rec : PaymentRecord) (version : Z)
  (budget : option BuybackBudget) (now : Z) : Result PaymentRecord :=
  if negb (pr_version rec =? version) then Err (Error_Conflict (pr_id rec))
  else if negb (pristine rec) then
    Err (Error_Store "legacy job has policy or execution evidence; manual reconciliation required")
  else
    let? _ := match budget with Some b => BuybackBudget_validate b | None => Ok tt end in
    let? v := ok_or (u64_checked_add (pr_version rec) 1) (Error_Store "version overflow") in
    Ok (rec <| pr_auto_required := Some (is_some budget) |>
            <| pr_buyback_budget := budget |>
            <| pr_version := v |>
            <| pr_updated_at := now |>).

(** ** The contract *)
Class StoreView (S : Type) : Type := {
  view : S -> gmap string PaymentRecord;
  store_ok : S -> Prop }.

(** [m] leaves the content of the store alone. *)
Definition keeps_view `{StoreView St} {A} (m : M St Error A) (s : St) : Prop :=
  wp m (fun _ s' => store_ok s' /\ view s' = view s) s.

Class StoreLaws (S : Type) `{StoreOps S} `{StoreView S} : Prop := {
  (** Records are filed under their id, with a [u64] version. *)
  view_id : forall s id r, store_ok s -> view s !! id = Some r ->
    pr_id r = id /\ is_u64 (pr_version r);
  require_signing_law : forall env s, store_ok s -> keeps_view (require_signing env) s;
  reserve_law : forall signer r env s, store_ok s ->
    keeps_view (reserve_signer_for_record signer r env) s;
  cancel_law : forall signer job token env s, store_ok s ->
    keeps_view (cancel_preparation signer job token env) s;
  get_law : forall id env s, store_ok s ->
    wp (get_record id env) (fun res s' =>
      s' = s /\ match res with Ok o => o = view s !! id | Err _ => True end) s;
  list_law : forall states env s, store_ok s ->
    wp (list_records states env) (fun res s' =>
      s' = s /\ match res with
                | Ok l => NoDup (pr_id <$> l) /\
                          (forall r, r ∈ l <-> view s !! pr_id r = Some r /\ pr_state r ∈ states)
                | Err _ => True
                end) s;
  (** Insertion adds a new id. *)
  insert_law : forall r env s, store_ok s -> is_u64 (pr_version r) ->
    wp (insert_record r env) (fun res s' =>
      store_ok s' /\
      match res with
      | Ok _ => view s !! pr_id r = None /\ view s' = <[pr_id r := r]> (view s)
      | Err _ => view s' = view s
      end) s;
  (** Compare-and-swap on the version, under an unchanged policy; a refused
      write changes nothing. *)
  update_law : forall r env s, store_ok s ->
    wp (update_record r env) (fun res s' =>
      store_ok s' /\
      match res with
      | Ok next => exists cur, view s !! pr_id r = Some cur /\
          pr_version cur = pr_version r /\ pr_version r < u64_max /\
          same_policy cur r = true /\ next = bump (se_now env) r /\
          view s' = <[pr_id r := next]> (view s)
      | Err _ => view s' = view s
      end) s }.

Lemma same_policy_true a b :
  same_policy a b = true <->
  pr_buyback_budget a = pr_buyback_budget b /\ pr_auto_required a = pr_auto_required b /\
  pr_identity a = pr_identity b.
Proof.
  unfold same_policy. rewrite !andb_true_iff, !bool_decide_eq_true. tauto.
Qed.

Lemma migrated_policy_ok `{Ss58} rec version budget now next :
  migrated_policy rec version budget now = Ok next ->
  pr_version rec = version /\ pristine rec = true /\ pr_version rec < u64_max /\
  (forall b, budget = Some b -> BuybackBudget_validate b = Ok tt) /\
  next = bump now (rec <| pr_auto_required := Some (is_some budget) |>
                       <| pr_buyback_budget := budget |>).
Proof.
  unfold migrated_policy. intros Hm.
  destruct (_ =? version) eqn:Hv; cbn [negb] in Hm; [|done].
  destruct (pristine rec) eqn:Hp; cbn [negb] in Hm; [|done].
  apply result_bind_ok in Hm as ([] & Hb & Hm).
  apply result_bind_ok in Hm as (v & Hadd & Hm). apply ok_or_ok in Hadd.
  apply u64_checked_add_some in Hadd as [-> Hr]. injection Hm as <-.
  bool_simpl. split; [done|]. split; [done|]. split; [u64_unfold; lia|].
  split; [|done]. intros b ->. done.
Qed.
