(* ===== verification/SqliteStore.v ===== *)
(** [SqliteStore] (src/src/store.rs): two tables and one transaction per
    operation.

    The database is its tables: [payments] by primary key, with the columns the
    queries read, and [signer_reservations] by signer.  A transaction is a
    function from the database to a result and the new database: on any error
    the dropped [rusqlite::Transaction] rolls back.  The JSON of a record is the
    record itself ([serde_json] round trips the derived formats). *)
From S2P Require Import Prelude RustStd Types Keys State StoreSpec.
From stdpp Require Import sorting.
Local Open Scope Z_scope.

Record PayRow := mkPayRow {
  row_rowid : Z;
  row_state : string;
  row_version : Z;
  row_created_at : Z;
  row_record : PaymentRecord }.

Record Sqlite := mkSqlite {
  db_payments : gmap string PayRow;
  (** signer to (job, token) *)
  db_reservations : gmap string (string * string);
  (** (job, previous version) to the applied manifest and its report *)
  db_recoveries : gmap (string * Z) (LegacyManifest * RecoveryReport) }.

Definition eta_Sqlite (db : Sqlite) : Sqlite :=
  mkSqlite (db_payments db) (db_reservations db) (db_recoveries db).
#[export] Instance upd_payments : Updater db_payments := ltac:(solve_updater eta_Sqlite db_payments).
#[export] Instance upd_reservations : Updater db_reservations :=
  ltac:(solve_updater eta_Sqlite db_reservations).
#[export] Instance upd_recoveries : Updater db_recoveries :=
  ltac:(solve_updater eta_Sqlite db_recoveries).

Definition SqliteStore_init : Sqlite := mkSqlite ∅ ∅ ∅.

(** ** Queries *)

(** [json_extract(record, '$.pending.signer')], [json_extract(record, '$.quarantined.signer')]. *)
Definition journal_signer (r : PaymentRecord) : option string := pd_signer <$> pr_pending r.
Definition quarantine_signer (r : PaymentRecord) : option string := pd_signer <$> pr_quarantined r.

Definition signer_journaled (db : Sqlite) (signer : string) : bool :=
  bool_decide (map_Exists (fun _ row => journal_signer (row_record row) = Some signer)
                 (db_payments db)).
Definition token_used (db : Sqlite) (token : string) : bool :=
  bool_decide (map_Exists (fun (_ : string) jt => jt.2 = token) (db_reservations db)).
Definition job_reserved (db : Sqlite) (job : string) : bool :=
  bool_decide (map_Exists (fun (_ : string) jt => jt.1 = job) (db_reservations db)).

(** [BEGIN IMMEDIATE .. COMMIT].  The database may fail in place of the statements
    ([FaultBefore]) or in the commit ([FaultAfter]); SQLite rolls back either way, so
    a failure that is reported never leaves a write behind. *)
Definition transaction {A} (f : SEnv -> Sqlite -> Result (A * Sqlite)) (env : SEnv)
  : M Sqlite Error A :=
  fun db =>
    match se_fault env with
    | NoFault =>
        match f env db with
        | Ok (a, db') => (Ok a, db')
        | Err e => (Err e, db)
        end
    | FaultBefore e | FaultAfter e => (Err (Error_Store e), db)
    end.

(** ** Operations *)

Definition reserve (signer job : string) (version : option Z) : SEnv -> M Sqlite Error string :=
  transaction (fun env db =>
    let? _ :=
      match version with
      | Some version =>
          let current := row_version <$> db_payments db !! job in
          if negb (bool_decide (current = i64_try_from version))
          then Err (Error_Conflict job) else Ok tt
      | None => Ok tt
      end in
    if signer_journaled db signer then Err (Error_Conflict "unresolved signer journal")
    else
      let token := se_uuid env in
      (* INSERT OR IGNORE: one row per signer, tokens unique *)
      if is_some (db_reservations db !! signer) || token_used db token
      then Err (Error_Conflict ("signer " +:+ signer +:+ " reserved"))
      else Ok (token, db <| db_reservations := <[signer := (job, token)]> (db_reservations db) |>)).

Definition sqlite_cancel_preparation (signer job token : string) : SEnv -> M Sqlite Error unit :=
  transaction (fun env db =>
    let journaled :=
      signer_journaled db signer
      || match db_payments db !! job with
         | Some row => is_some (pr_pending (row_record row))
         | None => false
         end in
    if negb (bool_decide (db_reservations db !! signer = Some (job, token))) || journaled
    then Err (Error_Conflict "preparation token or pending journal changed")
    else Ok (tt, db <| db_reservations := delete signer (db_reservations db) |>)).

Definition no_rows : Error := Error_Store "Query returned no rows".
Definition try_from_int_error : Error :=
  Error_Store "out of range integral type conversion attempted".

(** [UPDATE payments SET .. WHERE id = ?]: the columns given, the others kept. *)
Definition update_row (state : option string) (version : Z) (record : PaymentRecord) (row : PayRow)
  : PayRow :=
  mkPayRow (row_rowid row) (default (row_state row) state) version (row_created_at row) record.

Definition sqlite_migrate_legacy_policy `{Ss58} (id : string) (version : Z)
  (budget : option BuybackBudget) : SEnv -> M Sqlite Error PaymentRecord :=
  transaction (fun env db =>
    if job_reserved db id then Err (Error_Conflict "job has a signer reservation")
    else
      let? row := ok_or (db_payments db !! id) no_rows in
      let? next := migrated_policy (row_record row) version budget (se_now env) in
      let? v := ok_or (i64_try_from (pr_version next)) try_from_int_error in
      Ok (next, db <| db_payments := <[id := update_row None v next row]> (db_payments db) |>)).

Definition sqlite_insert (rec : PaymentRecord) : SEnv -> M Sqlite Error unit :=
  transaction (fun env db =>
    if is_some (db_payments db !! pr_id rec)
    then Err (Error_Store "UNIQUE constraint failed: payments.id")
    else
      let row := mkPayRow (Z.of_nat (size (db_payments db)) + 1) (PaymentState_as_str (pr_state rec))
                   (u64_as_i64 (pr_version rec)) (u64_as_i64 (pr_created_at rec)) rec in
      Ok (tt, db <| db_payments := <[pr_id rec := row]> (db_payments db) |>)).

Definition sqlite_get (id : string) : SEnv -> M Sqlite Error (option PaymentRecord) :=
  transaction (fun env db => Ok (row_record <$> db_payments db !! id, db)).

(** [ORDER BY created_at], rows with the same value in [rowid] order. *)
Definition row_le (a b : PayRow) : Prop :=
  row_created_at a < row_created_at b \/
  (row_created_at a = row_created_at b /\ row_rowid a <= row_rowid b).
#[export] Instance row_le_dec : RelDecision row_le.
Proof. intros a b. unfold row_le. apply _. Defined.

Definition sqlite_list (states : list PaymentState) : SEnv -> M Sqlite Error (list PaymentRecord) :=
  transaction (fun env db =>
    let wanted := PaymentState_as_str <$> states in
    let rows := merge_sort row_le (map_to_list (db_payments db)).*2 in
    Ok (row_record <$> filter (fun row => row_state row ∈ wanted) rows, db)).

(** The journal checks of [update]: what happens to the reservations. *)
Definition update_reservations (previous rec : PaymentRecord)
  (reservations : gmap string (string * string)) : Result (gmap string (string * string)) :=
  let legacy := Error_Store "legacy journal requires manual reconciliation" in
  let mismatch := Error_Store "signer reservation mismatch" in
  let? _ :=
    match pr_pending rec with
    | Some p =>
        let? token := ok_or (pd_reservation p) legacy in
        if negb (bool_decide (reservations !! pd_signer p = Some (pr_id rec, token)))
        then Err mismatch else Ok tt
    | None => Ok tt
    end in
  match pr_pending previous with
  | Some p =>
      if is_some (pr_pending rec) && negb (bool_decide (pr_pending rec = pr_pending previous))
      then Err (Error_Store "cannot replace unresolved journal")
      else if is_none (pr_pending rec) then
        let? token := ok_or (pd_reservation p) legacy in
        if negb (bool_decide (reservations !! pd_signer p = Some (pr_id rec, token)))
        then Err mismatch
        else Ok (delete (pd_signer p) reservations)
      else Ok reservations
  | None => Ok reservations
  end.

Definition sqlite_update (rec : PaymentRecord) : SEnv -> M Sqlite Error PaymentRecord :=
  transaction (fun env db =>
    let? row := ok_or (db_payments db !! pr_id rec) (Error_NotFound (pr_id rec)) in
    let previous := row_record row in
    if negb (pr_version previous =? pr_version rec) then Err (Error_Conflict (pr_id rec))
    else if negb (same_policy previous rec) then Err (Error_Store "immutable job budget")
    else
      let? reservations := update_reservations previous rec (db_reservations db) in
      let? v := ok_or (u64_checked_add (pr_version rec) 1) (Error_Store "version overflow") in
      let next := rec <| pr_version := v |> <| pr_updated_at := se_now env |> in
      let row' := update_row (Some (PaymentState_as_str (pr_state next)))
                    (u64_as_i64 (pr_version next)) next row in
      Ok (next, db <| db_reservations := reservations |>
                   <| db_payments := <[pr_id next := row']> (db_payments db) |>)).

#[export] Instance SqliteStore_ops `{Ss58} : StoreOps Sqlite := {|
  require_signing _ := m_ret tt;
  reserve_signer_for_record signer rec := reserve signer (pr_id rec) (Some (pr_version rec));
  reserve_signer signer job := reserve signer job None;
  cancel_preparation := sqlite_cancel_preparation;
  migrate_legacy_policy := sqlite_migrate_legacy_policy;
  insert_record := sqlite_insert;
  get_record := sqlite_get;
  list_records := sqlite_list;
  update_record := sqlite_update |}.

(** ** The content of the database *)

Definition row_ok (id : string) (row : PayRow) : Prop :=
  let r := row_record row in
  pr_id r = id /\ is_u64 (pr_version r) /\ row_version row = u64_as_i64 (pr_version r) /\
  row_state row = PaymentState_as_str (pr_state r).

#[export] Instance SqliteStore_view : StoreView Sqlite := {|
  view db := row_record <$> db_payments db;
  store_ok db := map_Forall row_ok (db_payments db) |}.

(** * Lemmas *)

Lemma transaction_wp {A} (f : SEnv -> Sqlite -> Result (A * Sqlite)) env db
  (Q : Result A -> Sqlite -> Prop) :
  (forall a db', f env db = Ok (a, db') -> Q (Ok a) db') ->
  (forall e, Q (Err e) db) ->
  wp (transaction f env) Q db.
Proof.
  intros Hok Herr. unfold wp, transaction.
  destruct (se_fault env); cbn; auto.
  destruct (f env db) as [[a db']|e]; cbn; auto.
Qed.

Lemma signer_journaled_false db signer :
  signer_journaled db signer = false <->
  forall id row, db_payments db !! id = Some row -> journal_signer (row_record row) <> Some signer.
Proof.
  unfold signer_journaled. rewrite bool_decide_eq_false. unfold map_Exists. naive_solver.
Qed.

Lemma token_used_false db token :
  token_used db token = false <->
  forall signer job t, db_reservations db !! signer = Some (job, t) -> t <> token.
Proof.
  unfold token_used. rewrite bool_decide_eq_false. unfold map_Exists. split.
  - intros Hn s j t Hs ->. apply Hn. eauto.
  - intros Hn (s & [j t] & Hs & Ht). cbn in Ht. naive_solver.
Qed.

Lemma reserve_ok signer job version env db token db' :
  reserve signer job version env db = (Ok token, db') ->
  token = se_uuid env /\ signer_journaled db signer = false /\
  db_reservations db !! signer = None /\ token_used db token = false /\
  (forall v, version = Some v -> row_version <$> db_payments db !! job = i64_try_from v) /\
  db' = db <| db_reservations := <[signer := (job, token)]> (db_reservations db) |>.
Proof.
  unfold reserve, transaction. destruct (se_fault env); [|done|done].
  destruct (result_bind _ _) as [[t d]|e] eqn:Hb; [|done]. intros Heq.
  injection Heq as -> <-.
  apply result_bind_ok in Hb as (u & Hv & Hb).
  destruct (signer_journaled db signer) eqn:Hj; [done|].
  destruct (_ || _) eqn:Hu; [done|]. injection Hb as <- <-.
  apply orb_false_iff in Hu as [Hs Ht]. apply is_some_false in Hs.
  split; [done|]. do 3 (split; [done|]). split; [|done].
  intros v ->. destruct (negb _) eqn:Hn in Hv; [done|]. by bool_simpl.
Qed.

Lemma cancel_ok signer job token env db db' :
  sqlite_cancel_preparation signer job token env db = (Ok tt, db') ->
  db_reservations db !! signer = Some (job, token) /\ signer_journaled db signer = false /\
  (forall row, db_payments db !! job = Some row -> pr_pending (row_record row) = None) /\
  db' = db <| db_reservations := delete signer (db_reservations db) |>.
Proof.
  unfold sqlite_cancel_preparation, transaction. destruct (se_fault env); [|done|done].
  destruct (_ || _) eqn:Hg; [done|]. intros Heq. injection Heq as <-.
  apply orb_false_iff in Hg as [Hr Hg]. apply orb_false_iff in Hg as [Hs Hp].
  bool_simpl. split; [done|]. split; [done|]. split; [|done].
  intros row Hrow. rewrite Hrow in Hp. by apply is_some_false.
Qed.

Lemma migrate_ok `{Ss58} id version budget env db next db' :
  sqlite_migrate_legacy_policy id version budget env db = (Ok next, db') ->
  exists row, db_payments db !! id = Some row /\
    migrated_policy (row_record row) version budget (se_now env) = Ok next /\
    pr_version next <= i64_max /\
    db' = db <| db_payments := <[id := update_row None (pr_version next) next row]> (db_payments db) |>.
Proof.
  unfold sqlite_migrate_legacy_policy, transaction. destruct (se_fault env); [|done|done].
  destruct (if job_reserved db id then _ else _) as [[t d]|e] eqn:Hb; [|done]. intros Heq.
  injection Heq as -> <-. destruct (job_reserved db id); [done|].
  apply result_bind_ok in Hb as (row & Hrow & Hb). apply ok_or_ok in Hrow.
  apply result_bind_ok in Hb as (n & Hn & Hb).
  apply result_bind_ok in Hb as (v & Hv & Hb). apply ok_or_ok in Hv.
  unfold i64_try_from in Hv. destruct (pr_version n <=? i64_max) eqn:Hle; [|done].
  injection Hv as <-. injection Hb as <- <-. bool_simpl. eauto.
Qed.

Lemma update_reservations_ok prev rec R R' :
  update_reservations prev rec R = Ok R' ->
  match pr_pending rec with
  | Some p => exists token, pd_reservation p = Some token /\
      R !! pd_signer p = Some (pr_id rec, token) /\ R' = R /\
      (pr_pending prev = None \/ pr_pending prev = Some p)
  | None =>
      match pr_pending prev with
      | Some p => exists token, pd_reservation p = Some token /\
          R !! pd_signer p = Some (pr_id rec, token) /\ R' = delete (pd_signer p) R
      | None => R' = R
      end
  end.
Proof.
  unfold update_reservations. intros Hu. apply result_bind_ok in Hu as (u & Hc & Hu).
  destruct (pr_pending rec) as [p|]; cbn [is_some is_none negb andb] in Hu.
  - apply result_bind_ok in Hc as (token & Ht & Hc). apply ok_or_ok in Ht.
    destruct (negb _) eqn:Hn in Hc; [done|]. bool_simpl.
    exists token. split; [done|]. split; [done|].
    destruct (pr_pending prev) as [q|]; [|by injection Hu as <-; auto].
    destruct (negb _) eqn:Hq in Hu; [done|]. bool_simpl. injection Hu as <-.
    split; [done|]. right. congruence.
  - destruct (pr_pending prev) as [q|]; [|by injection Hu as <-].
    apply result_bind_ok in Hu as (token & Ht & Hu). apply ok_or_ok in Ht.
    destruct (negb _) eqn:Hn in Hu; [done|]. bool_simpl. injection Hu as <-. eauto.
Qed.

Lemma update_ok rec env db next db' :
  sqlite_update rec env db = (Ok next, db') ->
  exists row R, db_payments db !! pr_id rec = Some row /\
    pr_version (row_record row) = pr_version rec /\ same_policy (row_record row) rec = true /\
    update_reservations (row_record row) rec (db_reservations db) = Ok R /\
    pr_version rec < u64_max /\ next = bump (se_now env) rec /\
    db' = db <| db_reservations := R |>
             <| db_payments := <[pr_id rec :=
                  update_row (Some (PaymentState_as_str (pr_state rec)))
                    (u64_as_i64 (pr_version next)) next row]> (db_payments db) |>.
Proof.
  unfold sqlite_update, transaction. destruct (se_fault env); [|done|done].
  destruct (result_bind _ _) as [[t d]|e] eqn:Hb; [|done]. intros Heq.
  injection Heq as -> <-.
  apply result_bind_ok in Hb as (row & Hrow & Hb). apply ok_or_ok in Hrow.
  destruct (negb _) eqn:Hv in Hb; [done|]. destruct (negb _) eqn:Hp in Hb; [done|].
  apply result_bind_ok in Hb as (R & HR & Hb).
  apply result_bind_ok in Hb as (v & Hadd & Hb). apply ok_or_ok in Hadd.
  apply u64_checked_add_some in Hadd as [-> Hlt]. injection Hb as <- <-. bool_simpl.
  exists row, R. repeat split; try done. u64_unfold. lia.
Qed.

Lemma insert_ok rec env db db' :
  sqlite_insert rec env db = (Ok tt, db') ->
  db_payments db !! pr_id rec = None /\
  exists rowid,
  db' = db <| db_payments := <[pr_id rec :=
    mkPayRow rowid (PaymentState_as_str (pr_state rec))
      (u64_as_i64 (pr_version rec)) (u64_as_i64 (pr_created_at rec)) rec]> (db_payments db) |>.
Proof.
  unfold sqlite_insert, transaction. destruct (se_fault env); [|done|done].
  destruct (is_some _) eqn:Hs; [done|]. intros Heq. injection Heq as <-.
  apply is_some_false in Hs. eauto.
Qed.

(** The converses: when nothing stands in the way, the operation succeeds. *)
Lemma reserve_accepts signer job version env db :
  se_fault env = NoFault -> row_version <$> db_payments db !! job = i64_try_from version ->
  signer_journaled db signer = false -> db_reservations db !! signer = None ->
  token_used db (se_uuid env) = false ->
  reserve signer job (Some version) env db =
    (Ok (se_uuid env), db <| db_reservations := <[signer := (job, se_uuid env)]> (db_reservations db) |>).
Proof.
  intros Hf Hv Hj Hs Ht. unfold reserve, transaction. rewrite Hf. cbn zeta.
  rewrite (bool_decide_eq_true_2 _ Hv), Hj, Hs, Ht. done.
Qed.

Lemma update_accepts rec env db row R :
  se_fault env = NoFault -> db_payments db !! pr_id rec = Some row ->
  pr_version (row_record row) = pr_version rec -> same_policy (row_record row) rec = true ->
  update_reservations (row_record row) rec (db_reservations db) = Ok R ->
  pr_version rec < u64_max ->
  sqlite_update rec env db =
    (Ok (bump (se_now env) rec),
     db <| db_reservations := R |>
        <| db_payments := <[pr_id rec :=
             update_row (Some (PaymentState_as_str (pr_state rec)))
               (u64_as_i64 (pr_version rec + 1)) (bump (se_now env) rec) row]> (db_payments db) |>).
Proof.
  intros Hf Hrow Hv Hp HR Hlt. unfold sqlite_update, transaction. rewrite Hf, Hrow.
  cbn [ok_or result_bind]. rewrite Hv, Z.eqb_refl, Hp, HR. cbn [negb result_bind].
  assert (u64_checked_add (pr_version rec) 1 = Some (pr_version rec + 1)) as ->.
  { apply u64_checked_add_some. split; [done|]. u64_unfold. lia. }
  done.
Qed.

Lemma transaction_err {A} (f : SEnv -> Sqlite -> Result (A * Sqlite)) env db e db' :
  transaction f env db = (Err e, db') -> db' = db.
Proof.
  unfold transaction. destruct (se_fault env); [|by intros [= _ ->]..].
  destruct (f env db) as [[a d]|e']; by intros [= ? ?].
Qed.

(** ** The contract holds *)

Lemma u64_as_i64_small v : 0 <= v <= i64_max -> u64_as_i64 v = v.
Proof. unfold u64_as_i64, i64_max. intros Hv. destruct (Z.leb_spec v 9223372036854775807); lia. Qed.

Lemma bump_row_ok db id rec now row :
  pr_id rec = id -> is_u64 (pr_version rec) -> pr_version rec < u64_max ->
  map_Forall row_ok (db_payments db) ->
  map_Forall row_ok
    (<[id := update_row (Some (PaymentState_as_str (pr_state rec)))
               (u64_as_i64 (pr_version (bump now rec))) (bump now rec) row]> (db_payments db)).
Proof.
  intros Hid Hv Hlt Hok. apply map_Forall_insert_2; [|done].
  unfold row_ok, bump. cbn. pr_cbn. repeat split; try done; u64_unfold; lia.
Qed.

Lemma view_insert id row db :
  row_record <$> <[id := row]> (db_payments db) =
  <[id := row_record row]> (row_record <$> db_payments db).
Proof. apply fmap_insert. Qed.

Section Laws.
Context `{Ss58}.

Lemma PaymentState_as_str_inj a b : PaymentState_as_str a = PaymentState_as_str b -> a = b.
Proof. destruct a, b; done. Qed.

Lemma list_rows_spec db (states : list PaymentState) r :
  map_Forall row_ok (db_payments db) ->
  r ∈ (row_record <$> filter (fun row => row_state row ∈ PaymentState_as_str <$> states)
         (merge_sort row_le (map_to_list (db_payments db)).*2)) <->
  (row_record <$> db_payments db) !! pr_id r = Some r /\ pr_state r ∈ states.
Proof.
  intros Hok. rewrite list_elem_of_fmap, lookup_fmap. split.
  - intros (row & -> & Hin). apply list_elem_of_filter in Hin as [Hst Hin].
    rewrite merge_sort_Permutation in Hin.
    apply list_elem_of_fmap in Hin as ([id row'] & -> & Hin).
    apply elem_of_map_to_list in Hin. cbn [snd] in *.
    destruct (Hok id row' Hin) as (Hid & _ & _ & Hs). rewrite Hid, Hin. split; [done|].
    rewrite Hs in Hst. apply list_elem_of_fmap in Hst as (s & Hs' & Hst).
    by apply PaymentState_as_str_inj in Hs' as ->.
  - intros [Hv Hst]. apply fmap_Some in Hv as (row & Hrow & ->).
    exists row. split; [done|]. destruct (Hok _ _ Hrow) as (_ & _ & _ & Hs).
    apply list_elem_of_filter. rewrite Hs. split; [apply list_elem_of_fmap; eauto|].
    rewrite merge_sort_Permutation. apply list_elem_of_fmap.
    exists (pr_id (row_record row), row). split; [done|]. by apply elem_of_map_to_list.
Qed.

Lemma list_rows_nodup db (states : list PaymentState) :
  map_Forall row_ok (db_payments db) ->
  NoDup (pr_id <$> (row_record <$> filter (fun row => row_state row ∈ PaymentState_as_str <$> states)
         (merge_sort row_le (map_to_list (db_payments db)).*2))).
Proof.
  intros Hok.
  assert (Hsub : NoDup (pr_id ∘ row_record <$> merge_sort row_le (map_to_list (db_payments db)).*2)).
  { rewrite merge_sort_Permutation, <- list_fmap_compose.
    rewrite (list_fmap_ext _ fst); [apply NoDup_fst_map_to_list|].
    intros i [id row] Hin. apply list_elem_of_lookup_2, elem_of_map_to_list in Hin.
    by destruct (Hok _ _ Hin). }
  rewrite <- list_fmap_compose. revert Hsub.
  generalize (merge_sort row_le (map_to_list (db_payments db)).*2) as rows.
  induction rows as [|row rows IH]; intros Hnd; [constructor|].
  rewrite fmap_cons in Hnd. apply NoDup_cons in Hnd as [Hni Hnd].
  rewrite filter_cons. case_decide; [|by apply IH].
  rewrite fmap_cons. apply NoDup_cons. split; [|by apply IH].
  intros Hin. apply Hni. apply list_elem_of_fmap in Hin as (x & Hx & Hin).
  apply list_elem_of_filter in Hin as [_ Hin]. apply list_elem_of_fmap. eauto.
Qed.

#[export] Instance SqliteStore_laws : StoreLaws Sqlite.
Proof.
  constructor.
  - intros db id r Hok Hv. cbn in Hv. rewrite lookup_fmap in Hv.
    apply fmap_Some in Hv as (row & Hrow & ->).
    destruct (Hok _ _ Hrow) as (? & ? & _). done.
  - intros env db Hok. apply wp_ret. done.
  - intros signer r env db Hok. unfold keeps_view. unfold wp.
    destruct (reserve_signer_for_record signer r env db) as [[token|e] db'] eqn:Hr; cbn in Hr.
    + by apply reserve_ok in Hr as (_ & _ & _ & _ & _ & ->).
    + by apply transaction_err in Hr as ->.
  - intros signer job token env db Hok. unfold keeps_view, wp.
    destruct (cancel_preparation signer job token env db) as [[[]|e] db'] eqn:Hr; cbn in Hr.
    + by apply cancel_ok in Hr as (_ & _ & _ & ->).
    + by apply transaction_err in Hr as ->.
  - intros id env db Hok. apply transaction_wp; [|done].
    intros a db' [= <- <-]. cbn. by rewrite lookup_fmap.
  - intros states env db Hok. apply transaction_wp; [|done].
    intros a db' [= <- <-]. split; [done|]. split; [by apply list_rows_nodup|].
    intros r. by apply list_rows_spec.
  - intros r env db Hok Hver. unfold wp.
    destruct (insert_record r env db) as [[[]|e] db'] eqn:Hr; cbn in Hr.
    + apply insert_ok in Hr as [Hn (rowid & ->)]. cbn. split.
      * apply map_Forall_insert_2; [|done]. unfold row_ok. cbn. done.
      * rewrite lookup_fmap, Hn, fmap_insert. done.
    + apply transaction_err in Hr as ->. done.
  - intros r env db Hok. unfold wp.
    destruct (update_record r env db) as [[next|e] db'] eqn:Hr; cbn in Hr.
    + apply update_ok in Hr as (row & R & Hrow & Hv & Hp & HR & Hlt & -> & ->).
      destruct (Hok _ _ Hrow) as (Hid & Hver & _). rewrite Hv in Hver. cbn. split.
      * by apply bump_row_ok.
      * exists (row_record row). rewrite lookup_fmap, Hrow, fmap_insert. done.
    + apply transaction_err in Hr as ->. done.
Qed.
End Laws.

(** * The journal fence *)

(** The journal of a record is backed by the reservation it names. *)
Definition owns_journal (db : Sqlite) (id : string) (p : PendingTx) : Prop :=
  exists token, pd_reservation p = Some token /\
    db_reservations db !! pd_signer p = Some (id, token).

Ltac db_cbn :=
  cbn [update upd_payments upd_reservations upd_recoveries
       db_payments db_reservations db_recoveries row_record update_row] in *.

(** When the journal a write carries fits the journal and the reservations in
    the database. *)
Definition journal_write_ok (db : Sqlite) (prev rec : PaymentRecord) : Prop :=
  (forall p, pr_pending rec = Some p -> owns_journal db (pr_id rec) p) /\
  (forall q, pr_pending prev = Some q ->
     pr_pending rec = Some q \/ (pr_pending rec = None /\ owns_journal db (pr_id rec) q)).

Lemma owns_check db rec p :
  (let? token := ok_or (pd_reservation p) (Error_Store "legacy journal requires manual reconciliation") in
   if negb (bool_decide (db_reservations db !! pd_signer p = Some (pr_id rec, token)))
   then Err (Error_Store "signer reservation mismatch") else Ok tt) = Ok tt <->
  owns_journal db (pr_id rec) p.
Proof.
  unfold owns_journal. destruct (pd_reservation p) as [t|]; cbn.
  - case_bool_decide as Hb; cbn; split.
    + eauto.
    + done.
    + done.
    + intros (? & [= <-] & ?). done.
  - split; [done|]. by intros (? & ? & _).
Qed.

Lemma update_reservations_complete db prev rec :
  (exists R, update_reservations prev rec (db_reservations db) = Ok R) <-> journal_write_ok db prev rec.
Proof.
  split.
  - intros [R HR]. apply update_reservations_ok in HR. unfold journal_write_ok.
    destruct (pr_pending rec) as [p|].
    + destruct HR as (t & Ht & Hr & _ & Hprev). split.
      * intros ? [= <-]. by exists t.
      * intros q Hq. left. destruct Hprev; congruence.
    + split; [done|]. intros q Hq. rewrite Hq in HR. destruct HR as (t & ? & ? & _).
      right. split; [done|]. by exists t.
  - intros [H1 H2]. unfold update_reservations.
    destruct (pr_pending rec) as [p|].
    + rewrite (proj2 (owns_check db rec p) (H1 p eq_refl)). cbn [result_bind is_some is_none negb].
      destruct (pr_pending prev) as [q|]; [|eauto].
      destruct (H2 q eq_refl) as [[= ->]|[? _]]; [|done].
      rewrite bool_decide_eq_true_2 by done. cbn. eauto.
    + cbn [result_bind is_some is_none negb andb].
      destruct (pr_pending prev) as [q|]; [|eauto].
      destruct (H2 q eq_refl) as [?|[_ (t & -> & Hr)]]; [done|]. cbn [ok_or result_bind].
      rewrite bool_decide_eq_true_2 by done. cbn. eauto.
Qed.

(** What an accepted write leaves the reservations as: the one of the journal it
    resolves is released. *)
Definition released (prev rec : PaymentRecord) (R : gmap string (string * string))
  : gmap string (string * string) :=
  match pr_pending prev, pr_pending rec with
  | Some q, None => delete (pd_signer q) R
  | _, _ => R
  end.

Lemma update_reservations_released prev rec R R' :
  update_reservations prev rec R = Ok R' -> R' = released prev rec R.
Proof.
  intros HR. apply update_reservations_ok in HR. unfold released.
  destruct (pr_pending rec), (pr_pending prev); naive_solver.
Qed.

Lemma update_reservations_err prev rec R e :
  update_reservations prev rec R = Err e -> exists msg, e = Error_Store msg.
Proof.
  unfold update_reservations. intros Hu. apply result_bind_err in Hu as [Hu|(u & _ & Hu)].
  - destruct (pr_pending rec) as [p|]; [|done].
    destruct (pd_reservation p); cbn in Hu; [destruct (negb _); [|done]|]; injection Hu as <-; eauto.
  - destruct (pr_pending prev) as [q|]; [|done]. destruct (_ && _); [injection Hu as <-; eauto|].
    destruct (is_none _); [|done].
    destruct (pd_reservation q); cbn in Hu; [destruct (negb _); [|done]|]; injection Hu as <-; eauto.
Qed.

(** * Theorems *)

(** C14: [update] is a compare-and-swap guarded by the fence, on every branch.
    It accepts a record exactly when the stored version is the record's, the
    policy and identity are unchanged, the version does not overflow, and the
    journal transition is owned: a new journal must hold its signer's
    reservation, and an existing one can only be kept or resolved by its owner.
    An accepted write stores the record with its version incremented, its state
    and version columns those of what is stored, the others as they were; the
    reservation of the journal it resolves, if it resolves one, is released and
    every other stays; no other row and no audit row changes.  Everything else
    changes nothing: a missing record is [NotFound], a stale version is a
    [Conflict], every other refusal and every failure of the database is a store
    error. *)
Theorem sqlite_update_exact (rec : PaymentRecord) (env : SEnv) (db : Sqlite) :
  match se_fault env, db_payments db !! pr_id rec with
  | (FaultBefore e | FaultAfter e), _ => sqlite_update rec env db = (Err (Error_Store e), db)
  | NoFault, None => sqlite_update rec env db = (Err (Error_NotFound (pr_id rec)), db)
  | NoFault, Some row =>
      let prev := row_record row in
      let accepted := pr_version prev = pr_version rec /\ same_policy prev rec = true /\
                      pr_version rec < u64_max /\ journal_write_ok db prev rec in
      (accepted ->
         sqlite_update rec env db =
           (Ok (bump (se_now env) rec),
            mkSqlite
              (<[pr_id rec := mkPayRow (row_rowid row) (PaymentState_as_str (pr_state rec))
                                (u64_as_i64 (pr_version rec + 1)) (row_created_at row)
                                (bump (se_now env) rec)]> (db_payments db))
              (released prev rec (db_reservations db)) (db_recoveries db))) /\
      (pr_version prev <> pr_version rec ->
         sqlite_update rec env db = (Err (Error_Conflict (pr_id rec)), db)) /\
      (pr_version prev = pr_version rec -> ~ accepted ->
         exists msg, sqlite_update rec env db = (Err (Error_Store msg), db))
  end.
Proof.
  destruct (se_fault env) as [|e|e] eqn:Hf; [|by unfold sqlite_update, transaction; rewrite Hf..].
  destruct (db_payments db !! pr_id rec) as [row|] eqn:Hrow;
    [|by unfold sqlite_update, transaction; rewrite Hf, Hrow].
  split; [|split].
  - intros (Hv & Hp & Hlt & Hj). apply update_reservations_complete in Hj as [R HR].
    rewrite (update_accepts rec env db row R) by done.
    apply update_reservations_released in HR as ->. by destruct db.
  - intros Hv. unfold sqlite_update, transaction. rewrite Hf, Hrow. cbn [ok_or result_bind].
    apply Z.eqb_neq in Hv. by rewrite Hv.
  - intros Hv Hno. unfold sqlite_update, transaction. rewrite Hf, Hrow. cbn [ok_or result_bind].
    rewrite (proj2 (Z.eqb_eq _ _) Hv). cbn [negb].
    destruct (same_policy (row_record row) rec) eqn:Hp; cbn [negb]; [|eauto].
    destruct (update_reservations (row_record row) rec (db_reservations db)) as [R|e] eqn:HR;
      cbn [result_bind]; [|apply update_reservations_err in HR as [msg ->]; eauto].
    destruct (u64_checked_add (pr_version rec) 1) as [v|] eqn:Hadd; cbn [ok_or result_bind]; [|eauto].
    apply u64_checked_add_some in Hadd as [-> Hlt]. destruct Hno. split_and!; try done.
    + u64_unfold. lia.
    + apply update_reservations_complete. eauto.
Qed.

(** ** Witnesses *)
Import ToyKeys.

Definition env_at (now : Z) (uuid : string) : SEnv := mkSEnv now uuid NoFault.
Definition job_a : PaymentRecord := test_record "a".
Definition toy_pending : PendingTx :=
  {| pd_action := Action_Fund; pd_reservation := Some "tok-1"; pd_signer := "5treasury";
     pd_nonce := 3; pd_tx_hash := "0xaa"; pd_birth_block := 10; pd_amount := 500 |}.
Definition journaled_a : PaymentRecord := job_a <| pr_pending := Some toy_pending |>.
Definition stored_a : PaymentRecord := bump 3 journaled_a.

Definition db_inserted : Sqlite := (sqlite_insert job_a (env_at 1 "") SqliteStore_init).2.
Definition db_reserved : Sqlite := (reserve "5treasury" "a" (Some 0) (env_at 2 "tok-1") db_inserted).2.
Definition db_journaled : Sqlite := (sqlite_update journaled_a (env_at 3 "") db_reserved).2.

(** Resolving the journal: the write is accepted and the signer is free; the same
    write again is a conflict. *)
Definition resolved_a : PaymentRecord := stored_a <| pr_pending := None |>.

Lemma sqlite_update_exact_witness :
  exists db', sqlite_update resolved_a (env_at 4 "") db_journaled = (Ok (bump 4 resolved_a), db') /\
    db_reservations db_journaled !! "5treasury" = Some ("a", "tok-1") /\
    db_reservations db' !! "5treasury" = None /\
    sqlite_update resolved_a (env_at 5 "") db' = (Err (Error_Conflict "a"), db').
Proof.
  pose proof (sqlite_update_exact resolved_a (env_at 4 "") db_journaled) as H.
  assert (Hrow : db_payments db_journaled !! pr_id resolved_a =
                 Some (mkPayRow 1 "pending" 1 0 stored_a)) by (vm_compute; reflexivity).
  rewrite Hrow in H. cbn [se_fault env_at] in H. destruct H as (Hok & _ & _).
  eexists. split.
  - apply Hok. split; [reflexivity|]. split; [vm_compute; reflexivity|].
    split; [vm_compute; reflexivity|]. split; [intros p Hp; discriminate|].
    intros q Hq. right. split; [reflexivity|]. exists "tok-1".
    injection Hq as <-. split; [reflexivity|]. vm_compute. reflexivity.
  - split; [vm_compute; reflexivity|]. split; vm_compute; reflexivity.
Defined.

(** A quirk of [reserve]: above [i64::MAX] the version does not convert, and a
    missing row is taken for a match. *)
Example reserve_accepts_missing_job :
  (reserve "5signer" "ghost" (Some (i64_max + 1)) (env_at 1 "tok") SqliteStore_init).1 = Ok "tok".
Proof. vm_compute. reflexivity. Qed.
