(* ===== verification/Recovery.v ===== *)
(** Legacy recovery (src/src/recovery.rs, [SqliteStore::recover_legacy] of
    src/src/store.rs): an audited manifest of every transaction a job's two
    signers made is checked against the stored record, replayed against the
    archived events, and only then gives the record its identity and policy.

    The archive scan ([Chain::verify_legacy_archive]) is an argument: the
    summaries it found, with the finalized head. *)
From Stdlib Require Import Sorted.
From S2P Require Import Prelude RustStd Types Units Keys State Chain StoreSpec SqliteStore.
Local Open Scope Z_scope.

Definition Archive : Type := Result (list EventSummary * Z * string).

Section Recovery.
Context `{Ss58}.

Definition manifest_bad : Error :=
  Error_Store "legacy recovery requires a complete audited manifest and unresolved-free record".

(** The first guard of [validate_manifest]. *)
Definition manifest_rejected (r : PaymentRecord) (m : LegacyManifest) : bool :=
  is_some (pr_identity r)
  || (is_some (pr_auto_required r)
      && (negb (bool_decide (pr_auto_required r = Some (is_some (lm_budget m))))
          || negb (bool_decide (pr_buyback_budget r = lm_budget m))))
  || is_some (pr_pending r)
  || is_some (pr_quarantined r)
  || pr_notified r
  || (bool_decide (lm_transactions m = [])
      && negb (bool_decide (pr_state r = Pending) || bool_decide (pr_state r = Detected)))
  || (4096 <? Z.of_nat (length (lm_transactions m)))
  || (lm_first_block m =? 0)
  || (lm_stopped_at m <? lm_first_block m)
  || (lm_maximum_mortality m =? 0)
  || (65536 <? lm_maximum_mortality m)
  || negb (lm_all_old_emitters_stopped_no_immortal_signatures m)
  || (str_len (str_trim (lm_operator_attestation m)) <? 16)
  || (4096 <? str_len (lm_operator_attestation m))
  || negb (is_active (pr_state r) || bool_decide (pr_state r = Failed))
  || (bool_decide (pr_state r = Failed)
      && negb (bool_decide (pr_failed_from r = Some Funded)
               || bool_decide (pr_failed_from r = Some Swept))).

(** An early record must show no execution. *)
Definition early_executed (r : PaymentRecord) (m : LegacyManifest) : bool :=
  (bool_decide (pr_state r = Pending) || bool_decide (pr_state r = Detected))
  && (negb (bool_decide (lm_transactions m = []))
      || negb (pr_funded_tao r =? 0)
      || negb (pr_swept_alpha r =? 0)
      || negb (bool_decide (pr_swept_positions r = []))
      || negb (pr_consolidated r =? 0)
      || pr_dust_returned r
      || is_some (pr_buyback r)
      || pr_buyback_done r).

(** [p >= (block, index)]. *)
Definition position_le (a b : Z * Z) : bool := (a.1 <? b.1) || ((a.1 =? b.1) && (a.2 <=? b.2)).

(** The loop over the transactions: the last position, the hashes and the
    nonces seen. *)
Fixpoint check_transactions (r : PaymentRecord) (m : LegacyManifest) (last : option (Z * Z))
  (hashes : list string) (nonces : list (string * Z)) (txs : list LegacyTransaction)
  : Result unit :=
  match txs with
  | [] => Ok tt
  | t :: txs =>
      let at_ := (lt_block t, lt_index t) in
      if (lt_block t <? lm_first_block m)
         || (lm_stopped_at m <? lt_block t)
         || match last with Some p => position_le at_ p | None => false end
         || bool_decide (tx_tx_hash (lt_receipt t) ∈ hashes)
         || bool_decide ((lt_signer t, lt_nonce t) ∈ nonces)
         || (negb (bool_decide (lt_signer t = lm_treasury m))
             && negb (bool_decide (lt_signer t = pr_address r)))
         || negb (bool_decide (tx_action (lt_receipt t) = ChainCall_name (lt_call t)))
         || negb (tx_amount (lt_receipt t) =? ChainCall_amount (lt_call t))
      then Err manifest_bad
      else
        check_transactions r m (Some at_) (tx_tx_hash (lt_receipt t) :: hashes)
          ((lt_signer t, lt_nonce t) :: nonces) txs
  end.

Definition validate_manifest (r : PaymentRecord) (m : LegacyManifest) : Result unit :=
  if negb (bool_decide (pr_id r = lm_job m)) || negb (pr_version r =? lm_version m)
  then Err (Error_Conflict (lm_job m))
  else if manifest_rejected r m then Err manifest_bad
  else if early_executed r m then Err manifest_bad
  else
    let? treasury := parse_ss58 (lm_treasury m) in
    let? deposit := parse_ss58 (pr_address r) in
    let? _ := parse_ss58 (lm_treasury_hotkey m) in
    if bool_decide (treasury = deposit)
       || negb (bool_decide (ss58 treasury = lm_treasury m))
       || negb (bool_decide (ss58 deposit = pr_address r))
    then Err manifest_bad
    else
      let? _ := match lm_budget m with Some b => BuybackBudget_validate b | None => Ok tt end in
      let? _ := check_transactions r m None [] [] (lm_transactions m) in
      if negb (bool_decide (lt_receipt <$> lm_transactions m = pr_txs r))
      then Err manifest_bad else Ok tt.

(** ** Replay *)

Record Replay := mkReplay {
  rp_funded : Z;
  rp_positions : list (string * Z);
  rp_consolidated : Z;
  rp_dust : bool;
  rp_post_sweep : bool;
  rp_buyback : option BuybackReceipt }.
Definition Replay_start : Replay := mkReplay 0 [] 0 false false None.

Definition replay_invalid : Error :=
  Error_Store "legacy call, events or stage disagrees with audited job".

(** Everything is consolidated, when the job consolidates. *)
Definition all_consolidated (m : LegacyManifest) (p : Replay) : bool :=
  negb (lm_consolidate m) || (rp_consolidated p =? Z.of_nat (length (rp_positions p))).
Definition wants_dust (r : PaymentRecord) (m : LegacyManifest) : bool :=
  lm_return_dust m || (0 <? pr_detected_tao r).

(** A destruction of what the purchase bought. *)
Definition replay_destroy (m : LegacyManifest) (t : LegacyTransaction) (s : EventSummary)
  (p : Replay) (destroy : Destroy) (target : AccountId32) (netuid alpha : Z) : Result Replay :=
  let? b := ok_or (lm_budget m) replay_invalid in
  let? receipt := ok_or (rp_buyback p) replay_invalid in
  if negb (bool_decide (bb_destroy b = destroy))
     || negb (bool_decide (ss58 target = bb_hotkey b))
     || negb (netuid =? bb_netuid b)
     || is_some (br_destroy_tx receipt)
     || negb (alpha =? br_alpha_bought receipt)
     || negb (bool_decide (es_alpha_destroyed s = Some alpha))
  then Err replay_invalid
  else Ok (mkReplay (rp_funded p) (rp_positions p) (rp_consolidated p) (rp_dust p)
             (rp_post_sweep p)
             (Some {| br_netuid := br_netuid receipt; br_tao_spent := br_tao_spent receipt;
                      br_alpha_bought := br_alpha_bought receipt;
                      br_limit_price := br_limit_price receipt;
                      br_stake_tx := br_stake_tx receipt;
                      br_destroy_tx := Some (lt_receipt t); br_alpha_destroyed := alpha |})).

(** One transaction and its archived events. *)
Definition replay_one (r : PaymentRecord) (m : LegacyManifest) (treasury deposit hotkey : AccountId32)
  (p : Replay) (t : LegacyTransaction) (s : EventSummary) : Result Replay :=
  let? signer := parse_ss58 (lt_signer t) in
  let '(pallet, ev) := ChainCall_expected_event (lt_call t) in
  if es_failed s || negb (EventSummary_has s "System" "ExtrinsicSuccess")
     || negb (EventSummary_has s pallet ev)
  then Err replay_invalid
  else
    match lt_call t with
    | TransferTao dest amount =>
        if bool_decide (signer = treasury) && bool_decide (dest = deposit)
           && (rp_funded p =? 0) && bool_decide (rp_positions p = [])
           && negb (rp_dust p) && is_none (rp_buyback p) && (0 <? amount)
        then
          if negb (bool_decide (es_transferred s = Some amount)) then Err replay_invalid
          else Ok (mkReplay amount (rp_positions p) (rp_consolidated p) (rp_dust p)
                     (rp_post_sweep p) (rp_buyback p))
        else Err replay_invalid
    | TransferStake dest_coldkey source netuid alpha =>
        if bool_decide (signer = deposit) && bool_decide (dest_coldkey = treasury)
           && (netuid =? pr_netuid r) && negb (rp_post_sweep p) && (rp_consolidated p =? 0)
           && negb (rp_dust p) && is_none (rp_buyback p) && (0 <? alpha)
        then
          if bool_decide (ss58 source ∈ fst <$> rp_positions p) then Err replay_invalid
          else Ok (mkReplay (rp_funded p) (rp_positions p ++ [(ss58 source, alpha)])
                     (rp_consolidated p) (rp_dust p) (rp_post_sweep p) (rp_buyback p))
        else Err replay_invalid
    | MoveStake from_hotkey to_hotkey netuid alpha =>
        if lm_consolidate m && bool_decide (signer = treasury) && bool_decide (to_hotkey = hotkey)
           && (netuid =? pr_netuid r) && negb (rp_dust p) && is_none (rp_buyback p)
        then
          if negb (bool_decide (rp_positions p !! Z.to_nat (rp_consolidated p)
                                = Some (ss58 from_hotkey, alpha)))
          then Err replay_invalid
          else Ok (mkReplay (rp_funded p) (rp_positions p) (rp_consolidated p + 1) (rp_dust p)
                     true (rp_buyback p))
        else Err replay_invalid
    | TransferAll dest =>
        if wants_dust r m && bool_decide (signer = deposit) && bool_decide (dest = treasury)
           && negb (rp_dust p) && is_none (rp_buyback p)
        then
          if negb (all_consolidated m p) then Err replay_invalid
          else Ok (mkReplay (rp_funded p) (rp_positions p) (rp_consolidated p) true true
                     (rp_buyback p))
        else Err replay_invalid
    | AddStakeLimit target netuid tao limit_price false =>
        if bool_decide (signer = treasury) && is_none (rp_buyback p)
        then
          if negb (all_consolidated m p) || (wants_dust r m && negb (rp_dust p))
          then Err replay_invalid
          else
            let? b := ok_or (lm_budget m) replay_invalid in
            let? (spent, bought) := ok_or (es_stake_added s) replay_invalid in
            if negb (bool_decide (ss58 target = bb_hotkey b)) || negb (netuid =? bb_netuid b)
               || negb (tao =? bb_amount_rao b) || negb (spent =? tao) || (bought =? 0)
            then Err replay_invalid
            else Ok (mkReplay (rp_funded p) (rp_positions p) (rp_consolidated p) (rp_dust p) true
                       (Some {| br_netuid := netuid; br_tao_spent := spent;
                                br_alpha_bought := bought; br_limit_price := limit_price;
                                br_stake_tx := lt_receipt t; br_destroy_tx := None;
                                br_alpha_destroyed := 0 |}))
        else Err replay_invalid
    | BurnAlpha target netuid alpha =>
        if bool_decide (signer = treasury)
        then replay_destroy m t s p Burn target netuid alpha else Err replay_invalid
    | RecycleAlpha target netuid alpha =>
        if bool_decide (signer = treasury)
        then replay_destroy m t s p Recycle target netuid alpha else Err replay_invalid
    | _ => Err replay_invalid
    end.

Fixpoint replay_all (r : PaymentRecord) (m : LegacyManifest) (treasury deposit hotkey : AccountId32)
  (p : Replay) (l : list (LegacyTransaction * EventSummary)) : Result Replay :=
  match l with
  | [] => Ok p
  | (t, s) :: l =>
      let? p := replay_one r m treasury deposit hotkey p t s in
      replay_all r m treasury deposit hotkey p l
  end.

Fixpoint checked_total (acc : Z) (l : list (string * Z)) : option Z :=
  match l with
  | [] => Some acc
  | (_, b) :: l => acc ← u64_checked_add acc b; checked_total acc l
  end.

(** The stored accounting is not what was replayed. *)
Definition accounting_mismatch (r : PaymentRecord) (m : LegacyManifest) (p : Replay) (total : Z)
  : bool :=
  let done := match rp_buyback p with
              | Some b => is_some (br_destroy_tx b)
                          || match lm_budget m with
                             | Some budget => bool_decide (bb_destroy budget = Keep)
                             | None => false
                             end
              | None => false
              end in
  let stage := match pr_failed_from r with
               | Some s => if bool_decide (pr_state r = Failed) then s else pr_state r
               | None => pr_state r
               end in
  (bool_decide (stage = Funded)
   && (negb (rp_consolidated p =? 0) || rp_dust p || is_some (rp_buyback p)
       || pr_buyback_done r))
  || negb (rp_funded p =? pr_funded_tao r)
  || negb (bool_decide (rp_positions p = pr_swept_positions r))
  || negb (total =? pr_swept_alpha r)
  || negb (rp_consolidated p =? pr_consolidated r)
  || negb (Bool.eqb (rp_dust p) (pr_dust_returned r))
  || negb (bool_decide (rp_buyback p = pr_buyback r))
  || (pr_buyback_done r && negb done).

(** The record with the manifest's identity and policy, and nothing else
    changed. *)
Definition adopted (m : LegacyManifest) (r : PaymentRecord) : PaymentRecord :=
  r <| pr_identity := Some {| ji_genesis_hash := lm_genesis_hash m; ji_treasury := lm_treasury m;
         ji_treasury_hotkey := lm_treasury_hotkey m; ji_consolidate := lm_consolidate m;
         ji_return_dust := lm_return_dust m |} |>
    <| pr_auto_required := Some (is_some (lm_budget m)) |>
    <| pr_buyback_budget := lm_budget m |>.

Definition replay_report (r : PaymentRecord) (m : LegacyManifest) (block : Z) (hash : string)
  : RecoveryReport :=
  {| rr_job := pr_id r; rr_previous_version := pr_version r; rr_genesis_hash := lm_genesis_hash m;
     rr_finalized_block := block; rr_finalized_hash := hash;
     rr_transactions := Z.of_nat (length (lm_transactions m)); rr_applied := false |}.

Definition replay (r : PaymentRecord) (m : LegacyManifest)
  (summaries : list EventSummary * Z * string) : Result (PaymentRecord * RecoveryReport) :=
  let? _ := validate_manifest r m in
  let '(events, block, hash) := summaries in
  if negb (bool_decide (length events = length (lm_transactions m)))
  then Err (Error_Store "missing archived receipts")
  else
    let? treasury := parse_ss58 (lm_treasury m) in
    let? deposit := parse_ss58 (pr_address r) in
    let? hotkey := parse_ss58 (lm_treasury_hotkey m) in
    let? p := replay_all r m treasury deposit hotkey Replay_start
                (combine (lm_transactions m) events) in
    let? total := ok_or (checked_total 0 (rp_positions p)) (Error_Store "legacy amount overflow") in
    if accounting_mismatch r m p total
    then Err (Error_Store "legacy receipts do not reproduce stored accounting")
    else Ok (adopted m r, replay_report r m block hash).

Definition verify (archive : Archive) (r : PaymentRecord) (m : LegacyManifest)
  : Result (PaymentRecord * RecoveryReport) :=
  let? _ := validate_manifest r m in
  let? summaries := archive in
  replay r m summaries.

Definition dry_run (archive : Archive) (r : PaymentRecord) (m : LegacyManifest)
  : Result RecoveryReport :=
  result_map snd (verify archive r m).

(** ** Applying it *)

(** A signer of the job is owned or has an unresolved journal. *)
Definition recovery_busy (db : Sqlite) (address treasury job : string) : bool :=
  bool_decide (map_Exists (fun signer jt => signer = address \/ signer = treasury \/ jt.1 = job)
                 (db_reservations db))
  || bool_decide (map_Exists (fun (_ : string) row =>
       (journal_signer (row_record row) = Some address \/ journal_signer (row_record row) = Some treasury)
       \/ (quarantine_signer (row_record row) = Some address
           \/ quarantine_signer (row_record row) = Some treasury)) (db_payments db)).

Definition recover_legacy (archive : Archive) (m : LegacyManifest)
  : SEnv -> M Sqlite Error RecoveryReport :=
  transaction (fun env db =>
    let? row := ok_or (db_payments db !! lm_job m) no_rows in
    let record := row_record row in
    let? _ := validate_manifest record m in
    if recovery_busy db (pr_address record) (lm_treasury m) (pr_id record)
    then Err (Error_Conflict "legacy recovery signers have unresolved ownership")
    else
      let? (next, report) := verify archive record m in
      let? v := ok_or (u64_checked_add (pr_version next) 1) (Error_Store "version overflow") in
      let next := next <| pr_version := v |> <| pr_updated_at := se_now env |> in
      let report := {| rr_job := rr_job report; rr_previous_version := rr_previous_version report;
                       rr_genesis_hash := rr_genesis_hash report;
                       rr_finalized_block := rr_finalized_block report;
                       rr_finalized_hash := rr_finalized_hash report;
                       rr_transactions := rr_transactions report; rr_applied := true |} in
      let? new_version := ok_or (i64_try_from (pr_version next)) try_from_int_error in
      let? old_version := ok_or (i64_try_from (pr_version record)) try_from_int_error in
      match db_payments db !! pr_id next with
      | Some row =>
          if negb (row_version row =? old_version) then Err (Error_Conflict (pr_id record))
          else if is_some (db_recoveries db !! (pr_id record, old_version))
          then Err (Error_Store
            "UNIQUE constraint failed: legacy_recoveries.job, legacy_recoveries.previous_version")
          else
            Ok (report,
                db <| db_payments := <[pr_id next := update_row None new_version next row]>
                                       (db_payments db) |>
                   <| db_recoveries := <[(pr_id record, old_version) := (m, report)]>
                                         (db_recoveries db) |>)
      | None => Err (Error_Conflict (pr_id record))
      end).
End Recovery.

(** * Theorems *)

(** Strictly later in the chain. *)
Definition before (a b : LegacyTransaction) : Prop :=
  lt_block a < lt_block b \/ (lt_block a = lt_block b /\ lt_index a < lt_index b).

Definition Z_sum (l : list Z) : Z := foldr Z.add 0 l.

Section Theorems.
Context `{Ss58}.

Lemma position_le_false a b :
  position_le a b = false <-> b.1 < a.1 \/ (b.1 = a.1 /\ b.2 < a.2).
Proof.
  unfold position_le. destruct a as [a1 a2], b as [b1 b2]. cbn.
  destruct (Z.ltb_spec a1 b1), (Z.eqb_spec a1 b1), (Z.leb_spec a2 b2); cbn;
    split; intros; try done; try lia.
Qed.

(** What the loop has checked of a transaction. *)
Definition transaction_ok (r : PaymentRecord) (m : LegacyManifest) (t : LegacyTransaction) : Prop :=
  lm_first_block m <= lt_block t <= lm_stopped_at m /\
  (lt_signer t = lm_treasury m \/ lt_signer t = pr_address r) /\
  tx_action (lt_receipt t) = ChainCall_name (lt_call t) /\
  tx_amount (lt_receipt t) = ChainCall_amount (lt_call t).

Lemma check_transactions_ok r m txs last hashes nonces :
  check_transactions r m last hashes nonces txs = Ok tt ->
  Forall (transaction_ok r m) txs /\
  StronglySorted before txs /\
  (forall p t, last = Some p -> t ∈ txs ->
     p.1 < lt_block t \/ (p.1 = lt_block t /\ p.2 < lt_index t)) /\
  NoDup ((fun t => tx_tx_hash (lt_receipt t)) <$> txs) /\
  (forall t, t ∈ txs -> tx_tx_hash (lt_receipt t) ∉ hashes) /\
  NoDup ((fun t => (lt_signer t, lt_nonce t)) <$> txs) /\
  (forall t, t ∈ txs -> (lt_signer t, lt_nonce t) ∉ nonces).
Proof.
  revert last hashes nonces. induction txs as [|t txs IH]; intros last hashes nonces Hc.
  { split_and!; try constructor; intros; by set_solver. }
  cbn [check_transactions] in Hc. destruct (_ || _) eqn:Hg; [done|].
  repeat (apply orb_false_iff in Hg as [Hg ?]).
  apply IH in Hc as (Hall & Hsort & Hlast & Hh & Hhn & Hn & Hnn).
  assert (Hbefore : forall t', t' ∈ txs -> before t t') by (intros t' Ht'; by apply (Hlast _ t' eq_refl)).
  bool_simpl. split; [|split; [|split; [|split; [|split; [|split]]]]].
  - constructor; [|done]. split_and!; try done; try lia.
    match goal with Hs : _ && _ = false |- _ => apply andb_false_iff in Hs as [Hs|Hs] end;
      bool_simpl; auto.
  - constructor; [done|]. apply List.Forall_forall. intros t' Ht'. apply Hbefore.
    by apply list_elem_of_In.
  - intros p t' -> Ht'. match goal with Hp : position_le _ _ = false |- _ =>
      apply position_le_false in Hp; cbn in Hp end.
    apply elem_of_cons in Ht' as [->|Ht']; [lia|]. apply Hbefore in Ht'. unfold before in Ht'.
    lia.
  - rewrite fmap_cons. apply NoDup_cons. split; [|done]. intros Hin.
    apply list_elem_of_fmap in Hin as (t' & Heq & Ht'). apply (Hhn t' Ht'). set_solver.
  - intros t' Ht'. apply elem_of_cons in Ht' as [->|Ht']; [done|].
    specialize (Hhn t' Ht'). set_solver.
  - rewrite fmap_cons. apply NoDup_cons. split; [|done]. intros Hin.
    apply list_elem_of_fmap in Hin as (t' & Heq & Ht'). apply (Hnn t' Ht'). rewrite Heq. set_solver.
  - intros t' Ht'. apply elem_of_cons in Ht' as [->|Ht']; [done|].
    specialize (Hnn t' Ht'). set_solver.
Qed.

Lemma validate_manifest_ok r m :
  validate_manifest r m = Ok tt ->
  pr_id r = lm_job m /\ pr_version r = lm_version m /\ manifest_rejected r m = false /\
  early_executed r m = false /\
  (exists treasury deposit, parse_ss58 (lm_treasury m) = Ok treasury /\
     parse_ss58 (pr_address r) = Ok deposit /\ treasury <> deposit) /\
  (forall b, lm_budget m = Some b -> BuybackBudget_validate b = Ok tt) /\
  check_transactions r m None [] [] (lm_transactions m) = Ok tt /\
  lt_receipt <$> lm_transactions m = pr_txs r.
Proof.
  unfold validate_manifest. intros Hv. destruct (_ || _) eqn:Hid; [done|]. bool_simpl.
  destruct (manifest_rejected r m); [done|]. destruct (early_executed r m); [done|].
  apply result_bind_ok in Hv as (treasury & Ht & Hv).
  apply result_bind_ok in Hv as (deposit & Hd & Hv).
  apply result_bind_ok in Hv as (hk & _ & Hv).
  destruct (_ || _) eqn:Hg in Hv; [done|].
  apply result_bind_ok in Hv as ([] & Hb & Hv). apply result_bind_ok in Hv as ([] & Hc & Hv).
  destruct (negb _) eqn:Hr in Hv; [done|].
  apply orb_false_iff in Hg as [Hg _]. apply orb_false_iff in Hg as [Hg _]. bool_simpl.
  split_and!; try done; [by exists treasury, deposit|]. intros b Hb'. by rewrite Hb' in Hb.
Qed.

(** The record a manifest is accepted for is unresolved, and its policy, when it
    has one, is the manifest's. *)
Lemma validated_unresolved r m :
  validate_manifest r m = Ok tt ->
  pr_identity r = None /\ pr_pending r = None /\ pr_quarantined r = None /\
  (pr_auto_required r <> None ->
     pr_auto_required r = Some (is_some (lm_budget m)) /\ pr_buyback_budget r = lm_budget m).
Proof.
  intros (_ & _ & Hrej & _)%validate_manifest_ok.
  unfold manifest_rejected in Hrej. repeat (apply orb_false_iff in Hrej as [Hrej ?]).
  split_and!; try by apply is_some_false. intros Ha.
  match goal with Hp : is_some (pr_auto_required r) && _ = false |- _ =>
    destruct (pr_auto_required r) as [b|]; [|done]; cbn [is_some andb] in Hp;
    apply orb_false_iff in Hp as [Hp1 Hp2] end.
  by bool_simpl.
Qed.

(** C27: an accepted manifest is a complete, ordered account of the record's
    receipts: it names this version of an unresolved record, its transactions
    are in strict chain order within the audited interval, made by the two
    distinct signers with no hash and no nonce repeated, each describes its
    receipt, and together they are exactly the stored receipts. *)
Theorem validate_manifest_sound (r : PaymentRecord) (m : LegacyManifest)
  (Hvalid : validate_manifest r m = Ok tt) :
  pr_id r = lm_job m /\ pr_version r = lm_version m /\
  pr_identity r = None /\ pr_pending r = None /\ pr_quarantined r = None /\
  StronglySorted before (lm_transactions m) /\
  Forall (transaction_ok r m) (lm_transactions m) /\
  NoDup ((fun t => tx_tx_hash (lt_receipt t)) <$> lm_transactions m) /\
  NoDup ((fun t => (lt_signer t, lt_nonce t)) <$> lm_transactions m) /\
  lm_treasury m <> pr_address r /\
  lt_receipt <$> lm_transactions m = pr_txs r.
Proof.
  pose proof (validated_unresolved r m Hvalid) as (Hi & Hp & Hq & _).
  apply validate_manifest_ok in Hvalid
    as (Hid & Hv & _ & _ & (t & d & Ht & Hd & Hne) & _ & Hc & Hr).
  apply check_transactions_ok in Hc as (Hall & Hsort & _ & Hh & _ & Hn & _).
  split_and!; try done. intros Heq. rewrite Heq in Ht. congruence.
Qed.

(** ** Replay *)

Definition sweep_of (t : LegacyTransaction) : option (string * Z) :=
  match lt_call t with
  | TransferStake _ source _ alpha => Some (ss58 source, alpha)
  | _ => None
  end.
Definition funding_of (t : LegacyTransaction) : option Z :=
  match lt_call t with TransferTao _ amount => Some amount | _ => None end.
Definition is_move (t : LegacyTransaction) : bool :=
  match lt_call t with MoveStake _ _ _ _ => true | _ => false end.
Definition is_dust (t : LegacyTransaction) : bool :=
  match lt_call t with TransferAll _ => true | _ => false end.

Lemma replay_destroy_ok m t s p d target netuid alpha p' :
  replay_destroy m t s p d target netuid alpha = Ok p' ->
  rp_funded p' = rp_funded p /\ rp_positions p' = rp_positions p /\
  rp_consolidated p' = rp_consolidated p /\ rp_dust p' = rp_dust p.
Proof.
  unfold replay_destroy. intros Hr. apply result_bind_ok in Hr as (b & _ & Hr).
  apply result_bind_ok in Hr as (rc & _ & Hr). destruct (_ || _); [done|]. by injection Hr as <-.
Qed.

Lemma replay_one_ok r m tr dep hk p t s p' :
  replay_one r m tr dep hk p t s = Ok p' ->
  es_failed s = false /\ EventSummary_has s "System" "ExtrinsicSuccess" = true /\
  EventSummary_has s (ChainCall_expected_event (lt_call t)).1
    (ChainCall_expected_event (lt_call t)).2 = true /\
  rp_positions p' = rp_positions p ++ option_list (sweep_of t) /\
  rp_funded p' = rp_funded p + default 0 (funding_of t) /\
  rp_consolidated p' = rp_consolidated p + (if is_move t then 1 else 0) /\
  rp_dust p' = rp_dust p || is_dust t.
Proof.
  unfold replay_one. intros Hr. apply result_bind_ok in Hr as (signer & _ & Hr).
  destruct (ChainCall_expected_event (lt_call t)) as [pallet ev].
  destruct (_ || _) eqn:Hg in Hr; [done|].
  apply orb_false_iff in Hg as [Hg Hev]. apply orb_false_iff in Hg as [Hf Hs].
  apply negb_false_iff in Hev, Hs. split_and!; try done;
  unfold sweep_of, funding_of, is_move, is_dust;
  destruct (lt_call t) as [dest amount|dest|dc src nid al|fh th nid al|hk' nid tao lp []|hk'|tg nid al|tg nid al];
    try done; cbn [option_list default from_option id];
    rewrite ?app_nil_r, ?Z.add_0_r, ?orb_false_r, ?orb_true_r;
    try (destruct (bool_decide (signer = tr)); [|done]; by eapply replay_destroy_ok in Hr as (? & ? & ? & ?));
    (destruct (_ && _) eqn:Hc in Hr; [|done]); try (destruct (negb _) in Hr; [done|]);
    try (case_bool_decide; [done|]);
    try (by injection Hr as <-).
  all: try (apply andb_true_iff in Hc as [Hc _]; repeat (apply andb_true_iff in Hc as [Hc ?]);
    bool_simpl; injection Hr as <-; cbn; lia).
  all: destruct (_ || _) in Hr; [done|];
    apply result_bind_ok in Hr as (b & _ & Hr); apply result_bind_ok in Hr as ([sp bo] & _ & Hr);
    destruct (_ || _) in Hr; [done|]; by injection Hr as <-.
Qed.


(** The archive shows the transaction executed, with its call's event. *)
Definition executed (t : LegacyTransaction) (s : EventSummary) : Prop :=
  es_failed s = false /\ EventSummary_has s "System" "ExtrinsicSuccess" = true /\
  EventSummary_has s (ChainCall_expected_event (lt_call t)).1
    (ChainCall_expected_event (lt_call t)).2 = true.

Definition funding_total (txs : list LegacyTransaction) : Z :=
  Z_sum (omap funding_of txs).
Definition move_count (txs : list LegacyTransaction) : Z :=
  Z.of_nat (length (List.filter is_move txs)).

Lemma replay_all_ok r m tr dep hk p txs events p' :
  length events = length txs ->
  replay_all r m tr dep hk p (combine txs events) = Ok p' ->
  Forall2 executed txs events /\
  rp_positions p' = rp_positions p ++ omap sweep_of txs /\
  rp_funded p' = rp_funded p + funding_total txs /\
  rp_consolidated p' = rp_consolidated p + move_count txs /\
  rp_dust p' = rp_dust p || existsb is_dust txs.
Proof.
  unfold funding_total, move_count. revert events p.
  induction txs as [|t txs IH]; intros [|s events] p Hl Hr; try done.
  { injection Hr as <-. split_and!; try done; cbn; rewrite ?app_nil_r, ?orb_false_r; lia || done. }
  cbn [combine replay_all] in Hr. apply result_bind_ok in Hr as (p1 & H1 & Hr).
  apply replay_one_ok in H1 as (Hf & Hs & He & Hp1 & Hf1 & Hc1 & Hd1).
  apply IH in Hr as (Hx & Hp & Hfu & Hco & Hdu); [|by injection Hl].
  split; [by constructor|]. rewrite Hp, Hfu, Hco, Hdu, Hp1, Hf1, Hc1, Hd1. split_and!.
  - rewrite <- app_assoc. cbn. by destruct (sweep_of t).
  - unfold Z_sum. cbn. destruct (funding_of t); cbn;
      [by rewrite Z.add_assoc|by rewrite Z.add_0_r].
  - cbn [List.filter]. destruct (is_move t); [rewrite length_cons|]; lia.
  - cbn. by rewrite orb_assoc.
Qed.

Lemma checked_total_ok acc l total :
  checked_total acc l = Some total ->
  total = acc + Z_sum (snd <$> l) /\ (acc <= u64_max -> total <= u64_max).
Proof.
  unfold Z_sum. revert acc. induction l as [|[h b] l IH]; intros acc Hc; cbn in *.
  { injection Hc as <-. split; [lia|done]. }
  destruct (u64_checked_add acc b) as [acc'|] eqn:Ha; [|done].
  apply u64_checked_add_some in Ha as [-> ?]. apply IH in Hc as [-> Hb].
  split; [by rewrite Z.add_assoc|]. intros _. by apply Hb.
Qed.

(** A purchase receipt and the archived executions it stands for. *)
Definition purchase_shown (l : list (LegacyTransaction * EventSummary)) (b : BuybackReceipt) : Prop :=
  (exists t s target, (t, s) ∈ l /\ lt_receipt t = br_stake_tx b /\
     lt_call t = AddStakeLimit target (br_netuid b) (br_tao_spent b) (br_limit_price b) false /\
     es_stake_added s = Some (br_tao_spent b, br_alpha_bought b) /\ br_alpha_bought b <> 0) /\
  (forall tx, br_destroy_tx b = Some tx ->
     br_alpha_destroyed b = br_alpha_bought b /\
     exists t s, (t, s) ∈ l /\ lt_receipt t = tx /\ es_alpha_destroyed s = Some (br_alpha_destroyed b)).
Definition buyback_shown (l : list (LegacyTransaction * EventSummary)) (o : option BuybackReceipt)
  : Prop :=
  match o with Some b => purchase_shown l b | None => True end.

Lemma buyback_shown_mono l l' o : l ⊆ l' -> buyback_shown l o -> buyback_shown l' o.
Proof.
  intros Hl. destruct o as [b|]; [|done]. intros [(t & s & tg & Hin & Hrest) Hd]. split.
  - exists t, s, tg. split; [by apply Hl|done].
  - intros tx Htx. destruct (Hd tx Htx) as (? & t' & s' & Hin' & ?). split; [done|].
    exists t', s'. split; [by apply Hl|done].
Qed.

Lemma replay_destroy_buyback l m t s p d target netuid alpha p' :
  replay_destroy m t s p d target netuid alpha = Ok p' ->
  buyback_shown l (rp_buyback p) -> buyback_shown (l ++ [(t, s)]) (rp_buyback p').
Proof.
  unfold replay_destroy. intros Hr Hb. apply result_bind_ok in Hr as (b & _ & Hr).
  apply result_bind_ok in Hr as (rc & Hrc & Hr). apply ok_or_ok in Hrc.
  destruct (_ || _) eqn:Hg; [done|]. bool_simpl. injection Hr as <-. cbn. rewrite Hrc in Hb.
  destruct Hb as [(t1 & s1 & tg & Hin & ?) _]. split; cbn.
  - exists t1, s1, tg. split; [set_solver|done].
  - intros tx [= <-]. split; [lia|]. exists t, s. split; [set_solver|done].
Qed.

Lemma replay_one_buyback l r m tr dep hk p t s p' :
  replay_one r m tr dep hk p t s = Ok p' ->
  buyback_shown l (rp_buyback p) -> buyback_shown (l ++ [(t, s)]) (rp_buyback p').
Proof.
  unfold replay_one. intros Hr Hb. apply result_bind_ok in Hr as (signer & _ & Hr).
  destruct (ChainCall_expected_event (lt_call t)) as [pallet ev].
  destruct (_ || _) in Hr; [done|].
  assert (Hkeep : buyback_shown (l ++ [(t, s)]) (rp_buyback p))
    by (eapply buyback_shown_mono; [|done]; set_solver).
  destruct (lt_call t) as [dest amount|dest|dc src nid al|fh th nid al|hk' nid tao lp []|hk'|tg nid al|tg nid al] eqn:Hcall;
    try done; 
    try (destruct (bool_decide (signer = tr)); [|done]; by eapply replay_destroy_buyback);
    (destruct (_ && _) in Hr; [|done]);
    try (destruct (negb _) in Hr; [done|]; by injection Hr as <-);
    try (case_bool_decide; [done|]; by injection Hr as <-).
  destruct (_ || _) in Hr; [done|].
  apply result_bind_ok in Hr as (b & _ & Hr).
  apply result_bind_ok in Hr as ([sp bo] & Hst & Hr). apply ok_or_ok in Hst.
  destruct (_ || _) eqn:Hg in Hr; [done|]. bool_simpl. injection Hr as <-. split; cbn; [|done].
  exists t, s, hk'. split; [set_solver|]. split_and!; try done. rewrite Hcall. f_equal; lia.
Qed.

Lemma replay_all_buyback seen r m tr dep hk p l p' :
  replay_all r m tr dep hk p l = Ok p' ->
  buyback_shown seen (rp_buyback p) -> buyback_shown (seen ++ l) (rp_buyback p').
Proof.
  revert seen p. induction l as [|[t s] l IH]; intros seen p Hr Hb.
  { injection Hr as <-. by rewrite app_nil_r. }
  cbn [replay_all] in Hr. apply result_bind_ok in Hr as (p1 & H1 & Hr).
  eapply replay_one_buyback in H1; [|done]. eapply IH in H1; [|done].
  by rewrite <- app_assoc in H1.
Qed.


(** The stored accounting is what the archived executions add up to. *)
Definition accounted (r : PaymentRecord) (txs : list LegacyTransaction) (events : list EventSummary)
  : Prop :=
  Forall2 executed txs events /\
  pr_funded_tao r = funding_total txs /\
  pr_swept_positions r = omap sweep_of txs /\
  pr_swept_alpha r = Z_sum (snd <$> omap sweep_of txs) /\ pr_swept_alpha r <= u64_max /\
  pr_consolidated r = move_count txs /\
  pr_dust_returned r = existsb is_dust txs /\
  buyback_shown (combine txs events) (pr_buyback r).

Lemma replay_ok r m events block hash next report :
  replay r m (events, block, hash) = Ok (next, report) ->
  validate_manifest r m = Ok tt /\ accounted r (lm_transactions m) events /\ next = adopted m r /\
  rr_previous_version report = pr_version r /\ rr_applied report = false.
Proof.
  unfold replay. intros Hr. apply result_bind_ok in Hr as ([] & Hv & Hr).
  destruct (negb (bool_decide (length events = _))) eqn:Hl; [done|].
  apply negb_false_iff, bool_decide_eq_true in Hl.
  apply result_bind_ok in Hr as (tr & _ & Hr). apply result_bind_ok in Hr as (dep & _ & Hr).
  apply result_bind_ok in Hr as (hk & _ & Hr). apply result_bind_ok in Hr as (p & Hp & Hr).
  apply result_bind_ok in Hr as (total & Ht & Hr). apply ok_or_ok, checked_total_ok in Ht as [Ht Hmax].
  destruct (accounting_mismatch r m p total) eqn:Hg; [done|]. injection Hr as <- <-.
  unfold accounting_mismatch in Hg.
  apply orb_false_iff in Hg as [Hg _].
  repeat match type of Hg with
    | _ || _ = false => let H' := fresh "Hx" in apply orb_false_iff in Hg as [Hg H']
    end.
  pose proof (replay_all_buyback [] _ _ _ _ _ _ _ _ Hp I) as Hbuy.
  apply replay_all_ok in Hp as (Hx' & Hpos & Hfu & Hco & Hdu); [|done].
  cbn in Hpos, Hfu, Hco, Hdu. bool_simpl. unfold accounted. split; [done|]. split; [|done].
  assert (pr_swept_positions r = omap sweep_of (lm_transactions m)) as Hsp by congruence.
  repeat match goal with H : negb _ = false |- _ => apply negb_false_iff in H end.
  split_and!; try done; try congruence.
  all: try lia.
  - assert (rp_positions p = omap sweep_of (lm_transactions m)) as <- by congruence.
    rewrite Z.add_0_l in Ht. congruence.
  - assert (total <= u64_max) by (apply Hmax; unfold u64_max; lia). congruence.
  - match goal with H : Bool.eqb _ _ = true |- _ => apply Bool.eqb_prop in H end. congruence.
  - match goal with H : rp_buyback p = _ |- _ => by rewrite <- H end.
Qed.

(** C18: replay accepts only a history that reproduces the record: every
    transaction executed with its call's event, and the funding, the swept
    positions and their total, the consolidation count, the returned dust and
    the purchase and destruction receipts are what those executions add up
    to; the record gains its identity and policy and nothing else changes. *)
Theorem replay_reproduces_accounting (r : PaymentRecord) (m : LegacyManifest)
  (events : list EventSummary) (block : Z) (hash : string) (next : PaymentRecord)
  (report : RecoveryReport) (Hreplay : replay r m (events, block, hash) = Ok (next, report)) :
  accounted r (lm_transactions m) events /\ next = adopted m r /\ rr_applied report = false.
Proof. apply replay_ok in Hreplay as (? & ? & ? & ? & ?). done. Qed.


Lemma recovery_busy_false db address treasury job :
  recovery_busy db address treasury job = false ->
  db_reservations db !! address = None /\ db_reservations db !! treasury = None /\
  (forall signer jt, db_reservations db !! signer = Some jt -> jt.1 <> job) /\
  (forall id row signer, db_payments db !! id = Some row -> signer = address \/ signer = treasury ->
     journal_signer (row_record row) <> Some signer /\
     quarantine_signer (row_record row) <> Some signer).
Proof.
  unfold recovery_busy. intros Hb. apply orb_false_iff in Hb as [Hr Hp].
  apply bool_decide_eq_false in Hr, Hp. split_and!.
  - apply eq_None_not_Some. intros [jt Hjt]. apply Hr. exists address, jt. auto.
  - apply eq_None_not_Some. intros [jt Hjt]. apply Hr. exists treasury, jt. auto.
  - intros s jt Hjt Hj. apply Hr. exists s, jt. auto.
  - intros id row s Hrow [-> | ->]; split; intros Hs; apply Hp; exists id, row; auto.
Qed.

Lemma validated_record_rejected r m v t m' :
  validate_manifest (adopted m r <| pr_version := v |> <| pr_updated_at := t |>) m' <> Ok tt.
Proof.
  unfold validate_manifest. destruct (_ || _); [done|].
  assert (manifest_rejected (adopted m r <| pr_version := v |> <| pr_updated_at := t |>) m' = true)
    as -> by done.
  done.
Qed.

(** What a recovery that succeeded did. *)
Lemma recover_legacy_ok archive m env db report db' :
  recover_legacy archive m env db = (Ok report, db') ->
  exists row events block hash,
    db_payments db !! lm_job m = Some row /\
    archive = Ok (events, block, hash) /\
    validate_manifest (row_record row) m = Ok tt /\
    accounted (row_record row) (lm_transactions m) events /\
    recovery_busy db (pr_address (row_record row)) (lm_treasury m) (lm_job m) = false /\
    db_payments db' =
      <[lm_job m :=
          update_row None (pr_version (row_record row) + 1)
            (adopted m (row_record row) <| pr_version := pr_version (row_record row) + 1 |>
                                        <| pr_updated_at := se_now env |>) row]>
        (db_payments db) /\
    db_reservations db' = db_reservations db /\
    db_recoveries db !! (lm_job m, pr_version (row_record row)) = None /\
    db_recoveries db' =
      <[(lm_job m, pr_version (row_record row)) := (m, report)]> (db_recoveries db) /\
    rr_applied report = true /\ pr_version (row_record row) + 1 <= i64_max.
Proof.
  intros Hrun. unfold recover_legacy, transaction in Hrun. destruct (se_fault env); [|done..].
  destruct (let? row := _ in _) as [[rep d]|e] eqn:Hbody; [|done]. injection Hrun as -> ->.
  apply result_bind_ok in Hbody as (row & Hrow & Hbody). apply ok_or_ok in Hrow.
  apply result_bind_ok in Hbody as ([] & Hval & Hbody).
  assert (pr_id (row_record row) = lm_job m) as Hid by by apply validate_manifest_ok in Hval as [? _].
  destruct (recovery_busy _ _ _ _) eqn:Hbusy in Hbody; [done|].
  apply result_bind_ok in Hbody as ([next rep] & Hver & Hbody).
  unfold verify in Hver. rewrite Hval in Hver. cbn [result_bind] in Hver.
  apply result_bind_ok in Hver as ([[events block] hash] & Harch & Hrep).
  apply replay_ok in Hrep as (_ & Hacc & -> & _ & _).
  apply result_bind_ok in Hbody as (v & Hadd & Hbody).
  apply ok_or_ok, u64_checked_add_some in Hadd as [-> _].
  apply result_bind_ok in Hbody as (nv & Hnv & Hbody). apply ok_or_ok, i64_try_from_some in Hnv as [-> Hnv].
  apply result_bind_ok in Hbody as (ov & Hov & Hbody). apply ok_or_ok, i64_try_from_some in Hov as [-> _].
  change (pr_id (_ <| pr_updated_at := _ |>)) with (pr_id (row_record row)) in Hbody.
  rewrite Hid, Hrow in Hbody. destruct (negb _) in Hbody; [done|].
  destruct (is_some _) eqn:Hnew in Hbody; [done|]. apply is_some_false in Hnew.
  injection Hbody as <- <-. exists row, events, block, hash. rewrite Hid in Hbusy. by split_and!.
Qed.

(** A job that was recovered has an identity. *)
Lemma recovered_once archive m env db row r v t :
  db_payments db !! lm_job m = Some row -> row_record row = adopted r t <| pr_version := v.1 |>
                                                                       <| pr_updated_at := v.2 |> ->
  exists e, recover_legacy archive m env db = (Err e, db).
Proof.
  intros Hrow Hrec. unfold recover_legacy, transaction.
  destruct (se_fault env) as [|e|e]; [|by eexists..].
  rewrite Hrow. cbn [ok_or result_bind]. rewrite Hrec.
  destruct (validate_manifest _ m) as [[]|e] eqn:Hv; [|by exists e].
  exfalso. revert Hv. apply validated_record_rejected.
Qed.

(** C15: applying a recovery is all or nothing: on an error the database is
    what it was; on success no signer of the job was owned or journaled, the
    archived history reproduces the record, the one change to the payments
    is the adopted record under the next version, the reservations are
    untouched, the audit row is written, and the job can not be recovered a
    second time. *)
Theorem recover_legacy_atomic (archive : Archive) (m : LegacyManifest) (env : SEnv) (db db' : Sqlite)
  (res : Result RecoveryReport) (Hrun : recover_legacy archive m env db = (res, db')) :
  match res with
  | Err _ => db' = db
  | Ok report =>
      exists row events block hash,
        db_payments db !! lm_job m = Some row /\
        archive = Ok (events, block, hash) /\
        accounted (row_record row) (lm_transactions m) events /\
        recovery_busy db (pr_address (row_record row)) (lm_treasury m) (lm_job m) = false /\
        db_payments db' =
          <[lm_job m :=
              update_row None (pr_version (row_record row) + 1)
                (adopted m (row_record row) <| pr_version := pr_version (row_record row) + 1 |>
                                            <| pr_updated_at := se_now env |>) row]>
            (db_payments db) /\
        db_reservations db' = db_reservations db /\
        db_recoveries db' !! (lm_job m, pr_version (row_record row)) = Some (m, report) /\
        rr_applied report = true /\
        forall archive' m' env', lm_job m' = lm_job m ->
          exists e, recover_legacy archive' m' env' db' = (Err e, db')
  end.
Proof.
  destruct res as [report|e]; [|by eapply transaction_err].
  apply recover_legacy_ok in Hrun
    as (row & events & block & hash & Hrow & Harch & _ & Hacc & Hbusy & Hpay & Hres & _ & Haud & Happ & _).
  exists row, events, block, hash.
  split_and!; try done; [by rewrite Haud, lookup_insert_eq|]. intros archive' m' env' Hm'.
  eapply (recovered_once _ _ _ _ _ m (_, _)); [by rewrite Hm', Hpay, lookup_insert_eq|reflexivity].
Qed.
End Theorems.

(** * A concrete recovery: funding, a sweep, the returned dust, a purchase and
      its destruction *)
Module Audit.
Import ToyKeys.
Definition treasury : AccountId32 := mkAccountId32 (bytes_of_string "T").
Definition deposit : AccountId32 := mkAccountId32 (bytes_of_string "D").
Definition miner : AccountId32 := mkAccountId32 (bytes_of_string "M").

Definition tx (block index nonce : Z) (signer : AccountId32) (hash : string) (c : ChainCall)
  : LegacyTransaction :=
  mkLegacyTransaction block index (ss58 signer) nonce
    (mkTxRef (ChainCall_name c) hash "block" (ChainCall_amount c)) c.
Definition txs : list LegacyTransaction :=
  [ tx 5 0 0 treasury "h1" (TransferTao deposit 700);
    tx 5 2 0 deposit "h2" (TransferStake treasury miner 1 40);
    tx 6 0 1 deposit "h3" (TransferAll treasury);
    tx 8 1 1 treasury "h4" (AddStakeLimit miner 1 3000000 9 false);
    tx 9 0 2 treasury "h5" (RecycleAlpha miner 1 55) ].

Definition summary (c : ChainCall) (stake : option (Z * Z)) (destroyed moved : option Z)
  : EventSummary :=
  mkEventSummary [("System", "ExtrinsicSuccess"); ChainCall_expected_event c] false stake destroyed
    None moved.
Definition events : list EventSummary :=
  [ summary (TransferTao deposit 700) None None (Some 700);
    summary (TransferStake treasury miner 1 40) None None None;
    summary (TransferAll treasury) None None None;
    summary (AddStakeLimit miner 1 3000000 9 false) (Some (3000000, 55)) None None;
    summary (RecycleAlpha miner 1 55) None (Some 55) None ].

Definition budget : BuybackBudget := mkBuybackBudget 3000000 "TAO" "fees" 1 Recycle (ss58 miner).

#[local] Instance upd_address : Updater pr_address := ltac:(pr_updater pr_address).
Definition record : PaymentRecord :=
  test_record "legacy"
    <| pr_address := ss58 deposit |>
    <| pr_state := Swept |>
    <| pr_auto_required := None |>
    <| pr_txs := lt_receipt <$> txs |>
    <| pr_funded_tao := 700 |>
    <| pr_swept_positions := [(ss58 miner, 40)] |>
    <| pr_swept_alpha := 40 |>
    <| pr_dust_returned := true |>
    <| pr_buyback := Some (mkBuybackReceipt 1 3000000 55 9 (mkTxRef "add_stake_limit" "h4" "block" 3000000)
                             (Some (mkTxRef "recycle_alpha" "h5" "block" 55)) 55) |>
    <| pr_buyback_done := true |>.

Definition manifest : LegacyManifest :=
  {| lm_job := "legacy"; lm_version := 0; lm_genesis_hash := "genesis"; lm_treasury := ss58 treasury;
     lm_treasury_hotkey := ss58 miner; lm_consolidate := false; lm_return_dust := true;
     lm_budget := Some budget; lm_first_block := 1; lm_stopped_at := 20; lm_maximum_mortality := 128;
     lm_operator_attestation := "offline shutdown and historical mortality evidence";
     lm_all_old_emitters_stopped_no_immortal_signatures := true; lm_transactions := txs |}.

Definition archive : Archive := Ok (events, 300, "anchor").
Definition db : Sqlite := (sqlite_insert record (env_at 1 "") SqliteStore_init).2.

Lemma validate_manifest_sound_witness :
  validate_manifest record manifest = Ok tt /\ StronglySorted before txs.
Proof.
  assert (H : validate_manifest record manifest = Ok tt) by (vm_compute; reflexivity).
  split; [exact H|].
  destruct (validate_manifest_sound record manifest H) as (_ & _ & _ & _ & _ & Hs & _). exact Hs.
Defined.

Lemma replay_reproduces_accounting_witness :
  exists next report, replay record manifest (events, 300, "anchor") = Ok (next, report) /\
    accounted record txs events /\ next = adopted manifest record.
Proof.
  assert (H : exists next report, replay record manifest (events, 300, "anchor") = Ok (next, report))
    by (vm_compute; eexists; eexists; reflexivity).
  destruct H as (next & report & H). exists next, report. split; [exact H|].
  destruct (replay_reproduces_accounting record manifest events 300 "anchor" next report H)
    as (Ha & Hn & _).
  split; [exact Ha|exact Hn].
Defined.

Lemma recover_legacy_atomic_witness :
  exists report db', recover_legacy archive manifest (env_at 9 "") db = (Ok report, db') /\
    rr_applied report = true /\
    (exists e, recover_legacy archive manifest (env_at 10 "") db' = (Err e, db')).
Proof.
  assert (H : exists report db', recover_legacy archive manifest (env_at 9 "") db = (Ok report, db'))
    by (vm_compute; eexists; eexists; reflexivity).
  destruct H as (report & db' & H). exists report, db'. split; [exact H|].
  pose proof (recover_legacy_atomic archive manifest (env_at 9 "") db db' (Ok report) H) as Hr.
  destruct Hr as (row & ev & bl & hs & _ & _ & _ & _ & _ & _ & _ & Happ & Hagain).
  split; [exact Happ|]. apply (Hagain archive manifest (env_at 10 "") eq_refl).
Defined.

(** A manifest that drops a transaction is refused. *)
Example incomplete_manifest_refused :
  validate_manifest record
    (mkLegacyManifest "legacy" 0 "genesis" (ss58 treasury) (ss58 miner) false true (Some budget) 1 20
       128 "offline shutdown and historical mortality evidence" true (take 4 txs))
  = Err manifest_bad.
Proof. vm_compute. reflexivity. Qed.
End Audit.
