(* ===== verification/StoreRuns.v ===== *)
(** Runs of the database: every operation that can change it, by whichever
    process, in any order (src/src/store.rs).

    [sqlite_op] lists the operations, [recover_legacy] among them; [sqlite_step]
    is one of them with any arguments, any clock, any fault and any archive;
    the theorems are invariants of the databases that steps reach from an empty
    one. *)
From S2P Require Import Prelude RustStd Types Units Keys State Chain StoreSpec SqliteStore Recovery.
Local Open Scope Z_scope.

Inductive sqlite_op : Type :=
| Op_reserve_for_record (signer : string) (rec : PaymentRecord)
| Op_reserve (signer job : string)
| Op_cancel (signer job token : string)
| Op_migrate (id : string) (version : Z) (budget : option BuybackBudget)
| Op_insert (rec : PaymentRecord)
| Op_update (rec : PaymentRecord)
| Op_recover (archive : Archive) (m : LegacyManifest).

Definition run_op `{Ss58} (op : sqlite_op) (env : SEnv) (db : Sqlite) : Sqlite :=
  match op with
  | Op_reserve_for_record signer rec => (reserve_signer_for_record signer rec env db).2
  | Op_reserve signer job => (reserve_signer signer job env db).2
  | Op_cancel signer job token => (cancel_preparation signer job token env db).2
  | Op_migrate id version budget => (migrate_legacy_policy id version budget env db).2
  | Op_insert rec => (insert_record rec env db).2
  | Op_update rec => (update_record rec env db).2
  | Op_recover archive m => (recover_legacy archive m env db).2
  end.

(** A journal is fenced: it holds its signer's reservation, or it is a legacy
    journal, which names none, and nobody holds the signer. *)
Definition journal_fenced (db : Sqlite) (id : string) (p : PendingTx) : Prop :=
  match pd_reservation p with
  | Some token => db_reservations db !! pd_signer p = Some (id, token)
  | None => db_reservations db !! pd_signer p = None
  end.

(** Every operation is allowed with any arguments, but an [insert], which checks
    nothing: the record has a version of its type, and its journal, if it has one
    (the program inserts only records without, an old database may hold legacy
    ones), is fenced. *)
Definition op_allowed (op : sqlite_op) (db : Sqlite) : Prop :=
  match op with
  | Op_insert rec =>
      is_u64 (pr_version rec) /\ forall p, pr_pending rec = Some p -> journal_fenced db (pr_id rec) p
  | _ => True
  end.

Definition sqlite_step `{Ss58} (db db' : Sqlite) : Prop :=
  exists op env, op_allowed op db /\ db' = run_op op env db.

Definition journals_fenced (db : Sqlite) : Prop :=
  forall id row p, db_payments db !! id = Some row -> pr_pending (row_record row) = Some p ->
    journal_fenced db id p.
Definition tokens_unique (db : Sqlite) : Prop :=
  forall s s' j j' t, db_reservations db !! s = Some (j, t) ->
    db_reservations db !! s' = Some (j', t) -> s = s'.

Definition sqlite_inv (db : Sqlite) : Prop :=
  store_ok db /\ journals_fenced db /\ tokens_unique db.

(** ** How an operation changes the database *)

Inductive db_change `{Ss58} (db : Sqlite) : Sqlite -> Prop :=
| dc_none : db_change db db
| dc_reserve signer job token :
    signer_journaled db signer = false -> db_reservations db !! signer = None ->
    token_used db token = false ->
    db_change db (db <| db_reservations := <[signer := (job, token)]> (db_reservations db) |>)
| dc_cancel signer job token :
    db_reservations db !! signer = Some (job, token) -> signer_journaled db signer = false ->
    db_change db (db <| db_reservations := delete signer (db_reservations db) |>)
| dc_insert rec row :
    db_payments db !! pr_id rec = None ->
    (forall p, pr_pending rec = Some p -> journal_fenced db (pr_id rec) p) ->
    row_record row = rec -> row_ok (pr_id rec) row ->
    db_change db (db <| db_payments := <[pr_id rec := row]> (db_payments db) |>)
| dc_migrate id row version budget now next row' :
    db_payments db !! id = Some row -> row_record row' = next ->
    migrated_policy (row_record row) version budget now = Ok next ->
    row_ok id row' ->
    db_change db (db <| db_payments := <[id := row']> (db_payments db) |>)
| dc_update rec row now R row' :
    db_payments db !! pr_id rec = Some row ->
    pr_version (row_record row) = pr_version rec -> same_policy (row_record row) rec = true ->
    update_reservations (row_record row) rec (db_reservations db) = Ok R ->
    row_record row' = bump now rec -> row_ok (pr_id rec) row' ->
    db_change db (db <| db_reservations := R |> <| db_payments := <[pr_id rec := row']> (db_payments db) |>)
| dc_recover m row now row' report :
    db_payments db !! lm_job m = Some row ->
    validate_manifest (row_record row) m = Ok tt ->
    row_record row' = bump now (adopted m (row_record row)) -> row_ok (lm_job m) row' ->
    db_recoveries db !! (lm_job m, pr_version (row_record row)) = None ->
    db_change db
      (mkSqlite (<[lm_job m := row']> (db_payments db)) (db_reservations db)
         (<[(lm_job m, pr_version (row_record row)) := (m, report)]> (db_recoveries db))).

(** A row whose record is stored under the next version. *)
Lemma next_row_ok id row next state now :
  row_ok id row -> pr_id next = pr_id (row_record row) ->
  pr_version next = pr_version (row_record row) -> pr_version next + 1 <= i64_max ->
  default (row_state row) state = PaymentState_as_str (pr_state next) ->
  row_ok id (update_row state (pr_version next + 1) (bump now next) row).
Proof.
  intros (Hid & Hver & _ & _) Hn Hv Hle Hs. unfold row_ok, bump in *. cbn in *. pr_cbn.
  rewrite <- Hv in Hver. repeat split; try done; try (u64_unfold; unfold i64_max in Hle; lia);
    [congruence|]. rewrite u64_as_i64_small; [done|]. unfold is_u64 in Hver. lia.
Qed.

Lemma recover_change `{Ss58} archive m env db :
  store_ok db -> db_change db (run_op (Op_recover archive m) env db).
Proof.
  intros Hok. cbn [run_op]. destruct (recover_legacy archive m env db) as [[rep|e] db'] eqn:Hr;
    [|apply transaction_err in Hr as ->; constructor].
  apply recover_legacy_ok in Hr as (row & ev & bl & hs & Hrow & _ & Hval & _ & _ & Hpay & Hres & Hnew &
    Haud & _ & Hle).
  destruct db' as [pay res rec]. cbn in Hpay, Hres, Haud. subst pay res rec. cbn [snd].
  eapply (dc_recover db m row (se_now env)); [done|done|reflexivity| |done].
  pose proof (next_row_ok (lm_job m) row (adopted m (row_record row)) None (se_now env)) as Hn.
  apply Hn; try done; [by apply Hok|]. by destruct (Hok _ _ Hrow) as (_ & _ & _ & ?).
Qed.

Lemma sqlite_step_change `{Ss58} db db' :
  store_ok db -> sqlite_step db db' -> db_change db db'.
Proof.
  intros Hok (op & env & Hallow & ->).
  destruct op as [s rec|s j|s j t|id v b|rec|rec|archive m]; [cbn [run_op]; cbn..|by apply recover_change].
  1,2: destruct (reserve _ _ _ env db) as [[token|e] db'] eqn:Hr;
    [apply reserve_ok in Hr as (_ & ? & ? & ? & _ & ->); by constructor
    |apply transaction_err in Hr as ->; constructor].
  - destruct (sqlite_cancel_preparation _ _ _ env db) as [[[]|e] db'] eqn:Hr.
    + apply cancel_ok in Hr as (? & ? & ? & ->). by econstructor.
    + apply transaction_err in Hr as ->. constructor.
  - destruct (sqlite_migrate_legacy_policy _ _ _ env db) as [[next|e] db'] eqn:Hr;
      [|apply transaction_err in Hr as ->; constructor].
    apply migrate_ok in Hr as (row & Hrow & Hm & Hle & ->). eapply dc_migrate; try done.
    apply migrated_policy_ok in Hm as (_ & _ & _ & _ & ->). unfold bump in Hle. pr_cbn.
    pose proof (next_row_ok id row (row_record row <| pr_auto_required := Some (is_some b) |>
                  <| pr_buyback_budget := b |>) None (se_now env)) as Hn.
    apply Hn; try done; [by apply Hok|]. by destruct (Hok _ _ Hrow) as (_ & _ & _ & ?).
  - destruct (sqlite_insert rec env db) as [[[]|e] db'] eqn:Hr.
    + apply insert_ok in Hr as [Hn (rowid & ->)]. destruct Hallow as [Hv Hp].
      eapply dc_insert; try done.
    + apply transaction_err in Hr as ->. constructor.
  - destruct (sqlite_update rec env db) as [[next|e] db'] eqn:Hr;
      [|apply transaction_err in Hr as ->; constructor].
    apply update_ok in Hr as (row & R & Hrow & Hv & Hp & HR & Hlt & -> & ->).
    destruct (Hok _ _ Hrow) as (Hid & Hver & _). rewrite Hv in Hver.
    eapply (dc_update db rec row (se_now env) R); try done.
    unfold row_ok, bump. cbn. pr_cbn. repeat split; try done; u64_unfold; lia.
Qed.

(** ** The invariant is kept *)

Lemma journal_fenced_other db id p db' :
  journal_fenced db id p ->
  db_reservations db' !! pd_signer p = db_reservations db !! pd_signer p ->
  journal_fenced db' id p.
Proof. unfold journal_fenced. by intros Hf ->. Qed.

Lemma signer_journaled_ne db signer id row p :
  signer_journaled db signer = false -> db_payments db !! id = Some row ->
  pr_pending (row_record row) = Some p -> pd_signer p <> signer.
Proof.
  rewrite signer_journaled_false. intros Hs Hrow Hp <-. apply (Hs _ _ Hrow).
  unfold journal_signer. by rewrite Hp.
Qed.

Lemma migrated_pending `{Ss58} rec version budget now next :
  migrated_policy rec version budget now = Ok next ->
  pr_pending rec = None /\ pr_pending next = None.
Proof.
  intros (_ & Hp & _ & _ & ->)%migrated_policy_ok. unfold pristine in Hp.
  apply negb_true_iff in Hp. repeat (apply orb_false_iff in Hp as [Hp ?]).
  unfold bump. pr_cbn. split; by apply is_some_false.
Qed.

(** Replacing one row, the reservations as they were. *)
Lemma journals_fenced_insert db id row R :
  journals_fenced db ->
  (forall p, pr_pending (row_record row) = Some p -> journal_fenced db id p) ->
  journals_fenced (mkSqlite (<[id := row]> (db_payments db)) (db_reservations db) R).
Proof.
  intros Hj Hnew id0 row0 p. cbn [db_payments]. rewrite lookup_insert_Some.
  intros [[<- <-]|[_ Hrow]] Hp; [by apply (Hnew p Hp)|by apply (Hj _ _ _ Hrow Hp)].
Qed.

(** What an accepted [update] leaves the reservations and the journals as. *)
Lemma update_change_fenced `{Ss58} db rec row R now row' :
  journals_fenced db -> db_payments db !! pr_id rec = Some row ->
  update_reservations (row_record row) rec (db_reservations db) = Ok R ->
  row_record row' = bump now rec ->
  journals_fenced (db <| db_reservations := R |>
                      <| db_payments := <[pr_id rec := row']> (db_payments db) |>).
Proof.
  intros Hj Hrow HR Hrec id row0 p. db_cbn.
  apply update_reservations_ok in HR. rewrite lookup_insert_Some.
  intros [[<- <-]|[Hne Hrow0]] Hp.
  - rewrite Hrec in Hp. unfold bump in Hp. pr_cbn. rewrite Hp in HR.
    destruct HR as (token & Ht & Hr & -> & _). unfold journal_fenced. by rewrite Ht.
  - pose proof (Hj _ _ _ Hrow0 Hp) as Hf. destruct (pr_pending rec) as [q|].
    { by destruct HR as (? & _ & _ & -> & _). }
    destruct (pr_pending (row_record row)) as [q|] eqn:Hq; [|by subst R].
    destruct HR as (token' & Ht' & Hr' & ->). unfold journal_fenced in *. db_cbn.
    destruct (pd_reservation p) as [token|]; [|by apply lookup_delete_None; right].
    rewrite lookup_delete_ne; [done|]. congruence.
Qed.

Lemma tokens_unique_delete db signer :
  tokens_unique db ->
  tokens_unique (db <| db_reservations := delete signer (db_reservations db) |>).
Proof.
  intros Hu s s' j j' t. db_cbn. rewrite !lookup_delete_Some. intros [_ ?] [_ ?]. eauto.
Qed.

Lemma db_change_store_ok `{Ss58} db db' : store_ok db -> db_change db db' -> store_ok db'.
Proof. intros Hok []; cbn; try done; by apply map_Forall_insert_2. Qed.

Lemma db_change_fenced `{Ss58} db db' :
  journals_fenced db -> db_change db db' -> journals_fenced db'.
Proof.
  intros Hj Hc. destruct Hc as
    [|signer job token Hsj Hfree Htok|signer job token Hown Hsj|rec row Hn Hp Hr Hrok
     |id row version budget now next row' Hrow Hr Hm Hrok|rec row now R row' Hrow Hv Hp HR Hr Hrok
     |m row now row' rep Hrow Hval Hr Hrok Hnew].
  - done.
  - intros id row p Hrow Hp. eapply journal_fenced_other; [by eapply Hj|].
    db_cbn. apply lookup_insert_ne, not_eq_sym. by eapply signer_journaled_ne.
  - intros id row p Hrow Hp. eapply journal_fenced_other; [by eapply Hj|].
    db_cbn. apply lookup_delete_ne, not_eq_sym. by eapply signer_journaled_ne.
  - apply journals_fenced_insert; [done|]. by rewrite Hr.
  - apply journals_fenced_insert; [done|]. apply migrated_pending in Hm as [_ Hm].
    intros p Hpend. congruence.
  - by eapply update_change_fenced.
  - apply journals_fenced_insert; [done|]. apply validated_unresolved in Hval as (_ & Hpend & _).
    intros p Hp. rewrite Hr in Hp. unfold bump in Hp. pr_cbn. cbn in Hp. congruence.
Qed.

Lemma db_change_tokens `{Ss58} db db' : tokens_unique db -> db_change db db' -> tokens_unique db'.
Proof.
  intros Hu Hc. destruct Hc as
    [|signer job token Hsj Hfree Htok|signer job token Hown Hsj| | |rec row now R row' Hrow Hv Hp HR Hr Hrok|];
    try done.
  - intros s s' j j' t. db_cbn. rewrite token_used_false in Htok.
    rewrite !lookup_insert_Some. intros [[<- [= <- <-]]|[Hs Hsr]] [[<- [= <-]]|[Hs' Hsr']]; try done.
    + by apply Htok in Hsr'.
    + by apply Htok in Hsr.
    + by eapply Hu.
  - by apply tokens_unique_delete.
  - apply update_reservations_released in HR as ->. unfold released.
    destruct (pr_pending (row_record row)), (pr_pending rec); try done.
    apply (tokens_unique_delete db _ Hu).
Qed.

Lemma sqlite_step_inv `{Ss58} db db' : sqlite_inv db -> sqlite_step db db' -> sqlite_inv db'.
Proof.
  intros (Hok & Hj & Hu) Hs. pose proof (sqlite_step_change _ _ Hok Hs) as Hc.
  split; [by eapply db_change_store_ok|]. split; [by eapply db_change_fenced|by eapply db_change_tokens].
Qed.

Lemma sqlite_inv_init : sqlite_inv SqliteStore_init.
Proof.
  split; [apply map_Forall_empty|]. split.
  - intros id row p Hrow. cbn in Hrow. by rewrite lookup_empty in Hrow.
  - intros s s' j j' t Hs. cbn in Hs. by rewrite lookup_empty in Hs.
Qed.

Lemma sqlite_reachable_inv `{Ss58} db : rtc sqlite_step SqliteStore_init db -> sqlite_inv db.
Proof.
  intros Hr. eapply (rtc_invariant sqlite_step); [|done|apply sqlite_inv_init].
  intros. by eapply sqlite_step_inv.
Qed.

(** ** Evolution of one record *)

(** [b] is what the record [a] of job [id] can have become, in a database with the
    audit rows [audit]. *)
Record record_evolves (audit : gmap (string * Z) (LegacyManifest * RecoveryReport)) (id : string)
  (a b : PaymentRecord) : Prop := {
  re_version : pr_version a <= pr_version b;
  re_same : pr_version a = pr_version b -> a = b;
  re_policy : pr_auto_required a <> None ->
    pr_auto_required b = pr_auto_required a /\ pr_buyback_budget b = pr_buyback_budget a;
  re_identity : pr_identity a <> None -> pr_identity b = pr_identity a;
  re_adopted : pr_identity a = None -> pr_identity b = None \/
    exists v m report, audit !! (id, v) = Some (m, report) /\ pr_version a <= v < pr_version b /\
      pr_identity b = pr_identity (adopted m a) }.

Lemma record_evolves_refl audit id r : record_evolves audit id r r.
Proof. by constructor; auto. Qed.

Lemma record_evolves_trans audit audit' id a b c :
  audit ⊆ audit' -> record_evolves audit id a b -> record_evolves audit' id b c ->
  record_evolves audit' id a c.
Proof.
  intros Hsub [Hv Hs Hp Hi Ha] [Hv' Hs' Hp' Hi' Ha']. constructor.
  - lia.
  - intros Heq. assert (a = b) as -> by (apply Hs; lia). apply Hs'. lia.
  - intros Hn. destruct (Hp Hn) as [H1 H2]. destruct Hp' as [H3 H4]; [congruence|].
    split; congruence.
  - intros Hn. rewrite Hi'; auto. by rewrite Hi.
  - intros Hn. destruct (Ha Hn) as [Hb|(v & m & rep & Hau & Hlt & Heq)].
    + destruct (Ha' Hb) as [?|(v & m & rep & Hau & Hlt & Heq)]; [by left|]. right.
      exists v, m, rep. split; [done|]. split; [lia|done].
    + right. exists v, m, rep. split; [by eapply lookup_weaken|]. split; [lia|].
      rewrite <- Heq. apply Hi'. by rewrite Heq.
Qed.

(** A record stored under its next version, its policy and identity kept where
    they were set. *)
Lemma next_evolves audit id r next now :
  pr_version next = pr_version r -> pr_identity next = pr_identity r ->
  (pr_auto_required r <> None ->
     pr_auto_required next = pr_auto_required r /\ pr_buyback_budget next = pr_buyback_budget r) ->
  record_evolves audit id r (bump now next).
Proof.
  intros Hv Hi Hp. unfold bump. constructor; pr_cbn; try lia; try done.
  intros Hn. left. congruence.
Qed.

Lemma db_change_audit `{Ss58} db db' : db_change db db' -> db_recoveries db ⊆ db_recoveries db'.
Proof. intros []; cbn; try done. by apply insert_subseteq. Qed.

Lemma db_change_evolves `{Ss58} db db' id r :
  db_change db db' -> view db !! id = Some r ->
  exists r', view db' !! id = Some r' /\ record_evolves (db_recoveries db') id r r'.
Proof.
  intros Hc Hv. pose proof (record_evolves_refl (db_recoveries db') id r) as Hrefl.
  destruct Hc as [| | |rec row Hn Hp Hr Hrok
     |id' row version budget now next row' Hrow Hr Hm Hrok
     |rec row now R row' Hrow Hver Hp HR Hr Hrok
     |m row now row' rep Hrow Hval Hr Hrok Hnew]; cbn in *; eauto;
    rewrite fmap_insert, Hr.
  - destruct (decide (id = pr_id rec)) as [->|]; [|rewrite lookup_insert_ne by done; eauto].
    rewrite lookup_fmap, Hn in Hv. done.
  - destruct (decide (id = id')) as [->|]; [|rewrite lookup_insert_ne by done; eauto].
    rewrite lookup_insert_eq. eexists. split; [done|].
    rewrite lookup_fmap, Hrow in Hv. injection Hv as <-.
    apply migrated_policy_ok in Hm as (_ & Hpr & _ & _ & ->).
    unfold pristine in Hpr. apply negb_true_iff in Hpr.
    repeat (apply orb_false_iff in Hpr as [Hpr ?]). apply is_some_false in Hpr.
    by apply next_evolves.
  - destruct (decide (id = pr_id rec)) as [->|]; [|rewrite lookup_insert_ne by done; eauto].
    rewrite lookup_insert_eq. eexists. split; [done|].
    rewrite lookup_fmap, Hrow in Hv. injection Hv as <-.
    apply same_policy_true in Hp as (? & ? & ?). by apply next_evolves.
  - destruct (decide (id = lm_job m)) as [->|]; [|rewrite lookup_insert_ne by done; eauto].
    rewrite lookup_insert_eq. eexists. split; [done|].
    rewrite lookup_fmap, Hrow in Hv. injection Hv as <-.
    apply validated_unresolved in Hval as (Hi & _ & _ & Hpol). unfold bump.
    constructor; pr_cbn; cbn; try lia; try done.
    + intros Ha. destruct (Hpol Ha) as [-> ->]. done.
    + intros _. right. exists (pr_version (row_record row)), m, rep.
      split; [by rewrite lookup_insert_eq|]. split; [lia|done].
Qed.

Lemma sqlite_run_evolves `{Ss58} db db' id r :
  sqlite_inv db -> rtc sqlite_step db db' -> view db !! id = Some r ->
  db_recoveries db ⊆ db_recoveries db' /\
  exists r', view db' !! id = Some r' /\ record_evolves (db_recoveries db') id r r'.
Proof.
  intros Hinv Hrun. revert r. induction Hrun as [db|db db1 db2 Hs _ IH]; intros r Hv.
  { split; [done|]. exists r. split; [done|]. apply record_evolves_refl. }
  pose proof (sqlite_step_change _ _ (proj1 Hinv) Hs) as Hc.
  destruct (db_change_evolves _ _ _ _ Hc Hv) as (r1 & Hv1 & He1).
  destruct (IH (sqlite_step_inv _ _ Hinv Hs) r1 Hv1) as (Hsub & r2 & Hv2 & He2).
  split; [by etrans; [apply db_change_audit|]|]. exists r2. split; [done|].
  by eapply record_evolves_trans.
Qed.

(** ** A legacy journal freezes its record *)

Lemma db_change_frozen `{Ss58} db db' id r p :
  store_ok db -> db_change db db' -> view db !! id = Some r -> pr_pending r = Some p ->
  pd_reservation p = None -> view db' !! id = Some r.
Proof.
  intros Hok Hc Hv Hp Hleg.
  destruct Hc as [| | |rec row Hn _ Hr Hrok
     |id' row version budget now next row' Hrow Hr Hm Hrok
     |rec row now R row' Hrow Hver _ HR Hr Hrok
     |m row now row' rep Hrow Hval Hr Hrok Hnew]; cbn in *; try done;
    rewrite fmap_insert, Hr; apply lookup_insert_Some; right; (split; [|done]); intros <-;
    rewrite lookup_fmap in Hv.
  - by rewrite Hn in Hv.
  - rewrite Hrow in Hv. injection Hv as <-. apply migrated_pending in Hm as [Hm _]. congruence.
  - rewrite Hrow in Hv. injection Hv as <-. apply update_reservations_ok in HR. rewrite Hp in HR.
    destruct (pr_pending rec) as [q|]; naive_solver.
  - rewrite Hrow in Hv. injection Hv as <-. apply validated_unresolved in Hval as (_ & Hn & _).
    congruence.
Qed.

Lemma sqlite_run_frozen `{Ss58} db db' id r p :
  sqlite_inv db -> rtc sqlite_step db db' -> view db !! id = Some r -> pr_pending r = Some p ->
  pd_reservation p = None -> view db' !! id = Some r.
Proof.
  intros Hinv Hrun Hv Hp Hleg. induction Hrun as [db|db db1 db2 Hs _ IH]; [done|].
  apply IH; [by eapply sqlite_step_inv|].
  apply (db_change_frozen db db1 id r p); [apply Hinv| |done..].
  by apply sqlite_step_change; [apply Hinv|].
Qed.

Lemma reachable_fenced `{Ss58} db id r p :
  rtc sqlite_step SqliteStore_init db -> view db !! id = Some r -> pr_pending r = Some p ->
  journal_fenced db id p.
Proof.
  intros Hr Hv Hp. pose proof (sqlite_reachable_inv db Hr) as (_ & Hj & _).
  cbn in Hv. rewrite lookup_fmap in Hv. apply fmap_Some in Hv as (row & Hrow & ->). by eapply Hj.
Qed.

(** * Theorems *)

(** C2: the signer fence.  However the operations of any number of processes
    interleave, a recovery and an old database's journals included, in every
    reachable database each journaled transaction is fenced: it is backed by the
    reservation it names, whose token no other signer has, or it is a legacy
    journal, its signer is reserved by nobody, and neither ever changes again: its
    record is frozen and its signer can not be reserved.  So no two records have
    transactions in flight under the same signer, unless both are legacy ones. *)
Theorem one_journal_per_signer `{Ss58} (db : Sqlite) (Hreach : rtc sqlite_step SqliteStore_init db)
  (id : string) (r : PaymentRecord) (p : PendingTx)
  (Hr : view db !! id = Some r) (Hp : pr_pending r = Some p) :
  (forall token, pd_reservation p = Some token ->
     db_reservations db !! pd_signer p = Some (id, token) /\
     forall signer job, db_reservations db !! signer = Some (job, token) -> signer = pd_signer p) /\
  (pd_reservation p = None -> forall db', rtc sqlite_step db db' ->
     view db' !! id = Some r /\ db_reservations db' !! pd_signer p = None) /\
  (forall id' r' p', view db !! id' = Some r' -> pr_pending r' = Some p' ->
     pd_signer p' = pd_signer p ->
     (id' = id /\ p' = p) \/ (pd_reservation p' = None /\ pd_reservation p = None)).
Proof.
  pose proof (sqlite_reachable_inv db Hreach) as Hinv. pose proof Hinv as (_ & _ & Hu).
  pose proof (reachable_fenced db id r p Hreach Hr Hp) as Hf. split; [|split].
  - intros token Ht. unfold journal_fenced in Hf. rewrite Ht in Hf. split; [done|].
    intros s j Hs. by eapply Hu.
  - intros Hleg db' Hrun. pose proof (sqlite_run_frozen _ _ _ _ _ Hinv Hrun Hr Hp Hleg) as Hr'.
    split; [done|].
    assert (Hf' : journal_fenced db' id p) by (eapply reachable_fenced; [by etrans|done..]).
    unfold journal_fenced in Hf'. by rewrite Hleg in Hf'.
  - intros id' r' p' Hr' Hp' Hs. pose proof (reachable_fenced db id' r' p' Hreach Hr' Hp') as Hf'.
    unfold journal_fenced in Hf, Hf'. rewrite Hs in Hf'.
    destruct (pd_reservation p), (pd_reservation p'); try (congruence || by right).
    left. assert (id' = id) as -> by congruence. split; congruence.
Qed.

(** C13: reservations have no expiry.  An operation releases a signer only for
    the job and token that hold it: a cancellation with exactly that token
    while nothing is journaled, or the write that resolves the journal carrying
    that token; every other operation leaves the reservation in place. *)
Theorem reservation_released_only_by_owner `{Ss58} (op : sqlite_op) (env : SEnv) (db : Sqlite)
  (signer job token : string) (Hheld : db_reservations db !! signer = Some (job, token)) :
  db_reservations (run_op op env db) !! signer = Some (job, token) \/
  (db_reservations (run_op op env db) !! signer = None /\
   ((op = Op_cancel signer job token /\ signer_journaled db signer = false /\
     forall r, view db !! job = Some r -> pr_pending r = None) \/
    (exists rec prev p, op = Op_update rec /\ pr_id rec = job /\ pr_pending rec = None /\
       view db !! job = Some prev /\ pr_pending prev = Some p /\
       pd_signer p = signer /\ pd_reservation p = Some token))).
Proof.
  destruct op as [s rec|s j|s j t|id v b|rec|rec|archive m]; cbn [run_op]; cbn.
  1,2: left; destruct (reserve _ _ _ env db) as [[tk|e] db'] eqn:Hr; cbn;
    [apply reserve_ok in Hr as (_ & _ & Hfree & _ & _ & ->); cbn;
     rewrite lookup_insert_ne; [done|congruence]
    |apply transaction_err in Hr as ->; done].
  - destruct (sqlite_cancel_preparation s j t env db) as [[[]|e] db'] eqn:Hr; cbn;
      [|apply transaction_err in Hr as ->; by left].
    apply cancel_ok in Hr as (Hs & Hsj & Hp & ->). cbn.
    destruct (decide (s = signer)) as [->|]; [|rewrite lookup_delete_ne by done; by left].
    rewrite lookup_delete_eq. right. split; [done|]. left. rewrite Hheld in Hs.
    injection Hs as <- <-. split; [done|]. split; [done|]. intros r Hv.
    rewrite lookup_fmap in Hv. apply fmap_Some in Hv as (row & Hrow & ->). eauto.
  - left. destruct (sqlite_migrate_legacy_policy id v b env db) as [[n|e] db'] eqn:Hr; cbn;
      [by apply migrate_ok in Hr as (row & _ & _ & _ & ->)|by apply transaction_err in Hr as ->].
  - left. destruct (sqlite_insert rec env db) as [[[]|e] db'] eqn:Hr; cbn;
      [by apply insert_ok in Hr as (_ & ? & ->)|by apply transaction_err in Hr as ->].
  - destruct (sqlite_update rec env db) as [[n|e] db'] eqn:Hr; cbn;
      [|apply transaction_err in Hr as ->; by left].
    apply update_ok in Hr as (row & R & Hrow & _ & _ & HR & _ & _ & ->). cbn.
    apply update_reservations_ok in HR. destruct (pr_pending rec) as [q|] eqn:Hq.
    { destruct HR as (? & _ & _ & -> & _). by left. }
    destruct (pr_pending (row_record row)) as [p|] eqn:Hp; [|subst R; by left].
    destruct HR as (t & Ht & Hown & ->).
    destruct (decide (pd_signer p = signer)) as [<-|]; [|rewrite lookup_delete_ne by done; by left].
    rewrite lookup_delete_eq. right. split; [done|]. right. rewrite Hheld in Hown.
    injection Hown as -> ->. exists rec, (row_record row), p.
    by rewrite lookup_fmap, Hrow.
  - left. destruct (recover_legacy archive m env db) as [[rep|e] db'] eqn:Hr; cbn;
      [|by apply transaction_err in Hr as ->].
    apply recover_legacy_ok in Hr as (? & ? & ? & ? & _ & _ & _ & _ & _ & _ & -> & _). done.
Qed.

(** C8: the version identifies the record.  Along any run of the store a
    record is never lost, its version never decreases, two observations with
    the same version are the same record (so a compare-and-swap that succeeds
    overwrites exactly the record its caller read), its buyback policy never
    changes once it is set, nor does its execution identity; and a record
    without an identity gets one only from a recovery, whose audit row names the
    version it was applied to and the manifest the identity is of, and no audit row
    is ever lost. *)
Theorem version_identifies_record `{Ss58} (db db' : Sqlite)
  (Hreach : rtc sqlite_step SqliteStore_init db) (Hrun : rtc sqlite_step db db')
  (id : string) (r : PaymentRecord) (Hr : view db !! id = Some r) :
  db_recoveries db ⊆ db_recoveries db' /\
  exists r', view db' !! id = Some r' /\
    pr_version r <= pr_version r' /\
    (pr_version r = pr_version r' -> r = r') /\
    (pr_auto_required r <> None ->
       pr_auto_required r' = pr_auto_required r /\ pr_buyback_budget r' = pr_buyback_budget r) /\
    (pr_identity r <> None -> pr_identity r' = pr_identity r) /\
    (pr_identity r = None -> pr_identity r' = None \/
       exists v m report, db_recoveries db' !! (id, v) = Some (m, report) /\
         pr_version r <= v < pr_version r' /\ pr_identity r' = pr_identity (adopted m r)).
Proof.
  pose proof (sqlite_reachable_inv db Hreach) as Hinv.
  destruct (sqlite_run_evolves _ _ _ _ Hinv Hrun Hr) as (Hsub & r' & Hr' & [Hv Hs Hp Hi Ha]).
  split; [done|]. exists r'. by split_and!.
Qed.

(** ** Witnesses *)
Import ToyKeys.

(** One step of a run, checked by evaluation. *)
Ltac run_step op env := eapply rtc_l; [exists op, env; split; [try done|reflexivity]|].

(** A record of an old database, with a journal that names no reservation. *)
Definition old_pending : PendingTx :=
  {| pd_action := Action_Fund; pd_reservation := None; pd_signer := "5old"; pd_nonce := 0;
     pd_tx_hash := "0xdead"; pd_birth_block := 1; pd_amount := 1 |}.
Definition old_record : PaymentRecord := test_record "old" <| pr_pending := Some old_pending |>.

(** A job with a transaction in flight beside it. *)
Definition db_mixed : Sqlite :=
  run_op (Op_update journaled_a) (env_at 3 "")
    (run_op (Op_reserve_for_record "5treasury" job_a) (env_at 2 "tok-1")
       (run_op (Op_insert job_a) (env_at 1 "")
          (run_op (Op_insert old_record) (env_at 1 "") SqliteStore_init))).

Lemma db_mixed_reachable : rtc sqlite_step SqliteStore_init db_mixed.
Proof.
  run_step (Op_insert old_record) (env_at 1 "").
  { split; [vm_compute; split; discriminate|]. intros p [= <-]. vm_compute. reflexivity. }
  run_step (Op_insert job_a) (env_at 1 "").
  run_step (Op_reserve_for_record "5treasury" job_a) (env_at 2 "tok-1").
  run_step (Op_update journaled_a) (env_at 3 ""). apply rtc_refl.
Qed.

Lemma one_journal_per_signer_witness :
  db_reservations db_mixed !! "5treasury" = Some ("a", "tok-1") /\
  view (run_op (Op_update (old_record <| pr_pending := None |>)) (env_at 4 "") db_mixed) !! "old"
    = Some old_record.
Proof.
  assert (Ha : view db_mixed !! "a" = Some stored_a) by (vm_compute; reflexivity).
  assert (Ho : view db_mixed !! "old" = Some old_record) by (vm_compute; reflexivity).
  destruct (one_journal_per_signer db_mixed db_mixed_reachable "a" stored_a toy_pending Ha eq_refl)
    as (Hown & _ & _).
  destruct (one_journal_per_signer db_mixed db_mixed_reachable "old" old_record old_pending Ho eq_refl)
    as (_ & Hfrozen & _).
  split; [exact (proj1 (Hown "tok-1" eq_refl))|].
  apply (Hfrozen eq_refl). apply rtc_once.
  exists (Op_update (old_record <| pr_pending := None |>)), (env_at 4 ""). split; [exact I|reflexivity].
Defined.

Lemma reservation_released_only_by_owner_witness :
  db_reservations (run_op (Op_update resolved_a) (env_at 4 "") db_mixed) !! "5treasury" = None /\
  (db_reservations (run_op (Op_update resolved_a) (env_at 4 "") db_mixed) !! "5treasury"
     = Some ("a", "tok-1") \/
   db_reservations (run_op (Op_update resolved_a) (env_at 4 "") db_mixed) !! "5treasury" = None).
Proof.
  split; [vm_compute; reflexivity|].
  destruct (reservation_released_only_by_owner (Op_update resolved_a) (env_at 4 "") db_mixed
              "5treasury" "a" "tok-1") as [Hk|[Hn _]];
    [vm_compute; reflexivity|left; exact Hk|right; exact Hn].
Defined.

(** A recovery on the way: the identity appears with its audit row. *)
Definition db_recovered : Sqlite :=
  run_op (Op_recover Audit.archive Audit.manifest) (env_at 9 "") Audit.db.

Lemma version_identifies_record_witness :
  exists r', view Audit.db !! "legacy" = Some Audit.record /\ pr_identity Audit.record = None /\
    view db_recovered !! "legacy" = Some r' /\ pr_identity r' <> None /\
    exists v m report, db_recoveries db_recovered !! ("legacy", v) = Some (m, report) /\
      0 <= v < pr_version r'.
Proof.
  assert (Hi : rtc sqlite_step SqliteStore_init Audit.db).
  { apply rtc_once. exists (Op_insert Audit.record), (env_at 1 ""). split; [|reflexivity].
    split; [vm_compute; split; discriminate|]. intros p Hp. discriminate Hp. }
  assert (Hrun : rtc sqlite_step Audit.db db_recovered).
  { apply rtc_once. exists (Op_recover Audit.archive Audit.manifest), (env_at 9 "").
    split; [exact I|reflexivity]. }
  assert (Hr : view Audit.db !! "legacy" = Some Audit.record) by (vm_compute; reflexivity).
  assert (Hset : exists r', view db_recovered !! "legacy" = Some r' /\ pr_identity r' <> None)
    by (eexists; split; [vm_compute; reflexivity|vm_compute; discriminate]).
  destruct Hset as (rec & Hrec & Hid).
  destruct (version_identifies_record Audit.db db_recovered Hi Hrun "legacy" Audit.record Hr)
    as (_ & r' & Hr' & _ & _ & _ & _ & Had).
  exists r'. split; [exact Hr|]. split; [reflexivity|]. split; [exact Hr'|].
  assert (rec = r') as -> by congruence. split; [exact Hid|].
  destruct (Had eq_refl) as [Hn|(v & m & rep & Hau & Hlt & _)]; [destruct (Hid Hn)|].
  exists v, m, rep. split; [exact Hau|exact Hlt].
Defined.
