(* ===== verification/Typing.v ===== *)
(** Machine widths: every integer of a record stays in the range of its Rust
    type (src/src/state.rs) and every column in that of a SQLite integer, through
    every operation of the database, a legacy recovery included.

    The model writes a [u64] as [Z]; these predicates are the types. *)
From S2P Require Import Prelude RustStd Types Units Keys State Chain.
From S2P Require Import StoreSpec SqliteStore Recovery StoreRuns.
Local Open Scope Z_scope.

Definition is_u16 (z : Z) : Prop := 0 <= z <= u16_max.
Definition is_u32 (z : Z) : Prop := 0 <= z <= u32_max.
Definition is_i64 (z : Z) : Prop := - i64_max - 1 <= z <= i64_max.

(** [o] is absent or has the type. *)
Definition opt_typed {A} (P : A -> Prop) (o : option A) : Prop := forall a, o = Some a -> P a.

Definition tx_typed (tx : TxRef) : Prop := is_u64 (tx_amount tx).

Record receipt_typed (b : BuybackReceipt) : Prop := {
  bt_netuid : is_u16 (br_netuid b);
  bt_tao : is_u64 (br_tao_spent b);
  bt_alpha : is_u64 (br_alpha_bought b);
  bt_limit : is_u64 (br_limit_price b);
  bt_stake : tx_typed (br_stake_tx b);
  bt_destroy : opt_typed tx_typed (br_destroy_tx b);
  bt_destroyed : is_u64 (br_alpha_destroyed b) }.

Definition budget_typed (b : BuybackBudget) : Prop :=
  is_u64 (bb_amount_rao b) /\ is_u16 (bb_netuid b).

Definition action_typed (a : Action) : Prop :=
  match a with
  | Action_BuyStake netuid limit_price => is_u16 netuid /\ is_u64 limit_price
  | Action_Destroy netuid _ => is_u16 netuid
  | _ => True
  end.

Definition journal_typed (p : PendingTx) : Prop :=
  action_typed (pd_action p) /\ is_u64 (pd_nonce p) /\ is_u64 (pd_birth_block p) /\
  is_u64 (pd_amount p).

Record record_typed (r : PaymentRecord) : Prop := {
  rt_netuid : is_u16 (pr_netuid r);
  rt_min_alpha : is_u64 (pr_min_alpha r);
  rt_min_tao : opt_typed is_u64 (pr_min_tao r);
  rt_created : is_u64 (pr_created_at r);
  rt_expires : is_u64 (pr_expires_at r);
  rt_version : is_u64 (pr_version r);
  rt_detected_alpha : is_u64 (pr_detected_alpha r);
  rt_detected_tao : is_u64 (pr_detected_tao r);
  rt_funded : is_u64 (pr_funded_tao r);
  rt_swept : is_u64 (pr_swept_alpha r);
  rt_txs : Forall tx_typed (pr_txs r);
  rt_buyback : opt_typed receipt_typed (pr_buyback r);
  rt_budget : opt_typed budget_typed (pr_buyback_budget r);
  rt_attempts : is_u32 (pr_attempts r);
  rt_next : is_u64 (pr_next_attempt_at r);
  rt_pending : opt_typed journal_typed (pr_pending r);
  rt_quarantined : opt_typed journal_typed (pr_quarantined r);
  rt_positions : Forall (fun ha => is_u64 ha.2) (pr_swept_positions r);
  rt_consolidated : is_u64 (pr_consolidated r);
  rt_updated : is_u64 (pr_updated_at r) }.

Lemma opt_typed_none {A} (P : A -> Prop) : opt_typed P None.
Proof. intros a [=]. Qed.
Lemma opt_typed_some {A} (P : A -> Prop) a : P a -> opt_typed P (Some a).
Proof. by intros H b [= <-]. Qed.

(** A record whose changed fields are typed. *)
Ltac retype H := destruct H; constructor; pr_cbn; cbn; try assumption.

(** * What the database stores *)

Definition row_typed (id : string) (row : PayRow) : Prop :=
  row_ok id row /\ record_typed (row_record row) /\ is_i64 (row_version row) /\
  is_i64 (row_created_at row).
Definition db_typed (db : Sqlite) : Prop := map_Forall row_typed (db_payments db).

(** An operation with arguments of their types, at a time of its type. *)
Definition op_typed (op : sqlite_op) : Prop :=
  match op with
  | Op_insert r | Op_update r => record_typed r
  | Op_migrate _ version budget => is_u64 version /\ opt_typed budget_typed budget
  | Op_recover _ m => opt_typed budget_typed (lm_budget m)
  | _ => True
  end.
Definition typed_step `{Ss58} (db db' : Sqlite) : Prop :=
  exists op env, op_typed op /\ op_allowed op db /\ is_u64 (se_now env) /\ db' = run_op op env db.

Lemma u64_as_i64_range z : is_u64 z -> is_i64 (u64_as_i64 z).
Proof.
  unfold is_u64, u64_max, is_i64, i64_max, u64_as_i64, i64_max. intros Hz.
  destruct (Z.leb_spec z 9223372036854775807); lia.
Qed.

Lemma bump_typed t r : record_typed r -> is_u64 t -> pr_version r < u64_max -> record_typed (bump t r).
Proof. intros Hr Ht Hlt. unfold bump. retype Hr. u64_unfold. lia. Qed.

(** A row rewritten under the next version by an operation that converts it with
    [i64::try_from]. *)
Lemma next_row_typed id row next state now :
  row_typed id row -> record_typed next -> is_u64 now ->
  pr_id next = pr_id (row_record row) -> pr_version next = pr_version (row_record row) ->
  pr_version next + 1 <= i64_max ->
  default (row_state row) state = PaymentState_as_str (pr_state next) ->
  row_typed id (update_row state (pr_version next + 1) (bump now next) row).
Proof.
  intros (Hok & _ & _ & Hc) Hn Hnow Hid Hv Hle Hs. pose proof (rt_version _ Hn) as Hu.
  split; [by apply next_row_ok|]. split; [|split; [|exact Hc]].
  - apply bump_typed; [done..|]. unfold i64_max in Hle. u64_unfold. lia.
  - cbn. unfold is_i64, is_u64 in *. unfold i64_max in *. lia.
Qed.

Section Database.
Context `{Ss58}.

Lemma recover_typed archive m env db :
  opt_typed budget_typed (lm_budget m) -> is_u64 (se_now env) -> db_typed db ->
  db_typed (run_op (Op_recover archive m) env db).
Proof.
  intros Hm Hnow Hdb. cbn [run_op]. destruct (recover_legacy archive m env db) as [[rep|e] db'] eqn:Hr;
    cbn; [|by apply transaction_err in Hr as ->].
  apply recover_legacy_ok in Hr as (row & ev & bl & hs & Hrow & _ & _ & _ & _ & Hpay & _ & _ & _ & _ & Hle).
  pose proof (Hdb _ _ Hrow) as Hrt. unfold db_typed. rewrite Hpay.
  apply map_Forall_insert_2; [|exact Hdb].
  apply (next_row_typed _ row (adopted m (row_record row)) None); try done; [|apply Hrt].
  destruct Hrt as (_ & Hrt & _). unfold adopted. retype Hrt.
Qed.

Lemma run_op_typed op env db :
  op_typed op -> op_allowed op db -> is_u64 (se_now env) -> db_typed db -> db_typed (run_op op env db).
Proof.
  intros Hop Hallow Hnow Hdb.
  destruct op as [s rec|s j|s j t|id v b|r|r|archive m]; [cbn [run_op]; cbn..|by apply recover_typed].
  1,2: destruct (reserve _ _ _ env db) as [[tk|er] db'] eqn:Hr; cbn;
    [apply reserve_ok in Hr as (_ & _ & _ & _ & _ & ->)|apply transaction_err in Hr as ->]; exact Hdb.
  - destruct (sqlite_cancel_preparation _ _ _ env db) as [[[]|er] db'] eqn:Hr; cbn;
      [apply cancel_ok in Hr as (_ & _ & _ & ->)|apply transaction_err in Hr as ->]; exact Hdb.
  - destruct (sqlite_migrate_legacy_policy id v b env db) as [[n|er] db'] eqn:Hr; cbn;
      [|by apply transaction_err in Hr as ->].
    apply migrate_ok in Hr as (row & Hrow & Hm & Hle & ->). pose proof (Hdb _ _ Hrow) as Hrt.
    apply map_Forall_insert_2; [|exact Hdb].
    apply migrated_policy_ok in Hm as (_ & _ & _ & _ & ->). unfold bump in Hle. pr_cbn.
    apply (next_row_typed id row (row_record row <| pr_auto_required := Some (is_some b) |>
             <| pr_buyback_budget := b |>) None); try done; [|apply Hrt].
    destruct Hrt as (_ & Hrt & _), Hop as [_ Hb]. retype Hrt.
  - destruct (sqlite_insert r env db) as [[[]|er] db'] eqn:Hr; cbn;
      [|by apply transaction_err in Hr as ->].
    apply insert_ok in Hr as [_ (rowid & ->)]. apply map_Forall_insert_2; [|exact Hdb].
    destruct Hallow as [Hu _]. cbn in Hop. split; [by repeat split; try apply Hu|]. split; [done|].
    split; apply u64_as_i64_range; [apply (rt_version _ Hop)|apply (rt_created _ Hop)].
  - destruct (sqlite_update r env db) as [[n|er] db'] eqn:Hr; cbn;
      [|by apply transaction_err in Hr as ->].
    apply update_ok in Hr as (row & R & Hrow & _ & _ & _ & Hlt & -> & ->).
    destruct (Hdb _ _ Hrow) as (_ & _ & _ & Hc). cbn in Hop.
    pose proof (bump_typed (se_now env) r Hop Hnow Hlt) as Hn.
    apply map_Forall_insert_2; [|exact Hdb]. split; [|split; [exact Hn|split; [|exact Hc]]].
    + unfold row_ok. cbn. repeat split; try done; apply (rt_version _ Hn).
    + apply u64_as_i64_range, (rt_version _ Hn).
Qed.

(** C9: type soundness of the database.  However operations with arguments of
    their types interleave, every row of every reachable database is well
    typed, those a recovery or a migration wrote
    included: the record it holds is in the machine's ranges, it is filed under its
    id, its state and version columns are those of the record (the version as a
    64-bit signed column), and no column leaves the range of a SQLite integer. *)
Theorem database_well_typed (db : Sqlite) (Hreach : rtc typed_step SqliteStore_init db)
  (id : string) (row : PayRow) (Hrow : db_payments db !! id = Some row) :
  record_typed (row_record row) /\ pr_id (row_record row) = id /\
  row_state row = PaymentState_as_str (pr_state (row_record row)) /\
  row_version row = u64_as_i64 (pr_version (row_record row)) /\
  is_i64 (row_version row) /\ is_i64 (row_created_at row).
Proof.
  assert (Hdb : db_typed db).
  { apply (rtc_invariant typed_step db_typed SqliteStore_init db); [|done|apply map_Forall_empty].
    intros x y Hx (op & env & Hop & Ha & Hn & ->). by apply run_op_typed. }
  destruct (Hdb _ _ Hrow) as ((Hid & _ & Hv & Hs) & Hrt & Hi & Hc). done.
Qed.
End Database.

(** * Witnesses *)
Import ToyKeys.

(** A recovered record is typed. *)
Lemma audited_typed : record_typed Audit.record.
Proof.
  constructor;
    lazymatch goal with
    | |- opt_typed _ (pr_buyback _) => apply opt_typed_some; constructor; cbn
    | |- opt_typed _ _ => apply opt_typed_none
    | |- Forall _ _ => repeat (apply List.Forall_cons || apply List.Forall_nil)
    | |- _ => idtac
    end;
    try (apply opt_typed_some); try (vm_compute; split; discriminate).
Qed.

Lemma database_well_typed_witness :
  exists row, db_payments db_recovered !! "legacy" = Some row /\ record_typed (row_record row) /\
    row_version row = 1 /\ pr_identity (row_record row) <> None.
Proof.
  assert (Hreach : rtc typed_step SqliteStore_init db_recovered).
  { eapply rtc_l.
    - exists (Op_insert Audit.record), (env_at 1 ""). split; [exact audited_typed|].
      split; [split; [vm_compute; split; discriminate|intros p Hp; discriminate Hp]|].
      split; [vm_compute; split; discriminate|reflexivity].
    - apply rtc_once. exists (Op_recover Audit.archive Audit.manifest), (env_at 9 "").
      split; [intros b Hb; injection Hb as <-; split; vm_compute; split; discriminate|].
      split; [exact I|]. split; [vm_compute; split; discriminate|reflexivity]. }
  assert (Hrow : exists row, db_payments db_recovered !! "legacy" = Some row /\ row_version row = 1 /\
                             pr_identity (row_record row) <> None)
    by (eexists; split; [vm_compute; reflexivity|split; [reflexivity|vm_compute; discriminate]]).
  destruct Hrow as (row & Hrow & Hv & Hi). exists row. split; [exact Hrow|].
  destruct (database_well_typed db_recovered Hreach "legacy" row Hrow) as [Hrt _].
  split; [exact Hrt|]. split; [exact Hv|exact Hi].
Defined.
