(* ===== verification/Engine.v ===== *)
(** The payment engine (src/src/engine.rs): one definition per method.

    An engine runs against a store, other processes that share the store
    ([Peers]), and the outside world ([EngineEnv]: the node, the clock,
    randomness, webhooks).  A method is a computation over [World], which holds
    the store, the state of the outside world and a ghost trace of the
    observable effects; effects done before an error are kept, as in the
    [async fn]s.  [treasury_lock] serialises tasks of one process and has no
    effect on a single pass. *)
From S2P Require Import Prelude RustStd Types Units Keys State Chain StoreSpec.
From Stdlib Require Import Strings.Byte.
Local Open Scope Z_scope.

(** ** The outside world *)

(** [trait EngineRpc: TransactionRpc], the clock, [OsRng], [Uuid::new_v4], the
    environment of a store operation and [Webhook::post]. *)
Class EngineEnv `{Crypto} (N : Type) : Type := {
  genesis_hash : string;
  rpc_free_balance : AccountId32 -> M N Error Z;
  rpc_account : AccountId32 -> M N Error (Z * Z);
  rpc_alpha_on : AccountId32 -> Z -> M N Error (Z * list StakePosition);
  rpc_alpha_of : AccountId32 -> AccountId32 -> Z -> M N Error Z;
  rpc_estimate_fee : ChainCall -> Keypair -> M N Error Z;
  rpc_existential_deposit : M N Error Z;
  rpc_alpha_price : Z -> M N Error Z;
  rpc_hotkey_owner : AccountId32 -> M N Error (option AccountId32);
  rpc_stake_positions_many : list AccountId32 -> M N Error (gmap AccountId32 (list StakePosition));
  rpc_prepare : ChainCall -> Keypair -> M N Error PreparedTx;
  rpc_broadcast : PreparedTx -> M N Error FinalizedTx;
  rpc_find_pending : PendingTx -> M N Error PendingOutcome;
  env_now : N -> Z * N;
  env_random : nat -> N -> list Byte.byte * N;
  env_uuid : N -> string * N;
  env_store : N -> SEnv * N;
  webhook_post : list Byte.byte -> string -> PaymentStatus -> M N Error unit }.

(** What other engines and operators did to the shared store since this
    engine's previous operation on it. *)
Class Peers (N St : Type) : Type := peers : N -> St -> St.

(** What an observer of the engine sees. *)
Inductive Obs : Type :=
| O_prepare (call : ChainCall) (signer : AccountId32)
| O_write (r : PaymentRecord)
| O_broadcast (tx : PreparedTx)
| O_event (st : PaymentStatus)
| O_webhook (url : string) (st : PaymentStatus).

Record World (St N : Type) := mkWorld {
  w_store : St;
  w_env : N;
  w_trace : list Obs }.
Arguments mkWorld {St N}.
Arguments w_store {St N}.
Arguments w_env {St N}.
Arguments w_trace {St N}.

(** ** Requests and the engine *)

Record CreatePayment := mkCreatePayment {
  cp_min_alpha : option Z;
  cp_expiry_secs : option Z;
  cp_metadata : option Json;
  cp_callback_url : option string }.
Definition CreatePayment_default : CreatePayment := mkCreatePayment None None None None.

Record Engine `{Crypto} := mkEngine {
  en_keyring : Keyring;
  en_seed : option DerivationSeed;
  en_treasury : Keypair;
  en_cfg : Config;
  en_webhook : option (list Byte.byte) }.

Definition Engine_new `{Crypto} (keyring : Keyring) (treasury : Keypair) (cfg : Config) : Engine :=
  {| en_keyring := keyring; en_seed := None; en_treasury := treasury; en_cfg := cfg;
     en_webhook := None |}.
Definition Engine_with_seed `{Crypto} (e : Engine) (seed : DerivationSeed) : Engine :=
  {| en_keyring := en_keyring e; en_seed := Some seed; en_treasury := en_treasury e;
     en_cfg := en_cfg e; en_webhook := en_webhook e |}.
Definition Engine_with_webhook_secret `{Crypto} (e : Engine) (secret : list Byte.byte) : Engine :=
  {| en_keyring := en_keyring e; en_seed := en_seed e; en_treasury := en_treasury e;
     en_cfg := en_cfg e; en_webhook := Some secret |}.

(** ** Pure helpers *)

Definition destroy_call (destroy : Destroy) (hotkey : AccountId32) (netuid alpha : Z) : ChainCall :=
  match destroy with
  | Recycle => RecycleAlpha hotkey netuid alpha
  | _ => BurnAlpha hotkey netuid alpha
  end.

Definition action_name (a : Action) : string :=
  match a with
  | Action_Fund => "transfer_keep_alive"
  | Action_Sweep _ => "transfer_stake"
  | Action_Consolidate _ => "move_stake"
  | Action_ReturnDust => "transfer_all"
  | Action_BuyStake _ _ => "add_stake_limit"
  | Action_Destroy _ true => "recycle_alpha"
  | Action_Destroy _ false => "burn_alpha"
  end.

Definition validate_completed_buyback `{Ss58} (r : PaymentRecord) : Result unit :=
  let? budget := ok_or (pr_buyback_budget r) (Error_Store "missing job budget") in
  let? _ := BuybackBudget_validate budget in
  let? receipt := ok_or (pr_buyback r) (Error_Store "missing purchase receipt") in
  if negb (br_tao_spent receipt =? bb_amount_rao budget)
     || negb (br_netuid receipt =? bb_netuid budget)
     || (br_alpha_bought receipt =? 0)
     || str_is_empty (tx_block_hash (br_stake_tx receipt))
     || (negb (bool_decide (bb_destroy budget = Keep))
         && (negb (br_alpha_destroyed receipt =? br_alpha_bought receipt)
             || match br_destroy_tx receipt with
                | None => true
                | Some tx =>
                    str_is_empty (tx_block_hash tx)
                    || negb (bool_decide (tx_action tx =
                         if bool_decide (bb_destroy budget = Burn) then "burn_alpha"
                         else "recycle_alpha"))
                end))
  then Err (Error_Store "incomplete job buyback receipt")
  else Ok tt.

Definition strict_buyback_amount (requested spendable : Z) : Result Z :=
  if requested <? MIN_STAKE_RAO then
    Err (Error_Insufficient "buyback budget below minimum; blocked, not skipped")
  else if spendable <? requested then
    Err (Error_Insufficient "full buyback budget unavailable; no partial spend")
  else Ok requested.

(** [Engine::apply]: the events of a finalized transaction, on the journal they
    resolve.  The counter of consolidations, a [usize], is not wrapped: it is
    never more than the length of [swept_positions] ([ok_consolidated] of [job_ok]),
    and a [Vec] is shorter than 2^63. *)
Definition apply (r : PaymentRecord) (tx : TxRef) (s : EventSummary) : Result PaymentRecord :=
  let? action := ok_or (pd_action <$> pr_pending r) (Error_Store "apply without pending") in
  let r := r <| pr_pending := None |> in
  let? r :=
    match action with
    | Action_Fund =>
        transition (r <| pr_funded_tao := u64_add (pr_funded_tao r) (tx_amount tx) |>) Funded
    | Action_Sweep hotkey =>
        if negb (EventSummary_has s PALLET "StakeTransferred")
        then Err (Error_EventMissing "StakeTransferred")
        else Ok (r <| pr_swept_alpha := u64_add (pr_swept_alpha r) (tx_amount tx) |>
                   <| pr_swept_positions := pr_swept_positions r ++ [(hotkey, tx_amount tx)] |>)
    | Action_Consolidate _ => Ok (r <| pr_consolidated := pr_consolidated r + 1 |>)
    | Action_ReturnDust => Ok (r <| pr_dust_returned := true |>)
    | Action_BuyStake netuid limit_price =>
        let? (tao, alpha) := ok_or (es_stake_added s) (Error_EventMissing "StakeAdded") in
        if negb (tao =? tx_amount tx) || (alpha =? 0) then
          Err (Error_Store "purchase does not match full requested budget")
        else
          Ok (r <| pr_buyback := Some {| br_netuid := netuid; br_tao_spent := tao;
                     br_alpha_bought := alpha; br_limit_price := limit_price; br_stake_tx := tx;
                     br_destroy_tx := None; br_alpha_destroyed := 0 |} |>)
    | Action_Destroy _ _ =>
        let? destroyed := ok_or (es_alpha_destroyed s)
                            (Error_EventMissing "AlphaBurned/AlphaRecycled") in
        let? b := ok_or (pr_buyback r) (Error_Store "burn without purchase receipt") in
        if negb (destroyed =? br_alpha_bought b) || (destroyed =? 0) then
          Err (Error_Store "burn amount does not match purchased alpha")
        else
          Ok (r <| pr_buyback := Some {| br_netuid := br_netuid b; br_tao_spent := br_tao_spent b;
                     br_alpha_bought := br_alpha_bought b; br_limit_price := br_limit_price b;
                     br_stake_tx := br_stake_tx b; br_destroy_tx := Some tx;
                     br_alpha_destroyed := destroyed |} |>
                <| pr_buyback_done := true |>)
    end in
  Ok (r <| pr_attempts := 0 |> <| pr_next_attempt_at := 0 |> <| pr_last_error := None |>
        <| pr_txs := pr_txs r ++ [tx] |>).

(** [.sum()] over [u64] (release profile). *)
Definition sum_alpha (l : list StakePosition) : Z := foldl u64_add 0 (sp_alpha <$> l).

Section Engine.
Context `{Crypto} `{Ss58} {St N : Type} `{!StoreOps St} `{!EngineEnv N} `{!Peers N St}.

Abbreviation Eff A := (M (World St N) Error A).

(** ** Effects *)

Definition outside {A} (m : M N Error A) : Eff A := fun w =>
  let '(res, n) := m (w_env w) in
  (res, mkWorld (w_store w) n (w_trace w)).

Definition sample {A} (f : N -> A * N) : Eff A := outside (fun n => let '(a, n) := f n in (Ok a, n)).
Definition now : Eff Z := sample env_now.

(** The other processes run, then the operation. *)
Definition on_store {A} (op : SEnv -> M St Error A) : Eff A := fun w =>
  let s := peers (w_env w) (w_store w) in
  let '(env, n) := env_store (w_env w) in
  let '(res, s) := op env s in
  (res, mkWorld s n (w_trace w)).

Definition observe (o : Obs) : Eff unit := fun w =>
  (Ok tt, mkWorld (w_store w) (w_env w) (w_trace w ++ [o])).

(** [store.update(&r).await], leaving its write in the trace. *)
Definition store_update (r : PaymentRecord) : Eff PaymentRecord :=
  let! next := on_store (update_record r) in
  let! _ := observe (O_write next) in
  m_ret next.

Definition store_get (id : string) : Eff PaymentRecord :=
  let! o := on_store (get_record id) in
  m_lift (ok_or o (Error_NotFound id)).

(** ** Sending: journal, submit, apply *)

Definition send_journaled (r : PaymentRecord) (action : Action) (call : ChainCall)
  (signer : Keypair) : Eff bool :=
  if is_some (pr_pending r)
  then m_throw (Error_Store "reconcile pending transaction before preparing another")
  else
    let signer_address := ss58 (Keypair_account_id signer) in
    let! reservation := on_store (reserve_signer_for_record signer_address r) in
    let! _ := observe (O_prepare call (Keypair_account_id signer)) in
    let! prepared := m_try (outside (rpc_prepare call signer)) in
    match prepared with
    | Err error =>
        let! _ := on_store (cancel_preparation signer_address (pr_id r) reservation) in
        m_throw error
    | Ok prepared =>
        if negb (bool_decide (pt_signer prepared = signer_address)) then
          let! _ := on_store (cancel_preparation signer_address (pr_id r) reservation) in
          m_throw (Error_Store "prepared signer mismatch")
        else
          let journal := r <| pr_pending := Some
            {| pd_action := action;
               pd_reservation := Some reservation;
               pd_signer := pt_signer prepared;
               pd_nonce := pt_nonce prepared;
               pd_tx_hash := pt_tx_hash prepared;
               pd_birth_block := pt_birth_block prepared;
               pd_amount := ChainCall_amount call |} |> in
          let! r := store_update journal in
          let! _ := observe (O_broadcast prepared) in
          let! finalized := outside (rpc_broadcast prepared) in
          let! applied := m_lift (apply r (ft_tx finalized) (ft_summary finalized)) in
          let! _ := store_update applied in
          m_ret true
    end.

(** What a finalized inclusion makes of the record. *)
Definition applied_included (r : PaymentRecord) (pending : PendingTx) (block_hash : string)
  (summary : EventSummary) (max_attempts t : Z) : PaymentRecord :=
  let tx := {| tx_action := action_name (pd_action pending); tx_tx_hash := pd_tx_hash pending;
               tx_block_hash := block_hash; tx_amount := pd_amount pending |} in
  if es_failed summary then
    record_failure (r <| pr_pending := None |>)
      "journaled transaction failed on finalized chain" max_attempts t
  else
    match apply r tx summary with
    | Ok applied => applied
    | Err error =>
        record_failure
          (r <| pr_pending := None |> <| pr_quarantined := Some pending |>
             <| pr_txs := pr_txs r ++ [tx] |>)
          ("finalized receipt mismatch: " +:+ Error_to_string error) 1 t
    end.

(** The changed flag and the record the caller's [&mut r] ends as. *)
Definition reconcile_journaled (r : PaymentRecord) (pending : PendingTx) (max_attempts : Z)
  : Eff (bool * PaymentRecord) :=
  if negb (bool_decide (pr_pending r = Some pending))
  then m_throw (Error_Store "pending journal mismatch")
  else
    let! outcome := outside (rpc_find_pending pending) in
    match outcome with
    | Wait => m_ret (false, r)
    | Dead =>
        let! r := store_update (r <| pr_pending := None |>) in
        m_ret (true, r)
    | Included block_hash summary =>
        let! t := now in
        let! r := store_update (applied_included r pending block_hash summary max_attempts t) in
        m_ret (true, r)
    end.

(** ** The engine's methods *)
Context (e : Engine).

Definition treasury_account : AccountId32 := Keypair_account_id (en_treasury e).

Definition job_identity : JobIdentity :=
  {| ji_genesis_hash := genesis_hash;
     ji_treasury := ss58 treasury_account;
     ji_treasury_hotkey := ss58 (cfg_treasury_hotkey (en_cfg e));
     ji_consolidate := cfg_consolidate (en_cfg e);
     ji_return_dust := cfg_return_dust (en_cfg e) |}.

Definition announce_if_final (r : PaymentRecord) : Eff unit :=
  if bool_decide (pr_state r = Failed) || bool_decide (pr_state r = Expired)
  then observe (O_event (status r)) else m_ret tt.

Definition resolve_pending (r : PaymentRecord) (p : PendingTx) : Eff bool :=
  let! (changed, r) := reconcile_journaled r p (cfg_max_attempts (en_cfg e)) in
  let! _ := if (changed : bool) then announce_if_final r else m_ret tt in
  m_ret changed.

Definition notify (r : PaymentRecord) : Eff unit :=
  let st := status r in
  let! _ := observe (O_event st) in
  let! delivered :=
    match pr_callback_url r, en_webhook e with
    | Some url, Some secret =>
        let! _ := observe (O_webhook url st) in
        let! res := m_try (outside (webhook_post secret url st)) in
        m_ret (is_ok res)
    | _, _ => m_ret true
    end in
  if (delivered : bool) then
    let! _ := store_update (r <| pr_notified := true |>) in
    m_ret tt
  else
    let! t := now in
    let! _ := store_update (r <| pr_next_attempt_at := u64_add t 30 |>) in
    m_ret tt.

Definition wallet (r : PaymentRecord) : Result PaymentWallet :=
  let? w :=
    match pr_derivation_path r, en_seed e with
    | Some path, Some seed => DerivationSeed_wallet seed path
    | _, _ =>
        PaymentWallet_unseal_with (en_keyring e) (pr_sealed_secret r)
          (wallet_aad (pr_id r) (pr_address r))
    end in
  if negb (bool_decide (ss58 (PaymentWallet_account_id w) = pr_address r))
  then Err (Error_Crypto "sealed wallet does not match address")
  else Ok w.

Definition spendable : Eff Z :=
  let! free := outside (rpc_free_balance treasury_account) in
  let! ed := outside rpc_existential_deposit in
  m_ret (units_spendable free (cfg_fee_reserve (en_cfg e)) ed).

Definition sweep_floor (netuid : Z) : Eff Z :=
  let! price := outside (rpc_alpha_price netuid) in
  let price := Z.max price 1 in
  let min_alpha := u64_wrap (MIN_STAKE_RAO * 3 / 2 * RAO_PER_TAO / price) in
  m_ret (Z.max (cfg_sweep_dust (en_cfg e)) min_alpha).

Definition step_pending (r : PaymentRecord) (positions : gmap AccountId32 (list StakePosition))
  : Eff bool :=
  let! who := m_lift (parse_ss58 (pr_address r)) in
  let alpha :=
    match positions !! who with
    | Some v => sum_alpha (filter (fun p => sp_netuid p = pr_netuid r) v)
    | None => 0
    end in
  let! tao := if is_some (pr_min_tao r) then outside (rpc_free_balance who) else m_ret 0 in
  let tao_ok := match pr_min_tao r with Some m => m <=? tao | None => false end in
  if (pr_min_alpha r <=? alpha) || tao_ok then
    let r := r <| pr_detected_alpha := alpha |>
               <| pr_detected_tao := if tao_ok then tao else 0 |> in
    let! r := m_lift (transition r Detected) in
    let! _ := store_update r in
    m_ret true
  else
    let! t := now in
    if pr_expires_at r <? t then
      let r := r <| pr_detected_alpha := alpha |> in
      let! r := m_lift (transition r Expired) in
      let! r := store_update r in
      let! _ := announce_if_final r in
      m_ret true
    else m_ret false.

(** The fee estimates of the sweeps, saturating. *)
Fixpoint estimate_fees (netuid : Z) (keypair : Keypair) (pos : list StakePosition) (fees : Z)
  : Eff Z :=
  match pos with
  | [] => m_ret fees
  | p :: pos =>
      let call := TransferStake treasury_account (sp_hotkey p) netuid (sp_alpha p) in
      let! fee := outside (rpc_estimate_fee call keypair) in
      estimate_fees netuid keypair pos (u64_saturating_add fees fee)
  end.

Definition step_detected (r : PaymentRecord) : Eff bool :=
  let! wallet := m_lift (wallet r) in
  let who := PaymentWallet_account_id wallet in
  let! (alpha, pos) := outside (rpc_alpha_on who (pr_netuid r)) in
  let! (free, _) := outside (rpc_account who) in
  let r := r <| pr_detected_alpha := Z.max (pr_detected_alpha r) alpha |> in
  let! floor := sweep_floor (pr_netuid r) in
  let! fees := estimate_fees (pr_netuid r) (pw_keypair wallet)
                 (filter (fun p => floor <= sp_alpha p) pos) 0 in
  let! ed := outside rpc_existential_deposit in
  let need := match pos with
              | [] => 0
              | _ => funding_needed fees (cfg_fee_margin_bps (en_cfg e)) ed free
              end in
  if need =? 0 then
    let! r := m_lift (transition r Funded) in
    let! _ := store_update r in
    m_ret true
  else
    send_journaled r Action_Fund (TransferTao who need) (en_treasury e).

Definition step_funded (r : PaymentRecord) : Eff bool :=
  let! wallet := m_lift (wallet r) in
  let! (_, pos) := outside (rpc_alpha_on (PaymentWallet_account_id wallet) (pr_netuid r)) in
  let! floor := sweep_floor (pr_netuid r) in
  let done := fst <$> pr_swept_positions r in
  match List.find (fun p => bool_decide (floor <= sp_alpha p)
                            && negb (bool_decide (ss58 (sp_hotkey p) ∈ done))) pos with
  | None =>
      let! r := m_lift (transition r Swept) in
      let! _ := store_update r in
      m_ret true
  | Some p =>
      let call := TransferStake treasury_account (sp_hotkey p) (pr_netuid r) (sp_alpha p) in
      send_journaled r (Action_Sweep (ss58 (sp_hotkey p))) call (pw_keypair wallet)
  end.

Definition step_auto_buyback (r : PaymentRecord) : Eff bool :=
  let! budget := m_lift (ok_or (pr_buyback_budget r)
                           (Error_Config "job has no explicit buyback budget; blocked")) in
  let! _ := m_lift (BuybackBudget_validate budget) in
  let netuid := bb_netuid budget in
  let destroy := bb_destroy budget in
  match pr_buyback r with
  | Some b =>
      if negb (br_tao_spent b =? bb_amount_rao budget) || negb (br_netuid b =? bb_netuid budget)
      then m_throw (Error_Store "purchase receipt disagrees with job budget")
      else if br_alpha_bought b =? 0 then
        m_throw (Error_Insufficient "buyback produced no alpha; completion blocked")
      else if is_some (br_destroy_tx b) && negb (br_alpha_destroyed b =? br_alpha_bought b) then
        m_throw (Error_Store "incomplete burn receipt; completion blocked")
      else if bool_decide (destroy = Keep) || is_some (br_destroy_tx b) then
        let! _ := store_update (r <| pr_buyback_done := true |>) in
        m_ret true
      else
        let! hotkey := m_lift (parse_ss58 (bb_hotkey budget)) in
        let call := destroy_call destroy hotkey netuid (br_alpha_bought b) in
        send_journaled r (Action_Destroy netuid (bool_decide (destroy = Recycle))) call
          (en_treasury e)
  | None =>
      let! available := spendable in
      let! tao := m_lift (strict_buyback_amount (bb_amount_rao budget) available) in
      let! price := outside (rpc_alpha_price netuid) in
      let limit_price := buy_limit_price price (cfg_slippage_bps (en_cfg e)) in
      let! hotkey := m_lift (parse_ss58 (bb_hotkey budget)) in
      let call := AddStakeLimit hotkey netuid tao limit_price false in
      send_journaled r (Action_BuyStake netuid limit_price) call (en_treasury e)
  end.

(** The [while] loop of [step_swept]: [Some changed] when the body returned,
    [None] and the record when the loop ended.  The fuel is the number of
    positions left ([consolidation_fuel]): at zero the loop condition is false.  The
    counter, a [usize], is below the length of a [Vec] here, so it does not wrap. *)
Fixpoint consolidate_loop (fuel : nat) (r : PaymentRecord) : Eff (option bool * PaymentRecord) :=
  match fuel with
  | O => m_ret (None, r)
  | S fuel =>
      match pr_swept_positions r !! Z.to_nat (pr_consolidated r) with
      | None => m_ret (None, r)
      | Some (hotkey, _) =>
          let! hk := m_lift (parse_ss58 hotkey) in
          let! live :=
            if bool_decide (hk = cfg_treasury_hotkey (en_cfg e)) then m_ret 0
            else outside (rpc_alpha_of hk treasury_account (pr_netuid r)) in
          if live =? 0 then
            let! r := store_update (r <| pr_consolidated := pr_consolidated r + 1 |>) in
            consolidate_loop fuel r
          else
            let call := MoveStake hk (cfg_treasury_hotkey (en_cfg e)) (pr_netuid r) live in
            let! changed := send_journaled r (Action_Consolidate (ss58 hk)) call (en_treasury e) in
            m_ret (Some changed, r)
      end
  end.
Definition consolidation_fuel (r : PaymentRecord) : nat :=
  (length (pr_swept_positions r) - Z.to_nat (pr_consolidated r))%nat.

(** 2. dust back to the treasury: [Some changed] when a transfer was sent. *)
Definition return_dust (r : PaymentRecord) : Eff (option bool * PaymentRecord) :=
  if negb (pr_dust_returned r) && (cfg_return_dust (en_cfg e) || (0 <? pr_detected_tao r)) then
    let! wallet := m_lift (wallet r) in
    let! free := outside (rpc_free_balance (PaymentWallet_account_id wallet)) in
    if 0 <? free then
      let! changed := send_journaled r Action_ReturnDust (TransferAll treasury_account)
                        (pw_keypair wallet) in
      m_ret (Some changed, r)
    else m_ret (None, r <| pr_dust_returned := true |>)
  else m_ret (None, r).

(** 3. automatic buyback, then settle. *)
Definition settle (r : PaymentRecord) : Eff bool :=
  let! required := m_lift (ok_or (pr_auto_required r)
                      (Error_Config "legacy job policy requires explicit migration")) in
  if (required : bool) && is_none (pr_buyback_budget r)
  then m_throw (Error_Config "required job budget missing")
  else
    let! _ := m_lift (if required && pr_buyback_done r then validate_completed_buyback r
                      else Ok tt) in
    if required && negb (pr_buyback_done r) then step_auto_buyback r
    else
      let! r := m_lift (transition r Settled) in
      let! r := store_update r in
      let! _ := notify r in
      m_ret true.

Definition step_swept (r : PaymentRecord) : Eff bool :=
  let! (sent, r) :=
    if cfg_consolidate (en_cfg e) then consolidate_loop (consolidation_fuel r) r
    else m_ret (None, r) in
  match sent with
  | Some changed => m_ret changed
  | None =>
      let! (sent, r) := return_dust r in
      match sent with
      | Some changed => m_ret changed
      | None => settle r
      end
  end.

(** ** One step of one payment *)

(** A failed step: re-read, and record the failure unless an uncertain
    broadcast is journaled. *)
Definition step_failed (id : string) (err : Error) : Eff bool :=
  let! cur := store_get id in
  if is_some (pr_pending cur) then m_throw err
  else
    let! t := now in
    let! cur := store_update
                  (record_failure cur (Error_to_string err) (cfg_max_attempts (en_cfg e)) t) in
    let! _ := announce_if_final cur in
    m_throw err.

Definition step (r : PaymentRecord) (positions : gmap AccountId32 (list StakePosition))
  : Eff bool :=
  if negb (bool_decide (pr_identity r = Some job_identity)) then
    m_throw (Error_Config "job execution identity missing or mismatched")
  else if is_some (pr_quarantined r) then m_ret false
  else if is_none (pr_pending r)
          && (is_none (pr_auto_required r)
              || (bool_decide (pr_auto_required r = Some true) && is_none (pr_buyback_budget r)))
  then m_throw (Error_Config "job policy migration required before processing")
  else
    match pr_pending r with
    | Some p => resolve_pending r p
    | None =>
        let guarded (body : Eff bool) : Eff bool :=
          let! res := m_try body in
          match res with
          | Ok changed => m_ret changed
          | Err (Error_Conflict id) => m_throw (Error_Conflict id)
          | Err err => step_failed (pr_id r) err
          end in
        match pr_state r with
        | Pending => step_pending r positions
        | Detected => guarded (step_detected r)
        | Funded => guarded (step_funded r)
        | Swept => guarded (step_swept r)
        | Settled => let! _ := notify r in m_ret true
        | _ => m_ret false
        end
    end.

(** ** The driver *)

Definition tick_skips (t : Z) (r : PaymentRecord) : bool :=
  is_none (pr_pending r)
  && (bool_decide (pr_state r = Failed)
      || (bool_decide (pr_state r = Settled) && pr_notified r)
      || (t <? pr_next_attempt_at r)).

(** Errors of a step, conflicts included, are logged. *)
Fixpoint tick_loop (positions : gmap AccountId32 (list StakePosition)) (t : Z)
  (recs : list PaymentRecord) (n : Z) : Eff Z :=
  match recs with
  | [] => m_ret n
  | r :: recs =>
      if tick_skips t r then tick_loop positions t recs n
      else
        let! res := m_try (step r positions) in
        let n := match res with Ok true => n + 1 | _ => n end in
        tick_loop positions t recs n
  end.

Definition tick : Eff Z :=
  let! recs := on_store (list_records [Pending; Detected; Funded; Swept; Settled; Failed]) in
  let! t := now in
  let pending :=
    omap (fun r => result_ok (parse_ss58 (pr_address r)))
      (filter (fun r => pr_state r = Pending /\ pr_pending r = None) recs) in
  let! positions := match pending with
                    | [] => m_ret ∅
                    | _ => outside (rpc_stake_positions_many pending)
                    end in
  tick_loop positions t recs 0.

(** One subscription of [run]: a stream error ends it. *)
Fixpoint follow_blocks (blocks : list (result Error Z)) : Eff unit :=
  match blocks with
  | [] => m_ret tt
  | Ok _ :: blocks => let! _ := m_try tick in follow_blocks blocks
  | Err _ :: _ => m_ret tt
  end.

(** [run]: one subscription after the other, each the blocks its stream yields or
    the error of [finalized_blocks].  The loop never ends; these are its first
    turns. *)
Definition Session : Type := result Error (list (result Error Z)).
Fixpoint run (sessions : list Session) : Eff unit :=
  match sessions with
  | [] => m_ret tt
  | session :: sessions =>
      let! _ := match session with
                | Ok blocks => follow_blocks blocks
                | Err _ => m_ret tt
                end in
      run sessions
  end.

(** ** Requests *)

(** The record literal shared by [create_payment] and [create_sweep_job]:
    what both start from. *)
Definition new_record (id address : string) (min_alpha : Z) (min_tao : option Z)
  (t expires_at : Z) (state : PaymentState) (sealed : SealedSecret) (metadata : option Json)
  (callback_url derivation_path : option string) : PaymentRecord :=
  {| pr_id := id;
     pr_address := address;
     pr_netuid := cfg_netuid (en_cfg e);
     pr_min_alpha := min_alpha;
     pr_min_tao := min_tao;
     pr_created_at := t;
     pr_expires_at := expires_at;
     pr_state := state;
     pr_version := 0;
     pr_sealed_secret := sealed;
     pr_metadata := metadata;
     pr_callback_url := callback_url;
     pr_detected_alpha := 0;
     pr_detected_tao := 0;
     pr_funded_tao := 0;
     pr_swept_alpha := 0;
     pr_txs := [];
     pr_buyback := None;
     pr_buyback_budget := cfg_buyback_budget (en_cfg e);
     pr_auto_required := Some (is_some (cfg_buyback_budget (en_cfg e)));
     pr_identity := Some job_identity;
     pr_attempts := 0;
     pr_next_attempt_at := 0;
     pr_last_error := None;
     pr_failed_from := None;
     pr_pending := None;
     pr_quarantined := None;
     pr_swept_positions := [];
     pr_consolidated := 0;
     pr_dust_returned := false;
     pr_buyback_done := false;
     pr_notified := false;
     pr_updated_at := t;
     pr_derivation_path := derivation_path |}.

(** The budget checks both end with, then the insertion. *)
Definition insert_job (rec : PaymentRecord) : Eff unit :=
  let auto_on := match cfg_auto (en_cfg e) with AutoBuyback_On _ _ => true | AutoBuyback_Off => false end in
  if auto_on && is_none (pr_buyback_budget rec) then
    m_throw (Error_Config "explicit job buyback budget required")
  else
    let! _ := m_lift match pr_buyback_budget rec with
                     | Some budget => BuybackBudget_validate budget
                     | None => Ok tt
                     end in
    on_store (insert_record rec).

Definition create_payment (opts : CreatePayment) : Eff PaymentRequest :=
  let! _ := on_store require_signing in
  let! entropy := sample (env_random 32) in
  let! wallet := m_lift (PaymentWallet_generate entropy) in
  let! id := sample env_uuid in
  let address := ss58 (PaymentWallet_account_id wallet) in
  let! nonce := sample (env_random 24) in
  let! sealed := m_lift (PaymentWallet_seal_with wallet nonce (en_keyring e) (wallet_aad id address)) in
  let! t := now in
  let cfg := en_cfg e in
  let rec := new_record id address (default (cfg_min_alpha cfg) (cp_min_alpha opts))
    (cfg_min_tao cfg) t (u64_add t (default (cfg_expiry_secs cfg) (cp_expiry_secs opts)))
    Pending sealed (cp_metadata opts)
    (match cp_callback_url opts with Some url => Some url | None => cfg_webhook_url cfg end) None in
  let! _ := insert_job rec in
  m_ret {| rq_id := id; rq_address := address; rq_netuid := pr_netuid rec;
           rq_min_alpha := pr_min_alpha rec; rq_min_tao := pr_min_tao rec;
           rq_expires_at := pr_expires_at rec |}.

Definition create_sweep_job (id derivation_path expected_address : string)
  (metadata : option Json) : Eff PaymentStatus :=
  let! _ := on_store require_signing in
  let! seed := m_lift (ok_or (en_seed e) (Error_Config "sweep jobs need a derivation seed")) in
  let! wallet := m_lift (DerivationSeed_wallet seed derivation_path) in
  let address := ss58 (PaymentWallet_account_id wallet) in
  if negb (bool_decide (address = expected_address)) then
    m_throw (Error_Crypto "derived address does not match the expected one")
  else
    let! nonce := sample (env_random 24) in
    let! sealed := m_lift (PaymentWallet_seal_with wallet nonce (en_keyring e) (wallet_aad id address)) in
    let! t := now in
    let rec := new_record id address 0 None t u64_max Detected sealed metadata None
                 (Some derivation_path) in
    let! _ := insert_job rec in
    m_ret (status rec).

Definition get_status (id : string) : Eff PaymentStatus :=
  let! r := store_get id in
  m_ret (status r).

Definition retry (id : string) : Eff PaymentStatus :=
  let! r := store_get id in
  if is_some (pr_quarantined r) then
    m_throw (Error_Store "finalized receipt mismatch requires explicit repair")
  else
    let to := match pr_failed_from r with
              | Some Pending | None => Detected
              | Some s => s
              end in
    let! r := m_lift (transition r to) in
    let! r := store_update r in
    m_ret (status r).

Definition force_sweep (id : string) : Eff PaymentStatus :=
  let! r := store_get id in
  let! r := m_lift (transition r Detected) in
  let! r := store_update r in
  m_ret (status r).

(** ** The treasury *)

Definition ensure_treasury_hotkey : Eff unit :=
  let! owner := outside (rpc_hotkey_owner (cfg_treasury_hotkey (en_cfg e))) in
  match owner with
  | Some _ => m_ret tt
  | None => m_throw (Error_Config
      "treasury hotkey is not associated; provision it before starting signing workers")
  end.

Definition buyback_with (amount_tao : Z) (destroy : Destroy) : Eff BuybackReceipt :=
  m_throw (Error_Config
    "standalone buyback disabled; use a durable payment/sweep job with an explicit buyback budget").
Definition buyback (amount_tao : Z) : Eff BuybackReceipt := buyback_with amount_tao Keep.
Definition buyback_and_burn (amount_tao : Z) : Eff BuybackReceipt := buyback_with amount_tao Burn.
Definition buyback_and_recycle (amount_tao : Z) : Eff BuybackReceipt := buyback_with amount_tao Recycle.
Definition buyback_all (destroy : Destroy) : Eff BuybackReceipt := buyback_with 0 destroy.
End Engine.
