(* ===== verification/JobSpec.v ===== *)
(** The protocol of a payment job: the abstract specification of the engine.

    A job is one payment record.  [micro] lists the elementary changes a record
    may undergo; a write to the store is a sequence of them with the version
    incremented ([job_step]).  The engine's methods (src/src/engine.rs) refine
    this protocol ([EngineProofs]); here are the protocol's own invariants
    ([job_ok]), by induction on its steps. *)
From S2P Require Import Prelude RustStd Types Units Keys State Chain StoreSpec Engine.
Local Open Scope Z_scope.

Section Protocol.
Context `{Ss58}.

(** When a transaction may be journaled. *)
Definition journal_allowed (r : PaymentRecord) (p : PendingTx) : Prop :=
  match pd_action p with
  | Action_Fund => pr_state r = Detected /\ pd_amount p <> 0
  | Action_Sweep h => pr_state r = Funded /\ h ∉ fst <$> pr_swept_positions r
  | Action_Consolidate h =>
      pr_state r = Swept /\
      exists h' a hk, pr_swept_positions r !! Z.to_nat (pr_consolidated r) = Some (h', a) /\
        parse_ss58 h' = Ok hk /\ h = ss58 hk
  | Action_ReturnDust => pr_state r = Swept /\ pr_dust_returned r = false
  | Action_BuyStake netuid _ =>
      pr_state r = Swept /\ pr_buyback r = None /\ pr_buyback_done r = false /\
      pr_auto_required r = Some true /\
      exists b, pr_buyback_budget r = Some b /\ BuybackBudget_validate b = Ok tt /\
        netuid = bb_netuid b /\ pd_amount p = bb_amount_rao b
  | Action_Destroy netuid recycle =>
      pr_state r = Swept /\ pr_buyback_done r = false /\ pr_auto_required r = Some true /\
      exists b rc, pr_buyback_budget r = Some b /\ pr_buyback r = Some rc /\
        br_destroy_tx rc = None /\ bb_destroy b <> Keep /\
        recycle = bool_decide (bb_destroy b = Recycle) /\
        netuid = bb_netuid b /\ pd_amount p = br_alpha_bought rc
  end.

(** When the engine itself moves a record along. *)
Definition advance_guard (r : PaymentRecord) (to : PaymentState) : Prop :=
  match pr_state r, to with
  | Pending, Detected =>
      pr_min_alpha r <= pr_detected_alpha r \/
      exists m, pr_min_tao r = Some m /\ m <= pr_detected_tao r
  | Pending, Expired | Detected, Funded | Funded, Swept => True
  | Swept, Settled =>
      exists required, pr_auto_required r = Some required /\
        (required = true -> pr_buyback_done r = true /\ validate_completed_buyback r = Ok tt)
  | _, _ => False
  end.

(** A purchase receipt that matches the job's budget. *)
Definition purchase_ok (r : PaymentRecord) (rc : BuybackReceipt) : Prop :=
  pr_auto_required r = Some true /\
  (exists b, pr_buyback_budget r = Some b /\ br_tao_spent rc = bb_amount_rao b /\
     br_netuid rc = bb_netuid b /\ (bb_destroy b = Keep -> br_destroy_tx rc = None)) /\
  br_alpha_bought rc <> 0 /\
  br_stake_tx rc ∈ pr_txs r /\
  match br_destroy_tx rc with
  | Some tx => br_alpha_destroyed rc = br_alpha_bought rc /\ tx ∈ pr_txs r
  | None => br_alpha_destroyed rc = 0
  end.

Definition purchase_complete (r : PaymentRecord) : Prop :=
  exists rc b, pr_buyback r = Some rc /\ pr_buyback_budget r = Some b /\
    (bb_destroy b = Keep \/ is_some (br_destroy_tx rc) = true).

Inductive micro : PaymentRecord -> PaymentRecord -> Prop :=
| mi_observe r alpha tao :
    pr_pending r = None ->
    pr_state r = Pending \/
    (pr_state r = Detected /\ tao = pr_detected_tao r /\ pr_detected_alpha r <= alpha) ->
    micro r (r <| pr_detected_alpha := alpha |> <| pr_detected_tao := tao |>)
| mi_advance r to r' :
    pr_pending r = None -> advance_guard r to -> transition r to = Ok r' -> micro r r'
(** [retry] and [force_sweep] *)
| mi_resume r to r' :
    to = Detected \/ pr_failed_from r = Some to -> transition r to = Ok r' -> micro r r'
| mi_dust r :
    pr_pending r = None -> pr_state r = Swept -> micro r (r <| pr_dust_returned := true |>)
| mi_skip r ha :
    pr_pending r = None -> pr_state r = Swept ->
    pr_swept_positions r !! Z.to_nat (pr_consolidated r) = Some ha ->
    micro r (r <| pr_consolidated := pr_consolidated r + 1 |>)
| mi_done r :
    pr_pending r = None -> pr_state r = Swept -> purchase_complete r ->
    micro r (r <| pr_buyback_done := true |>)
| mi_journal r p :
    pr_pending r = None -> pr_quarantined r = None -> journal_allowed r p ->
    micro r (r <| pr_pending := Some p |>)
(** the journaled transaction can no longer be included: the engine drops a
    journal on no other verdict ([journal_resolved_by_chain]) *)
| mi_drop r p :
    pr_pending r = Some p -> micro r (r <| pr_pending := None |>)
| mi_apply r p tx s r' :
    pr_pending r = Some p -> tx_amount tx = pd_amount p -> apply r tx s = Ok r' -> micro r r'
| mi_tx_failed r p err n t :
    pr_pending r = Some p -> micro r (record_failure (r <| pr_pending := None |>) err n t)
| mi_quarantine r p tx s e err t :
    pr_pending r = Some p -> apply r tx s = Err e ->
    micro r (record_failure (r <| pr_pending := None |> <| pr_quarantined := Some p |>
                               <| pr_txs := pr_txs r ++ [tx] |>) err 1 t)
| mi_failure r err n t :
    pr_pending r = None -> micro r (record_failure r err n t)
| mi_notified r :
    pr_state r = Settled -> micro r (r <| pr_notified := true |>)
| mi_postpone r t :
    pr_state r = Settled -> micro r (r <| pr_next_attempt_at := t |>).

Definition job_step (r r' : PaymentRecord) : Prop :=
  exists body t, rtc micro r body /\ r' = bump t body.

(** ** The invariant *)
Record job_ok (r : PaymentRecord) : Prop := {
  ok_journal : forall p, pr_pending r = Some p ->
    pr_quarantined r = None /\ journal_allowed r p;
  ok_positions : NoDup (fst <$> pr_swept_positions r);
  ok_consolidated : 0 <= pr_consolidated r <= Z.of_nat (length (pr_swept_positions r));
  ok_swept_sum : pr_swept_alpha r = foldl u64_add 0 (snd <$> pr_swept_positions r);
  ok_failed : match pr_failed_from r with
              | Some s => is_active s = true /\ state_rank s <= progress r /\
                          pr_state r <> Pending /\ pr_state r <> Expired
              | None => pr_state r <> Failed
              end;
  ok_purchase : forall rc, pr_buyback r = Some rc -> purchase_ok r rc;
  ok_done : pr_buyback_done r = true -> purchase_complete r;
  ok_settled : pr_state r = Settled ->
    exists required, pr_auto_required r = Some required /\
      (required = true -> pr_buyback_done r = true /\ validate_completed_buyback r = Ok tt);
  ok_before_funded : progress r < 2 -> pr_swept_positions r = [];
  ok_before_swept : progress r < 3 ->
    pr_consolidated r = 0 /\ pr_dust_returned r = false /\ pr_buyback r = None /\
    pr_buyback_done r = false }.

Lemma progress_of r : progress r = state_rank (stage r).
Proof. done. Qed.

Lemma transition_job_ok r to r' :
  job_ok r -> pr_pending r = None -> transition r to = Ok r' -> to <> Failed ->
  (to = Settled -> exists required, pr_auto_required r = Some required /\
     (required = true -> pr_buyback_done r = true /\ validate_completed_buyback r = Ok tt)) ->
  job_ok r'.
Proof.
  intros Hok Hpend Ht Hto Hset.
  pose proof (transition_progress _ _ _ Ht) as Hprog.
  apply transition_inv in Ht as (Hc & Hres & Hst & Hff & Heq).
  rewrite bool_decide_eq_false_2 in Hff by done.
  rewrite Hff in Heq. rewrite Heq in Hprog |- *. destruct Hok. constructor; pr_cbn.
  - congruence.
  - done.
  - done.
  - done.
  - destruct (pr_failed_from r) as [s|] eqn:Hs; [|done].
    destruct ok_failed0 as (Ha & Hr & Hs1 & Hs2). split; [done|]. split; [lia|].
    split; intros ->; destruct (pr_state r); done.
  - done.
  - done.
  - done.
  - intros Hp. apply ok_before_funded0. lia.
  - intros Hp. apply ok_before_swept0. lia.
Qed.

(** A journaled transaction belongs to a working state. *)
Lemma journal_active r p : job_ok r -> pr_pending r = Some p ->
  pr_state r = Detected \/ pr_state r = Funded \/ pr_state r = Swept.
Proof.
  intros Hok Hp. destruct (ok_journal _ Hok p Hp) as [_ Hj].
  unfold journal_allowed in Hj. destruct (pd_action p); destruct Hj as [Hst _]; auto.
Qed.

Lemma resumable r to : job_ok r -> can_transition (pr_state r) to = true ->
  to = Detected \/ pr_failed_from r = Some to -> pr_pending r = None.
Proof.
  intros Hok Hc Hto. destruct (pr_pending r) as [p|] eqn:Hp; [|done]. exfalso.
  pose proof (journal_active _ _ Hok Hp) as Hst. pose proof (ok_failed _ Hok) as Hf.
  destruct Hto as [->|Hff].
  - destruct Hst as [Hs|[Hs|Hs]]; rewrite Hs in Hc; done.
  - rewrite Hff in Hf. destruct Hf as (Ha & Hr & _). unfold progress, stage in Hr.
    destruct Hst as [Hs|[Hs|Hs]]; rewrite Hs in Hc, Hr; destruct to; try done; cbn in Hr; lia.
Qed.

Lemma record_failure_job_ok r err n t :
  job_ok r -> pr_pending r = None -> job_ok (record_failure r err n t).
Proof.
  intros Hok Hpend.
  assert (Hprog : progress (record_failure r err n t) = progress r)
    by (unfold progress; by rewrite record_failure_stage).
  rewrite record_failure_inv in *. destruct Hok.
  destruct (_ && _) eqn:Hf; constructor; pr_cbn; rewrite ?Hprog; try done; try congruence.
  bool_simpl. split; [done|]. split; [|done]. unfold progress, stage.
  by destruct (pr_state r).
Qed.

Lemma purchase_ok_txs r r' rc :
  pr_auto_required r' = pr_auto_required r -> pr_buyback_budget r' = pr_buyback_budget r ->
  (forall x, x ∈ pr_txs r -> x ∈ pr_txs r') -> purchase_ok r rc -> purchase_ok r' rc.
Proof.
  intros Ha Hb Htx (H1 & H2 & H3 & H4 & H5). unfold purchase_ok. rewrite Ha, Hb.
  split_and!; auto. destruct (br_destroy_tx rc); [|done]. destruct H5. auto.
Qed.

(** The fields the invariant reads, the journal and the receipts apart. *)
Definition same_core (r r' : PaymentRecord) : Prop :=
  pr_state r' = pr_state r /\ pr_failed_from r' = pr_failed_from r /\
  pr_swept_positions r' = pr_swept_positions r /\ pr_consolidated r' = pr_consolidated r /\
  pr_swept_alpha r' = pr_swept_alpha r /\ pr_buyback r' = pr_buyback r /\
  pr_buyback_done r' = pr_buyback_done r /\ pr_dust_returned r' = pr_dust_returned r /\
  pr_buyback_budget r' = pr_buyback_budget r /\ pr_auto_required r' = pr_auto_required r.

Lemma purchase_complete_core r r' :
  pr_buyback r' = pr_buyback r -> pr_buyback_budget r' = pr_buyback_budget r ->
  purchase_complete r -> purchase_complete r'.
Proof. unfold purchase_complete. by intros -> ->. Qed.

Lemma validate_completed_core r r' :
  pr_buyback r' = pr_buyback r -> pr_buyback_budget r' = pr_buyback_budget r ->
  validate_completed_buyback r' = validate_completed_buyback r.
Proof. unfold validate_completed_buyback. by intros -> ->. Qed.

Lemma frame_job_ok r r' :
  job_ok r -> same_core r r' -> pr_pending r' = None ->
  (forall x, x ∈ pr_txs r -> x ∈ pr_txs r') -> job_ok r'.
Proof.
  intros Hok (Hst & Hff & Hpos & Hc & Hsw & Hb & Hd & Hdu & Hbu & Ha) Hpend Htx.
  assert (Hprog : progress r' = progress r) by (unfold progress, stage; by rewrite Hst, Hff).
  destruct Hok. constructor; rewrite ?Hprog, ?Hst, ?Hff, ?Hpos, ?Hc, ?Hsw, ?Hb, ?Hd, ?Hdu; try done.
  - congruence.
  - intros rc Hrc. by eapply purchase_ok_txs; [..|apply ok_purchase0].
  - intros Hdone. by eapply purchase_complete_core; [..|apply ok_done0].
  - intros Hs. destruct (ok_settled0 Hs) as (req & Hr & Hreq). exists req.
    rewrite Ha. split; [done|]. by rewrite (validate_completed_core r r').
Qed.

Definition finished (r : PaymentRecord) (tx : TxRef) : PaymentRecord :=
  r <| pr_attempts := 0 |> <| pr_next_attempt_at := 0 |> <| pr_last_error := None |>
    <| pr_txs := pr_txs r ++ [tx] |>.

Lemma finished_job_ok r tx : job_ok r -> pr_pending r = None -> job_ok (finished r tx).
Proof.
  intros Hok Hp. eapply frame_job_ok; [done|by repeat split|done|].
  intros x Hx. unfold finished. pr_cbn. apply elem_of_app. by left.
Qed.

Lemma apply_inv r tx s r' :
  apply r tx s = Ok r' ->
  exists p r1, pr_pending r = Some p /\ r' = finished r1 tx /\
    let r0 := r <| pr_pending := None |> in
    match pd_action p with
    | Action_Fund =>
        transition (r0 <| pr_funded_tao := u64_add (pr_funded_tao r) (tx_amount tx) |>) Funded = Ok r1
    | Action_Sweep h =>
        EventSummary_has s PALLET "StakeTransferred" = true /\
        r1 = r0 <| pr_swept_alpha := u64_add (pr_swept_alpha r) (tx_amount tx) |>
                <| pr_swept_positions := pr_swept_positions r ++ [(h, tx_amount tx)] |>
    | Action_Consolidate _ => r1 = r0 <| pr_consolidated := pr_consolidated r + 1 |>
    | Action_ReturnDust => r1 = r0 <| pr_dust_returned := true |>
    | Action_BuyStake netuid limit_price =>
        exists alpha, es_stake_added s = Some (tx_amount tx, alpha) /\ alpha <> 0 /\
        r1 = r0 <| pr_buyback := Some {| br_netuid := netuid; br_tao_spent := tx_amount tx;
                   br_alpha_bought := alpha; br_limit_price := limit_price; br_stake_tx := tx;
                   br_destroy_tx := None; br_alpha_destroyed := 0 |} |>
    | Action_Destroy _ _ =>
        exists b, pr_buyback r = Some b /\ es_alpha_destroyed s = Some (br_alpha_bought b) /\
        br_alpha_bought b <> 0 /\
        r1 = r0 <| pr_buyback := Some {| br_netuid := br_netuid b; br_tao_spent := br_tao_spent b;
                   br_alpha_bought := br_alpha_bought b; br_limit_price := br_limit_price b;
                   br_stake_tx := br_stake_tx b; br_destroy_tx := Some tx;
                   br_alpha_destroyed := br_alpha_bought b |} |>
              <| pr_buyback_done := true |>
    end.
Proof.
  unfold apply. intros Ha. apply result_bind_ok in Ha as (a & Hp & Ha). apply ok_or_ok in Hp.
  destruct (pr_pending r) as [p|] eqn:Hpend; [|done]. injection Hp as <-.
  apply result_bind_ok in Ha as (r1 & H1 & Ha). injection Ha as <-.
  exists p, r1. split; [done|]. split; [done|]. cbn zeta.
  destruct (pd_action p).
  - exact H1.
  - destruct (EventSummary_has _ _ _); [|done]. cbn [negb] in H1. by injection H1 as <-.
  - by injection H1 as <-.
  - by injection H1 as <-.
  - apply result_bind_ok in H1 as ([tao alpha] & Hs & H1). apply ok_or_ok in Hs.
    destruct (_ || _) eqn:Hg; [done|]. bool_simpl. injection H1 as <-. subst tao. eauto.
  - apply result_bind_ok in H1 as (d & Hs & H1). apply ok_or_ok in Hs.
    apply result_bind_ok in H1 as (b & Hb & H1). apply ok_or_ok in Hb.
    destruct (_ || _) eqn:Hg; [done|]. bool_simpl. injection H1 as <-. subst d. eauto.
Qed.

Lemma foldl_snoc {A B} (f : A -> B -> A) a l x : foldl f a (l ++ [x]) = f (foldl f a l) x.
Proof. by rewrite foldl_app. Qed.

Lemma apply_fund_ok r p tx r1 :
  job_ok r -> pr_pending r = Some p ->
  transition (r <| pr_pending := None |>
                <| pr_funded_tao := u64_add (pr_funded_tao r) (tx_amount tx) |>) Funded = Ok r1 ->
  job_ok r1 /\ pr_pending r1 = None.
Proof.
  intros Hok Hp Ht. split.
  - refine (transition_job_ok _ _ _ _ _ Ht _ _); [|by pr_cbn|done|done].
    eapply frame_job_ok; [exact Hok|by repeat split|by pr_cbn|by pr_cbn].
  - by apply transition_inv in Ht as (_ & _ & _ & _ & ->).
Qed.

Lemma apply_sweep_ok r p h amount :
  job_ok r -> pr_pending r = Some p -> pr_state r = Funded ->
  h ∉ fst <$> pr_swept_positions r ->
  job_ok (r <| pr_pending := None |>
            <| pr_swept_alpha := u64_add (pr_swept_alpha r) amount |>
            <| pr_swept_positions := pr_swept_positions r ++ [(h, amount)] |>).
Proof.
  intros Hok Hp Hst Hh. destruct Hok.
  assert (Hprog : progress r = 2) by (unfold progress, stage; by rewrite Hst).
  constructor; unfold progress, stage in *; pr_cbn; rewrite ?Hst in *; try done.
  - rewrite fmap_app. apply NoDup_app. split; [done|]. split; [|apply NoDup_singleton].
    intros x Hx Hx'. cbn in Hx'. apply list_elem_of_singleton in Hx' as ->. done.
  - rewrite length_app. cbn. lia.
  - rewrite fmap_app. cbn. by rewrite foldl_snoc, ok_swept_sum0.
Qed.

Lemma swept_stage r : pr_state r = Swept -> progress r = 3.
Proof. intros Hst. unfold progress, stage. by rewrite Hst. Qed.

Lemma consolidated_job_ok r :
  job_ok r -> pr_state r = Swept -> pr_pending r = None ->
  (exists ha, pr_swept_positions r !! Z.to_nat (pr_consolidated r) = Some ha) ->
  job_ok (r <| pr_consolidated := pr_consolidated r + 1 |>).
Proof.
  intros Hok Hst Hp [ha Hha]. pose proof (swept_stage r Hst) as Hprog. destruct Hok.
  apply lookup_lt_Some in Hha.
  constructor; unfold progress, stage in *; pr_cbn; rewrite ?Hst in *; try done;
    try congruence; lia.
Qed.

Lemma dust_job_ok r :
  job_ok r -> pr_state r = Swept -> pr_pending r = None ->
  job_ok (r <| pr_dust_returned := true |>).
Proof.
  intros Hok Hst Hp. pose proof (swept_stage r Hst) as Hprog. destruct Hok.
  constructor; unfold progress, stage in *; pr_cbn; rewrite ?Hst in *; try done; congruence.
Qed.

Lemma done_job_ok r :
  job_ok r -> pr_state r = Swept -> pr_pending r = None -> purchase_complete r ->
  job_ok (r <| pr_buyback_done := true |>).
Proof.
  intros Hok Hst Hp Hdone. pose proof (swept_stage r Hst) as Hprog. destruct Hok.
  constructor; unfold progress, stage in *; pr_cbn; rewrite ?Hst in *; try done; congruence.
Qed.

(** Storing a receipt that matches the budget, with its transaction. *)
Lemma receipt_job_ok r tx rc :
  job_ok r -> pr_state r = Swept -> pr_pending r = None -> pr_buyback_done r = false ->
  purchase_ok (finished r tx) rc ->
  job_ok (finished (r <| pr_buyback := Some rc |>) tx).
Proof.
  intros Hok Hst Hp Hd Hrc. pose proof (swept_stage r Hst) as Hprog. destruct Hok.
  unfold finished in *.
  constructor; unfold progress, stage in *; pr_cbn; rewrite ?Hst in *; try done; try congruence.
  intros rc' [= <-]. exact Hrc.
Qed.

(** A job without its journal. *)
Lemma dropped_job_ok r : job_ok r -> job_ok (r <| pr_pending := None |>).
Proof. intros Hok. eapply frame_job_ok; [exact Hok|by repeat split|by pr_cbn|by pr_cbn]. Qed.

Lemma apply_buy_ok r p tx netuid limit_price alpha :
  job_ok r -> pr_pending r = Some p -> pd_action p = Action_BuyStake netuid limit_price ->
  tx_amount tx = pd_amount p -> alpha <> 0 ->
  job_ok (finished (r <| pr_pending := None |>
    <| pr_buyback := Some {| br_netuid := netuid; br_tao_spent := tx_amount tx;
         br_alpha_bought := alpha; br_limit_price := limit_price; br_stake_tx := tx;
         br_destroy_tx := None; br_alpha_destroyed := 0 |} |>) tx).
Proof.
  intros Hok Hp Hact Htx Halpha. destruct (ok_journal _ Hok p Hp) as [_ Hj].
  unfold journal_allowed in Hj. rewrite Hact in Hj.
  destruct Hj as (Hst & Hb & Hd & Hreq & b & Hbb & Hval & Hn & Ham).
  apply (receipt_job_ok (r <| pr_pending := None |>));
    [by apply dropped_job_ok|by pr_cbn|by pr_cbn|by pr_cbn|].
  unfold purchase_ok, finished. pr_cbn. cbn.
  split_and!; try done; [|apply elem_of_app; right; apply list_elem_of_singleton; done].
  exists b. split_and!; try done; congruence.
Qed.

Lemma apply_destroy_ok r p tx netuid recycle b :
  job_ok r -> pr_pending r = Some p -> pd_action p = Action_Destroy netuid recycle ->
  pr_buyback r = Some b ->
  job_ok (finished (r <| pr_pending := None |>
    <| pr_buyback := Some {| br_netuid := br_netuid b; br_tao_spent := br_tao_spent b;
         br_alpha_bought := br_alpha_bought b; br_limit_price := br_limit_price b;
         br_stake_tx := br_stake_tx b; br_destroy_tx := Some tx;
         br_alpha_destroyed := br_alpha_bought b |} |>
    <| pr_buyback_done := true |>) tx).
Proof.
  intros Hok Hp Hact Hb. destruct (ok_journal _ Hok p Hp) as [_ Hj].
  unfold journal_allowed in Hj. rewrite Hact in Hj.
  destruct Hj as (Hst & Hd & Hreq & bb & rc & Hbb & Hrc & Hdt & Hk & _).
  rewrite Hb in Hrc. injection Hrc as <-.
  destruct (ok_purchase _ Hok b Hb) as (_ & (bb' & Hbb' & Hsp & Hnet & _) & Hne & Hin & _).
  rewrite Hbb in Hbb'. injection Hbb' as <-.
  set (rc := {| br_netuid := br_netuid b; br_tao_spent := br_tao_spent b;
         br_alpha_bought := br_alpha_bought b; br_limit_price := br_limit_price b;
         br_stake_tx := br_stake_tx b; br_destroy_tx := Some tx;
         br_alpha_destroyed := br_alpha_bought b |}).
  assert (H1 : job_ok (finished (r <| pr_pending := None |> <| pr_buyback := Some rc |>) tx)).
  { apply (receipt_job_ok (r <| pr_pending := None |>));
      [by apply dropped_job_ok|by pr_cbn|by pr_cbn|by pr_cbn|].
    unfold purchase_ok, finished, rc. pr_cbn. cbn.
    split_and!; try done; [by exists bb| |];
      apply elem_of_app; [by left|right; by apply list_elem_of_singleton]. }
  apply done_job_ok in H1; [exact H1|by unfold finished; pr_cbn|by unfold finished; pr_cbn|].
  unfold purchase_complete, finished, rc. pr_cbn. eexists _, bb. split_and!; try done. by right.
Qed.

Lemma apply_job_ok r p tx s r' :
  job_ok r -> pr_pending r = Some p -> tx_amount tx = pd_amount p -> apply r tx s = Ok r' ->
  job_ok r'.
Proof.
  intros Hok Hp Htx Ha. apply apply_inv in Ha as (p' & r1 & Hp' & -> & Ha).
  rewrite Hp in Hp'. injection Hp' as <-. cbn zeta in Ha.
  destruct (ok_journal _ Hok p Hp) as [_ Hj]. unfold journal_allowed in Hj.
  destruct (pd_action p) eqn:Hact.
  - destruct (apply_fund_ok _ _ _ _ Hok Hp Ha). by apply finished_job_ok.
  - destruct Ha as [_ ->], Hj. apply finished_job_ok; [by eapply apply_sweep_ok|by pr_cbn].
  - subst r1. destruct Hj as (Hst & h' & a & hk & Hl & _). apply finished_job_ok; [|by pr_cbn].
    assert (Hok' : job_ok (r <| pr_pending := None |>)) by (by apply dropped_job_ok).
    exact (consolidated_job_ok _ Hok' Hst eq_refl (ex_intro _ _ Hl)).
  - subst r1. destruct Hj as [Hst _]. apply finished_job_ok; [|by pr_cbn].
    apply (dust_job_ok (r <| pr_pending := None |>)); [by apply dropped_job_ok|by pr_cbn|by pr_cbn].
  - destruct Ha as (alpha & _ & Hne & ->). by eapply apply_buy_ok.
  - destruct Ha as (b & Hb & _ & _ & ->). by eapply apply_destroy_ok.
Qed.

Lemma micro_job_ok r r' : micro r r' -> job_ok r -> job_ok r'.
Proof.
  intros Hm Hok. destruct Hm as
    [r alpha tao Hp _|r to r' Hp Hg Ht|r to r' Hto Ht|r Hp Hst|r ha Hp Hst Hha|r Hp Hst Hd
    |r p Hp Hq Hj|r p Hp|r p tx s r' Hp Htx Ha|r p err n t Hp|r p tx s er err t Hp _
    |r err n t Hp|r Hst|r t Hst].
  - eapply frame_job_ok; [exact Hok|by repeat split|by pr_cbn|by pr_cbn].
  - eapply transition_job_ok; [exact Hok|done|exact Ht|..]; unfold advance_guard in Hg.
    + intros Heq. subst to. by destruct (pr_state r).
    + intros Heq. subst to. by destruct (pr_state r).
  - pose proof Ht as (Hc & _)%transition_inv.
    pose proof (resumable _ _ Hok Hc Hto) as Hp.
    assert (Hact : is_active to = true).
    { destruct Hto as [->|Hff]; [done|]. pose proof (ok_failed _ Hok) as Hf.
      rewrite Hff in Hf. by destruct Hf. }
    eapply transition_job_ok; [exact Hok|done|exact Ht|..]; intros Heq; by subst to.
  - by apply dust_job_ok.
  - apply consolidated_job_ok; eauto.
  - by apply done_job_ok.
  - destruct Hok. constructor; pr_cbn; try done.
    intros q [= <-]. split; [done|]. exact Hj.
  - by apply dropped_job_ok.
  - by eapply apply_job_ok.
  - apply record_failure_job_ok; [by apply dropped_job_ok|by pr_cbn].
  - apply record_failure_job_ok; [|by pr_cbn].
    eapply frame_job_ok; [exact Hok|by repeat split|by pr_cbn|].
    intros x Hx. pr_cbn. apply elem_of_app. by left.
  - by apply record_failure_job_ok.
  - assert (Hp : pr_pending r = None).
    { destruct (pr_pending r) as [p|] eqn:Hp; [|done].
      by destruct (journal_active _ _ Hok Hp) as [?|[?|?]]; congruence. }
    eapply frame_job_ok; [exact Hok|by repeat split|by pr_cbn|by pr_cbn].
  - assert (Hp : pr_pending r = None).
    { destruct (pr_pending r) as [p|] eqn:Hp; [|done].
      by destruct (journal_active _ _ Hok Hp) as [?|[?|?]]; congruence. }
    eapply frame_job_ok; [exact Hok|by repeat split|by pr_cbn|by pr_cbn].
Qed.

(** ** Histories *)

Lemma bump_job_ok t r : job_ok r -> job_ok (bump t r).
Proof. intros [? ? ? ? ? ? ? ? ? ?]. constructor; assumption. Qed.

(** What identifies a job and is fixed when it is created. *)
Definition same_job (r r' : PaymentRecord) : Prop :=
  pr_id r' = pr_id r /\ pr_address r' = pr_address r /\ pr_netuid r' = pr_netuid r /\
  pr_min_alpha r' = pr_min_alpha r /\ pr_min_tao r' = pr_min_tao r /\
  pr_expires_at r' = pr_expires_at r /\ pr_sealed_secret r' = pr_sealed_secret r /\
  pr_derivation_path r' = pr_derivation_path r /\ pr_metadata r' = pr_metadata r /\
  pr_callback_url r' = pr_callback_url r /\ pr_buyback_budget r' = pr_buyback_budget r /\
  pr_auto_required r' = pr_auto_required r /\ pr_identity r' = pr_identity r.

#[export] Instance same_job_preorder : PreOrder same_job.
Proof.
  split.
  - intros r. by repeat split.
  - intros a b c Hab Hbc. unfold same_job in *. destruct_and!. split_and!; congruence.
Qed.

Lemma transition_same_job r to r' :
  transition r to = Ok r' -> same_job r r' /\ pr_version r' = pr_version r.
Proof. intros (_ & _ & _ & _ & ->)%transition_inv. by repeat split. Qed.

Lemma record_failure_same_job r err n t :
  same_job r (record_failure r err n t) /\
  pr_version (record_failure r err n t) = pr_version r.
Proof. rewrite record_failure_inv. by repeat split. Qed.

Lemma apply_same_job r tx s r' :
  apply r tx s = Ok r' -> same_job r r' /\ pr_version r' = pr_version r.
Proof.
  intros (p & r1 & _ & -> & Ha)%apply_inv. cbn zeta in Ha.
  destruct (pd_action p).
  - apply transition_same_job in Ha as [Hs Hv]. exact (conj Hs Hv).
  - destruct Ha as [_ ->]. by repeat split.
  - subst. by repeat split.
  - subst. by repeat split.
  - destruct Ha as (alpha & _ & _ & ->). by repeat split.
  - destruct Ha as (b & _ & _ & _ & ->). by repeat split.
Qed.

Lemma micro_same_job r r' : micro r r' -> same_job r r' /\ pr_version r' = pr_version r.
Proof.
  destruct 1; try (by repeat split).
  - by eapply transition_same_job.
  - by eapply transition_same_job.
  - by eapply apply_same_job.
  - match goal with |- context [record_failure ?r0 ?a ?b ?c] =>
      destruct (record_failure_same_job r0 a b c) as [Hs Hv] end. exact (conj Hs Hv).
  - match goal with |- context [record_failure ?r0 ?a ?b ?c] =>
      destruct (record_failure_same_job r0 a b c) as [Hs Hv] end. exact (conj Hs Hv).
  - apply record_failure_same_job.
Qed.

Lemma micros_same_job r r' : rtc micro r r' -> same_job r r' /\ pr_version r' = pr_version r.
Proof.
  induction 1 as [|a b c Hm _ [IH1 IH2]]; [done|].
  apply micro_same_job in Hm as [H1 H2]. split; [by etrans|congruence].
Qed.

Lemma micros_job_ok r r' : rtc micro r r' -> job_ok r -> job_ok r'.
Proof.
  intros Hr. apply (rtc_invariant micro); [|done]. intros x y Hx Hxy. by eapply micro_job_ok.
Qed.

Lemma job_step_same r r' : job_step r r' -> same_job r r' /\ pr_version r' = pr_version r + 1.
Proof.
  intros (body & t & Hm & ->). apply micros_same_job in Hm as [H1 H2].
  split; [exact H1|]. unfold bump. pr_cbn. lia.
Qed.

Lemma job_step_ok r r' : job_step r r' -> job_ok r -> job_ok r'.
Proof.
  intros (body & t & Hm & ->) Hok. apply bump_job_ok. by eapply micros_job_ok.
Qed.

Lemma history_same r r' :
  rtc job_step r r' ->
  same_job r r' /\ pr_version r <= pr_version r' /\ (pr_version r' = pr_version r -> r' = r).
Proof.
  induction 1 as [|a b c Hs _ (IH1 & IH2 & IH3)]; [split; [done|split; [lia|done]]|].
  apply job_step_same in Hs as [H1 H2]. split; [by etrans|]. split; [lia|]. intros Hv. lia.
Qed.

Lemma history_ok r r' : rtc job_step r r' -> job_ok r -> job_ok r'.
Proof.
  intros Hr. apply (rtc_invariant job_step); [|done]. intros x y Hx Hxy. by eapply job_step_ok.
Qed.

(** What only ever grows along a job: nothing done is undone, or done twice. *)
Record grows (r r' : PaymentRecord) : Prop := {
  gr_progress : progress r <= progress r';
  gr_txs : pr_txs r `prefix_of` pr_txs r';
  gr_positions : pr_swept_positions r `prefix_of` pr_swept_positions r';
  gr_consolidated : pr_consolidated r <= pr_consolidated r';
  gr_dust : pr_dust_returned r = true -> pr_dust_returned r' = true;
  gr_done : pr_buyback_done r = true -> pr_buyback_done r' = true;
  gr_funded : 2 <= progress r -> pr_funded_tao r' = pr_funded_tao r;
  gr_purchase : forall rc, pr_buyback r = Some rc -> exists rc', pr_buyback r' = Some rc' /\
    br_stake_tx rc' = br_stake_tx rc /\ br_tao_spent rc' = br_tao_spent rc /\
    br_alpha_bought rc' = br_alpha_bought rc /\
    (is_some (br_destroy_tx rc) = true -> rc' = rc) }.

#[export] Instance grows_preorder : PreOrder grows.
Proof.
  split.
  - intros r. constructor; try done; [lia..|]. intros rc Hrc. by exists rc.
  - intros a b c [p1 t1 q1 c1 d1 e1 f1 g1] [p2 t2 q2 c2 d2 e2 f2 g2]. constructor; try lia; auto.
    + by etrans.
    + by etrans.
    + intros rc Hrc. destruct (g1 rc Hrc) as (rc1 & H1 & A1 & A2 & A3 & A4).
      destruct (g2 rc1 H1) as (rc2 & H2 & B1 & B2 & B3 & B4).
      exists rc2. split; [done|]. split_and!; try congruence.
      intros Hd. pose proof (A4 Hd). subst rc1. auto.
Qed.

(** A change that leaves the accounting alone. *)
Lemma grows_same r r' :
  progress r <= progress r' -> pr_txs r `prefix_of` pr_txs r' ->
  pr_swept_positions r' = pr_swept_positions r -> pr_consolidated r <= pr_consolidated r' ->
  (pr_dust_returned r = true -> pr_dust_returned r' = true) ->
  (pr_buyback_done r = true -> pr_buyback_done r' = true) ->
  (2 <= progress r -> pr_funded_tao r' = pr_funded_tao r) ->
  pr_buyback r' = pr_buyback r -> grows r r'.
Proof.
  intros Hp Ht Hs Hc Hd Hb Hf Hbb. constructor; auto.
  - by rewrite Hs.
  - intros rc Hrc. exists rc. by rewrite Hbb.
Qed.

Lemma transition_grows r to r' : transition r to = Ok r' -> grows r r'.
Proof.
  intros Ht. pose proof (transition_progress _ _ _ Ht) as Hp.
  apply transition_inv in Ht as (_ & _ & _ & _ & Heq). rewrite Heq in Hp |- *.
  by apply grows_same; pr_cbn.
Qed.

Lemma record_failure_grows r r0 err n t : grows r r0 -> grows r (record_failure r0 err n t).
Proof.
  intros Hg. etrans; [exact Hg|].
  assert (Hprog : progress (record_failure r0 err n t) = progress r0)
    by (unfold progress; by rewrite record_failure_stage).
  apply grows_same; rewrite ?Hprog, ?record_failure_inv; pr_cbn; done.
Qed.

Lemma apply_grows r p tx s r' :
  job_ok r -> pr_pending r = Some p -> apply r tx s = Ok r' -> grows r r'.
Proof.
  intros Hok Hp Ha. apply apply_inv in Ha as (p' & r1 & Hp' & -> & Ha).
  rewrite Hp in Hp'. injection Hp' as <-. cbn zeta in Ha.
  destruct (ok_journal _ Hok p Hp) as [_ Hj]. unfold journal_allowed in Hj.
  assert (Hfin : grows r1 (finished r1 tx)).
  { unfold finished. apply grows_same; pr_cbn; try done. by apply prefix_app_r. }
  etrans; [|exact Hfin]. clear Hfin.
  destruct (pd_action p) eqn:Hact.
  - destruct Hj as [Hst _].
    etrans; [|by eapply transition_grows].
    apply grows_same; pr_cbn; try done. intros Hprog. unfold progress, stage in Hprog.
    rewrite Hst in Hprog. cbn in Hprog. lia.
  - destruct Ha as [_ ->]. constructor; pr_cbn; try done.
    + by apply prefix_app_r.
    + intros rc Hrc. by exists rc.
  - subst r1. apply grows_same; pr_cbn; try done. unfold progress, stage. lia.
  - subst r1. by apply grows_same; pr_cbn.
  - destruct Ha as (alpha & _ & _ & ->). destruct Hj as (_ & Hb & _).
    constructor; pr_cbn; try done. intros rc Hrc. congruence.
  - destruct Ha as (b & Hb & _ & _ & ->).
    destruct Hj as (_ & _ & _ & bb & rc & _ & Hrc & Hdt & _).
    constructor; pr_cbn; try done. intros rc' Hrc'.
    assert (rc' = b) as -> by congruence. assert (rc = b) as -> by congruence.
    eexists. split; [done|]. cbn. rewrite Hdt. by split_and!.
Qed.

Lemma micro_grows r r' : job_ok r -> micro r r' -> grows r r'.
Proof.
  intros Hok Hm. destruct Hm as
    [r alpha tao Hp _|r to r' Hp Hg Ht|r to r' Hto Ht|r Hp Hst|r ha Hp Hst Hha|r Hp Hst Hd
    |r p Hp Hq Hj|r p Hp|r p tx s r' Hp Htx Ha|r p err n t Hp|r p tx s er err t Hp _
    |r err n t Hp|r Hst|r t Hst];
    try (by apply grows_same; pr_cbn; done || (unfold progress, stage; lia)).
  - by eapply transition_grows.
  - by eapply transition_grows.
  - by eapply apply_grows.
  - apply record_failure_grows. by apply grows_same; pr_cbn.
  - apply record_failure_grows. apply grows_same; pr_cbn; try done. by apply prefix_app_r.
  - by apply record_failure_grows.
Qed.

Lemma micros_grow r r' : rtc micro r r' -> job_ok r -> grows r r'.
Proof.
  induction 1 as [|a b c Hm _ IH]; intros Hok; [done|].
  etrans; [by apply micro_grows|]. apply IH. by eapply micro_job_ok.
Qed.

Lemma history_grows r r' : rtc job_step r r' -> job_ok r -> grows r r'.
Proof.
  induction 1 as [|a b c Hs _ IH]; intros Hok; [done|].
  etrans; [|apply IH; by eapply job_step_ok].
  destruct Hs as (body & t & Hm & ->). etrans; [by apply micros_grow|].
  by apply grows_same.
Qed.
End Protocol.
