(* ===== verification/EngineProofs.v ===== *)
(** The engine refines the job protocol.

    Every method of [Engine], run on any store that keeps the contract
    [StoreLaws], next to any peers that keep the protocol, against any node,
    only makes protocol steps ([evolves]) and only broadcasts what the protocol
    has journaled ([journaled]). *)
From S2P Require Import Prelude RustStd Types Units Keys State Chain StoreSpec Engine JobSpec.
Local Open Scope Z_scope.

(** Facts on worlds that follow quietly. *)
Create HintDb engine.

(** ** Traces *)

Definition is_broadcast (o : Obs) : bool := match o with O_broadcast _ => true | _ => false end.
(** Preparing a transaction signs it. *)
Definition signs (o : Obs) : bool :=
  match o with O_prepare _ _ | O_broadcast _ => true | _ => false end.
Definition broadcasts (t : list Obs) : nat := length (filter (fun o => is_broadcast o = true) t).
Definition unsigned (t : list Obs) : Prop := Forall (fun o => signs o = false) t.

(** The journal entry names exactly the transaction. *)
Definition journal_matches (p : PendingTx) (tx : PreparedTx) : Prop :=
  pd_signer p = pt_signer tx /\ pd_nonce p = pt_nonce tx /\ pd_tx_hash p = pt_tx_hash tx /\
  pd_birth_block p = pt_birth_block tx /\ pd_amount p = ChainCall_amount (pt_call tx) /\
  action_name (pd_action p) = ChainCall_name (pt_call tx).

Section Authorised.
Context `{Crypto} `{Ss58} (e : Engine).

(** The one call each action stands for, and who signs it. *)
Definition authorised (r : PaymentRecord) (act : Action) (call : ChainCall)
  (signer : AccountId32) : Prop :=
  match act with
  | Action_Fund =>
      signer = treasury_account e /\
      exists who amount, call = TransferTao who amount /\ ss58 who = pr_address r
  | Action_Sweep h =>
      ss58 signer = pr_address r /\
      exists hotkey alpha, call = TransferStake (treasury_account e) hotkey (pr_netuid r) alpha /\
        h = ss58 hotkey
  | Action_Consolidate h =>
      signer = treasury_account e /\
      exists hotkey alpha,
        call = MoveStake hotkey (cfg_treasury_hotkey (en_cfg e)) (pr_netuid r) alpha /\
        h = ss58 hotkey
  | Action_ReturnDust =>
      ss58 signer = pr_address r /\ call = TransferAll (treasury_account e)
  | Action_BuyStake netuid limit_price =>
      signer = treasury_account e /\
      exists b hotkey, pr_buyback_budget r = Some b /\ parse_ss58 (bb_hotkey b) = Ok hotkey /\
        netuid = bb_netuid b /\
        call = AddStakeLimit hotkey (bb_netuid b) (bb_amount_rao b) limit_price false
  | Action_Destroy netuid recycle =>
      signer = treasury_account e /\
      exists b rc hotkey, pr_buyback_budget r = Some b /\ pr_buyback r = Some rc /\
        parse_ss58 (bb_hotkey b) = Ok hotkey /\ netuid = bb_netuid b /\
        recycle = bool_decide (bb_destroy b = Recycle) /\
        call = destroy_call (bb_destroy b) hotkey (bb_netuid b) (br_alpha_bought rc)
  end.

(** Every broadcast comes right after the write that journals it. *)
Definition journaled (t : list Obs) : Prop :=
  forall t1 tx t2, t = t1 ++ O_broadcast tx :: t2 ->
  exists t0 r p signer, t1 = t0 ++ [O_write r] /\ pr_pending r = Some p /\
    journal_matches p tx /\ pt_signer tx = ss58 signer /\
    authorised r (pd_action p) (pt_call tx) signer.

Lemma unsigned_broadcasts t : unsigned t -> broadcasts t = 0%nat.
Proof.
  unfold broadcasts. induction 1 as [|o t Ho _ IH]; [done|].
  rewrite filter_cons_False; [done|]. by destruct o.
Qed.

Lemma broadcasts_app t u : broadcasts (t ++ u) = (broadcasts t + broadcasts u)%nat.
Proof. unfold broadcasts. by rewrite filter_app, length_app. Qed.

Lemma no_broadcast_journaled t : broadcasts t = 0%nat -> journaled t.
Proof.
  intros Hb t1 tx t2 ->. rewrite broadcasts_app in Hb. unfold broadcasts in Hb at 2.
  rewrite filter_cons_True in Hb by done. cbn in Hb. lia.
Qed.

Lemma journaled_app t u : journaled t -> journaled u -> journaled (t ++ u).
Proof.
  intros Ht Hu t1 tx t2 Heq. apply app_eq_app in Heq as (l & [[-> Hl]|[-> Hl]]).
  - destruct l as [|o l].
    + rewrite app_nil_l in Hl. rewrite app_nil_r in *.
      destruct (Hu [] tx t2) as (t0 & ? & ? & ? & Hn & _); [done|]. by destruct t0.
    + injection Hl as <- Hl. destruct (Ht t1 tx l) as (t0 & H'); [done|]. eauto.
  - destruct (Hu l tx t2) as (t0 & r & p & sg & -> & H'); [done|].
    exists (t ++ t0), r, p, sg. by rewrite app_assoc.
Qed.

Lemma sent_journaled t0 r p tx signer t1 :
  broadcasts t0 = 0%nat -> broadcasts t1 = 0%nat -> pr_pending r = Some p ->
  journal_matches p tx -> pt_signer tx = ss58 signer ->
  authorised r (pd_action p) (pt_call tx) signer ->
  journaled (t0 ++ O_write r :: O_broadcast tx :: t1).
Proof.
  intros Hb0 Hb1 Hp Hm Hs Ha.
  rewrite cons_middle, (app_assoc t0), (cons_middle (O_broadcast tx)), (app_assoc (t0 ++ _)).
  apply journaled_app; [|by apply no_broadcast_journaled].
  intros u1 tx' u2 Heq.
  assert (Hu2 : u2 = []).
  { destruct (decide (u2 = [])) as [|Hne]; [done|exfalso].
    apply exists_last in Hne as (u & o & ->).
    rewrite app_comm_cons, app_assoc in Heq. apply app_inj_tail in Heq as [Heq _].
    assert (Hb : broadcasts (t0 ++ [O_write r]) = 0%nat)
      by (rewrite broadcasts_app, Hb0; reflexivity).
    rewrite Heq, broadcasts_app in Hb. unfold broadcasts in Hb at 2.
    rewrite filter_cons_True in Hb by done. cbn in Hb. lia. }
  subst u2. apply app_inj_tail in Heq as [<- [= <-]]. by exists t0, r, p, signer.
Qed.
End Authorised.

(** ** Stores that evolve by the protocol *)

Section Evolution.
Context `{Ss58} {St : Type} `{!StoreView St}.

(** A consistent store all of whose jobs satisfy the protocol's invariant. *)
Definition good (s : St) : Prop :=
  store_ok s /\ forall id r, view s !! id = Some r -> job_ok r.

(** Jobs advance by protocol steps; new jobs satisfy the invariant. *)
Definition evolves (s s' : St) : Prop :=
  forall id, match view s !! id, view s' !! id with
             | Some r, Some r' => rtc job_step r r'
             | None, Some r' => job_ok r'
             | Some _, None => False
             | None, None => True
             end.

#[export] Instance evolves_preorder : PreOrder evolves.
Proof.
  split.
  - intros s id. by destruct (view s !! id).
  - intros a b c Hab Hbc id. specialize (Hab id). specialize (Hbc id).
    destruct (view a !! id), (view b !! id), (view c !! id); try done; [by etrans|].
    by eapply history_ok.
Qed.

Lemma evolves_view s s' : view s' = view s -> evolves s s'.
Proof. intros Hv id. rewrite Hv. by destruct (view s !! id). Qed.

Lemma evolves_update s s' id r r' :
  view s !! id = Some r -> job_step r r' -> view s' = <[id := r']> (view s) -> evolves s s'.
Proof.
  intros Hr Hs Hv id'. rewrite Hv. destruct (decide (id' = id)) as [->|Hne].
  - rewrite lookup_insert_eq, Hr. by apply rtc_once.
  - rewrite lookup_insert_ne by done. by destruct (view s !! id').
Qed.

Lemma evolves_insert s s' id r' :
  view s !! id = None -> job_ok r' -> view s' = <[id := r']> (view s) -> evolves s s'.
Proof.
  intros Hr Hs Hv id'. rewrite Hv. destruct (decide (id' = id)) as [->|Hne].
  - by rewrite lookup_insert_eq, Hr.
  - rewrite lookup_insert_ne by done. by destruct (view s !! id').
Qed.

(** [r] was read from the store: what is stored now is a later version. *)
Definition held (r : PaymentRecord) (s : St) : Prop :=
  job_ok r /\ exists cur, view s !! pr_id r = Some cur /\ rtc job_step r cur.

(** [r] was read from the store and changed in memory since. *)
Definition derived (r : PaymentRecord) (s : St) : Prop :=
  exists r0, held r0 s /\ rtc micro r0 r.

Lemma held_evolves r s s' : held r s -> evolves s s' -> held r s'.
Proof.
  intros (Hok & cur & Hc & Hr) He. split; [done|]. specialize (He (pr_id r)).
  rewrite Hc in He. destruct (view s' !! pr_id r) as [cur'|]; [|done].
  exists cur'. split; [done|]. by etrans.
Qed.

Lemma derived_evolves r s s' : derived r s -> evolves s s' -> derived r s'.
Proof. intros (r0 & Hh & Hm) He. exists r0. split; [by eapply held_evolves|done]. Qed.

Lemma held_derived r s : held r s -> derived r s.
Proof. intros Hh. by exists r. Qed.

Lemma derived_micro r r' s : derived r s -> micro r r' -> derived r' s.
Proof. intros (r0 & Hh & Hm) Hs. exists r0. split; [done|]. by eapply rtc_r. Qed.

Lemma derived_ok r s : derived r s -> job_ok r.
Proof. intros (r0 & [Hok _] & Hm). by eapply micros_job_ok. Qed.

Lemma good_held s id r : good s -> view s !! id = Some r -> pr_id r = id -> held r s.
Proof. intros [_ Hg] Hr <-. split; [by eapply Hg|]. by exists r. Qed.

(** The compare-and-swap on the version makes a write of a derived record a
    protocol step of the record it replaces. *)
Lemma cas_step r s cur t :
  derived r s -> view s !! pr_id r = Some cur -> pr_version cur = pr_version r ->
  job_step cur (bump t r).
Proof.
  intros (r0 & (Hok & cur0 & Hc0 & Hr0) & Hm) Hcur Hv.
  apply micros_same_job in Hm as Hs. destruct Hs as [(Hid & _) Hver].
  rewrite <- Hid, Hcur in Hc0. injection Hc0 as <-.
  destruct (history_same _ _ Hr0) as (_ & _ & Hsame).
  rewrite Hsame by congruence. by exists r, t.
Qed.
End Evolution.

(** What other engines and operators may do to the store. *)
Class PeersLaws (N St : Type) `{Ss58, !StoreView St, !Peers N St} : Prop :=
  peers_law : forall (n : N) (s : St), good s -> good (peers n s) /\ evolves s (peers n s).

(** What [Chain] promises the engine: [prepare] builds the transaction of the
    call it is given, and the receipt of a broadcast carries that call's
    amount. *)
Class RpcLaws (N : Type) `{EngineEnv N} : Prop := {
  prepare_law : forall call signer n pt n',
    rpc_prepare call signer n = (Ok pt, n') -> pt_call pt = call;
  broadcast_law : forall pt n ft n',
    rpc_broadcast pt n = (Ok ft, n') -> tx_amount (ft_tx ft) = ChainCall_amount (pt_call pt) }.

Section Refinement.
Context `{Crypto} `{!Ss58} {St N : Type} `{!StoreOps St} `{!StoreView St} `{!StoreLaws St}
  `{!EngineEnv N} `{!RpcLaws N} `{!Peers N St} `{!PeersLaws N St} (e : Engine).

Abbreviation W := (World St N).
Abbreviation Eff A := (M W Error A).

(** [w'] follows [w] with no signature. *)
Definition quiet (w w' : W) : Prop :=
  good (w_store w') /\ evolves (w_store w) (w_store w') /\
  exists t, w_trace w' = w_trace w ++ t /\ unsigned t.

(** [w'] follows [w] with at most one broadcast, journaled. *)
Definition sent (w w' : W) : Prop :=
  good (w_store w') /\ evolves (w_store w) (w_store w') /\
  exists t, w_trace w' = w_trace w ++ t /\ journaled e t /\ (broadcasts t <= 1)%nat.

Lemma quiet_good w w' : quiet w w' -> good (w_store w').
Proof. by intros [? _]. Qed.
Lemma quiet_evolves w w' : quiet w w' -> evolves (w_store w) (w_store w').
Proof. by intros (_ & ? & _). Qed.

Lemma quiet_refl w : good (w_store w) -> quiet w w.
Proof. intros Hg. split; [done|]. split; [reflexivity|]. exists [].
  split; [by rewrite app_nil_r|constructor]. Qed.

Lemma quiet_trans a b c : quiet a b -> quiet b c -> quiet a c.
Proof.
  intros (_ & Hab & t & Ht & Htu) (Hg & Hbc & u & Hu & Huu). split; [done|].
  split; [by etrans|]. exists (t ++ u). rewrite Hu, Ht, app_assoc.
  split; [done|]. by apply Forall_app.
Qed.

Lemma quiet_sent w w' : quiet w w' -> sent w w'.
Proof.
  intros (Hg & He & t & Ht & Hu). split; [done|]. split; [done|]. exists t.
  pose proof (unsigned_broadcasts t Hu) as Hb. split; [done|].
  split; [by apply no_broadcast_journaled|lia].
Qed.

Lemma quiet_then_sent a b c : quiet a b -> sent b c -> sent a c.
Proof.
  intros (_ & Hab & t & Ht & Htu) (Hg & Hbc & u & Hu & Huj & Hub). split; [done|].
  pose proof (unsigned_broadcasts t Htu) as Hb.
  split; [by etrans|]. exists (t ++ u). rewrite Hu, Ht, app_assoc. split; [done|].
  rewrite broadcasts_app, Hb. split; [|done].
  apply journaled_app; [by apply no_broadcast_journaled|done].
Qed.

Lemma sent_then_quiet a b c : sent a b -> quiet b c -> sent a c.
Proof.
  intros (_ & Hab & t & Ht & Htj & Htb) (Hg & Hbc & u & Hu & Huu). split; [done|].
  pose proof (unsigned_broadcasts u Huu) as Hb.
  split; [by etrans|]. exists (t ++ u). rewrite Hu, Ht, app_assoc. split; [done|].
  rewrite broadcasts_app, Hb. split; [|lia].
  apply journaled_app; [done|by apply no_broadcast_journaled].
Qed.

(** [m] signs nothing, and its result satisfies [P]. *)
Definition quietly {A} (m : Eff A) (P : A -> W -> Prop) (w : W) : Prop :=
  wp m (fun res w' => quiet w w' /\ match res with Ok a => P a w' | Err _ => True end) w.

(** [m] makes at most one broadcast. *)
Definition sending {A} (m : Eff A) (w : W) : Prop := wp m (fun _ w' => sent w w') w.

Lemma quietly_bind {A B} (m : Eff A) (k : A -> Eff B) P Q w :
  quietly m P w -> (forall a w', quiet w w' -> P a w' -> quietly (k a) Q w') ->
  quietly (m_bind m k) Q w.
Proof.
  unfold quietly, sending. intros Hm Hk. apply wp_bind. apply (wp_mono _ _ _ _ Hm).
  intros [a|er] w' [Hq HP]; [|done].
  apply (wp_mono _ _ _ _ (Hk _ _ Hq HP)). intros res w'' [Hq' Hres]. split; [by eapply quiet_trans|done].
Qed.

Lemma sending_bind {A B} (m : Eff A) (k : A -> Eff B) P w :
  quietly m P w -> (forall a w', quiet w w' -> P a w' -> sending (k a) w') ->
  sending (m_bind m k) w.
Proof.
  unfold quietly, sending. intros Hm Hk. apply wp_bind. apply (wp_mono _ _ _ _ Hm).
  intros [a|er] w' [Hq HP]; [|by apply quiet_sent].
  apply (wp_mono _ _ _ _ (Hk _ _ Hq HP)). intros res w'' Hs. by eapply quiet_then_sent.
Qed.

Lemma quietly_sending {A} (m : Eff A) P w : quietly m P w -> sending m w.
Proof.
  unfold quietly, sending. intros Hm. apply (wp_mono _ _ _ _ Hm). intros res w' [Hq _]. by apply quiet_sent. Qed.

Lemma quietly_mono {A} (m : Eff A) P Q w :
  quietly m P w -> (forall a w', quiet w w' -> P a w' -> Q a w') -> quietly m Q w.
Proof.
  unfold quietly. intros Hm HPQ. apply (wp_mono _ _ _ _ Hm). intros [a|er] w' [Hq HP]; auto.
Qed.

Lemma quietly_ret {A} (a : A) (P : A -> W -> Prop) w :
  good (w_store w) -> P a w -> quietly (m_ret a) P w.
Proof. intros Hg HP. apply wp_ret. split; [by apply quiet_refl|done]. Qed.

Lemma quietly_throw {A} er (P : A -> W -> Prop) w :
  good (w_store w) -> quietly (m_throw er) P w.
Proof. intros Hg. apply wp_throw. split; [by apply quiet_refl|done]. Qed.

Lemma quietly_lift {A} (r : Result A) w :
  good (w_store w) -> quietly (m_lift r) (fun a _ => r = Ok a) w.
Proof. intros Hg. apply wp_lift. split; [by apply quiet_refl|by destruct r]. Qed.

Lemma quietly_outside {A} (m : M N Error A) w :
  good (w_store w) -> quietly (outside m) (fun a w' => m (w_env w) = (Ok a, w_env w')) w.
Proof.
  intros Hg. unfold quietly, wp, outside. destruct (m (w_env w)) as [res n]; cbn.
  split; [|by destruct res]. split; [done|]. split; [reflexivity|]. exists [].
  split; [by rewrite app_nil_r|constructor].
Qed.

Lemma quietly_sample {A} (f : N -> A * N) w :
  good (w_store w) -> quietly (sample f) (fun a _ => exists n, a = (f n).1) w.
Proof.
  intros Hg. eapply quietly_mono; [by apply quietly_outside|].
  intros a w' _ Ha. cbn beta in Ha. exists (w_env w).
  destruct (f (w_env w)) as [a' n']. by injection Ha as <- _.
Qed.

Lemma quietly_now w : good (w_store w) -> quietly (now (St := St)) (fun _ _ => True) w.
Proof. intros Hg. eapply quietly_mono; [by apply quietly_sample|done]. Qed.

Lemma quietly_observe o w :
  good (w_store w) -> signs o = false -> quietly (observe o) (fun _ _ => True) w.
Proof.
  intros Hg Ho. unfold quietly, wp, observe. cbn. split; [|done]. split; [done|].
  split; [reflexivity|]. exists [o]. split; [done|]. by constructor.
Qed.

Lemma quietly_try {A} (m : Eff A) P w :
  quietly m P w ->
  quietly (m_try m) (fun res w' => match res with Ok a => P a w' | Err _ => True end) w.
Proof. intros Hm. by apply wp_try. Qed.

(** The peers run, then the operation, which must leave the store good. *)
Lemma quietly_store {A} (op : SEnv -> M St Error A) (P : A -> St -> Prop) w :
  good (w_store w) ->
  (forall s env, good s -> evolves (w_store w) s ->
     wp (op env) (fun res s' => good s' /\ evolves s s' /\
                                match res with Ok a => P a s' | Err _ => True end) s) ->
  quietly (on_store op) (fun a w' => P a (w_store w')) w.
Proof.
  intros Hg Hop. unfold quietly, wp, on_store.
  destruct (peers_law (w_env w) (w_store w) Hg) as [Hg1 He1].
  destruct (env_store (w_env w)) as [env n].
  specialize (Hop (peers (w_env w) (w_store w)) env Hg1 He1). unfold wp in Hop.
  destruct (op env (peers (w_env w) (w_store w))) as [res s']. cbn in *.
  destruct Hop as (Hg2 & He2 & HP). split; [|done]. split; [done|].
  split; [by etrans|]. exists [].
  split; [by rewrite app_nil_r|constructor].
Qed.

(** *** Store operations *)

Lemma keeps_view_good {A} (m : M St Error A) s :
  good s -> keeps_view m s ->
  wp m (fun res s' => good s' /\ evolves s s' /\ match res with Ok _ => True | Err _ => True end) s.
Proof.
  unfold keeps_view. intros [Hok Hg] Hm. apply (wp_mono _ _ _ _ Hm).
  intros res s' [Hok' Hv]. split; [split; [done|by rewrite Hv]|].
  split; [by apply evolves_view|by destruct res].
Qed.

Lemma quietly_require w :
  good (w_store w) -> quietly (on_store require_signing) (fun _ _ => True) w.
Proof.
  intros Hg. apply (quietly_store _ (fun _ _ => True)); [done|]. intros s env Hgs _.
  apply keeps_view_good; [done|]. apply require_signing_law, Hgs.
Qed.

Lemma quietly_reserve signer r w :
  good (w_store w) -> quietly (on_store (reserve_signer_for_record signer r)) (fun _ _ => True) w.
Proof.
  intros Hg. apply (quietly_store _ (fun _ _ => True)); [done|]. intros s env Hgs _.
  apply keeps_view_good; [done|]. apply reserve_law, Hgs.
Qed.

Lemma quietly_cancel signer job token w :
  good (w_store w) -> quietly (on_store (cancel_preparation signer job token)) (fun _ _ => True) w.
Proof.
  intros Hg. apply (quietly_store _ (fun _ _ => True)); [done|]. intros s env Hgs _.
  apply keeps_view_good; [done|]. apply cancel_law, Hgs.
Qed.

Lemma quietly_get id w :
  good (w_store w) ->
  quietly (store_get id) (fun r w' => held r (w_store w')) w.
Proof.
  intros Hg. eapply (quietly_bind _ _
    (fun o w' => forall r, o = Some r -> held r (w_store w'))).
  - apply (quietly_store _ (fun o s => forall r, o = Some r -> held r s)); [done|].
    intros s env Hgs _. apply (wp_mono _ _ _ _ (get_law id env s (proj1 Hgs))).
    intros res s' [-> Hres]. split; [done|]. split; [reflexivity|].
    destruct res as [o|er]; [|done]. intros r ->. symmetry in Hres.
    apply (good_held s id r Hgs Hres). by eapply view_id; [apply Hgs|].
  - intros o w' Hq Ho. eapply quietly_mono; [by apply quietly_lift, (quiet_good w)|].
    intros r w'' Hq' Hr. apply ok_or_ok in Hr. eapply held_evolves; [by apply Ho|].
    by apply quiet_evolves.
Qed.

Lemma quietly_list states w :
  good (w_store w) ->
  quietly (on_store (list_records states))
    (fun l w' => forall r, r ∈ l -> held r (w_store w')) w.
Proof.
  intros Hg. apply (quietly_store _ (fun l s => forall r, r ∈ l -> held r s)); [done|].
  intros s env Hgs _. apply (wp_mono _ _ _ _ (list_law states env s (proj1 Hgs))).
  intros res s' [-> Hres]. split; [done|]. split; [reflexivity|].
  destruct res as [l|er]; [|done]. destruct Hres as [_ Hl]. intros r Hr.
  apply Hl in Hr as [Hr _]. by eapply good_held.
Qed.

Lemma update_good r env s :
  good s -> derived r s ->
  wp (update_record r env) (fun res s' => good s' /\ evolves s s' /\
    match res with Ok next => held next s' /\ exists t, next = bump t r | Err _ => True end) s.
Proof.
  intros Hgs Hd. apply (wp_mono _ _ _ _ (update_law r env s (proj1 Hgs))).
  intros res s' [Hok' Hres]. destruct res as [next|er].
  - destruct Hres as (cur & Hcur & Hv & _ & _ & -> & Hv').
    pose proof (cas_step r s cur (se_now env) Hd Hcur Hv) as Hstep.
    assert (Hnext : job_ok (bump (se_now env) r)) by (apply bump_job_ok; by eapply derived_ok).
    split; [split; [done|]|split].
    + intros id r'. rewrite Hv', lookup_insert_Some.
      intros [[_ <-]|[_ Hr']]; [done|]. by eapply Hgs.
    + by eapply evolves_update.
    + split; [|eauto]. split; [done|]. exists (bump (se_now env) r).
      rewrite Hv'. split; [|reflexivity]. apply lookup_insert_eq.
  - split; [split; [done|by rewrite Hres; apply Hgs]|]. split; [by apply evolves_view|done].
Qed.

Lemma quietly_update r w :
  good (w_store w) -> derived r (w_store w) ->
  quietly (store_update r)
    (fun next w' => held next (w_store w') /\ exists t, next = bump t r) w.
Proof.
  intros Hg Hd. eapply (quietly_bind _ _
    (fun next w' => held next (w_store w') /\ exists t, next = bump t r)).
  - apply (quietly_store _ (fun next s => held next s /\ exists t, next = bump t r)); [done|].
    intros s env Hgs He. apply update_good; [done|]. by eapply derived_evolves.
  - intros next w' Hq [Hh Ht]. eapply quietly_bind.
    { by apply (quietly_observe (O_write next)); [eapply quiet_good|]. }
    intros [] w'' Hq' _. apply quietly_ret; [by eapply quiet_good|].
    split; [|done]. eapply held_evolves; [done|]. by apply quiet_evolves.
Qed.

Lemma quietly_insert r w :
  good (w_store w) -> job_ok r -> is_u64 (pr_version r) ->
  quietly (on_store (insert_record r))
    (fun _ w' => view (w_store w') !! pr_id r = Some r) w.
Proof.
  intros Hg Hr Hv. apply (quietly_store _ (fun _ s => view s !! pr_id r = Some r)); [done|].
  intros s env Hgs _. apply (wp_mono _ _ _ _ (insert_law r env s (proj1 Hgs) Hv)).
  intros res s' [Hok' Hres]. destruct res as [[]|er].
  - destruct Hres as [Hn Hv']. split; [split; [done|]|split].
    + intros id r'. rewrite Hv', lookup_insert_Some.
      intros [[_ <-]|[_ Hr']]; [done|]. by eapply Hgs.
    + by eapply evolves_insert.
    + rewrite Hv'. apply lookup_insert_eq.
  - split; [split; [done|by rewrite Hres; apply Hgs]|]. split; [by apply evolves_view|done].
Qed.

(** *** Sending *)

Lemma update_trace r w next w' :
  store_update r w = (Ok next, w') -> w_trace w' = w_trace w ++ [O_write next].
Proof.
  unfold store_update, m_bind, on_store, observe, m_ret.
  destruct (env_store (w_env w)) as [env n].
  destruct (update_record r env _) as [[nx|er] s']; [|done]. by intros [= <- <-].
Qed.

(** The receipt of a broadcast, applied and stored. *)
Lemma quietly_apply_receipt next p tx w :
  good (w_store w) -> held next (w_store w) -> pr_pending next = Some p ->
  pd_amount p = ChainCall_amount (pt_call tx) ->
  quietly (let! finalized := outside (rpc_broadcast tx) in
           let! applied := m_lift (apply next (ft_tx finalized) (ft_summary finalized)) in
           let! _ := store_update applied in
           m_ret true) (fun _ _ => True) w.
Proof.
  intros Hg Hh Hp Ham. eapply quietly_bind; [by apply quietly_outside|].
  intros ft w1 Hq1 Hft. cbn beta in Hft. apply broadcast_law in Hft.
  pose proof (quiet_good _ _ Hq1) as Hg1.
  eapply quietly_bind; [by apply quietly_lift|]. intros applied w2 Hq2 Ha.
  pose proof (quiet_good _ _ Hq2) as Hg2.
  assert (Hd : derived applied (w_store w2)).
  { apply (derived_micro next); [|by eapply (mi_apply next p); [..|exact Ha]; [|congruence]].
    apply held_derived. eapply held_evolves; [exact Hh|].
    by etrans; apply quiet_evolves. }
  eapply quietly_bind; [by apply quietly_update|]. intros x w3 Hq3 _.
  apply quietly_ret; [by eapply quiet_good|done].
Qed.

Lemma sending_journaled r p tx signer w :
  good (w_store w) -> derived (r <| pr_pending := Some p |>) (w_store w) ->
  journal_matches p tx -> pt_signer tx = ss58 signer ->
  authorised e r (pd_action p) (pt_call tx) signer ->
  sending (let! next := store_update (r <| pr_pending := Some p |>) in
           let! _ := observe (O_broadcast tx) in
           let! finalized := outside (rpc_broadcast tx) in
           let! applied := m_lift (apply next (ft_tx finalized) (ft_summary finalized)) in
           let! _ := store_update applied in
           m_ret true) w.
Proof.
  intros Hg Hd Hm Hs Ha. pose proof (quietly_update _ _ Hg Hd) as Hu.
  unfold sending, quietly, wp in *. unfold m_bind at 1.
  destruct (store_update _ w) as [[next|er] w1] eqn:Hst; cbn [fst snd] in Hu;
    [|by apply quiet_sent, Hu].
  destruct Hu as [Hq1 [Hh (t & ->)]]. apply update_trace in Hst as Htr.
  unfold m_bind at 1, observe.
  set (next := bump t (r <| pr_pending := Some p |>)) in *.
  set (w2 := mkWorld (w_store w1) (w_env w1) (w_trace w1 ++ [O_broadcast tx])).
  assert (Hq : quietly (let! finalized := outside (rpc_broadcast tx) in
           let! applied := m_lift (apply next (ft_tx finalized) (ft_summary finalized)) in
           let! _ := store_update applied in
           m_ret true) (fun _ _ => True) w2).
  { apply (quietly_apply_receipt next p); [exact (quiet_good _ _ Hq1)|exact Hh|done|apply Hm]. }
  unfold quietly, wp in Hq. destruct (m_bind _ _ w2) as [res w3] eqn:Hrest.
  cbn [fst snd] in *. destruct Hq as [(Hg3 & He3 & u & Hu & Huu) _].
  split; [done|]. split; [etrans; [by apply quiet_evolves|exact He3]|].
  exists ([O_write next] ++ [O_broadcast tx] ++ u).
  split; [rewrite Hu; unfold w2; cbn; by rewrite Htr, <- !app_assoc|].
  pose proof (unsigned_broadcasts u Huu) as Hub. split.
  - apply (sent_journaled e [] next p tx signer u); done.
  - rewrite !broadcasts_app, Hub. by cbn.
Qed.

Lemma sending_send r action call signer w :
  good (w_store w) -> derived r (w_store w) -> pr_quarantined r = None ->
  (forall p, pd_action p = action -> pd_amount p = ChainCall_amount call -> journal_allowed r p) ->
  action_name action = ChainCall_name call ->
  authorised e r action call (Keypair_account_id signer) ->
  sending (send_journaled r action call signer) w.
Proof.
  intros Hg Hd Hq Hj Hn Ha. unfold send_journaled.
  destruct (is_some (pr_pending r)) eqn:Hp.
  { by eapply quietly_sending, (quietly_throw _ (fun _ _ => True)). }
  apply is_some_false in Hp.
  eapply sending_bind; [by apply quietly_reserve|]. intros token w1 Hq1 _.
  pose proof (quiet_good _ _ Hq1) as Hg1.
  assert (Hd1 : derived r (w_store w1)) by (eapply derived_evolves; [done|by apply quiet_evolves]).
  clear dependent w. rename w1 into w, Hg1 into Hg, Hd1 into Hd.
  (* signing a preparation is not a broadcast *)
  assert (Hprep : forall m : Eff bool, (forall w', good (w_store w') -> derived r (w_store w') -> sending m w') ->
            sending (let! _ := observe (O_prepare call (Keypair_account_id signer)) in m) w).
  { intros m Hm. unfold sending, wp in *. unfold m_bind, observe.
    destruct (Hm (mkWorld (w_store w) (w_env w)
      (w_trace w ++ [O_prepare call (Keypair_account_id signer)])) Hg Hd)
      as (Hg' & He' & t & Ht & Htj & Htb).
    split; [done|]. split; [done|]. exists (O_prepare call (Keypair_account_id signer) :: t).
    cbn in Ht. rewrite Ht, <- app_assoc. split; [done|].
    change (?x :: t) with ([x] ++ t). rewrite broadcasts_app. split; [|done].
    apply journaled_app; [by apply no_broadcast_journaled|done]. }
  apply Hprep. clear dependent w. intros w Hg Hd.
  eapply sending_bind; [by eapply quietly_try, quietly_outside|].
  intros [pt|er] w1 Hq1 Hpt; pose proof (quiet_good _ _ Hq1) as Hg1.
  2:{ eapply quietly_sending, quietly_bind; [by apply quietly_cancel|].
      intros u w2 Hq2 _. eapply (quietly_throw _ (fun _ _ => True)), quiet_good; exact Hq2. }
  cbn beta in Hpt. apply prepare_law in Hpt.
  destruct (negb _) eqn:Hs.
  { eapply quietly_sending, quietly_bind; [by apply quietly_cancel|].
    intros u w2 Hq2 _. eapply (quietly_throw _ (fun _ _ => True)), quiet_good; exact Hq2. }
  bool_simpl. assert (Hd1 : derived r (w_store w1))
    by (eapply derived_evolves; [done|by apply quiet_evolves]).
  apply (sending_journaled r _ pt (Keypair_account_id signer)); try done.
  - eapply derived_micro; [exact Hd1|]. apply mi_journal; [done|done|]. by apply Hj.
  - unfold journal_matches. cbn. rewrite Hpt. by repeat split.
  - cbn. by rewrite Hpt.
Qed.

(** *** The steps *)

Lemma derived_quiet r w w' : derived r (w_store w) -> quiet w w' -> derived r (w_store w').
Proof. intros Hd Hq. eapply derived_evolves; [done|by apply quiet_evolves]. Qed.
Lemma held_quiet r w w' : held r (w_store w) -> quiet w w' -> held r (w_store w').
Proof. intros Hd Hq. eapply held_evolves; [done|by apply quiet_evolves]. Qed.
Hint Resolve quiet_good derived_quiet held_quiet held_derived : engine.

Lemma quietly_announce r w : good (w_store w) -> quietly (announce_if_final r) (fun _ _ => True) w.
Proof.
  intros Hg. unfold announce_if_final. destruct (_ || _); [by apply quietly_observe|].
  by apply quietly_ret.
Qed.

(** A write whose result is not used. *)
Lemma quietly_write r {A} (a : A) w :
  good (w_store w) -> derived r (w_store w) ->
  quietly (let! _ := store_update r in m_ret a) (fun _ _ => True) w.
Proof.
  intros Hg Hd. eapply quietly_bind; [by apply quietly_update|].
  intros x w1 Hq1 _. apply quietly_ret; eauto with engine.
Qed.

Lemma quietly_notify r w :
  good (w_store w) -> derived r (w_store w) -> pr_state r = Settled ->
  quietly (notify e r) (fun _ _ => True) w.
Proof.
  intros Hg Hd Hst. unfold notify.
  eapply quietly_bind; [by apply quietly_observe|]. intros [] w1 Hq1 _.
  eapply (quietly_bind _ _ (fun _ _ => True)).
  { destruct (pr_callback_url r), (en_webhook e); try (apply quietly_ret; eauto with engine).
    eapply quietly_bind; [apply quietly_observe; eauto with engine|]. intros [] w2 Hq2 _.
    eapply quietly_bind; [eapply quietly_try, quietly_outside; eauto with engine|].
    intros res w3 Hq3 _. apply quietly_ret; eauto with engine. }
  intros [] w2 Hq2 _.
  - apply quietly_write; [eauto with engine|].
    eapply derived_micro; [|by apply mi_notified]. eauto with engine.
  - eapply quietly_bind; [apply quietly_now; eauto with engine|]. intros t w3 Hq3 _.
    apply quietly_write; [eauto with engine|].
    eapply derived_micro; [|by apply mi_postpone]. eauto with engine.
Qed.

Lemma detected_tao_id r : r <| pr_detected_tao := pr_detected_tao r |> = r.
Proof. by destruct r. Qed.

Lemma quietly_step_pending r positions w :
  good (w_store w) -> derived r (w_store w) -> pr_state r = Pending -> pr_pending r = None ->
  quietly (step_pending r positions) (fun _ _ => True) w.
Proof.
  intros Hg Hd Hst Hp. unfold step_pending.
  eapply quietly_bind; [by apply quietly_lift|]. intros who w1 Hq1 _.
  set (alpha := match positions !! who with Some _ => _ | None => _ end). clearbody alpha.
  eapply (quietly_bind _ _ (fun _ _ => True)).
  { destruct (is_some (pr_min_tao r)).
    - eapply quietly_mono; [apply quietly_outside; eauto with engine|done].
    - apply quietly_ret; eauto with engine. }
  intros tao w2 Hq2 _. assert (Hd2 : derived r (w_store w2)) by eauto with engine.
  destruct (_ || _) eqn:Hpaid.
  - eapply quietly_bind; [apply quietly_lift; eauto with engine|]. intros r' w3 Hq3 Ht.
    apply quietly_write; [eauto with engine|].
    eapply derived_micro; [|eapply mi_advance; [|..|exact Ht]]; [|done|].
    + eapply derived_quiet; [|exact Hq3]. eapply derived_micro; [exact Hd2|].
      apply mi_observe; auto.
    + unfold advance_guard. pr_cbn. rewrite Hst.
      apply orb_true_iff in Hpaid as [Hpaid|Hpaid]; [left; by bool_simpl|right].
      rewrite Hpaid. destruct (pr_min_tao r) as [m|]; [|done]. bool_simpl. eauto.
  - eapply quietly_bind; [apply quietly_now; eauto with engine|]. intros t w3 Hq3 _.
    destruct (_ <? t); [|apply quietly_ret; eauto with engine].
    eapply quietly_bind; [apply quietly_lift; eauto with engine|]. intros r' w4 Hq4 Ht.
    assert (Hd4 : derived r' (w_store w4)).
    { eapply derived_micro; [|eapply mi_advance; [|..|exact Ht]]; [|done|].
      - eapply derived_quiet; [|exact Hq4]. eapply derived_quiet; [|exact Hq3].
        rewrite <- (detected_tao_id (r <| pr_detected_alpha := alpha |>)).
        eapply derived_micro; [exact Hd2|]. apply mi_observe; auto.
      - unfold advance_guard. pr_cbn. by rewrite Hst. }
    eapply quietly_bind; [apply quietly_update; eauto with engine|]. intros next w5 Hq5 _.
    eapply quietly_bind; [apply quietly_announce; eauto with engine|]. intros [] w6 Hq6 _.
    apply quietly_ret; eauto with engine.
Qed.

Lemma quietly_sweep_floor netuid w :
  good (w_store w) -> quietly (sweep_floor e netuid) (fun _ _ => True) w.
Proof.
  intros Hg. eapply quietly_bind; [by apply quietly_outside|]. intros price w1 Hq1 _.
  apply quietly_ret; eauto with engine.
Qed.

Lemma quietly_estimate netuid kp pos fees w :
  good (w_store w) -> quietly (estimate_fees e netuid kp pos fees) (fun _ _ => True) w.
Proof.
  revert fees w. induction pos as [|p pos IH]; intros fees w Hg; [by apply quietly_ret|].
  cbn [estimate_fees]. eapply quietly_bind; [by apply quietly_outside|]. intros fee w1 Hq1 _.
  apply IH. eauto with engine.
Qed.

Lemma wallet_address r w : wallet e r = Ok w -> ss58 (PaymentWallet_account_id w) = pr_address r.
Proof.
  unfold wallet. intros Hw. apply result_bind_ok in Hw as (w' & _ & Hw).
  destruct (negb _) eqn:Hn; [done|]. bool_simpl. by injection Hw as <-.
Qed.

Lemma derived_observe r s alpha :
  derived r s -> pr_state r = Detected -> pr_pending r = None -> pr_detected_alpha r <= alpha ->
  derived (r <| pr_detected_alpha := alpha |>) s.
Proof.
  intros Hd Hst Hp Ha. rewrite <- (detected_tao_id (r <| pr_detected_alpha := alpha |>)).
  eapply derived_micro; [exact Hd|]. apply mi_observe; auto.
Qed.

Lemma sending_step_detected r w :
  good (w_store w) -> derived r (w_store w) -> pr_state r = Detected -> pr_pending r = None ->
  pr_quarantined r = None -> sending (step_detected e r) w.
Proof.
  intros Hg Hd Hst Hp Hqu. unfold step_detected.
  eapply sending_bind; [by apply quietly_lift|]. intros wl w1 Hq1 Hw. apply wallet_address in Hw.
  eapply sending_bind; [apply quietly_outside; eauto with engine|]. intros [alpha pos] w2 Hq2 _.
  eapply sending_bind; [apply quietly_outside; eauto with engine|]. intros [free nonce] w3 Hq3 _.
  assert (Hd3 : derived (r <| pr_detected_alpha := Z.max (pr_detected_alpha r) alpha |>) (w_store w3))
    by (apply derived_observe; eauto with engine; lia).
  assert (Hg3 : good (w_store w3)) by eauto with engine.
  set (r1 := r <| pr_detected_alpha := _ |>) in *.
  assert (Hr1 : pr_state r1 = Detected /\ pr_pending r1 = None /\ pr_quarantined r1 = None /\
                pr_address r1 = pr_address r) by done.
  clearbody r1. clear dependent w w1 w2. destruct Hr1 as (Hst1 & Hp1 & Hqu1 & Ha1).
  eapply sending_bind; [by apply quietly_sweep_floor|]. intros floor w4 Hq4 _.
  eapply sending_bind; [apply quietly_estimate; eauto with engine|]. intros fees w5 Hq5 _.
  eapply sending_bind; [apply quietly_outside; eauto with engine|]. intros ed w6 Hq6 _.
  assert (Hd6 : derived r1 (w_store w6)) by eauto with engine.
  set (need := match pos with [] => 0 | _ => _ end). clearbody need.
  destruct (need =? 0) eqn:Hneed; bool_simpl.
  - eapply sending_bind; [apply quietly_lift; eauto with engine|]. intros r' w7 Hq7 Ht.
    eapply quietly_sending, quietly_write; [eauto with engine|].
    eapply derived_micro; [|eapply mi_advance; [done| |exact Ht]].
    + eauto with engine.
    + unfold advance_guard. by rewrite Hst1.
  - apply sending_send; try done; [eauto with engine|..].
    + intros p Hact Ham. unfold journal_allowed. rewrite Hact, Ham. by split.
    + split; [done|]. eexists _, _. split; [done|]. congruence.
Qed.

Lemma sending_step_funded r w :
  good (w_store w) -> derived r (w_store w) -> pr_state r = Funded -> pr_pending r = None ->
  pr_quarantined r = None -> sending (step_funded e r) w.
Proof.
  intros Hg Hd Hst Hp Hqu. unfold step_funded.
  eapply sending_bind; [by apply quietly_lift|]. intros wl w1 Hq1 Hw. apply wallet_address in Hw.
  eapply sending_bind; [apply quietly_outside; eauto with engine|]. intros [alpha pos] w2 Hq2 _.
  eapply sending_bind; [apply quietly_sweep_floor; eauto with engine|]. intros floor w3 Hq3 _.
  assert (Hd3 : derived r (w_store w3)) by eauto with engine.
  destruct (List.find _ pos) as [p|] eqn:Hf.
  - apply find_some in Hf as [_ Hf]. bool_simpl.
    apply sending_send; try done; [eauto with engine|..].
    + intros q Hact Ham. unfold journal_allowed. by rewrite Hact.
    + split; [done|]. by eexists _, _.
  - eapply sending_bind; [apply quietly_lift; eauto with engine|]. intros r' w4 Hq4 Ht.
    eapply quietly_sending, quietly_write; [eauto with engine|].
    eapply derived_micro; [|eapply mi_advance; [done| |exact Ht]].
    + eauto with engine.
    + unfold advance_guard. by rewrite Hst.
Qed.

(** A job in its last working stage, ready to act. *)
Definition ready (r : PaymentRecord) : Prop :=
  pr_state r = Swept /\ pr_pending r = None /\ pr_quarantined r = None.

(** [m] either made its one broadcast, or goes on with a derived record. *)
Definition staging (m : Eff (option bool * PaymentRecord)) (w : W) : Prop :=
  wp m (fun res w' => match res with
                      | Ok (None, r) => quiet w w' /\ derived r (w_store w') /\ ready r
                      | _ => sent w w'
                      end) w.

Lemma staging_bind {A} (m : Eff A) k P w :
  quietly m P w -> (forall a w', quiet w w' -> P a w' -> staging (k a) w') ->
  staging (m_bind m k) w.
Proof.
  unfold quietly, staging. intros Hm Hk. apply wp_bind. apply (wp_mono _ _ _ _ Hm).
  intros [a|er] w' [Hq HP]; [|by apply quiet_sent].
  apply (wp_mono _ _ _ _ (Hk _ _ Hq HP)).
  intros [[[b|] r]|er'] w'' Hs; try by eapply quiet_then_sent.
  destruct Hs as (Hq' & Hd & Hr). split; [by eapply quiet_trans|done].
Qed.

Lemma staging_send (m : Eff bool) r w :
  sending m w -> staging (let! changed := m in m_ret (Some changed, r)) w.
Proof.
  unfold sending, staging. intros Hm. apply wp_bind. apply (wp_mono _ _ _ _ Hm).
  intros [a|er] w' Hs; [by apply wp_ret|done].
Qed.

Lemma staging_ret r w :
  good (w_store w) -> derived r (w_store w) -> ready r -> staging (m_ret (None, r)) w.
Proof. intros Hg Hd Hr. apply wp_ret. split; [by apply quiet_refl|done]. Qed.

Lemma staging_then m (k : PaymentRecord -> Eff bool) w :
  staging m w ->
  (forall r w', good (w_store w') -> derived r (w_store w') -> ready r -> sending (k r) w') ->
  sending (let! (sent, r) := m in
           match sent with Some changed => m_ret changed | None => k r end) w.
Proof.
  unfold sending, staging. intros Hm Hk. apply wp_bind. apply (wp_mono _ _ _ _ Hm).
  intros [[[b|] r]|er] w' Hs; [by apply wp_ret| |done].
  destruct Hs as (Hq & Hd & Hr). apply (wp_mono _ _ _ _ (Hk r w' (quiet_good _ _ Hq) Hd Hr)).
  intros res w'' Hs. by eapply quiet_then_sent.
Qed.

Lemma staging_consolidate fuel r w :
  good (w_store w) -> derived r (w_store w) -> ready r ->
  staging (consolidate_loop e fuel r) w.
Proof.
  revert r w. induction fuel as [|fuel IH]; intros r w Hg Hd Hr; [by apply staging_ret|].
  cbn [consolidate_loop]. destruct Hr as (Hst & Hp & Hqu).
  destruct (pr_swept_positions r !! _) as [[hotkey a]|] eqn:Hl; [|by apply staging_ret].
  eapply staging_bind; [by apply quietly_lift|]. intros hk w1 Hq1 Hhk.
  eapply (staging_bind _ _ (fun _ _ => True)).
  { case_bool_decide; [apply quietly_ret; eauto with engine|].
    eapply quietly_mono; [apply quietly_outside; eauto with engine|done]. }
  intros live w2 Hq2 _. assert (Hd2 : derived r (w_store w2)) by eauto with engine.
  destruct (live =? 0).
  - eapply staging_bind.
    { apply quietly_update; [eauto with engine|]. eapply derived_micro; [exact Hd2|].
      by eapply mi_skip. }
    intros next w3 Hq3 [Hh (t & ->)]. apply IH; eauto with engine. done.
  - apply staging_send, sending_send; try done; [eauto with engine|..].
    + intros p Hact Ham. unfold journal_allowed. rewrite Hact. cbn beta in Hhk. eauto 8.
    + split; [done|]. by eexists _, _.
Qed.

Lemma staging_return_dust r w :
  good (w_store w) -> derived r (w_store w) -> ready r -> staging (return_dust e r) w.
Proof.
  intros Hg Hd (Hst & Hp & Hqu). unfold return_dust.
  destruct (_ && _) eqn:Hdust; [|by apply staging_ret].
  apply andb_true_iff in Hdust as [Hdr _]. apply negb_true_iff in Hdr.
  eapply staging_bind; [by apply quietly_lift|]. intros wl w1 Hq1 Hw. apply wallet_address in Hw.
  eapply staging_bind; [apply quietly_outside; eauto with engine|]. intros free w2 Hq2 _.
  assert (Hd2 : derived r (w_store w2)) by eauto with engine.
  destruct (0 <? free).
  - apply staging_send, sending_send; try done; [eauto with engine|].
    intros p Hact Ham. unfold journal_allowed. by rewrite Hact.
  - apply staging_ret; [eauto with engine| |done].
    eapply derived_micro; [exact Hd2|]. by apply mi_dust.
Qed.

Lemma sending_auto_buyback r w :
  good (w_store w) -> derived r (w_store w) -> ready r ->
  pr_auto_required r = Some true -> pr_buyback_done r = false ->
  sending (step_auto_buyback e r) w.
Proof.
  intros Hg Hd (Hst & Hp & Hqu) Hreq Hdone. unfold step_auto_buyback.
  pose proof (derived_ok _ _ Hd) as Hok.
  eapply sending_bind; [by apply quietly_lift|]. intros b w1 Hq1 Hb. apply ok_or_ok in Hb.
  eapply sending_bind; [apply quietly_lift; eauto with engine|]. intros [] w2 Hq2 Hval.
  cbn beta in Hval. cbn zeta.
  destruct (pr_buyback r) as [rc|] eqn:Hrc.
  - destruct (_ || _); [eapply quietly_sending, (quietly_throw _ (fun _ _ => True)); eauto with engine|].
    destruct (_ =? 0); [eapply quietly_sending, (quietly_throw _ (fun _ _ => True)); eauto with engine|].
    destruct (_ && _); [eapply quietly_sending, (quietly_throw _ (fun _ _ => True)); eauto with engine|].
    destruct (_ || _) eqn:Hg3.
    + eapply quietly_sending, quietly_write; [eauto with engine|].
      eapply derived_micro; [|apply mi_done; [done..|]]; [eauto with engine|].
      exists rc, b. split_and!; try done.
      apply orb_true_iff in Hg3 as [Hg3|Hg3]; [left; by bool_simpl|by right].
    + apply orb_false_iff in Hg3 as [Hk Hdt]. bool_simpl.
      apply is_some_false in Hdt.
      eapply sending_bind; [apply quietly_lift; eauto with engine|]. intros hk w3 Hq3 Hhk.
      cbn beta in Hhk. apply sending_send; try done; [eauto with engine..| | |].
      * intros p Hact Ham. unfold journal_allowed. rewrite Hact. split_and!; try done.
        exists b, rc. split_and!; try done. rewrite Ham. by destruct (bb_destroy b).
      * by destruct (bb_destroy b).
      * split; [done|]. by exists b, rc, hk.
  - eapply sending_bind.
    { unfold spendable. eapply quietly_bind; [apply quietly_outside; eauto with engine|].
      intros free w3 Hq3 _. eapply quietly_bind; [apply quietly_outside; eauto with engine|].
      intros ed w4 Hq4 _. apply (quietly_ret _ (fun _ _ => True)); eauto with engine. }
    intros avail w3 Hq3 _.
    eapply sending_bind; [apply quietly_lift; eauto with engine|]. intros tao w4 Hq4 Htao.
    assert (tao = bb_amount_rao b) as ->.
    { cbn beta in Htao. unfold strict_buyback_amount in Htao.
      destruct (_ <? _); [done|]. destruct (_ <? _); [done|]. by injection Htao. }
    eapply sending_bind; [apply quietly_outside; eauto with engine|]. intros price w5 Hq5 _.
    eapply sending_bind; [apply quietly_lift; eauto with engine|]. intros hk w6 Hq6 Hhk.
    cbn beta in Hhk. apply sending_send; try done; [eauto 10 with engine..| |].
    + intros p Hact Ham. unfold journal_allowed. rewrite Hact. split_and!; try done.
      exists b. by split_and!.
    + split; [done|]. by exists b, hk.
Qed.

Lemma sending_settle r w :
  good (w_store w) -> derived r (w_store w) -> ready r -> sending (settle e r) w.
Proof.
  intros Hg Hd Hr. pose proof Hr as (Hst & Hp & Hqu). unfold settle.
  eapply sending_bind; [by apply quietly_lift|]. intros required w1 Hq1 Hreq.
  apply ok_or_ok in Hreq.
  destruct (_ && _) eqn:Hg1;
    [eapply quietly_sending, (quietly_throw _ (fun _ _ => True)); eauto with engine|].
  eapply sending_bind; [apply quietly_lift; eauto with engine|]. intros [] w2 Hq2 Hval.
  destruct (required && negb _) eqn:Hg2.
  - apply andb_true_iff in Hg2 as [-> Hdone]. apply negb_true_iff in Hdone.
    apply sending_auto_buyback; eauto with engine.
  - eapply sending_bind; [apply quietly_lift; eauto with engine|]. intros r' w3 Hq3 Ht.
    cbn beta in *. assert (Hd3 : derived r' (w_store w3)).
    { eapply derived_micro; [|eapply mi_advance; [done| |exact Ht]]; [eauto with engine|].
      unfold advance_guard. rewrite Hst. exists required. split; [done|]. intros ->.
      cbn in Hg2. apply negb_false_iff in Hg2. split; [done|]. by rewrite Hg2 in Hval. }
    apply transition_inv in Ht as (_ & _ & Hst' & _).
    eapply sending_bind; [apply quietly_update; eauto with engine|].
    intros next w4 Hq4 [Hh (t & ->)].
    eapply sending_bind; [apply quietly_notify; eauto with engine|]. intros [] w5 Hq5 _.
    eapply quietly_sending, (quietly_ret _ (fun _ _ => True)); eauto with engine.
Qed.

Lemma sending_step_swept r w :
  good (w_store w) -> derived r (w_store w) -> ready r -> sending (step_swept e r) w.
Proof.
  intros Hg Hd Hr. unfold step_swept. apply staging_then.
  - destruct (cfg_consolidate _); [by apply staging_consolidate|by apply staging_ret].
  - intros r1 w1 Hg1 Hd1 Hr1. apply staging_then; [by apply staging_return_dust|].
    apply sending_settle.
Qed.

Lemma applied_included_micro r p hash summary n t :
  pr_pending r = Some p -> micro r (applied_included r p hash summary n t).
Proof.
  intros Hp. unfold applied_included. destruct (es_failed summary); [by eapply mi_tx_failed|].
  destruct (apply r _ summary) as [r'|er] eqn:Ha.
  - by eapply (mi_apply r p); [..|exact Ha].
  - by eapply mi_quarantine; [..|exact Ha].
Qed.

Lemma quietly_resolve r p w :
  good (w_store w) -> derived r (w_store w) ->
  quietly (resolve_pending e r p) (fun _ _ => True) w.
Proof.
  intros Hg Hd. unfold resolve_pending. eapply (quietly_bind _ _ (fun _ _ => True)).
  - unfold reconcile_journaled. destruct (negb _) eqn:Hp; [by apply quietly_throw|]. bool_simpl.
    eapply quietly_bind; [by apply quietly_outside|]. intros outcome w1 Hq1 _.
    destruct outcome as [| |block_hash summary].
    + apply quietly_ret; eauto with engine.
    + eapply quietly_bind.
      { apply quietly_update; [eauto with engine|].
        eapply derived_micro; [|by eapply mi_drop]. eauto with engine. }
      intros next w2 Hq2 _. apply quietly_ret; eauto with engine.
    + eapply quietly_bind; [apply quietly_now; eauto with engine|]. intros t w2 Hq2 _.
      assert (Hd2 : derived r (w_store w2)) by eauto with engine.
      eapply quietly_bind.
      { apply quietly_update; [eauto with engine|].
        by eapply derived_micro; [exact Hd2|apply applied_included_micro]. }
      intros next w3 Hq3 _. apply quietly_ret; eauto with engine.
  - intros [changed r'] w1 Hq1 _. eapply (quietly_bind _ _ (fun _ _ => True)).
    + destruct changed; [apply quietly_announce|apply quietly_ret]; eauto with engine.
    + intros [] w2 Hq2 _. apply quietly_ret; eauto with engine.
Qed.

Lemma quietly_step_failed id er w :
  good (w_store w) -> quietly (step_failed e id er) (fun _ _ => True) w.
Proof.
  intros Hg. unfold step_failed. eapply quietly_bind; [by apply quietly_get|].
  intros cur w1 Hq1 Hh. cbn beta in Hh.
  destruct (is_some _) eqn:Hp; [apply quietly_throw; eauto with engine|].
  apply is_some_false in Hp.
  eapply quietly_bind; [apply quietly_now; eauto with engine|]. intros t w2 Hq2 _.
  eapply quietly_bind.
  { apply quietly_update; [eauto with engine|].
    eapply (derived_micro cur); [eauto with engine|by apply mi_failure]. }
  intros next w3 Hq3 _.
  eapply quietly_bind; [apply quietly_announce; eauto with engine|]. intros [] w4 Hq4 _.
  apply quietly_throw; eauto with engine.
Qed.

(** A guarded step: its failure is recorded quietly. *)
Lemma sending_guarded id (body : Eff bool) w :
  sending body w ->
  sending (let! res := m_try body in
           match res with
           | Ok changed => m_ret changed
           | Err (Error_Conflict id) => m_throw (Error_Conflict id)
           | Err err => step_failed e id err
           end) w.
Proof.
  unfold sending. intros Hb. apply wp_bind, wp_try. apply (wp_mono _ _ _ _ Hb).
  intros res w1 Hs. assert (Hg1 : good (w_store w1)) by apply Hs.
  assert (Hf : forall er, wp (step_failed e id er) (fun _ w' => sent w w') w1).
  { intros er. pose proof (quietly_step_failed id er w1 Hg1) as Hq. unfold quietly in Hq.
    apply (wp_mono _ _ _ _ Hq). intros res' w2 [Hq2 _]. by eapply sent_then_quiet. }
  destruct res as [b|[]]; try apply Hf; [by apply wp_ret|by apply wp_throw].
Qed.

Lemma sending_step r positions w :
  good (w_store w) -> held r (w_store w) -> sending (step e r positions) w.
Proof.
  intros Hg Hh. pose proof (held_derived _ _ Hh) as Hd. unfold step.
  destruct (negb _); [by eapply quietly_sending, (quietly_throw _ (fun _ _ => True))|].
  destruct (is_some _) eqn:Hqu;
    [by eapply quietly_sending, (quietly_ret _ (fun _ _ => True))|apply is_some_false in Hqu].
  destruct (_ && _); [by eapply quietly_sending, (quietly_throw _ (fun _ _ => True))|].
  destruct (pr_pending r) as [p|] eqn:Hp; [by eapply quietly_sending, quietly_resolve|].
  destruct (pr_state r) eqn:Hst.
  - by eapply quietly_sending, quietly_step_pending.
  - by apply sending_guarded, sending_step_detected.
  - by apply sending_guarded, sending_step_funded.
  - by apply sending_guarded, sending_step_swept.
  - eapply quietly_sending, quietly_bind; [by apply quietly_notify|]. intros [] w1 Hq1 _.
    eapply (quietly_ret _ (fun _ _ => True)); eauto with engine.
  - by eapply quietly_sending, (quietly_ret _ (fun _ _ => True)).
  - by eapply quietly_sending, (quietly_ret _ (fun _ _ => True)).
Qed.

(** *** The driver and the operators *)

(** [w'] follows [w], every broadcast journaled. *)
Definition follows (w w' : W) : Prop :=
  good (w_store w') /\ evolves (w_store w) (w_store w') /\
  exists t, w_trace w' = w_trace w ++ t /\ journaled e t.

Lemma sent_follows w w' : sent w w' -> follows w w'.
Proof. intros (Hg & He & t & Ht & Hj & _). split; [done|]. split; [done|]. by exists t. Qed.

Lemma follows_trans a b c : follows a b -> follows b c -> follows a c.
Proof.
  intros (_ & Hab & t & Ht & Htj) (Hg & Hbc & u & Hu & Huj). split; [done|].
  split; [by etrans|]. exists (t ++ u). rewrite Hu, Ht, app_assoc.
  split; [done|]. by apply journaled_app.
Qed.

Lemma follows_tick_loop positions t recs n w :
  good (w_store w) -> (forall r, r ∈ recs -> held r (w_store w)) ->
  wp (tick_loop e positions t recs n) (fun _ w' => follows w w') w.
Proof.
  revert n w. induction recs as [|r recs IH]; intros n w Hg Hh; cbn [tick_loop].
  { apply wp_ret, sent_follows, quiet_sent. by apply quiet_refl. }
  destruct (tick_skips t r).
  { apply IH; [done|]. intros r' Hr'. apply Hh. by right. }
  apply wp_bind, wp_try.
  assert (Hs : sending (step e r positions) w) by (apply sending_step; [done|]; apply Hh; by left).
  unfold sending in Hs. apply (wp_mono _ _ _ _ Hs). intros res w1 Hs1.
  assert (Hg1 : good (w_store w1)) by apply Hs1.
  assert (Hh1 : forall r', r' ∈ recs -> held r' (w_store w1)).
  { intros r' Hr'. eapply held_evolves; [apply Hh; by right|]. apply Hs1. }
  assert (Hk : forall n', wp (tick_loop e positions t recs n') (fun _ w' => follows w w') w1).
  { intros n'. apply (wp_mono _ _ _ _ (IH n' w1 Hg1 Hh1)). intros res' w2 Hf.
    eapply follows_trans; [by apply sent_follows|done]. }
  destruct res as [[]|]; apply Hk.
Qed.

(** A quiet computation, then one that follows. *)
Lemma follows_bind {A B} (m : Eff A) (k : A -> Eff B) P w :
  quietly m P w -> (forall a w', quiet w w' -> P a w' -> wp (k a) (fun _ w'' => follows w' w'') w') ->
  wp (m_bind m k) (fun _ w' => follows w w') w.
Proof.
  unfold quietly. intros Hm Hk. apply wp_bind. apply (wp_mono _ _ _ _ Hm).
  intros [a|er] w' [Hq HP]; [|by apply sent_follows, quiet_sent].
  apply (wp_mono _ _ _ _ (Hk _ _ Hq HP)). intros res w'' Hf.
  eapply follows_trans; [by apply sent_follows, quiet_sent|done].
Qed.

Lemma follows_tick w : good (w_store w) -> wp (tick e) (fun _ w' => follows w w') w.
Proof.
  intros Hg. unfold tick. eapply follows_bind; [by apply quietly_list|].
  intros recs w1 Hq1 Hh. cbn beta in Hh.
  eapply follows_bind; [apply quietly_now; eauto with engine|]. intros t w2 Hq2 _.
  eapply (follows_bind _ _ (fun _ _ => True)).
  { destruct (omap _ _).
    - apply quietly_ret; eauto with engine.
    - eapply quietly_mono; [apply quietly_outside; eauto with engine|done]. }
  intros positions w3 Hq3 _. apply follows_tick_loop; eauto with engine.
Qed.

Lemma follows_blocks blocks w :
  good (w_store w) -> wp (follow_blocks e blocks) (fun _ w' => follows w w') w.
Proof.
  revert w. induction blocks as [|[b|er] blocks IH]; intros w Hg; cbn [follow_blocks];
    try by apply wp_ret, sent_follows, quiet_sent, quiet_refl.
  apply wp_bind, wp_try. apply (wp_mono _ _ _ _ (follows_tick w Hg)). intros res w1 Hf.
  apply (wp_mono _ _ _ _ (IH w1 (proj1 Hf))). intros res' w2 Hf2. by eapply follows_trans.
Qed.

Lemma follows_run sessions w :
  good (w_store w) -> wp (run e sessions) (fun _ w' => follows w w') w.
Proof.
  revert w. induction sessions as [|session sessions IH]; intros w Hg; cbn [run];
    [by apply wp_ret, sent_follows, quiet_sent, quiet_refl|].
  assert (Hone : wp (match session with Ok blocks => follow_blocks e blocks | Err _ => m_ret tt end)
                   (fun _ w' => follows w w') w).
  { destruct session as [blocks|er]; [by apply follows_blocks|].
    by apply wp_ret, sent_follows, quiet_sent, quiet_refl. }
  apply wp_bind, (wp_mono _ _ _ _ Hone). intros [[]|er] w1 Hf; [|done].
  apply (wp_mono _ _ _ _ (IH w1 (proj1 Hf))). intros res' w2 Hf2. by eapply follows_trans.
Qed.

Lemma quietly_resume r to w :
  good (w_store w) -> held r (w_store w) ->
  to = Detected \/ pr_failed_from r = Some to ->
  quietly (let! r := m_lift (transition r to) in
           let! r := store_update r in
           m_ret (status r)) (fun _ _ => True) w.
Proof.
  intros Hg Hh Hto. eapply quietly_bind; [by apply quietly_lift|]. intros r' w1 Hq1 Ht.
  cbn beta in Ht. eapply quietly_bind.
  { apply quietly_update; [eauto with engine|].
    eapply (derived_micro r); [eauto with engine|by eapply mi_resume]. }
  intros next w2 Hq2 _. apply quietly_ret; eauto with engine.
Qed.

Lemma quietly_retry id w : good (w_store w) -> quietly (retry id) (fun _ _ => True) w.
Proof.
  intros Hg. unfold retry. eapply quietly_bind; [by apply quietly_get|].
  intros r w1 Hq1 Hh. cbn beta in Hh.
  destruct (is_some _); [apply quietly_throw; eauto with engine|].
  apply quietly_resume; [eauto with engine|done|].
  destruct (pr_failed_from r) as [[]|]; auto.
Qed.

Lemma quietly_force_sweep id w : good (w_store w) -> quietly (force_sweep id) (fun _ _ => True) w.
Proof.
  intros Hg. unfold force_sweep. eapply quietly_bind; [by apply quietly_get|].
  intros r w1 Hq1 Hh. cbn beta in Hh. apply quietly_resume; [eauto with engine|done|by left].
Qed.

Lemma new_record_ok id address min_alpha min_tao t expires state sealed metadata cb path :
  state = Pending \/ state = Detected ->
  job_ok (new_record e id address min_alpha min_tao t expires state sealed metadata cb path).
Proof.
  intros Hst. constructor; unfold progress, stage, new_record; cbn; try done.
  - constructor.
  - by destruct Hst as [->| ->].
  - by destruct Hst as [->| ->].
Qed.

Lemma quietly_insert_job r w :
  good (w_store w) -> job_ok r -> is_u64 (pr_version r) ->
  quietly (insert_job e r) (fun _ w' => view (w_store w') !! pr_id r = Some r) w.
Proof.
  intros Hg Hr Hv. unfold insert_job. destruct (_ && _); [by apply quietly_throw|].
  eapply quietly_bind; [by apply quietly_lift|]. intros [] w1 Hq1 _.
  apply quietly_insert; eauto with engine.
Qed.

(** The record [create_payment] stores for a request. *)
Definition created (opts : CreatePayment) (req : PaymentRequest) (r : PaymentRecord) : Prop :=
  exists entropy wl nonce t,
    (exists n, entropy = (env_random 32 n).1) /\ (exists n, nonce = (env_random 24 n).1) /\
    PaymentWallet_generate entropy = Ok wl /\
    rq_address req = ss58 (PaymentWallet_account_id wl) /\
    PaymentWallet_seal_with wl nonce (en_keyring e) (wallet_aad (rq_id req) (rq_address req))
      = Ok (pr_sealed_secret r) /\
    r = new_record e (rq_id req) (rq_address req)
          (default (cfg_min_alpha (en_cfg e)) (cp_min_alpha opts))
          (cfg_min_tao (en_cfg e)) t
          (u64_add t (default (cfg_expiry_secs (en_cfg e)) (cp_expiry_secs opts)))
          Pending (pr_sealed_secret r) (cp_metadata opts)
          (match cp_callback_url opts with
           | Some url => Some url
           | None => cfg_webhook_url (en_cfg e)
           end) None /\
    rq_min_alpha req = pr_min_alpha r /\ rq_expires_at req = pr_expires_at r /\
    rq_netuid req = pr_netuid r /\ rq_min_tao req = pr_min_tao r.

Lemma quietly_create_payment opts w :
  good (w_store w) ->
  quietly (create_payment e opts)
    (fun req w' => exists r, view (w_store w') !! rq_id req = Some r /\ created opts req r) w.
Proof.
  intros Hg. unfold create_payment.
  eapply quietly_bind; [by apply quietly_require|]. intros [] w1 Hq1 _.
  eapply quietly_bind; [apply quietly_sample; eauto with engine|]. intros entropy w2 Hq2 Hent.
  eapply quietly_bind; [apply quietly_lift; eauto with engine|]. intros wl w3 Hq3 Hwl.
  eapply quietly_bind; [apply quietly_sample; eauto with engine|]. intros id w4 Hq4 _.
  eapply quietly_bind; [apply quietly_sample; eauto with engine|]. intros nonce w5 Hq5 Hnon.
  eapply quietly_bind; [apply quietly_lift; eauto with engine|]. intros sealed w6 Hq6 Hseal.
  eapply quietly_bind; [apply quietly_now; eauto with engine|]. intros t w7 Hq7 _.
  eapply quietly_bind; [apply quietly_insert_job; [eauto with engine|..]|].
  { apply new_record_ok. by left. }
  { unfold is_u64, u64_max. cbn. lia. }
  intros [] w8 Hq8 Hv. cbn beta in *. apply quietly_ret; [eauto with engine|].
  eexists. split; [exact Hv|]. exists entropy, wl, nonce, t. by split_and!.
Qed.

Lemma quietly_create_sweep_job id path expected metadata w :
  good (w_store w) ->
  quietly (create_sweep_job e id path expected metadata)
    (fun st w' => exists r wl seed, view (w_store w') !! id = Some r /\ st = status r /\
       en_seed e = Some seed /\ DerivationSeed_wallet seed path = Ok wl /\
       ss58 (PaymentWallet_account_id wl) = expected /\ pr_address r = expected /\
       pr_state r = Detected /\ pr_derivation_path r = Some path /\
       pr_identity r = Some (job_identity e)) w.
Proof.
  intros Hg. unfold create_sweep_job.
  eapply quietly_bind; [by apply quietly_require|]. intros [] w1 Hq1 _.
  eapply quietly_bind; [apply quietly_lift; eauto with engine|]. intros seed w2 Hq2 Hseed.
  eapply quietly_bind; [apply quietly_lift; eauto with engine|]. intros wl w3 Hq3 Hwl.
  destruct (negb _) eqn:Hexp; [apply quietly_throw; eauto with engine|]. bool_simpl.
  eapply quietly_bind; [apply quietly_sample; eauto with engine|]. intros nonce w4 Hq4 _.
  eapply quietly_bind; [apply quietly_lift; eauto with engine|]. intros sealed w5 Hq5 _.
  eapply quietly_bind; [apply quietly_now; eauto with engine|]. intros t w6 Hq6 _.
  eapply quietly_bind; [apply quietly_insert_job; [eauto with engine|..]|].
  { apply new_record_ok. by right. }
  { unfold is_u64, u64_max. cbn. lia. }
  intros [] w7 Hq7 Hv. cbn beta in *. apply ok_or_ok in Hseed.
  apply quietly_ret; [eauto with engine|]. eexists _, wl, seed. split; [exact Hv|]. by split_and!.
Qed.
End Refinement.
