(* ===== verification/ToyNode.v ===== *)
(** A small concrete node, with the laws the engine's theorems assume of one:
    it finalizes every transaction at once.  The witnesses run the engine on it
    over the SQLite store, alone ([alone]). *)
From S2P Require Import Prelude RustStd Types Units Keys State Chain.
From S2P Require Import StoreSpec SqliteStore Engine JobSpec EngineProofs.
From Stdlib Require Import Strings.Byte.
Local Open Scope Z_scope.
Import ToyKeys.

(** The clock, and a counter for nonces, hashes, tokens and ids. *)
Record Node := mkNode {
  node_clock : Z;
  node_count : Z }.

Definition node_step (n : Node) : Node := mkNode (node_clock n) (node_count n + 1).
Definition node_name (prefix : string) (n : Node) : string := prefix +:+ u64_display (node_count n).

Definition account_of (b : Byte.byte) : AccountId32 := mkAccountId32 (replicate 32 b).
Definition toy_treasury : @Keypair toy_crypto := replicate 32 Byte.x54.
Definition toy_hotkey : AccountId32 := account_of Byte.x48.
Definition toy_validator : AccountId32 := account_of Byte.x56.
Definition toy_position : StakePosition := mkStakePosition toy_validator 1 5000000000.

Definition toy_summary (call : ChainCall) : EventSummary :=
  {| es_names := [ChainCall_expected_event call; ("System", "ExtrinsicSuccess")];
     es_failed := false;
     es_stake_added := Some (ChainCall_amount call, 42);
     es_alpha_destroyed := Some (ChainCall_amount call);
     es_stake_moved_tao := None;
     es_transferred := Some (ChainCall_amount call) |}.

Definition answer {A} (a : A) : M Node Error A := m_ret a.

#[export] Instance toy_env : EngineEnv (H := toy_crypto) Node := {|
  genesis_hash := "0xgenesis";
  rpc_free_balance who := answer (if decide (who = account_of Byte.x54) then 10000000000 else 0);
  rpc_account who := answer (0, 0);
  rpc_alpha_on who netuid := answer (5000000000, [toy_position]);
  rpc_alpha_of hotkey coldkey netuid := answer 5000000000;
  rpc_estimate_fee call signer := answer 100000;
  rpc_existential_deposit := answer 500;
  rpc_alpha_price netuid := answer 1000000000;
  rpc_hotkey_owner hotkey := answer (Some (account_of Byte.x54));
  rpc_stake_positions_many l := answer (list_to_map ((fun a => (a, [toy_position])) <$> l));
  rpc_prepare call signer n :=
    (Ok {| pt_call := call; pt_signer := ss58 (@Keypair_account_id toy_crypto signer);
           pt_nonce := node_count n; pt_tx_hash := node_name "0xtx" n;
           pt_birth_block := 10; pt_bytes := [] |}, node_step n);
  rpc_broadcast tx :=
    answer {| ft_tx := {| tx_action := ChainCall_name (pt_call tx); tx_tx_hash := pt_tx_hash tx;
                          tx_block_hash := "0xblock"; tx_amount := ChainCall_amount (pt_call tx) |};
              ft_summary := toy_summary (pt_call tx) |};
  rpc_find_pending p := answer Dead;
  env_now n := (Z.max 0 (node_clock n), mkNode (node_clock n + 1) (node_count n));
  env_random k n := (replicate k Byte.x61, n);
  env_uuid n := (node_name "job-" n, node_step n);
  env_store n := (mkSEnv (node_clock n) (node_name "token-" n) NoFault, node_step n);
  webhook_post secret url st := answer tt |}.

#[export] Instance toy_rpc_laws : RpcLaws (H := toy_crypto) Node.
Proof.
  split.
  - intros call signer n pt n' Heq. cbn in Heq. by injection Heq as <- <-.
  - intros pt n ft n' Heq. cbn in Heq. by injection Heq as <- <-.
Qed.

(** No other process. *)
#[export] Instance alone {St} : Peers Node St := fun _ s => s.
#[export] Instance alone_laws {St} `{!StoreView St} : PeersLaws Node St.
Proof. intros n s Hg. by split. Qed.

(** A purchase of 0.002 TAO on subnet 1, burnt. *)
Definition toy_budget : BuybackBudget :=
  {| bb_amount_rao := 2000000; bb_currency := "TAO"; bb_source := "fees"; bb_netuid := 1;
     bb_destroy := Burn; bb_hotkey := ss58 toy_hotkey |}.

Definition toy_cfg : Config :=
  let c := Config_new "ws://127.0.0.1:9944" 1 toy_hotkey in
  {| cfg_url := cfg_url c; cfg_netuid := cfg_netuid c; cfg_min_alpha := cfg_min_alpha c;
     cfg_min_tao := cfg_min_tao c; cfg_expiry_secs := cfg_expiry_secs c;
     cfg_treasury_hotkey := cfg_treasury_hotkey c; cfg_sweep_dust := cfg_sweep_dust c;
     cfg_consolidate := cfg_consolidate c; cfg_return_dust := cfg_return_dust c;
     cfg_fee_margin_bps := cfg_fee_margin_bps c; cfg_fee_reserve := cfg_fee_reserve c;
     cfg_buyback_netuid := cfg_buyback_netuid c; cfg_slippage_bps := cfg_slippage_bps c;
     cfg_allow_partial := cfg_allow_partial c;
     cfg_auto := AutoBuyback_On Burn AutoAmount_All; cfg_buyback_budget := Some toy_budget;
     cfg_max_attempts := cfg_max_attempts c; cfg_webhook_url := None |}.

Definition toy_engine : @Engine toy_crypto :=
  Engine_new (Keyring_from_master (toy_key Byte.x01)) toy_treasury toy_cfg.

Definition world0 : World Sqlite Node := mkWorld SqliteStore_init (mkNode 1000 1) [].

(** One payment request, then passes over it. *)
Definition world_created : World Sqlite Node :=
  (create_payment toy_engine CreatePayment_default world0).2.
Fixpoint ticks (k : nat) (w : World Sqlite Node) : World Sqlite Node :=
  match k with
  | O => w
  | S k => ticks k (tick toy_engine w).2
  end.
Definition toy_blocks (k : nat) : list (result Error Z) := replicate k (Ok 7).

Lemma world0_good : good (w_store world0).
Proof.
  split; [apply map_Forall_empty|]. intros id r Hr. cbn in Hr.
  by rewrite fmap_empty, lookup_empty in Hr.
Qed.

Lemma world_created_good : good (w_store world_created).
Proof.
  pose proof (quietly_create_payment toy_engine CreatePayment_default world0 world0_good) as Hq.
  unfold quietly, wp in Hq. destruct Hq as [[Hg _] _]. exact Hg.
Qed.

Lemma ticks_good k w : good (w_store w) -> good (w_store (ticks k w)).
Proof.
  revert w. induction k as [|k IH]; intros w Hg; [done|]. cbn [ticks]. apply IH.
  apply (follows_tick toy_engine w Hg).
Qed.

(** The job in a world. *)
Definition toy_id : string := "job-2".
Definition toy_job (w : World Sqlite Node) : option PaymentRecord := view (w_store w) !! toy_id.

(** A whole payment, from the request to the settlement: the states after each
    pass, and the calls broadcast. *)
Example toy_payment_states :
  (fun k => pr_state <$> toy_job (ticks k world_created)) <$> [0; 1; 2; 3; 4; 5; 6; 7; 8]%nat =
  Some <$> [Pending; Detected; Funded; Funded; Swept; Swept; Swept; Swept; Settled].
Proof. vm_compute. reflexivity. Qed.

Example toy_payment_calls :
  omap (fun o => match o with O_broadcast tx => Some (ChainCall_name (pt_call tx)) | _ => None end)
    (w_trace (ticks 8 world_created)) =
  ["transfer_keep_alive"; "transfer_stake"; "move_stake"; "add_stake_limit"; "burn_alpha"].
Proof. vm_compute. reflexivity. Qed.
