(* ===== verification/ChainClient.v ===== *)
(** The node client (src/src/chain.rs, [impl Chain]): queries, the signing and
    broadcasting of a transaction, the search for a journaled transaction, the
    deposits of a block and the archive scan of legacy recovery.

    What the crate calls of [subxt] is the class [NodeApi]; what it relies on,
    that a finalized block is immutable and is what the node answers for its
    number, is the class [FinalizedChain]. *)
From S2P Require Import Prelude RustStd Types Units Keys State Chain StoreSpec Engine JobSpec EngineProofs.
From Stdlib Require Import Strings.Byte.
Local Open Scope Z_scope.

Record RawStakeInfo := mkRawStakeInfo {
  rs_hotkey : AccountId32;
  rs_netuid : Z;
  rs_stake : Z }.

(** A client at a block, its extrinsics, a signed extrinsic and the progress of
    a submitted one; the effectful methods run in the node's world [N]. *)
Class NodeApi `{Runtime} `{Crypto} (N : Type) : Type := {
  AtBlock : Type;
  Extrinsic : Type;
  SignedTx : Type;
  InBlock : Type;
  api_genesis_hash : string;
  at_current_block : M N string AtBlock;
  at_block : Z -> M N string AtBlock;
  block_number : AtBlock -> Z;
  block_hash : AtBlock -> string;
  fetch_events : AtBlock -> M N string (list (result string Event));
  fetch_extrinsics : AtBlock -> M N string (list (result string Extrinsic));
  ext_index : Extrinsic -> Z;
  ext_hash : Extrinsic -> string;
  ext_address_bytes : Extrinsic -> option (list Byte.byte);
  ext_nonce : Extrinsic -> option Z;
  ext_call_data_bytes : Extrinsic -> list Byte.byte;
  ext_events : Extrinsic -> M N string (list (result string Event));
  call_data : AtBlock -> string * string * list Value -> result string (list Byte.byte);
  (** [System.Account]: the free balance and the nonce *)
  try_fetch_account : AtBlock -> AccountId32 -> M N string (option (result string (Z * Z)));
  fetch_owner : AtBlock -> AccountId32 -> M N string (result string AccountId32);
  fetch_moving_price : AtBlock -> Z -> M N string (result string ScaleValue);
  constant_existential_deposit : AtBlock -> result string Z;
  call_stake_info : AtBlock -> AccountId32 -> M N string (list RawStakeInfo);
  call_stake_infos : AtBlock -> list AccountId32 -> M N string (list (AccountId32 * list RawStakeInfo));
  call_current_alpha_price : AtBlock -> Z -> M N string Z;
  call_query_info : AtBlock -> SignedTx -> M N string (list Byte.byte);
  account_nonce : AtBlock -> AccountId32 -> M N string Z;
  (** the parameters are the nonce and the mortality; [None]: the defaults *)
  create_signed : AtBlock -> string * string * list Value -> Keypair -> option (Z * Z) ->
    M N string SignedTx;
  signed_hash : SignedTx -> string;
  signed_encoded : SignedTx -> list Byte.byte;
  (** [submit_and_watch] and [wait_for_finalized] *)
  submit_finalized : AtBlock -> list Byte.byte -> M N string InBlock;
  in_block_hash : InBlock -> string;
  wait_for_success : InBlock -> M N string (list (result string Event)) }.

Definition MORTALITY : Z := 64.

(** One stake credited to a watched coldkey. *)
Record Deposit := mkDeposit {
  dp_block_number : Z;
  dp_block_hash : string;
  dp_extrinsic_index : Z;
  dp_event_index : Z;
  dp_extrinsic_hash : string;
  dp_from : option AccountId32;
  dp_coldkey : AccountId32;
  dp_hotkey : AccountId32;
  dp_netuid : Z;
  dp_alpha : Z;
  dp_tao_value : Z;
  dp_spot_price : Z;
  dp_moving_price : Z }.
Record BlockDeposits := mkBlockDeposits {
  bd_number : Z;
  bd_block_hash : string;
  bd_deposits : list Deposit }.

(** A [StakeAdded] on a watched coldkey: extrinsic, event, coldkey, hotkey, TAO,
    alpha, subnet. *)
Record Hit := mkHit {
  hit_xt : Z;
  hit_event : Z;
  hit_coldkey : AccountId32;
  hit_hotkey : AccountId32;
  hit_tao : Z;
  hit_alpha : Z;
  hit_netuid : Z }.

Section Client.
Context `{Runtime} `{Crypto} `{Ss58} {N : Type} `{!NodeApi N}.

Abbreviation Eff A := (M N Error A).

(** [.map_err(chain_err)]. *)
Definition chain_eff {A} (m : M N string A) : Eff A := fun w =>
  let '(r, w) := m w in (chain_err r, w).

(** ** Queries *)

Definition best_finalized_number : Eff Z :=
  let! at_ := chain_eff at_current_block in
  m_ret (block_number at_).

Definition finalized_head : Eff (Z * string) :=
  let! at_ := chain_eff at_current_block in
  m_ret (block_number at_, block_hash at_).

Definition block_hash_at (number : Z) : Eff (option string) :=
  let! r := m_try (chain_eff (at_block number)) in
  match r with
  | Ok at_ => m_ret (Some (block_hash at_))
  | Err _ => m_ret None
  end.

Definition account_at (at_ : AtBlock) (who : AccountId32) : Eff (Z * Z) :=
  let! v := chain_eff (try_fetch_account at_ who) in
  match v with
  | Some info => m_lift (chain_err info)
  | None => m_ret (0, 0)
  end.

Definition account (who : AccountId32) : Eff (Z * Z) :=
  let! at_ := chain_eff at_current_block in
  account_at at_ who.

Definition free_balance (who : AccountId32) : Eff Z :=
  let! info := account who in
  m_ret info.1.

Definition existential_deposit : Eff Z :=
  let! at_ := chain_eff at_current_block in
  m_lift (chain_err (constant_existential_deposit at_)).

Definition positions_of (raw : list RawStakeInfo) : list StakePosition :=
  (fun r => mkStakePosition (rs_hotkey r) (rs_netuid r) (rs_stake r))
    <$> filter (fun r => 0 < rs_stake r) raw.

Definition stake_positions (coldkey : AccountId32) : Eff (list StakePosition) :=
  let! at_ := chain_eff at_current_block in
  let! raw := chain_eff (call_stake_info at_ coldkey) in
  m_ret (positions_of raw).

Definition alpha_on (coldkey : AccountId32) (netuid : Z) : Eff (Z * list StakePosition) :=
  let! pos := stake_positions coldkey in
  let pos := filter (fun p => sp_netuid p = netuid) pos in
  m_ret (sum_alpha pos, pos).

Definition alpha_of (hotkey coldkey : AccountId32) (netuid : Z) : Eff Z :=
  let! pos := stake_positions coldkey in
  m_ret (sum_alpha (filter (fun p => sp_netuid p = netuid /\ sp_hotkey p = hotkey) pos)).

(** [coldkeys.chunks(64)]; the length is fuel enough. *)
Fixpoint chunks_go (fuel : nat) (l : list AccountId32) : list (list AccountId32) :=
  match fuel, l with
  | O, _ | _, [] => []
  | S fuel, l => take 64 l :: chunks_go fuel (drop 64 l)
  end.
Definition chunks (l : list AccountId32) : list (list AccountId32) := chunks_go (length l) l.

Fixpoint stake_chunks (at_ : AtBlock) (out : gmap AccountId32 (list StakePosition))
  (l : list (list AccountId32)) : Eff (gmap AccountId32 (list StakePosition)) :=
  match l with
  | [] => m_ret out
  | chunk :: l =>
      let! infos := chain_eff (call_stake_infos at_ chunk) in
      stake_chunks at_ (foldl (fun out '(ck, raw) => <[ck := positions_of raw]> out) out infos) l
  end.

Definition stake_positions_many (coldkeys : list AccountId32)
  : Eff (gmap AccountId32 (list StakePosition)) :=
  let! at_ := chain_eff at_current_block in
  stake_chunks at_ ∅ (chunks coldkeys).

Definition alpha_price (netuid : Z) : Eff Z :=
  let! at_ := chain_eff at_current_block in
  chain_eff (call_current_alpha_price at_ netuid).

Definition moving_price_at (at_ : AtBlock) (netuid : Z) : Eff Z :=
  let! v := chain_eff (fetch_moving_price at_ netuid) in
  let! v := m_lift (chain_err v) in
  m_lift (i96f32_to_rao v).

Definition moving_alpha_price (netuid : Z) : Eff Z :=
  let! at_ := chain_eff at_current_block in
  moving_price_at at_ netuid.

(** An owner that is all zeros is the storage's default. *)
Definition hotkey_owner (hotkey : AccountId32) : Eff (option AccountId32) :=
  let! at_ := chain_eff at_current_block in
  let! owner := chain_eff (fetch_owner at_ hotkey) in
  let! owner := m_lift (chain_err owner) in
  m_ret (if bool_decide (acc_bytes owner = replicate 32 Byte.x00) then None else Some owner).

(** ** Signing and sending *)

Definition estimate_fee (call : ChainCall) (signer : Keypair) : Eff Z :=
  let! at_ := chain_eff at_current_block in
  let! tx := chain_eff (create_signed at_ (ChainCall_payload call) signer None) in
  let! out := chain_eff (call_query_info at_ tx) in
  m_lift (decode_partial_fee out).

Definition prepare (call : ChainCall) (signer : Keypair) : Eff PreparedTx :=
  let! at_ := chain_eff at_current_block in
  let who := Keypair_account_id signer in
  let! nonce := chain_eff (account_nonce at_ who) in
  let! tx := chain_eff (create_signed at_ (ChainCall_payload call) signer (Some (nonce, MORTALITY))) in
  m_ret {| pt_call := call; pt_signer := ss58 who; pt_nonce := nonce; pt_tx_hash := signed_hash tx;
           pt_birth_block := block_number at_; pt_bytes := signed_encoded tx |}.

Definition broadcast (p : PreparedTx) : Eff FinalizedTx :=
  let! at_ := chain_eff at_current_block in
  let! in_block := chain_eff (submit_finalized at_ (pt_bytes p)) in
  let hash := in_block_hash in_block in
  let! evs := fun w =>
    let '(r, w) := wait_for_success in_block w in
    (match r with
     | Ok evs => Ok evs
     | Err e => Err (Error_Chain (ChainCall_name (pt_call p) +:+ " failed in " +:+ hash +:+ ": " +:+ e))
     end, w) in
  let! summary := m_lift (EventSummary_from_events evs) in
  let res := {| ft_tx := {| tx_action := ChainCall_name (pt_call p); tx_tx_hash := pt_tx_hash p;
                            tx_block_hash := hash; tx_amount := ChainCall_amount (pt_call p) |};
                ft_summary := summary |} in
  let '(pal, ev) := ChainCall_expected_event (pt_call p) in
  if negb (EventSummary_has summary pal ev) then m_throw (Error_EventMissing ev)
  else m_ret res.

Definition submit (call : ChainCall) (signer : Keypair) : Eff FinalizedTx :=
  let! p := prepare call signer in
  broadcast p.

(** ** Looking for a journaled transaction *)

(** The extrinsics of one block: the outcome when the transaction is there. *)
Fixpoint find_in_block (p : PendingTx) (at_ : AtBlock) (exts : list (result string Extrinsic))
  : Eff (option PendingOutcome) :=
  match exts with
  | [] => m_ret None
  | ext :: exts =>
      let! ext := m_lift (chain_err ext) in
      if bool_decide (ext_hash ext = pd_tx_hash p) then
        let! evs := chain_eff (ext_events ext) in
        let! summary := m_lift (EventSummary_from_events evs) in
        m_ret (Some (Included (block_hash at_) summary))
      else find_in_block p at_ exts
  end.

Fixpoint find_in_blocks (p : PendingTx) (numbers : list Z) : Eff (option PendingOutcome) :=
  match numbers with
  | [] => m_ret None
  | n :: numbers =>
      let! at_ := chain_eff (at_block n) in
      let! exts := chain_eff (fetch_extrinsics at_) in
      let! found := find_in_block p at_ exts in
      match found with
      | Some outcome => m_ret (Some outcome)
      | None => find_in_blocks p numbers
      end
  end.

(** [a..=b]. *)
Definition range_inclusive (a b : Z) : list Z := seqZ a (b - a + 1).

Definition find_pending (p : PendingTx) : Eff PendingOutcome :=
  let! head := best_finalized_number in
  let! horizon := m_lift (ok_or (n ← u64_checked_add (pd_birth_block p) MORTALITY; u64_checked_add n 1)
                            (Error_Chain "transaction mortality overflow")) in
  let! found := find_in_blocks p (range_inclusive (pd_birth_block p) (Z.min head horizon)) in
  match found with
  | Some outcome => m_ret outcome
  | None => m_ret (if horizon <? head then Dead else Wait)
  end.


(** ** Deposits *)

Fixpoint deposit_hits (watched : gset AccountId32) (evs : list (result string Event))
  : Result (list Hit) :=
  match evs with
  | [] => Ok []
  | ev :: evs =>
      let? ev := chain_err ev in
      if negb (bool_decide (ev_pallet ev = PALLET)) || negb (bool_decide (ev_name ev = "StakeAdded"))
      then deposit_hits watched evs
      else
        match ev_phase ev with
        | ApplyExtrinsic xt =>
            let? (coldkey, hotkey, tao, alpha, netuid, _) := chain_err (ev_as_AAu64u64u16u64 ev) in
            let? hits := deposit_hits watched evs in
            Ok (if bool_decide (coldkey ∈ watched)
                then mkHit xt (ev_index ev) coldkey hotkey tao alpha netuid :: hits else hits)
        | _ => deposit_hits watched evs
        end
  end.

(** [hashes]: the hash and the address bytes of each extrinsic, by index. *)
Fixpoint extrinsic_hashes (hashes : gmap Z (string * option (list Byte.byte)))
  (exts : list (result string Extrinsic)) : Result (gmap Z (string * option (list Byte.byte))) :=
  match exts with
  | [] => Ok hashes
  | ext :: exts =>
      let? ext := chain_err ext in
      extrinsic_hashes (<[u32_wrap (ext_index ext) := (ext_hash ext, ext_address_bytes ext)]> hashes) exts
  end.

(** [ok]: the extrinsics that succeeded. *)
Fixpoint successes (evs : list (result string Event)) : Result (gset Z) :=
  match evs with
  | [] => Ok ∅
  | ev :: evs =>
      let? ev := chain_err ev in
      let? ok := successes evs in
      match ev_phase ev with
      | ApplyExtrinsic i =>
          Ok (if bool_decide (ev_pallet ev = "System") && bool_decide (ev_name ev = "ExtrinsicSuccess")
              then {[ i ]} ∪ ok else ok)
      | _ => Ok ok
      end
  end.

(** The deposits of the hits, with the prices of each subnet asked once. *)
Fixpoint price_hits (number : Z) (at_ : AtBlock) (hashes : gmap Z (string * option (list Byte.byte)))
  (ok : gset Z) (prices : gmap Z (Z * Z)) (hits : list Hit) : Eff (list Deposit) :=
  match hits with
  | [] => m_ret []
  | h :: hits =>
      if negb (bool_decide (hit_xt h ∈ ok)) then price_hits number at_ hashes ok prices hits
      else
        let! (spot, moving) :=
          match prices !! hit_netuid h with
          | Some p => m_ret p
          | None =>
              let! spot := chain_eff (call_current_alpha_price at_ (hit_netuid h)) in
              let! moving := moving_price_at at_ (hit_netuid h) in
              m_ret (spot, moving)
          end in
        let '(hash, from) := default (EmptyString, None) (hashes !! hit_xt h) in
        let! rest := price_hits number at_ hashes ok (<[hit_netuid h := (spot, moving)]> prices) hits in
        m_ret (mkDeposit number (block_hash at_) (hit_xt h) (hit_event h) hash (b ← from; signer_of b)
                 (hit_coldkey h) (hit_hotkey h) (hit_netuid h) (hit_alpha h) (hit_tao h) spot moving
                 :: rest)
  end.

Definition deposits_in_block (number : Z) (watched : gset AccountId32) : Eff BlockDeposits :=
  let! at_ := chain_eff (at_block number) in
  let out := mkBlockDeposits number (block_hash at_) in
  if bool_decide (watched = ∅) then m_ret (out [])
  else
    let! events := chain_eff (fetch_events at_) in
    let! hits := m_lift (deposit_hits watched events) in
    match hits with
    | [] => m_ret (out [])
    | _ =>
        let! exts := chain_eff (fetch_extrinsics at_) in
        let! hashes := m_lift (extrinsic_hashes ∅ exts) in
        let! ok := m_lift (successes events) in
        let! deposits := price_hits number at_ hashes ok ∅ hits in
        m_ret (out deposits)
    end.

(** ** The archive scan of legacy recovery *)

Definition archive_bad : Error := Error_Chain "incomplete or inconsistent legacy archive evidence".

(** An extrinsic of one of the two signers against the next transaction of the
    manifest. *)
Definition archive_mismatch (expected : LegacyTransaction) (number : Z) (at_ : AtBlock) (ext : Extrinsic)
  (signer : AccountId32) (nonce : Z) (next_nonces : gmap AccountId32 Z) : bool :=
  negb (lt_block expected =? number)
  || negb (lt_index expected =? ext_index ext)
  || negb (bool_decide (lt_signer expected = ss58 signer))
  || negb (lt_nonce expected =? nonce)
  || negb (bool_decide (next_nonces !! signer = Some nonce))
  || negb (bool_decide (tx_tx_hash (lt_receipt expected) = ext_hash ext))
  || negb (bool_decide (tx_block_hash (lt_receipt expected) = block_hash at_)).

(** The loop over the extrinsics of a block, with the next nonces and the
    summaries so far. *)
Fixpoint archive_block (txs : list LegacyTransaction) (treasury deposit : AccountId32) (number : Z)
  (at_ : AtBlock) (next_nonces : gmap AccountId32 Z) (summaries : list EventSummary)
  (exts : list (result string Extrinsic)) : Eff (gmap AccountId32 Z * list EventSummary) :=
  match exts with
  | [] => m_ret (next_nonces, summaries)
  | ext :: exts =>
      let! ext := m_lift (chain_err ext) in
      match ext_address_bytes ext with
      | None => archive_block txs treasury deposit number at_ next_nonces summaries exts
      | Some address =>
          let! signer := m_lift (ok_or (signer_of address) archive_bad) in
          if negb (bool_decide (signer = treasury)) && negb (bool_decide (signer = deposit))
          then archive_block txs treasury deposit number at_ next_nonces summaries exts
          else
            let! expected := m_lift (ok_or (txs !! length summaries) (Error_Chain
              ("unexplained signer activity at block " +:+ u64_display number +:+ ", extrinsic "
               +:+ u64_display (ext_index ext)
               +:+ "; multi-job treasury histories are unsupported"))) in
            let! nonce := m_lift (ok_or (ext_nonce ext) archive_bad) in
            if archive_mismatch expected number at_ ext signer nonce next_nonces
            then m_throw archive_bad
            else
              let! data := m_lift (chain_err (call_data at_ (ChainCall_payload (lt_call expected)))) in
              if negb (bool_decide (data = ext_call_data_bytes ext)) then m_throw archive_bad
              else
                let! next := m_lift (ok_or (u64_checked_add nonce 1) archive_bad) in
                let! events := chain_eff (ext_events ext) in
                let! summary := m_lift (EventSummary_from_events events) in
                archive_block txs treasury deposit number at_ (<[signer := next]> next_nonces)
                  (summaries ++ [summary]) exts
      end
  end.

Fixpoint archive_blocks (txs : list LegacyTransaction) (treasury deposit : AccountId32)
  (next_nonces : gmap AccountId32 Z) (summaries : list EventSummary) (numbers : list Z)
  : Eff (list EventSummary) :=
  match numbers with
  | [] => m_ret summaries
  | number :: numbers =>
      let! at_ := chain_eff (at_block number) in
      let! exts := chain_eff (fetch_extrinsics at_) in
      let! (next_nonces, summaries) :=
        archive_block txs treasury deposit number at_ next_nonces summaries exts in
      archive_blocks txs treasury deposit next_nonces summaries numbers
  end.

Definition verify_legacy_archive (record : PaymentRecord) (manifest : LegacyManifest)
  : Eff (list EventSummary * Z * string) :=
  if negb (bool_decide (api_genesis_hash = lm_genesis_hash manifest)) then m_throw archive_bad
  else
    let! (head, hash) := finalized_head in
    let! horizon := m_lift (ok_or (n ← u64_checked_add (lm_stopped_at manifest)
                                         (lm_maximum_mortality manifest);
                                   u64_checked_add n 1) archive_bad) in
    if head <=? horizon then m_throw archive_bad
    else
      let! span := m_lift (ok_or (u64_checked_sub head (lm_first_block manifest)) archive_bad) in
      if 100000 <? span then m_throw archive_bad
      else
        let! treasury := m_lift (parse_ss58 (lm_treasury manifest)) in
        let! deposit := m_lift (parse_ss58 (pr_address record)) in
        let! start := chain_eff (at_block (u64_wrap (lm_first_block manifest - 1))) in
        let! (_, treasury_nonce) := account_at start treasury in
        let! (_, deposit_nonce) := account_at start deposit in
        let next_nonces := <[deposit := deposit_nonce]> (<[treasury := treasury_nonce]> ∅) in
        let! summaries := archive_blocks (lm_transactions manifest) treasury deposit next_nonces []
                            (range_inclusive (lm_first_block manifest) head) in
        if negb (bool_decide (length summaries = length (lm_transactions manifest)))
        then m_throw archive_bad
        else
          let! now := block_hash_at head in
          if negb (bool_decide (now = Some hash)) then m_throw archive_bad
          else m_ret (summaries, head, hash).
End Client.

(** ** The client as the engine's node *)

(** The rest of the engine's environment. *)
Class Host (N : Type) : Type := {
  host_now : N -> Z * N;
  host_random : nat -> N -> list Byte.byte * N;
  host_uuid : N -> string * N;
  host_store : N -> SEnv * N;
  host_webhook : list Byte.byte -> string -> PaymentStatus -> M N Error unit }.

#[export] Instance Chain_env `{Runtime} `{Crypto} `{Ss58} {N : Type} `{!NodeApi N} `{!Host N}
  : EngineEnv N := {|
  genesis_hash := api_genesis_hash;
  rpc_free_balance := free_balance;
  rpc_account := account;
  rpc_alpha_on := alpha_on;
  rpc_alpha_of := alpha_of;
  rpc_estimate_fee := estimate_fee;
  rpc_existential_deposit := existential_deposit;
  rpc_alpha_price := alpha_price;
  rpc_hotkey_owner := hotkey_owner;
  rpc_stake_positions_many := stake_positions_many;
  rpc_prepare := prepare;
  rpc_broadcast := broadcast;
  rpc_find_pending := find_pending;
  env_now := host_now;
  env_random := host_random;
  env_uuid := host_uuid;
  env_store := host_store;
  webhook_post := host_webhook |}.

(** * What a node of a finalized chain promises *)

(** [height] is the number of the last finalized block in a world of the node,
    [canonical] the chain; the contents of a block do not change. *)
Class FinalizedChain `{Runtime} `{Crypto} (N : Type) `{!NodeApi N} : Type := {
  height : N -> Z;
  canonical : Z -> AtBlock;
  block_extrinsics : AtBlock -> list (result string Extrinsic);
  block_events : AtBlock -> list (result string Event);
  extrinsic_events : Extrinsic -> list (result string Event);
  account_state : AtBlock -> AccountId32 -> option (result string (Z * Z));
  canonical_number : forall n, 0 <= n -> block_number (canonical n) = n;
  height_nonneg : forall w, 0 <= height w;
  current_law : forall w b w', at_current_block w = (Ok b, w') ->
    exists n, height w <= n <= height w' /\ b = canonical n;
  at_block_law : forall n w b w', 0 <= n <= height w -> at_block n w = (Ok b, w') -> b = canonical n;
  extrinsics_law : forall b w l w', fetch_extrinsics b w = (Ok l, w') -> l = block_extrinsics b;
  events_law : forall b w l w', fetch_events b w = (Ok l, w') -> l = block_events b;
  ext_events_law : forall e w l w', ext_events e w = (Ok l, w') -> l = extrinsic_events e;
  account_law : forall b who w o w', try_fetch_account b who w = (Ok o, w') -> o = account_state b who;
  current_height : forall w, height w <= height (at_current_block w).2;
  at_block_height : forall n w, height w <= height (at_block n w).2;
  extrinsics_height : forall b w, height w <= height (fetch_extrinsics b w).2;
  ext_events_height : forall e w, height w <= height (ext_events e w).2;
  account_height : forall b who w, height w <= height (try_fetch_account b who w).2 }.

(** * Theorems *)

Lemma m_bind_ok {W E A B} (m : M W E A) (k : A -> M W E B) w b w' :
  m_bind m k w = (Ok b, w') <-> exists a w1, m w = (Ok a, w1) /\ k a w1 = (Ok b, w').
Proof.
  unfold m_bind. destruct (m w) as [[a|e] w1]; split.
  - eauto.
  - by intros (a' & w2 & [= <- <-] & Hk).
  - done.
  - by intros (a' & w2 & [=] & _).
Qed.

(** Walk a successful run through its binds. *)
Tactic Notation "run_bind" hyp(H) ident(a) ident(w) ident(Ha) :=
  apply m_bind_ok in H as (a & w & Ha & H); cbn beta in H.

Section ClientTheorems.
Context `{Runtime} `{Crypto} `{Ss58} {N : Type} `{!NodeApi N} `{!FinalizedChain N}.

Lemma chain_eff_ok {A} (m : M N string A) w a w' : chain_eff m w = (Ok a, w') -> m w = (Ok a, w').
Proof. unfold chain_eff. destruct (m w) as [[x|e] w1]; [by intros [= -> ->]|done]. Qed.

Lemma m_lift_ok {A} (r : Result A) (w : N) a w' : m_lift r w = (Ok a, w') -> r = Ok a /\ w' = w.
Proof. by intros [= -> ->]. Qed.

Lemma at_block_ok n w b w' :
  0 <= n <= height w -> chain_eff (at_block n) w = (Ok b, w') -> b = canonical n /\ height w <= height w'.
Proof.
  intros Hn Hb. apply chain_eff_ok in Hb. pose proof (at_block_height n w) as Hh. rewrite Hb in Hh.
  split; [by eapply at_block_law|done].
Qed.

Lemma fetch_extrinsics_ok b w l w' :
  chain_eff (fetch_extrinsics b) w = (Ok l, w') -> l = block_extrinsics b /\ height w <= height w'.
Proof.
  intros Hb. apply chain_eff_ok in Hb. pose proof (extrinsics_height b w) as Hh. rewrite Hb in Hh.
  split; [by eapply extrinsics_law|done].
Qed.

Lemma ext_events_ok e w l w' :
  chain_eff (ext_events e) w = (Ok l, w') -> l = extrinsic_events e /\ height w <= height w'.
Proof.
  intros Hb. apply chain_eff_ok in Hb. pose proof (ext_events_height e w) as Hh. rewrite Hb in Hh.
  split; [by eapply ext_events_law|done].
Qed.

Lemma current_ok w b w' :
  chain_eff at_current_block w = (Ok b, w') ->
  exists n, 0 <= n /\ height w <= n <= height w' /\ b = canonical n /\ block_number b = n.
Proof.
  intros Hb. apply chain_eff_ok, current_law in Hb as (n & Hn & ->).
  pose proof (height_nonneg w). exists n. split_and!; try done; try lia. apply canonical_number. lia.
Qed.

(** ** The search for a journaled transaction *)

(** Every extrinsic of the block decodes, and none is the transaction. *)
Definition absent (p : PendingTx) (b : AtBlock) : Prop :=
  Forall (fun r => exists ext, r = Ok ext /\ ext_hash ext <> pd_tx_hash p) (block_extrinsics b).

(** The block holds the transaction, with this outcome. *)
Definition included_in (p : PendingTx) (b : AtBlock) (hash : string) (s : EventSummary) : Prop :=
  exists ext, Ok ext ∈ block_extrinsics b /\ ext_hash ext = pd_tx_hash p /\ hash = block_hash b /\
    EventSummary_from_events (extrinsic_events ext) = Ok s.

Lemma find_in_block_ok p b exts w o w' :
  find_in_block p b exts w = (Ok o, w') ->
  height w <= height w' /\
  match o with
  | None => Forall (fun r => exists ext, r = Ok ext /\ ext_hash ext <> pd_tx_hash p) exts
  | Some out => exists hash s ext, out = Included hash s /\ Ok ext ∈ exts /\
      ext_hash ext = pd_tx_hash p /\ hash = block_hash b /\
      EventSummary_from_events (extrinsic_events ext) = Ok s
  end.
Proof.
  revert w. induction exts as [|r exts IH]; intros w Hf; cbn [find_in_block] in Hf.
  { injection Hf as <- <-. split; [lia|constructor]. }
  run_bind Hf ext w1 Hext. apply m_lift_ok in Hext as [Hext ->]. apply chain_err_ok in Hext as ->.
  case_bool_decide as Hhash.
  - run_bind Hf evs w2 Hevs. apply ext_events_ok in Hevs as [-> Hh].
    run_bind Hf s w3 Hs. apply m_lift_ok in Hs as [Hs ->]. injection Hf as <- <-.
    split; [done|]. exists (block_hash b), s, ext. split_and!; try done. set_solver.
  - apply IH in Hf as [Hh Ho]. split; [done|]. destruct o as [out|].
    + destruct Ho as (hash & s & e & ? & ? & ?). exists hash, s, e. set_solver.
    + constructor; [by exists ext|done].
Qed.

Lemma find_in_blocks_ok p ns w o w' :
  (forall n, n ∈ ns -> 0 <= n <= height w) ->
  find_in_blocks p ns w = (Ok o, w') ->
  height w <= height w' /\
  match o with
  | None => forall n, n ∈ ns -> absent p (canonical n)
  | Some out => exists hash s n, out = Included hash s /\ n ∈ ns /\ included_in p (canonical n) hash s
  end.
Proof.
  revert w. induction ns as [|n ns IH]; intros w Hns Hf; cbn [find_in_blocks] in Hf.
  { injection Hf as <- <-. split; [lia|]. intros n Hn. by apply not_elem_of_nil in Hn. }
  run_bind Hf b w1 Hb. apply at_block_ok in Hb as [-> Hh1]; [|apply Hns; set_solver].
  run_bind Hf exts w2 Hexts. apply fetch_extrinsics_ok in Hexts as [-> Hh2].
  run_bind Hf found w3 Hfound. apply find_in_block_ok in Hfound as [Hh3 Hfound].
  destruct found as [out|].
  - injection Hf as <- <-. split; [lia|]. destruct Hfound as (hash & s & ext & -> & ? & ? & ? & ?).
    exists hash, s, n. split_and!; [done|set_solver|]. by exists ext.
  - apply IH in Hf as [Hh Ho]; [|intros m Hm; assert (m ∈ n :: ns) as Hm' by set_solver;
      apply Hns in Hm'; lia].
    split; [lia|]. destruct o as [out|].
    + destruct Ho as (hash & s & m & ? & ? & ?). exists hash, s, m. set_solver.
    + intros m Hm. apply elem_of_cons in Hm as [->|Hm]; [exact Hfound|by apply Ho].
Qed.

Lemma elem_of_range_inclusive a b n : n ∈ range_inclusive a b <-> a <= n <= b.
Proof. unfold range_inclusive. rewrite elem_of_seqZ. lia. Qed.

(** The transaction's mortality: it is only ever included within [MORTALITY]
    blocks of its birth. *)
Definition mortal (p : PendingTx) : Prop :=
  forall n ext, 0 <= n -> Ok ext ∈ block_extrinsics (canonical n) -> ext_hash ext = pd_tx_hash p ->
    pd_birth_block p <= n <= pd_birth_block p + MORTALITY.

(** The verdict the finalized chain up to [head] gives on a journaled
    transaction. *)
Definition verdict (p : PendingTx) (head : Z) (outcome : PendingOutcome) : Prop :=
  let horizon := pd_birth_block p + MORTALITY + 1 in
  match outcome with
  | Included hash s => exists n,
      pd_birth_block p <= n <= Z.min head horizon /\ included_in p (canonical n) hash s
  | Dead => horizon < head /\ forall n, pd_birth_block p <= n <= horizon -> absent p (canonical n)
  | Wait => head <= horizon /\ forall n, pd_birth_block p <= n <= head -> absent p (canonical n)
  end.

Lemma find_pending_verdict p w w' outcome :
  0 <= pd_birth_block p -> find_pending p w = (Ok outcome, w') ->
  exists head, height w <= head <= height w' /\ verdict p head outcome.
Proof.
  intros Hbirth Hfind.
  unfold find_pending, best_finalized_number in Hfind. run_bind Hfind head w1 Hhead.
  run_bind Hhead b w0 Hb. apply current_ok in Hb as (h & Hpos & Hh & -> & Hnum).
  injection Hhead as <- <-. rewrite Hnum in Hfind. clear Hnum.
  run_bind Hfind horizon w2 Hhor. apply m_lift_ok in Hhor as [Hhor ->]. apply ok_or_ok in Hhor.
  destruct (u64_checked_add (pd_birth_block p) MORTALITY) as [m|] eqn:Hm; [|done].
  apply u64_checked_add_some in Hm as [-> _]. apply u64_checked_add_some in Hhor as [-> _].
  run_bind Hfind found w2 Hfound.
  apply find_in_blocks_ok in Hfound as [Hh2 Hfound];
    [|intros n Hn; apply elem_of_range_inclusive in Hn; lia].
  exists h. unfold verdict. destruct found as [out|]; injection Hfind as <- <-.
  { destruct Hfound as (hash & s & n & -> & Hn & Hin). apply elem_of_range_inclusive in Hn.
    split; [lia|]. exists n. split; [lia|done]. }
  split; [lia|].
  assert (Habs : forall n, pd_birth_block p <= n <= Z.min h (pd_birth_block p + MORTALITY + 1) ->
                           absent p (canonical n))
    by (intros n Hn; by apply Hfound, elem_of_range_inclusive).
  destruct (Z.ltb_spec (pd_birth_block p + MORTALITY + 1) h); (split; [lia|]); intros n Hn; apply Habs; lia.
Qed.

Lemma dead_forever p n ext :
  (forall n, pd_birth_block p <= n <= pd_birth_block p + MORTALITY + 1 -> absent p (canonical n)) ->
  mortal p -> 0 <= n -> Ok ext ∈ block_extrinsics (canonical n) -> ext_hash ext <> pd_tx_hash p.
Proof.
  intros Habs Hmortal Hn Hext Heq. pose proof (Hmortal n ext Hn Hext Heq) as Hw.
  specialize (Habs n ltac:(lia)). unfold absent in Habs. rewrite Forall_forall in Habs.
  by destruct (Habs _ Hext) as (e & [= <-] & Hne).
Qed.

(** C10: the verdict on a journaled transaction is the chain's, on the finalized
    blocks up to a head that is at least the one the node had finalized when it was
    asked.  [Included] is answered only for a block of the window that holds it,
    with the summary of its events; [Dead] only when that head is past the whole
    window in which it can be included and no block of the window holds it, so
    that a mortal transaction is in no finalized block, now or ever, and can be
    rebuilt; [Wait] only when the head is still within the window and no block so
    far holds it. *)
Theorem find_pending_sound (p : PendingTx) (w w' : N) (outcome : PendingOutcome)
  (Hbirth : 0 <= pd_birth_block p) (Hfind : find_pending p w = (Ok outcome, w')) :
  exists head, height w <= head <= height w' /\
  match outcome with
  | Included hash s => exists n,
      pd_birth_block p <= n <= Z.min head (pd_birth_block p + MORTALITY + 1) /\
      included_in p (canonical n) hash s
  | Dead =>
      pd_birth_block p + MORTALITY + 1 < head /\
      (forall n, pd_birth_block p <= n <= pd_birth_block p + MORTALITY + 1 -> absent p (canonical n)) /\
      (mortal p -> forall n ext, 0 <= n -> Ok ext ∈ block_extrinsics (canonical n) ->
         ext_hash ext <> pd_tx_hash p)
  | Wait =>
      head <= pd_birth_block p + MORTALITY + 1 /\
      forall n, pd_birth_block p <= n <= head -> absent p (canonical n)
  end.
Proof.
  apply find_pending_verdict in Hfind as (head & Hh & Hv); [|done]. exists head. split; [done|].
  destruct outcome; [exact Hv|..|exact Hv]; destruct Hv as [Hlt Habs].
  split; [done|]. split; [done|]. intros Hm n ext. by apply dead_forever.
Qed.


(** ** The archive scan *)

(** An extrinsic of a block with its signer, when one of the two signed it. *)
Record Activity := mkActivity {
  act_block : Z;
  act_ext : Extrinsic;
  act_signer : AccountId32 }.

Definition activity_of (treasury deposit : AccountId32) (n : Z) (r : result string Extrinsic)
  : option Activity :=
  match r with
  | Ok ext =>
      address ← ext_address_bytes ext; signer ← signer_of address;
      if bool_decide (signer = treasury) || bool_decide (signer = deposit)
      then Some (mkActivity n ext signer) else None
  | Err _ => None
  end.

(** What the two signers did in finalized blocks, in order. *)
Definition activity (treasury deposit : AccountId32) (numbers : list Z) : list Activity :=
  numbers ≫= (fun n => omap (activity_of treasury deposit n) (block_extrinsics (canonical n))).

(** The extrinsic decodes, and is unsigned or signed by a plain account. *)
Definition attributable (r : result string Extrinsic) : Prop :=
  exists ext, r = Ok ext /\
    (ext_address_bytes ext = None \/
     exists address signer, ext_address_bytes ext = Some address /\ signer_of address = Some signer).

(** A transaction of the manifest and a summary describe an extrinsic. *)
Definition explains (a : Activity) (t : LegacyTransaction) (s : EventSummary) : Prop :=
  lt_block t = act_block a /\ lt_index t = ext_index (act_ext a) /\
  lt_signer t = ss58 (act_signer a) /\ ext_nonce (act_ext a) = Some (lt_nonce t) /\
  tx_tx_hash (lt_receipt t) = ext_hash (act_ext a) /\
  tx_block_hash (lt_receipt t) = block_hash (canonical (act_block a)) /\
  call_data (canonical (act_block a)) (ChainCall_payload (lt_call t))
    = Ok (ext_call_data_bytes (act_ext a)) /\
  EventSummary_from_events (extrinsic_events (act_ext a)) = Ok s.

(** Each signer's nonces count up from what the map says. *)
Fixpoint nonce_run (next : gmap AccountId32 Z) (acts : list Activity) (next' : gmap AccountId32 Z)
  : Prop :=
  match acts with
  | [] => next' = next
  | a :: acts => exists nonce, ext_nonce (act_ext a) = Some nonce /\
      next !! act_signer a = Some nonce /\
      nonce_run (<[act_signer a := nonce + 1]> next) acts next'
  end.

Lemma nonce_run_app next l1 l2 next1 next2 :
  nonce_run next l1 next1 -> nonce_run next1 l2 next2 -> nonce_run next (l1 ++ l2) next2.
Proof.
  revert next. induction l1 as [|a l1 IH]; intros next Hl Hr; [by cbn in Hl; subst|].
  destruct Hl as (nonce & ? & ? & Hl). exists nonce. split_and!; eauto.
Qed.

Definition nonces_of (signer : AccountId32) (acts : list Activity) : list Z :=
  omap (fun a => if bool_decide (act_signer a = signer) then ext_nonce (act_ext a) else None) acts.

Lemma nonce_run_seq next acts next' signer nonce :
  nonce_run next acts next' -> next !! signer = Some nonce ->
  nonces_of signer acts = seqZ nonce (Z.of_nat (length (nonces_of signer acts))).
Proof.
  revert next nonce. induction acts as [|a acts IH]; intros next nonce Hr Hn; [done|].
  destruct Hr as (k & Hk & Hs & Hr). unfold nonces_of in *. cbn. case_bool_decide as Heq.
  - subst signer. rewrite Hk. assert (k = nonce) as -> by congruence.
    assert (<[act_signer a:=nonce + 1]> next !! act_signer a = Some (nonce + 1)) as Hn1
      by apply lookup_insert_eq.
    specialize (IH _ _ Hr Hn1). rewrite length_cons, seqZ_cons by lia.
    replace (Z.pred (Z.of_nat (S _))) with (Z.of_nat (length (omap (fun a0 : Activity =>
      if bool_decide (act_signer a0 = act_signer a) then ext_nonce (act_ext a0) else None) acts)))
      by lia.
    rewrite IH at 1. done.
  - apply (IH _ _ Hr). by rewrite lookup_insert_ne.
Qed.

Lemma archive_block_ok txs tr dep n b nn ss exts w nn' ss' w' :
  b = canonical n ->
  archive_block txs tr dep n b nn ss exts w = (Ok (nn', ss'), w') ->
  height w <= height w' /\ Forall attributable exts /\
  nonce_run nn (omap (activity_of tr dep n) exts) nn' /\
  exists l events, ss' = ss ++ events /\ drop (length ss) txs = l ++ drop (length ss') txs /\
    Forall3 explains (omap (activity_of tr dep n) exts) l events.
Proof.
  intros ->. revert nn ss w. induction exts as [|r exts IH]; intros nn ss w Ha; cbn [archive_block] in Ha.
  { injection Ha as <- <- <-. split_and!; [lia|constructor|done|]. exists [], [].
    rewrite app_nil_r. split_and!; [done|done|constructor]. }
  run_bind Ha ext w1 Hext. apply m_lift_ok in Hext as [Hext ->]. apply chain_err_ok in Hext as ->.
  cbn [omap list_omap activity_of].
  destruct (ext_address_bytes ext) as [address|] eqn:Haddr.
  2:{ apply IH in Ha as (? & ? & Hrun & Hex). split_and!; [done| |exact Hrun|exact Hex].
      constructor; [|done]. exists ext. auto. }
  run_bind Ha signer w1 Hs. apply m_lift_ok in Hs as [Hs ->]. apply ok_or_ok in Hs.
  cbn [mbind option_bind]. rewrite Hs. cbn [mbind option_bind].
  assert (Hattr : attributable (Ok ext)) by (exists ext; eauto 6).
  rewrite <- negb_orb in Ha. destruct (bool_decide (signer = tr) || bool_decide (signer = dep)); cbn [negb] in Ha.
  2:{ apply IH in Ha as (? & ? & Hrun & Hex). split_and!; [done|by constructor|exact Hrun|exact Hex]. }
  run_bind Ha t w1 Ht. apply m_lift_ok in Ht as [Ht ->]. apply ok_or_ok in Ht.
  run_bind Ha nonce w1 Hn. apply m_lift_ok in Hn as [Hn ->]. apply ok_or_ok in Hn.
  destruct (archive_mismatch _ _ _ _ _ _ _) eqn:Hmis; [done|].
  run_bind Ha data w1 Hd. apply m_lift_ok in Hd as [Hd ->]. apply chain_err_ok in Hd.
  destruct (negb _) eqn:Hdata in Ha; [done|].
  run_bind Ha next w1 Hnext. apply m_lift_ok in Hnext as [Hnext ->].
  apply ok_or_ok, u64_checked_add_some in Hnext as [-> _].
  run_bind Ha evs w1 Hevs. apply ext_events_ok in Hevs as [-> Hh1].
  run_bind Ha s w2 Hsum. apply m_lift_ok in Hsum as [Hsum ->].
  apply IH in Ha as (Hh & Hat & Hrun & l & events & -> & Hl & H3).
  unfold archive_mismatch in Hmis. repeat (apply orb_false_iff in Hmis as [Hmis ?]). bool_simpl.
  split_and!; [lia|by constructor| |].
  - exists nonce. auto.
  - exists (t :: l), (s :: events). split_and!; [by rewrite <- app_assoc| |].
    + rewrite (drop_S _ _ _ Ht). cbn. f_equal. rewrite <- Hl, length_app. cbn. f_equal. lia.
    + constructor; [|done]. unfold explains. cbn. split_and!; try done; try congruence. all: congruence.
Qed.


Lemma archive_blocks_ok txs tr dep nn ss ns w ss' w' :
  (forall n, n ∈ ns -> 0 <= n <= height w) ->
  archive_blocks txs tr dep nn ss ns w = (Ok ss', w') ->
  height w <= height w' /\
  (forall n, n ∈ ns -> Forall attributable (block_extrinsics (canonical n))) /\
  (exists nn', nonce_run nn (activity tr dep ns) nn') /\
  exists l events, ss' = ss ++ events /\ drop (length ss) txs = l ++ drop (length ss') txs /\
    Forall3 explains (activity tr dep ns) l events.
Proof.
  revert nn ss w. induction ns as [|n ns IH]; intros nn ss w Hns Ha; cbn [archive_blocks] in Ha.
  { injection Ha as <- <-. split_and!; [lia| |by exists nn|].
    - intros n Hn. by apply not_elem_of_nil in Hn.
    - exists [], []. rewrite app_nil_r. split_and!; [done|done|constructor]. }
  run_bind Ha b w1 Hb. apply at_block_ok in Hb as [-> Hh1]; [|apply Hns; set_solver].
  run_bind Ha exts w2 Hexts. apply fetch_extrinsics_ok in Hexts as [-> Hh2].
  run_bind Ha st w3 Hst. destruct st as [nn1 ss1].
  apply archive_block_ok in Hst as (Hh3 & Hat & Hrun & l1 & ev1 & -> & Hl1 & H31); [|done].
  apply IH in Ha as (Hh4 & Hats & [nn' Hruns] & l2 & ev2 & -> & Hl2 & H32);
    [|intros m Hm; assert (m ∈ n :: ns) as Hm' by set_solver; apply Hns in Hm'; lia].
  unfold activity. cbn [mbind list_bind]. fold (activity tr dep ns).
  split_and!; [lia| | |].
  - intros m Hm. apply elem_of_cons in Hm as [->|Hm]; [done|by apply Hats].
  - exists nn'. by eapply nonce_run_app.
  - exists (l1 ++ l2), (ev1 ++ ev2). split_and!; [by rewrite app_assoc| |by apply Forall3_app].
    by rewrite Hl1, Hl2, app_assoc.
Qed.

Lemma account_at_ok b who w info w' :
  account_at b who w = (Ok info, w') ->
  height w <= height w' /\
  match account_state b who with Some r => r = Ok info | None => info = (0, 0) end.
Proof.
  intros Ha. run_bind Ha v w1 Hv. apply chain_eff_ok in Hv.
  pose proof (account_height b who w) as Hh. rewrite Hv in Hh. apply account_law in Hv as ->.
  destruct (account_state b who) as [r|].
  - apply m_lift_ok in Ha as [Hr ->]. by apply chain_err_ok in Hr.
  - by injection Ha as <- <-.
Qed.

(** The nonce of an account in a block's state. *)
Definition nonce_in (b : AtBlock) (who : AccountId32) : option Z :=
  match account_state b who with
  | Some (Ok info) => Some info.2
  | Some (Err _) => None
  | None => Some 0
  end.

(** C17: the archive scan is complete. When it succeeds, the manifest's
    transactions and the summaries are, one for one and in order, everything
    the two signers did in the finalized blocks from the first audited one to
    the head: same block, index, nonce, hash and call. No extrinsic of those
    blocks is undecodable or signed by an account of unknown form, each
    signer's nonces have no gap from its nonce before the interval on, and the
    head is past every block in which an old signature could still land. *)
Theorem archive_scan_complete (r : PaymentRecord) (m : LegacyManifest) (w w' : N)
  (events : list EventSummary) (head : Z) (hash : string)
  (Hfirst : 1 <= lm_first_block m <= u64_max)
  (Hscan : verify_legacy_archive r m w = (Ok (events, head, hash), w')) :
  exists treasury deposit acts,
    parse_ss58 (lm_treasury m) = Ok treasury /\ parse_ss58 (pr_address r) = Ok deposit /\
    api_genesis_hash = lm_genesis_hash m /\
    lm_stopped_at m + lm_maximum_mortality m + 1 < head /\ hash = block_hash (canonical head) /\
    acts = activity treasury deposit (range_inclusive (lm_first_block m) head) /\
    Forall3 explains acts (lm_transactions m) events /\
    (forall n, lm_first_block m <= n <= head ->
       Forall attributable (block_extrinsics (canonical n))) /\
    (forall signer, signer = treasury \/ signer = deposit ->
       exists nonce, nonce_in (canonical (lm_first_block m - 1)) signer = Some nonce /\
         nonces_of signer acts = seqZ nonce (Z.of_nat (length (nonces_of signer acts)))).
Proof.
  unfold verify_legacy_archive in Hscan. destruct (negb (bool_decide _)) eqn:Hgen; [done|].
  apply negb_false_iff, bool_decide_eq_true in Hgen. unfold finalized_head in Hscan.
  run_bind Hscan top w1 Htop. destruct top as [h hs].
  run_bind Htop b w0 Hb. apply current_ok in Hb as (h' & Hpos & Hh & -> & Hnum). injection Htop as <- <- <-.
  rewrite Hnum in Hscan. clear Hnum.
  run_bind Hscan horizon w2 Hhor. apply m_lift_ok in Hhor as [Hhor ->]. apply ok_or_ok in Hhor.
  destruct (u64_checked_add (lm_stopped_at m) _) as [x|] eqn:Hx in Hhor; [|done].
  apply u64_checked_add_some in Hx as [-> _]. apply u64_checked_add_some in Hhor as [-> _].
  destruct (Z.leb_spec h' (lm_stopped_at m + lm_maximum_mortality m + 1)); [done|].
  run_bind Hscan span w2 Hspan. apply m_lift_ok in Hspan as [Hspan ->]. apply ok_or_ok in Hspan.
  assert (lm_first_block m <= h') as Hle
    by (unfold u64_checked_sub in Hspan; destruct (Z.leb_spec (lm_first_block m) h'); [done|discriminate]).
  destruct (100000 <? span); [done|].
  run_bind Hscan tr w2 Htr. apply m_lift_ok in Htr as [Htr ->].
  run_bind Hscan dep w2 Hdep. apply m_lift_ok in Hdep as [Hdep ->].
  run_bind Hscan start w2 Hstart. rewrite u64_wrap_small in Hstart by (unfold is_u64; lia).
  apply at_block_ok in Hstart as [-> Hh2]; [|lia].
  run_bind Hscan i1 w3 Hi1. destruct i1 as [f1 n1]. apply account_at_ok in Hi1 as [Hh3 Hn1].
  run_bind Hscan i2 w4 Hi2. destruct i2 as [f2 n2]. apply account_at_ok in Hi2 as [Hh4 Hn2].
  run_bind Hscan ss w5 Hss.
  apply archive_blocks_ok in Hss as (Hh5 & Hat & [nn' Hrun] & l & evs & -> & Hl & H3);
    [|intros n Hn; apply elem_of_range_inclusive in Hn; lia].
  destruct (negb _) eqn:Hlen in Hscan; [done|]. apply negb_false_iff, bool_decide_eq_true in Hlen.
  run_bind Hscan now w6 Hnow. destruct (negb _) in Hscan; [done|]. injection Hscan as <- <- <- <-.
  cbn [app length] in *. rewrite drop_0, (drop_ge _ (length evs)), app_nil_r in Hl by lia. subst l.
  exists tr, dep, (activity tr dep (range_inclusive (lm_first_block m) h')).
  split_and!; try done.
  - intros n Hn. by apply Hat, elem_of_range_inclusive.
  - intros signer Hsig.
    assert (Hnn : exists nonce, nonce_in (canonical (lm_first_block m - 1)) signer = Some nonce /\
                                <[dep:=n2]> (<[tr:=n1]> ∅ : gmap AccountId32 Z) !! signer = Some nonce).
    { unfold nonce_in. destruct (decide (signer = dep)) as [->|Hne].
      - exists n2. rewrite lookup_insert_eq. split; [|done].
        destruct (account_state _ dep) as [[]|]; by simplify_eq.
      - destruct Hsig as [->|]; [|done]. exists n1.
        rewrite lookup_insert_ne, lookup_insert_eq by done. split; [|done].
        destruct (account_state _ tr) as [[]|]; by simplify_eq. }
    destruct Hnn as (nonce & Hin & Hlook). exists nonce. split; [done|]. by eapply nonce_run_seq.
Qed.


(** ** Deposits *)

(** The stake an event credits to a watched coldkey while an extrinsic is applied. *)
Definition hit_of (watched : gset AccountId32) (r : result string Event) : option Hit :=
  match r with
  | Ok ev =>
      if is_event PALLET "StakeAdded" ev then
        match ev_phase ev, ev_as_AAu64u64u16u64 ev with
        | ApplyExtrinsic xt, Ok (coldkey, hotkey, tao, alpha, netuid, _) =>
            if bool_decide (coldkey ∈ watched)
            then Some (mkHit xt (ev_index ev) coldkey hotkey tao alpha netuid) else None
        | _, _ => None
        end
      else None
  | Err _ => None
  end.

Definition succeeded (evs : list (result string Event)) (xt : Z) : Prop :=
  exists ev, Ok ev ∈ evs /\ ev_phase ev = ApplyExtrinsic xt /\ ev_pallet ev = "System" /\
    ev_name ev = "ExtrinsicSuccess".

Lemma deposit_hits_ok watched evs hits :
  deposit_hits watched evs = Ok hits -> hits = omap (hit_of watched) evs.
Proof.
  revert hits. induction evs as [|r evs IH]; intros hits Hd; cbn [deposit_hits] in Hd.
  { by injection Hd as <-. }
  apply result_bind_ok in Hd as (ev & Hev & Hd). apply chain_err_ok in Hev as ->.
  cbn [omap list_omap hit_of]. unfold is_event.
  rewrite <- negb_andb in Hd. destruct (bool_decide (ev_pallet ev = _) && _); cbn [negb] in Hd.
  2:{ by apply IH. }
  destruct (ev_phase ev) as [xt| |]; try by apply IH.
  apply result_bind_ok in Hd as ([[[[[ck hk] tao] al] nid] fee] & Hdec & Hd).
  apply chain_err_ok in Hdec as ->. apply result_bind_ok in Hd as (hs & Hhs & Hd).
  apply IH in Hhs as ->. injection Hd as <-. by case_bool_decide.
Qed.

Lemma successes_ok evs ok xt :
  successes evs = Ok ok -> (xt ∈ ok <-> succeeded evs xt).
Proof.
  unfold succeeded. revert ok. induction evs as [|r evs IH]; intros ok Hs; cbn [successes] in Hs.
  { injection Hs as <-. split; [set_solver|]. intros (ev & Hin & _). by apply not_elem_of_nil in Hin. }
  apply result_bind_ok in Hs as (ev & Hev & Hs). apply chain_err_ok in Hev as ->.
  apply result_bind_ok in Hs as (ok' & Hok & Hs). specialize (IH ok' Hok).
  assert (Hcons : (exists e, Ok e ∈ Ok ev :: evs /\ ev_phase e = ApplyExtrinsic xt /\
                     ev_pallet e = "System" /\ ev_name e = "ExtrinsicSuccess") <->
                  (ev_phase ev = ApplyExtrinsic xt /\ ev_pallet ev = "System" /\
                     ev_name ev = "ExtrinsicSuccess") \/ xt ∈ ok').
  { rewrite IH. split.
    - intros (e & Hin & Hrest). apply elem_of_cons in Hin as [[= ->]|Hin]; [by left|right; eauto].
    - intros [Hev|(e & Hin & Hrest)]; [exists ev|exists e]; set_solver. }
  rewrite Hcons. clear Hcons IH Hok.
  destruct (ev_phase ev) as [i| |]; injection Hs as <-; [|naive_solver..].
  destruct (bool_decide _ && bool_decide _) eqn:Hb.
  - apply andb_true_iff in Hb as [Hp Hn]. bool_simpl. rewrite elem_of_union, elem_of_singleton.
    naive_solver.
  - apply andb_false_iff in Hb. split; [by right|].
    intros [(? & ? & ?)|?]; [|done]. destruct Hb; by bool_simpl.
Qed.

(** The extrinsic of a deposit: its hash and its signer. *)
Definition from_extrinsic (exts : list (result string Extrinsic)) (xt : Z) (hash : string)
  (from : option AccountId32) : Prop :=
  (exists ext, Ok ext ∈ exts /\ u32_wrap (ext_index ext) = xt /\ hash = ext_hash ext /\
     from = (b ← ext_address_bytes ext; signer_of b)) \/
  ((forall ext, Ok ext ∈ exts -> u32_wrap (ext_index ext) <> xt) /\ hash = EmptyString /\ from = None).

Definition hashes_from (exts : list (result string Extrinsic))
  (hashes : gmap Z (string * option (list Byte.byte))) : Prop :=
  forall xt, match hashes !! xt with
             | Some (hash, address) => exists ext, Ok ext ∈ exts /\ u32_wrap (ext_index ext) = xt /\
                 hash = ext_hash ext /\ address = ext_address_bytes ext
             | None => forall ext, Ok ext ∈ exts -> u32_wrap (ext_index ext) <> xt
             end.

Lemma extrinsic_hashes_ok seen exts hashes0 hashes :
  hashes_from seen hashes0 -> extrinsic_hashes hashes0 exts = Ok hashes ->
  hashes_from (seen ++ exts) hashes.
Proof.
  revert seen hashes0. induction exts as [|r exts IH]; intros seen hashes0 Hseen Hx; cbn [extrinsic_hashes] in Hx.
  { injection Hx as <-. by rewrite app_nil_r. }
  apply result_bind_ok in Hx as (ext & Hext & Hx). apply chain_err_ok in Hext as ->.
  replace (seen ++ Ok ext :: exts) with ((seen ++ [Ok ext]) ++ exts) by by rewrite <- app_assoc.
  eapply IH, Hx. intros xt. destruct (decide (xt = u32_wrap (ext_index ext))) as [->|Hne].
  - rewrite lookup_insert_eq. exists ext. set_solver.
  - rewrite lookup_insert_ne by done. specialize (Hseen xt). destruct (hashes0 !! xt) as [[h a]|].
    + destruct Hseen as (e & ? & ? & ?). exists e. set_solver.
    + intros e He. apply elem_of_app in He as [He|He]; [by apply Hseen|].
      apply list_elem_of_singleton in He. congruence.
Qed.


(** A deposit is a hit with its block, its extrinsic and some prices. *)
Definition deposit_of (number : Z) (b : AtBlock) (h : Hit) (d : Deposit) : Prop :=
  dp_block_number d = number /\ dp_block_hash d = block_hash b /\
  dp_extrinsic_index d = hit_xt h /\ dp_event_index d = hit_event h /\
  dp_coldkey d = hit_coldkey h /\ dp_hotkey d = hit_hotkey h /\ dp_netuid d = hit_netuid h /\
  dp_alpha d = hit_alpha h /\ dp_tao_value d = hit_tao h /\
  from_extrinsic (block_extrinsics b) (hit_xt h) (dp_extrinsic_hash d) (dp_from d).

Lemma price_hits_ok number b hashes ok prices hits w ds w' :
  hashes_from (block_extrinsics b) hashes ->
  price_hits number b hashes ok prices hits w = (Ok ds, w') ->
  Forall2 (deposit_of number b) (filter (fun h => hit_xt h ∈ ok) hits) ds /\
  exists prices', prices ⊆ prices' /\
    Forall (fun d => prices' !! dp_netuid d = Some (dp_spot_price d, dp_moving_price d)) ds.
Proof.
  intros Hhashes. revert prices w ds. induction hits as [|h hits IH]; intros prices w ds Hp;
    cbn [price_hits] in Hp.
  { injection Hp as <- <-. split; [constructor|]. exists prices. by split. }
  destruct (negb _) eqn:Hok.
  { bool_simpl. rewrite filter_cons_False by done. eauto. }
  apply negb_false_iff, bool_decide_eq_true in Hok. rewrite filter_cons_True by done.
  run_bind Hp sm w1 Hsm. destruct sm as [spot moving].
  destruct (default _ (hashes !! hit_xt h)) as [hash from] eqn:Hhash.
  run_bind Hp rest w2 Hrest. injection Hp as <- <-.
  apply IH in Hrest as (Hds & prices' & Hsub & Hpr). split.
  - constructor; [|done]. unfold deposit_of. cbn. split_and!; try done.
    specialize (Hhashes (hit_xt h)). destruct (hashes !! hit_xt h) as [[hs a]|].
    + cbn in Hhash. injection Hhash as <- <-. left.
      destruct Hhashes as (ext & ? & ? & -> & ->). by exists ext.
    + cbn in Hhash. injection Hhash as <- <-. by right.
  - assert (Hprices : prices ⊆ <[hit_netuid h := (spot, moving)]> prices).
    { destruct (prices !! hit_netuid h) as [p|] eqn:Hlook.
      - injection Hsm as -> <-. by rewrite insert_id.
      - by apply insert_subseteq. }
    exists prices'. split; [by etrans|]. constructor; [|done]. cbn.
    eapply lookup_weaken; [|done]. apply lookup_insert_eq.
Qed.

(** What the report of a block says. *)
Definition deposits_spec (number : Z) (watched : gset AccountId32) (out : BlockDeposits) : Prop :=
  let b := canonical number in
  bd_number out = number /\ bd_block_hash out = block_hash b /\
  (exists hits,
     (forall h, h ∈ hits <-> h ∈ omap (hit_of watched) (block_events b) /\
                              succeeded (block_events b) (hit_xt h)) /\
     hits `sublist_of` omap (hit_of watched) (block_events b) /\
     Forall2 (deposit_of number b) hits (bd_deposits out)) /\
  (forall d d', d ∈ bd_deposits out -> d' ∈ bd_deposits out -> dp_netuid d = dp_netuid d' ->
     dp_spot_price d = dp_spot_price d' /\ dp_moving_price d = dp_moving_price d').

Lemma deposits_spec_empty number watched :
  omap (hit_of watched) (block_events (canonical number)) = [] ->
  deposits_spec number watched (mkBlockDeposits number (block_hash (canonical number)) []).
Proof.
  intros Hnone. unfold deposits_spec. rewrite Hnone. split_and!; [done|done| |set_solver].
  exists []. split_and!; [set_solver|done|constructor].
Qed.

Lemma no_hits_unwatched evs : omap (hit_of ∅) evs = [].
Proof.
  induction evs as [|[ev|e] l IH]; [done| |done]. cbn. unfold hit_of.
  destruct (is_event _ _ ev); [|done]. destruct (ev_phase ev); [|done..].
  destruct (ev_as_AAu64u64u16u64 ev) as [[[[[[? ?] ?] ?] ?] ?]|]; [|done].
  by rewrite bool_decide_eq_false_2 by set_solver.
Qed.

(** C28: the deposits reported for a finalized block are exactly the stakes its
    successful extrinsics credited to the watched coldkeys, one per
    [StakeAdded] event and in event order, with the amounts the event states,
    the hash and the signer of their extrinsic, and one pair of prices for
    each subnet. *)
Theorem deposits_in_block_exact (number : Z) (watched : gset AccountId32) (w w' : N)
  (out : BlockDeposits) (Hnumber : 0 <= number <= height w)
  (Hrun : deposits_in_block number watched w = (Ok out, w')) :
  deposits_spec number watched out.
Proof.
  unfold deposits_in_block in Hrun. run_bind Hrun b w1 Hb.
  apply at_block_ok in Hb as [-> Hh1]; [|done]. case_bool_decide as Hempty.
  { injection Hrun as <- <-. subst watched. apply deposits_spec_empty, no_hits_unwatched. }
  run_bind Hrun evs w2 Hevs. apply chain_eff_ok, events_law in Hevs as ->.
  run_bind Hrun hits w3 Hhits. apply m_lift_ok in Hhits as [Hhits ->].
  apply deposit_hits_ok in Hhits. destruct hits as [|h0 hs];
    [injection Hrun as <- <-; by apply deposits_spec_empty|].
  run_bind Hrun exts w4 Hexts. apply fetch_extrinsics_ok in Hexts as [-> _].
  run_bind Hrun hashes w5 Hhashes. apply m_lift_ok in Hhashes as [Hhashes ->].
  apply (extrinsic_hashes_ok []) in Hhashes; [|intros xt; rewrite lookup_empty; set_solver].
  run_bind Hrun ok w5 Hok. apply m_lift_ok in Hok as [Hok ->].
  run_bind Hrun ds w6 Hds. injection Hrun as <- <-.
  apply price_hits_ok in Hds as (Hds & prices & _ & Hpr); [|done]. unfold deposits_spec.
  rewrite <- Hhits. split_and!; [done|done| |].
  - exists (filter (fun h => hit_xt h ∈ ok) (h0 :: hs)). split_and!; [|apply sublist_filter|done].
    intros h. rewrite list_elem_of_filter, (successes_ok _ _ _ Hok). tauto.
  - intros d d' Hd Hd' Hn. rewrite Forall_forall in Hpr. apply Hpr in Hd, Hd'. cbn beta in *.
    rewrite Hn in Hd. by simplify_eq.
Qed.
End ClientTheorems.

(** The client keeps what the engine's theorems ask of a node. *)
#[export] Instance Chain_rpc_laws `{Runtime} `{Crypto} `{Ss58} {N : Type} `{!NodeApi N} `{!Host N} :
  RpcLaws N.
Proof.
  split.
  - intros call signer w pt w' Hp. cbn in Hp. unfold prepare in Hp.
    run_bind Hp b w1 Hb. run_bind Hp nonce w2 Hn. run_bind Hp tx w3 Htx. by injection Hp as <- <-.
  - intros pt w ft w' Hb. cbn in Hb. unfold broadcast in Hb.
    run_bind Hb b w1 Hcur. run_bind Hb ib w2 Hsub. run_bind Hb evs w3 Hevs. run_bind Hb s w4 Hs.
    destruct (ChainCall_expected_event _) as [pal ev]. destruct (negb _); [done|].
    by injection Hb as <- <-.
Qed.

(** * A concrete chain: its world is the finalized height *)
Module ToyChain.
Import Toy ToyKeys.

Record toy_ext := mkToyExt {
  tx_index : Z;
  tx_hash : string;
  tx_address : option (list Byte.byte);
  tx_nonce : Z;
  tx_call : string;
  tx_events : list toy_event }.

Definition toy_answer {A} (a : A) : M nat string A := m_ret a.
Definition miner : AccountId32 := mkAccountId32 (replicate 32 Byte.x4d).
Definition treasury : AccountId32 := mkAccountId32 (replicate 32 Byte.x54).
Definition deposit : AccountId32 := mkAccountId32 (replicate 32 Byte.x44).
Definition address_of (a : AccountId32) : option (list Byte.byte) := Some (Byte.x00 :: acc_bytes a).
Definition success : toy_event := mkToyEvent "System" "ExtrinsicSuccess" (ApplyExtrinsic 1) 2 [] [].

(** Block 5 funds the deposit account; in block 7 a stranger stakes on it; in
    block 8 a failed extrinsic reports a stake. *)
Definition toy_block (n : Z) : list toy_ext :=
  if n =? 5 then
    [ mkToyExt 0 "0xtime" None 0 "timestamp" [];
      mkToyExt 1 "0xfund" (address_of treasury) 3 "transfer_keep_alive"
        [mkToyEvent "Balances" "Transfer" (ApplyExtrinsic 1) 0 [treasury; deposit] [700]; success] ]
  else if n =? 7 then
    [ mkToyExt 1 "0xstake" (address_of miner) 0 "transfer_stake"
        [mkToyEvent PALLET "StakeAdded" (ApplyExtrinsic 1) 0 [deposit; miner] [9; 8; 1; 0]; success] ]
  else if n =? 8 then
    [ mkToyExt 1 "0xlost" (address_of miner) 1 "transfer_stake"
        [mkToyEvent PALLET "StakeAdded" (ApplyExtrinsic 1) 0 [deposit; miner] [9; 8; 1; 0]] ]
  else [].

#[export] Instance toy_api : NodeApi nat := {|
  AtBlock := Z;
  Extrinsic := toy_ext;
  SignedTx := string * list Byte.byte;
  InBlock := string;
  api_genesis_hash := "0xgenesis";
  at_current_block := fun h => (Ok (Z.of_nat h), h);
  at_block n := fun h => (if (0 <=? n) && (n <=? Z.of_nat h) then Ok n else Err "no block", h);
  block_number b := b;
  block_hash b := "0xblock" +:+ u64_display b;
  fetch_events b := toy_answer (Ok <$> (toy_block b ≫= tx_events));
  fetch_extrinsics b := toy_answer (Ok <$> toy_block b);
  ext_index := tx_index;
  ext_hash := tx_hash;
  ext_address_bytes := tx_address;
  ext_nonce e := Some (tx_nonce e);
  ext_call_data_bytes e := bytes_of_string (tx_call e);
  ext_events e := toy_answer (Ok <$> tx_events e);
  call_data b p := Ok (bytes_of_string p.1.2);
  try_fetch_account b who :=
    toy_answer (if bool_decide (who = treasury) then Some (Ok (1000, 3)) else None);
  fetch_owner b hotkey := toy_answer (Ok treasury);
  fetch_moving_price b netuid := toy_answer (Ok (SV_I128 4294967296));
  constant_existential_deposit b := Ok 500;
  call_stake_info b who := toy_answer [mkRawStakeInfo miner 1 40];
  call_stake_infos b l := toy_answer ((fun a => (a, [mkRawStakeInfo miner 1 40])) <$> l);
  call_current_alpha_price b netuid := toy_answer 1000000000;
  call_query_info b tx := toy_answer (replicate 11 Byte.x00);
  account_nonce b who := toy_answer 3;
  create_signed b p signer params := toy_answer ("0xsigned", bytes_of_string p.1.2);
  signed_hash := fst;
  signed_encoded := snd;
  submit_finalized b bytes := toy_answer "0xblock9";
  in_block_hash s := s;
  wait_for_success s := toy_answer [Ok (success : @Event toy_runtime)] |}.

#[export] Instance toy_chain : FinalizedChain nat.
Proof.
  refine {| height h := Z.of_nat h;
            canonical n := n : @AtBlock _ _ nat toy_api;
            block_extrinsics b := Ok <$> toy_block b;
            block_events b := Ok <$> (toy_block b ≫= tx_events);
            extrinsic_events e := Ok <$> tx_events e;
            account_state b who := if bool_decide (who = treasury) then Some (Ok (1000, 3)) else None |}.
  all: try (intros; cbn in *; lia).
  - intros w b w' Hb. injection Hb as <- <-. exists (Z.of_nat w). split; [lia|done].
  - intros n w b w' Hn Hb. cbn in Hb. destruct (_ && _); [|done]. by injection Hb as <- <-.
  - intros b w l w' Hl. by injection Hl as <- <-.
  - intros b w l w' Hl. by injection Hl as <- <-.
  - intros e w l w' Hl. by injection Hl as <- <-.
  - intros b who w l w' Hl. by injection Hl as <- <-.
Defined.

Definition toy_journal (hash : string) (birth : Z) : PendingTx :=
  {| pd_action := Action_Fund; pd_reservation := Some "tok"; pd_signer := ss58 treasury; pd_nonce := 3;
     pd_tx_hash := hash; pd_birth_block := birth; pd_amount := 700 |}.

(** One verdict of each kind. *)
Lemma find_pending_sound_witness :
  (exists s, find_pending (toy_journal "0xfund" 2) 9%nat = (Ok (Included "0xblock5" s), 9%nat) /\
     exists n, included_in (toy_journal "0xfund" 2) (canonical n) "0xblock5" s) /\
  (find_pending (toy_journal "0xgone" 2) 9%nat = (Ok Wait, 9%nat) /\
     absent (toy_journal "0xgone" 2) (canonical 9)) /\
  (find_pending (toy_journal "0xgone" 2) 80%nat = (Ok Dead, 80%nat) /\
     absent (toy_journal "0xgone" 2) (canonical 5)).
Proof.
  assert (Hi : exists s, find_pending (toy_journal "0xfund" 2) 9%nat = (Ok (Included "0xblock5" s), 9%nat))
    by (eexists; vm_compute; reflexivity).
  assert (Hw : find_pending (toy_journal "0xgone" 2) 9%nat = (Ok Wait, 9%nat))
    by (vm_compute; reflexivity).
  assert (Hd : find_pending (toy_journal "0xgone" 2) 80%nat = (Ok Dead, 80%nat))
    by (vm_compute; reflexivity).
  split; [|split].
  - destruct Hi as [s Hi]. exists s. split; [exact Hi|].
    destruct (find_pending_sound (toy_journal "0xfund" 2) 9%nat 9%nat (Included "0xblock5" s)
                ltac:(cbn; lia) Hi) as (hd & _ & n & _ & Hn).
    exists n. exact Hn.
  - split; [exact Hw|].
    destruct (find_pending_sound (toy_journal "0xgone" 2) 9%nat 9%nat Wait ltac:(cbn; lia) Hw)
      as (hd & Hhd & _ & Habs).
    apply Habs. cbn in Hhd. cbn. lia.
  - split; [exact Hd|].
    destruct (find_pending_sound (toy_journal "0xgone" 2) 80%nat 80%nat Dead ltac:(cbn; lia) Hd)
      as (hd & _ & _ & Habs & _).
    apply Habs. cbn. unfold MORTALITY. lia.
Defined.

Lemma deposits_in_block_exact_witness :
  exists d, deposits_in_block 7 {[ deposit ]} 9%nat = (Ok (mkBlockDeposits 7 "0xblock7" [d]), 9%nat) /\
    dp_alpha d = 8 /\ dp_from d = Some miner /\
    deposits_spec 7 {[ deposit ]} (mkBlockDeposits 7 "0xblock7" [d]).
Proof.
  assert (Hd : exists d, deposits_in_block 7 {[ deposit ]} 9%nat
                         = (Ok (mkBlockDeposits 7 "0xblock7" [d]), 9%nat) /\
                         dp_alpha d = 8 /\ dp_from d = Some miner)
    by (eexists; split; [vm_compute; reflexivity|split; vm_compute; reflexivity]).
  destruct Hd as (d & Hd & Ha & Hf). exists d. split; [exact Hd|]. split; [exact Ha|].
  split; [exact Hf|].
  apply (deposits_in_block_exact 7 {[ deposit ]} 9%nat 9%nat (mkBlockDeposits 7 "0xblock7" [d]));
    [cbn; lia|exact Hd].
Defined.

(** The event of a failed extrinsic is no deposit. *)
Example failed_stake_ignored :
  result_map bd_deposits (deposits_in_block 8 {[ deposit ]} 9%nat).1 = Ok [].
Proof. vm_compute. reflexivity. Qed.

Definition toy_manifest : LegacyManifest :=
  {| lm_job := "legacy"; lm_version := 0; lm_genesis_hash := "0xgenesis"; lm_treasury := ss58 treasury;
     lm_treasury_hotkey := ss58 miner; lm_consolidate := false; lm_return_dust := false;
     lm_budget := None; lm_first_block := 4; lm_stopped_at := 6; lm_maximum_mortality := 10;
     lm_operator_attestation := "offline shutdown and historical mortality evidence";
     lm_all_old_emitters_stopped_no_immortal_signatures := true;
     lm_transactions :=
       [ mkLegacyTransaction 5 1 (ss58 treasury) 3
           (mkTxRef "transfer_keep_alive" "0xfund" "0xblock5" 700) (TransferTao deposit 700) ] |}.
#[export] Instance upd_address : Updater pr_address := ltac:(pr_updater pr_address).
Definition toy_record : PaymentRecord :=
  test_record "legacy"
    <| pr_address := ss58 deposit |>
    <| pr_state := Funded |>
    <| pr_auto_required := None |>
    <| pr_txs := lt_receipt <$> lm_transactions toy_manifest |>
    <| pr_funded_tao := 700 |>.

Lemma archive_scan_complete_witness :
  exists events, verify_legacy_archive toy_record toy_manifest 30%nat
                 = (Ok (events, 30, "0xblock30"), 30%nat) /\
    exists acts, Forall3 explains acts (lm_transactions toy_manifest) events.
Proof.
  assert (H : exists events, verify_legacy_archive toy_record toy_manifest 30%nat
                             = (Ok (events, 30, "0xblock30"), 30%nat))
    by (eexists; vm_compute; reflexivity).
  destruct H as [events H]. exists events. split; [exact H|].
  destruct (archive_scan_complete toy_record toy_manifest 30%nat 30%nat events 30 "0xblock30"
              ltac:(cbn; unfold u64_max; lia) H)
    as (t & d & acts & _ & _ & _ & _ & _ & _ & Hex & _).
  exists acts. exact Hex.
Defined.
End ToyChain.
