(* ===== verification/NodeQueries.v ===== *)
(** The rest of the node client (src/src/chain.rs): the head that is not yet
    finalized, block timestamps, the stream of finalized blocks, and the batched
    stake query against the reference that asks one account at a time. *)
From S2P Require Import Prelude RustStd Types Units Keys State Chain StoreSpec Engine ChainClient.
From Stdlib Require Import Ascii Strings.Byte.
Local Open Scope Z_scope.

(** What these queries add to [NodeApi]: the [number] of [chain_getHeader], a
    client at a block hash, the timestamp in a block's storage, the items
    the block stream yields, and the runtime's version and metadata. *)
Class HeadApi `{Runtime} `{Crypto} (N : Type) `{!NodeApi N} : Type := {
  chain_getHeader : M N string string;
  at_block_hash : string -> M N string AtBlock;
  fetch_timestamp : AtBlock -> M N string (option (result string Z));
  stream_blocks : M N string (list (result string AtBlock));
  (** the runtime at a block *)
  spec_version : AtBlock -> Z;
  metadata : AtBlock -> string -> option Pallet }.

(** ** [u64::from_str_radix(_, 16)] *)

Definition hex_val (a : ascii) : option Z :=
  let b := byte_of a in
  if is_ascii_digit a then Some (b - 48)
  else if (97 <=? b) && (b <=? 102) then Some (b - 87)
  else if (65 <=? b) && (b <=? 70) then Some (b - 55)
  else None.
Fixpoint hex_digits (acc : Z) (s : string) : option Z :=
  match s with
  | EmptyString => Some acc
  | String a s =>
      d ← hex_val a;
      v ← u64_checked_mul acc 16;
      v ← u64_checked_add v d;
      hex_digits v s
  end.
Definition u64_from_hex (s : string) : option Z :=
  match s with
  | EmptyString => None
  | String a EmptyString => hex_val a
  | String a rest => if byte_of a =? 43 then hex_digits 0 rest else hex_digits 0 s
  end.

Section Queries.
Context `{Runtime} `{Crypto} `{Ss58} {N : Type} `{!NodeApi N, !HeadApi N}.
Abbreviation Eff A := (M N Error A).

Definition best_number : Eff Z :=
  let! number := chain_eff chain_getHeader in
  m_lift (ok_or (u64_from_hex (trim_start_matches "0x" number))
            (Error_Chain "bad best header number")).

Definition block_timestamp_ms (hash : string) : Eff Z :=
  let! at_ := chain_eff (at_block_hash hash) in
  let! v := chain_eff (fetch_timestamp at_) in
  let! v := m_lift (ok_or v (Error_Chain "block timestamp unavailable")) in
  m_lift (chain_err v).

(** A stream is the list of its items. *)
Definition finalized_blocks : Eff (list (result Error Z)) :=
  let! s := chain_eff stream_blocks in
  m_ret ((fun b => result_map block_number (chain_err b)) <$> s).

(** [Chain::verify_metadata], of the runtime at the finalized head. *)
Definition chain_verify_metadata : Eff (list string) :=
  let! at_ := chain_eff at_current_block in
  m_lift (verify_metadata (spec_version at_) (metadata at_)).

(** ** The batched stake query and its reference *)

Fixpoint stakes_one_by_one (at_ : AtBlock) (out : gmap AccountId32 (list StakePosition))
  (coldkeys : list AccountId32) : Eff (gmap AccountId32 (list StakePosition)) :=
  match coldkeys with
  | [] => m_ret out
  | ck :: coldkeys =>
      let! raw := chain_eff (call_stake_info at_ ck) in
      stakes_one_by_one at_ (<[ck := positions_of raw]> out) coldkeys
  end.
Definition stake_positions_reference (coldkeys : list AccountId32)
  : Eff (gmap AccountId32 (list StakePosition)) :=
  let! at_ := chain_eff at_current_block in
  stakes_one_by_one at_ ∅ coldkeys.

End Queries.

(** [StakeInfoRuntimeApi]: both calls read the same state of a block, and the
    batched one answers for the accounts it is asked about. *)
Class StakeInfoLaws `{Runtime} `{Crypto} (N : Type) `{!NodeApi N} : Type := {
  stake_info : AtBlock -> AccountId32 -> list RawStakeInfo;
  stake_info_law : forall b who w raw w',
    call_stake_info b who w = (Ok raw, w') -> raw = stake_info b who;
  stake_infos_law : forall b l w infos w',
    call_stake_infos b l w = (Ok infos, w') -> infos = (fun who => (who, stake_info b who)) <$> l }.

(** * Theorems *)
Section Theorems.
Context `{Runtime} `{Crypto} `{Ss58} {N : Type} `{!NodeApi N, !StakeInfoLaws N}.

Lemma chunks_go_concat fuel l : (length l <= fuel)%nat -> concat (chunks_go fuel l) = l.
Proof.
  revert l. induction fuel as [|fuel IH]; intros l Hl.
  { by destruct l; [|cbn in Hl; lia]. }
  destruct l as [|a l]; [done|]. cbn [chunks_go concat].
  rewrite IH; [apply take_drop|]. rewrite length_drop. cbn [length] in *. lia.
Qed.

Lemma chunks_bounded fuel l : Forall (fun c => (length c <= 64)%nat) (chunks_go fuel l).
Proof.
  revert l. induction fuel as [|fuel IH]; intros l; [constructor|].
  destruct l as [|a l]; [constructor|]. cbn [chunks_go]. constructor; [|apply IH].
  rewrite length_take. lia.
Qed.

(** What both queries compute. *)
Definition stake_table (b : AtBlock) (out : gmap AccountId32 (list StakePosition))
  (coldkeys : list AccountId32) : gmap AccountId32 (list StakePosition) :=
  foldl (fun out who => <[who := positions_of (stake_info b who)]> out) out coldkeys.

Lemma stake_chunks_ok b out l w m w' :
  stake_chunks b out l w = (Ok m, w') -> m = stake_table b out (concat l).
Proof.
  revert out w. induction l as [|c l IH]; intros out w Hm.
  { by injection Hm as <- _. }
  cbn [stake_chunks] in Hm. run_bind Hm infos w1 Hinfos. apply chain_eff_ok in Hinfos.
  apply stake_infos_law in Hinfos as ->. apply IH in Hm as ->. cbn [concat].
  unfold stake_table. rewrite foldl_app. f_equal. clear. revert out.
  induction c as [|who c IH]; intros out; [done|]. cbn. by rewrite IH.
Qed.

Lemma stakes_one_by_one_ok b out l w m w' :
  stakes_one_by_one b out l w = (Ok m, w') -> m = stake_table b out l.
Proof.
  revert out w. induction l as [|who l IH]; intros out w Hm.
  { by injection Hm as <- _. }
  cbn [stakes_one_by_one] in Hm. run_bind Hm raw w1 Hraw. apply chain_eff_ok in Hraw.
  apply stake_info_law in Hraw as ->. by apply IH in Hm as ->.
Qed.

Lemma stake_table_lookup b out l who :
  stake_table b out l !! who =
  if decide (who ∈ l) then Some (positions_of (stake_info b who)) else out !! who.
Proof.
  revert out. induction l as [|a l IH]; intros out.
  { by rewrite decide_False by apply not_elem_of_nil. }
  change (stake_table b out (a :: l)) with (stake_table b (<[a := positions_of (stake_info b a)]> out) l).
  rewrite IH. destruct (decide (who ∈ l)) as [Hin|Hni].
  { by rewrite decide_True by (by right). }
  destruct (decide (who = a)) as [->|Hne].
  - by rewrite lookup_insert_eq, decide_True by (by left).
  - rewrite lookup_insert_ne, decide_False by (rewrite ?elem_of_cons; naive_solver). done.
Qed.

(** C29: the batched stake query is equivalent to asking one account at a time:
    whenever both answer from the same node, their tables are equal, and each
    watched account, and no other, is listed with exactly the positions that
    [stake_positions] answers for it; no request carries more than 64
    accounts. *)
Theorem stake_batch_equivalent (coldkeys : list AccountId32) (w w1 w2 : N)
  (m m' : gmap AccountId32 (list StakePosition))
  (Hbatch : stake_positions_many coldkeys w = (Ok m, w1))
  (Hsingle : stake_positions_reference coldkeys w = (Ok m', w2)) :
  m = m' /\
  (forall who, is_Some (m !! who) <-> who ∈ coldkeys) /\
  (forall who l w3, who ∈ coldkeys -> stake_positions who w = (Ok l, w3) -> m !! who = Some l) /\
  Forall (fun c => (length c <= 64)%nat) (chunks coldkeys).
Proof.
  unfold stake_positions_many in Hbatch. run_bind Hbatch b wb Hb.
  unfold stake_positions_reference in Hsingle. run_bind Hsingle b' wb' Hb'.
  rewrite Hb in Hb'. injection Hb' as <- <-.
  apply stake_chunks_ok in Hbatch. apply stakes_one_by_one_ok in Hsingle.
  unfold chunks in Hbatch. rewrite chunks_go_concat in Hbatch by lia. subst m m'.
  split; [done|]. split; [|split].
  - intros who. rewrite stake_table_lookup. destruct (decide _) as [Hin|Hni]; [done|].
    rewrite lookup_empty. split; [by intros []|done].
  - intros who l w3 Hin Hl. unfold stake_positions in Hl. run_bind Hl b1 wl Hb1.
    rewrite Hb in Hb1. injection Hb1 as <- <-. run_bind Hl raw wr Hraw.
    apply chain_eff_ok in Hraw. apply stake_info_law in Hraw as ->. injection Hl as <- _.
    by rewrite stake_table_lookup, decide_True.
  - apply chunks_bounded.
Qed.
End Theorems.

(** * Witness *)
Import Toy ToyKeys ToyChain.

#[export] Instance toy_stake_info : StakeInfoLaws nat.
Proof.
  refine {| stake_info (b : @AtBlock _ _ nat toy_api) who := [mkRawStakeInfo miner 1 40] |}.
  - intros b who w raw w' Hr. by injection Hr as <- _.
  - intros b l w infos w' Hr. by injection Hr as <- _.
Defined.

Definition toy_watched : list AccountId32 := [deposit; treasury; miner].

Lemma stake_batch_equivalent_witness :
  exists m m', stake_positions_many toy_watched 9%nat = (Ok m, 9%nat) /\
    stake_positions_reference toy_watched 9%nat = (Ok m', 9%nat) /\ m = m' /\
    m !! deposit = Some [mkStakePosition miner 1 40].
Proof.
  assert (Hm : exists m, stake_positions_many toy_watched 9%nat = (Ok m, 9%nat))
    by (eexists; reflexivity).
  assert (Hm' : exists m', stake_positions_reference toy_watched 9%nat = (Ok m', 9%nat))
    by (eexists; reflexivity).
  destruct Hm as [m Hm], Hm' as [m' Hm']. exists m, m'.
  destruct (stake_batch_equivalent toy_watched 9%nat 9%nat 9%nat m m' Hm Hm') as (Heq & _ & Hq & _).
  split; [exact Hm|]. split; [exact Hm'|]. split; [exact Heq|].
  apply (Hq deposit _ 9%nat); [by left|reflexivity].
Defined.

(** The header's number: hexadecimal, with or without the prefix. *)
Example header_numbers :
  u64_from_hex (trim_start_matches "0x" "0x4d2") = Some 1234 /\
  u64_from_hex (trim_start_matches "0x" "FFFFFFFFFFFFFFFF") = Some u64_max /\
  u64_from_hex (trim_start_matches "0x" "0x10000000000000000") = None /\
  u64_from_hex (trim_start_matches "0x" "0x") = None /\
  u64_from_hex (trim_start_matches "0x" "0x12g") = None.
Proof. vm_compute. done. Qed.
