(* ===== verification/ChainEngine.v ===== *)
(** The engine on the node client (src/src/engine.rs on src/src/chain.rs): what
    the finalized chain says is what becomes of a journaled transaction. *)
From S2P Require Import Prelude RustStd Types Units Keys State Chain.
From S2P Require Import StoreSpec SqliteStore Engine JobSpec EngineProofs ChainClient.
Local Open Scope Z_scope.

(** ** The writes of a run *)
Section Writes.
Context `{Crypto} `{!Ss58} {St N : Type} `{!StoreOps St} `{!StoreView St} `{!StoreLaws St}
  `{!EngineEnv N} `{!RpcLaws N} `{!Peers N St} `{!PeersLaws N St} (e : Engine).

Abbreviation W := (World St N).
Abbreviation Eff A := (M W Error A).

#[local] Hint Resolve quiet_good derived_quiet : engine.

(** [w'] follows [w], and every record written on the way satisfies [Q]. *)
Definition wrote (Q : PaymentRecord -> Prop) (w w' : W) : Prop :=
  exists t, w_trace w' = w_trace w ++ t /\ forall x, O_write x ∈ t -> Q x.

(** [m] is quiet and writes only records that satisfy [Q]. *)
Definition writing {A} (Q : PaymentRecord -> Prop) (m : Eff A) (P : A -> W -> Prop) (w : W) : Prop :=
  wp m (fun res w' => quiet w w' /\ wrote Q w w' /\
                      match res with Ok a => P a w' | Err _ => True end) w.

Lemma wrote_refl Q w : wrote Q w w.
Proof.
  exists []. split; [by rewrite app_nil_r|]. intros x Hx. by apply not_elem_of_nil in Hx.
Qed.

Lemma wrote_trans Q a b c : wrote Q a b -> wrote Q b c -> wrote Q a c.
Proof.
  intros (t & Ht & Hx) (u & Hu & Hy). exists (t ++ u). split; [by rewrite Hu, Ht, app_assoc|].
  intros x [Hin|Hin]%elem_of_app; auto.
Qed.

Lemma writing_bind {A B} Q (m : Eff A) (k : A -> Eff B) P R w :
  writing Q m P w -> (forall a w', quiet w w' -> P a w' -> writing Q (k a) R w') ->
  writing Q (m_bind m k) R w.
Proof.
  unfold writing. intros Hm Hk. apply wp_bind. apply (wp_mono _ _ _ _ Hm).
  intros [a|er] w' (Hq & Hw & HP); [|done].
  apply (wp_mono _ _ _ _ (Hk _ _ Hq HP)). intros res w'' (Hq' & Hw' & Hres).
  split; [by eapply quiet_trans|]. split; [by eapply wrote_trans|done].
Qed.

(** What leaves the trace alone writes nothing. *)
Lemma writing_silent {A} Q (m : Eff A) P w :
  quietly m P w -> w_trace (m w).2 = w_trace w -> writing Q m P w.
Proof.
  unfold quietly, writing, wp. destruct (m w) as [res w']. cbn. intros [Hq HP] Ht.
  split; [done|]. split; [|done]. unfold wrote. rewrite Ht. apply (wrote_refl Q w).
Qed.

Lemma writing_outside {A} Q (m : M N Error A) w :
  good (w_store w) -> writing Q (outside m) (fun a w' => m (w_env w) = (Ok a, w_env w')) w.
Proof.
  intros Hg. apply writing_silent; [by apply quietly_outside|].
  unfold outside. by destruct (m (w_env w)).
Qed.

Lemma writing_ret {A} Q (a : A) (P : A -> W -> Prop) w :
  good (w_store w) -> P a w -> writing Q (m_ret a) P w.
Proof. intros Hg HP. apply writing_silent; [by apply quietly_ret|done]. Qed.

Lemma writing_observe (Q : PaymentRecord -> Prop) o w :
  good (w_store w) -> signs o = false -> (forall x, o = O_write x -> Q x) ->
  writing Q (observe o) (fun _ _ => True) w.
Proof.
  intros Hg Ho HQ. pose proof (quietly_observe o w Hg Ho) as Hq.
  unfold quietly, writing, wp, observe in *. cbn in *. destruct Hq as [Hq _].
  split; [done|]. split; [|done]. exists [o]. split; [done|].
  intros x Hx. apply list_elem_of_singleton in Hx. by apply HQ.
Qed.

Lemma writing_update (Q : PaymentRecord -> Prop) r w :
  good (w_store w) -> derived r (w_store w) -> (forall t, Q (bump t r)) ->
  writing Q (store_update r) (fun _ _ => True) w.
Proof.
  intros Hg Hd HQ. unfold store_update.
  eapply (writing_bind _ _ _ (fun next _ => exists t, next = bump t r)).
  - apply writing_silent.
    + apply (quietly_store _ (fun next _ => exists t, next = bump t r)); [done|]. intros s env Hgs He.
      apply (wp_mono _ _ _ _ (update_good r env s Hgs (derived_evolves _ _ _ Hd He))).
      intros res s' (? & ? & Hres). split_and!; try done. by destruct res; [destruct Hres|].
    + unfold on_store. destruct (env_store (w_env w)) as [env n].
      by destruct (update_record r env (peers (w_env w) (w_store w))).
  - intros next w1 Hq [t ->]. eapply (writing_bind _ _ _ (fun _ _ => True)).
    + apply writing_observe; [apply Hq|done|]. by intros x [= <-].
    + intros [] w2 Hq2 _. by apply writing_ret; [apply Hq2|].
Qed.

(** A journal is resolved by the node's answer alone. *)
Lemma writing_resolve (Q : PaymentRecord -> Prop) r p w :
  good (w_store w) -> derived r (w_store w) -> pr_pending r = Some p ->
  (forall n, rpc_find_pending p (w_env w) = (Ok Dead, n) ->
     forall t, Q (bump t (r <| pr_pending := None |>))) ->
  (forall n hash s, rpc_find_pending p (w_env w) = (Ok (Included hash s), n) ->
     forall at_ t, Q (bump t (applied_included r p hash s (cfg_max_attempts (en_cfg e)) at_))) ->
  writing Q (resolve_pending e r p) (fun _ _ => True) w.
Proof.
  intros Hg Hd Hp Hdead Hinc. unfold resolve_pending, reconcile_journaled.
  rewrite (bool_decide_eq_true_2 _ Hp). cbn [negb].
  eapply (writing_bind _ _ _ (fun _ _ => True)).
  - eapply writing_bind; [by apply writing_outside|]. intros outcome w1 Hq1 Hout. cbn beta in Hout.
    destruct outcome as [| |hash s].
    + apply writing_ret; eauto with engine.
    + eapply writing_bind.
      { apply writing_update; [eauto with engine| |by eapply Hdead].
        eapply derived_micro; [|by eapply mi_drop]. eauto with engine. }
      intros next w2 Hq2 _. apply writing_ret; eauto with engine.
    + eapply (writing_bind _ _ _ (fun _ _ => True)).
      { apply writing_silent; [apply quietly_now; eauto with engine|].
        unfold now, sample, outside. by destruct (env_now (w_env w1)). }
      intros at_ w2 Hq2 _. assert (Hd2 : derived r (w_store w2)) by eauto with engine.
      eapply writing_bind.
      { apply writing_update; [eauto with engine| |by intros t; eapply Hinc].
        by eapply derived_micro; [exact Hd2|apply applied_included_micro]. }
      intros next w3 Hq3 _. apply writing_ret; eauto with engine.
  - intros [changed r'] w1 Hq1 _. eapply (writing_bind _ _ _ (fun _ _ => True)).
    + destruct changed; [|by apply writing_ret; [apply Hq1|]]. unfold announce_if_final.
      destruct (_ || _); [|by apply writing_ret; [apply Hq1|]].
      apply writing_observe; [apply Hq1|done|]. intros x Hx. discriminate Hx.
    + intros [] w2 Hq2 _. apply writing_ret; eauto with engine.
Qed.
End Writes.

Section OnChain.
Context `{Runtime} `{Crypto} `{!Ss58} {St N : Type} `{!NodeApi N} `{!FinalizedChain N} `{!Host N}
  `{!StoreOps St} `{!StoreView St} `{!StoreLaws St} `{!Peers N St} `{!PeersLaws N St} (e : Engine).

(** C20: what becomes of a journaled transaction is the finalized chain's
    decision.  A step on a record with a journal writes the record only on a verdict
    of the node's finalized blocks, up to a head at least as high as what was
    finalized when the step began: either a block of the window holds the
    transaction, and what is written is what its events make of the record; or the
    head is past the whole window, no block of the window holds it, so that being
    mortal it never will be, and what is written is the record without the journal,
    free to send again.  While the chain says neither, nothing is written. *)
Theorem journal_resolved_by_chain (r : PaymentRecord) (p : PendingTx)
  (positions : gmap AccountId32 (list StakePosition)) (w w' : World St N) (res : Result bool)
  (Hgood : good (w_store w)) (Hheld : held r (w_store w)) (Hpend : pr_pending r = Some p)
  (Hbirth : 0 <= pd_birth_block p) (Hstep : step e r positions w = (res, w')) :
  exists t, w_trace w' = w_trace w ++ t /\
    forall written, O_write written ∈ t -> exists outcome answered head,
      find_pending p (w_env w) = (Ok outcome, answered) /\
      height (w_env w) <= head <= height answered /\
      match outcome with
      | Included hash s => exists n at_ now,
          pd_birth_block p <= n <= Z.min head (pd_birth_block p + MORTALITY + 1) /\
          included_in p (canonical n) hash s /\
          written = bump now (applied_included r p hash s (cfg_max_attempts (en_cfg e)) at_)
      | Dead => exists now,
          pd_birth_block p + MORTALITY + 1 < head /\
          (forall n, pd_birth_block p <= n <= pd_birth_block p + MORTALITY + 1 -> absent p (canonical n)) /\
          (mortal p -> forall n ext, 0 <= n -> Ok ext ∈ block_extrinsics (canonical n) ->
             ext_hash ext <> pd_tx_hash p) /\
          written = bump now (r <| pr_pending := None |>)
      | Wait => False
      end.
Proof.
  match goal with |- exists t, _ /\ forall x, _ -> @?Q x => change (wrote Q w w'); set (P := Q) end.
  unfold step in Hstep. rewrite Hpend in Hstep.
  destruct (negb _) in Hstep; [injection Hstep as _ <-; apply wrote_refl|].
  destruct (is_some _) in Hstep; [injection Hstep as _ <-; apply wrote_refl|].
  change (resolve_pending e r p w = (res, w')) in Hstep.
  pose proof (writing_resolve e P r p w Hgood (held_derived _ _ Hheld) Hpend) as Hw.
  unfold writing, wp in Hw. rewrite Hstep in Hw. refine (proj1 (proj2 (Hw _ _))).
  - intros n Hf t. exists Dead, n. cbn in Hf.
    destruct (find_pending_verdict p (w_env w) n Dead Hbirth Hf) as (head & Hh & Hlt & Habs).
    exists head. split; [exact Hf|]. split; [done|]. exists t. split_and!; try done.
    intros Hm k ext. by apply dead_forever.
  - intros n hash s Hf at_ t. exists (Included hash s), n. cbn in Hf.
    destruct (find_pending_verdict p (w_env w) n (Included hash s) Hbirth Hf) as (head & Hh & k & Hk & Hin).
    exists head. split; [exact Hf|]. split; [done|]. by exists k, at_, t.
Qed.
End OnChain.

(** * Both verdicts on the concrete chain *)
Module OnToyChain.
Import ToyKeys Toy ToyChain.

#[export] Instance toy_host : Host nat := {|
  host_now n := (1000, n);
  host_random k n := (replicate k Byte.x61, n);
  host_uuid n := ("job-1", n);
  host_store n := (mkSEnv 1000 "tok" NoFault, n);
  host_webhook secret url st := m_ret tt |}.
#[export] Instance toy_alone : Peers nat Sqlite := fun _ db => db.
#[export] Instance toy_alone_laws : PeersLaws nat Sqlite.
Proof. intros n db Hg. by split. Qed.

Definition chain_engine : @Engine toy_crypto :=
  Engine_new (Keyring_from_master (toy_key Byte.x01)) (replicate 32 Byte.x54)
    (Config_new "ws://127.0.0.1:9944" 1 miner).

(** A job about to be funded, and the same with the journal written. *)
Definition found_job : PaymentRecord :=
  new_record (N := nat) chain_engine "job" (ss58 deposit) 0 None 0 u64_max Detected
    (test_record "job").(pr_sealed_secret) None None None.
Definition sent_job (hash : string) : PaymentRecord :=
  found_job <| pr_pending := Some (toy_journal hash 2) |>.
Definition db_fenced : Sqlite :=
  (reserve (ss58 treasury) "job" None (mkSEnv 1 "tok" NoFault) SqliteStore_init).2.
Definition chain_world (hash : string) (finalized : nat) : World Sqlite nat :=
  mkWorld (sqlite_insert (sent_job hash) (mkSEnv 1 EmptyString NoFault) db_fenced).2 finalized [].

Lemma sent_job_ok hash : job_ok (sent_job hash).
Proof.
  apply (micro_job_ok found_job).
  - apply mi_journal; [reflexivity..|]. vm_compute. split; [reflexivity|discriminate].
  - apply new_record_ok. by right.
Qed.

Lemma chain_world_good hash finalized : good (w_store (chain_world hash finalized)).
Proof.
  assert (Hp : db_payments db_fenced = ∅) by (vm_compute; reflexivity).
  assert (Hinit : store_ok db_fenced) by (cbn; rewrite Hp; apply map_Forall_empty).
  pose proof (insert_law (sent_job hash) (mkSEnv 1 EmptyString NoFault) db_fenced
                Hinit
                ltac:(vm_compute; split; discriminate)) as Hins.
  unfold wp in Hins. cbn [chain_world w_store].
  destruct (sqlite_insert _ _ db_fenced) as [res db] eqn:Hrun. cbn [insert_record SqliteStore_ops] in Hins.
  rewrite Hrun in Hins. destruct Hins as [Hok Hres]. cbn [snd fst] in *. split; [exact Hok|]. intros id r Hr.
  assert (Hempty : view db_fenced = ∅) by (cbn; rewrite Hp; apply fmap_empty).
  destruct res as [[]|er]; [destruct Hres as [_ Hres]|]; rewrite Hres, Hempty in Hr.
  - apply lookup_insert_Some in Hr as [[_ <-]|[_ Hr]]; [apply sent_job_ok|by rewrite lookup_empty in Hr].
  - by rewrite lookup_empty in Hr.
Qed.

(** The funding found in block 5, and one that is in no block of its window. *)
Lemma journal_resolved_by_chain_witness :
  let included := (step chain_engine (sent_job "0xfund") ∅ (chain_world "0xfund" 9)).2 in
  let dead := (step chain_engine (sent_job "0xgone") ∅ (chain_world "0xgone" 80)).2 in
  (pr_state <$> view (w_store included) !! "job") = Some Funded /\
  (exists t, w_trace included = w_trace (chain_world "0xfund" 9) ++ t /\
     forall x, O_write x ∈ t -> exists hash s n, included_in (toy_journal "0xfund" 2) (canonical n) hash s) /\
  (pr_pending <$> view (w_store dead) !! "job") = Some None /\
  (exists t, w_trace dead = w_trace (chain_world "0xgone" 80) ++ t /\
     forall x, O_write x ∈ t -> absent (toy_journal "0xgone" 2) (canonical 5)).
Proof.
  intros included dead.
  split; [vm_compute; reflexivity|]. split; [|split; [vm_compute; reflexivity|]].
  - destruct (journal_resolved_by_chain chain_engine (sent_job "0xfund") (toy_journal "0xfund" 2) ∅
                (chain_world "0xfund" 9) included (step chain_engine (sent_job "0xfund") ∅
                (chain_world "0xfund" 9)).1) as (t & Ht & Hx).
    + apply chain_world_good.
    + apply (good_held _ "job"); [apply chain_world_good|vm_compute; reflexivity|reflexivity].
    + reflexivity.
    + cbn. lia.
    + apply surjective_pairing.
    + exists t. split; [exact Ht|]. intros x Hin.
      destruct (Hx x Hin) as (outcome & answered & head & Hf & _ & Hv).
      assert (Hi : exists s, find_pending (toy_journal "0xfund" 2) 9%nat
                             = (Ok (Included "0xblock5" s), 9%nat)) by (eexists; vm_compute; reflexivity).
      destruct Hi as [s Hi]. cbn [w_env chain_world] in Hf. rewrite Hi in Hf. injection Hf as <- <-.
      destruct Hv as (n & _ & _ & _ & Hn & _). exists "0xblock5", s, n. exact Hn.
  - destruct (journal_resolved_by_chain chain_engine (sent_job "0xgone") (toy_journal "0xgone" 2) ∅
                (chain_world "0xgone" 80) dead (step chain_engine (sent_job "0xgone") ∅
                (chain_world "0xgone" 80)).1) as (t & Ht & Hx).
    + apply chain_world_good.
    + apply (good_held _ "job"); [apply chain_world_good|vm_compute; reflexivity|reflexivity].
    + reflexivity.
    + cbn. lia.
    + apply surjective_pairing.
    + exists t. split; [exact Ht|]. intros x Hin.
      destruct (Hx x Hin) as (outcome & answered & head & Hf & _ & Hv).
      assert (Hd : find_pending (toy_journal "0xgone" 2) 80%nat = (Ok Dead, 80%nat))
        by (vm_compute; reflexivity).
      cbn [w_env chain_world] in Hf. rewrite Hd in Hf. injection Hf as <- <-.
      destruct Hv as (now & _ & Habs & _). apply Habs. cbn. unfold MORTALITY. lia.
Defined.
End OnToyChain.
