(* ===== verification/EngineTheorems.v ===== *)
(** What the engine guarantees: the theorems on [Engine], for every store that
    keeps the contract, every node and every peer that keeps the protocol; the
    SQLite store is one ([SqliteStore_laws]), and [ToyNode] runs the engine on
    it. *)
From S2P Require Import Prelude RustStd Types Units Keys State Chain.
From S2P Require Import StoreSpec SqliteStore Engine JobSpec EngineProofs ToyNode.
From Stdlib Require Import Strings.Byte.
Local Open Scope Z_scope.

Section Theorems.
Context `{Crypto} `{!Ss58} {St N : Type} `{!StoreOps St} `{!StoreView St} `{!StoreLaws St}
  `{!EngineEnv N} `{!RpcLaws N} `{!Peers N St} `{!PeersLaws N St} (e : Engine).

(** C1: journal before broadcast.  Whatever the node answers and whatever
    fails, in every pass over the open payments each transaction that is
    broadcast comes right after a successful write of its record, whose
    journal names that transaction's signer, nonce, hash, birth block and
    amount; and it is the one call its action stands for: fees to the payment
    wallet, stake and dust from it to the treasury, consolidation onto the
    treasury hotkey, a purchase for exactly the job's budget with no partial
    fill, and the destruction of exactly what was bought. *)
Theorem tick_journals_before_broadcast (w w' : World St N) (res : Result Z)
  (Hgood : good (w_store w)) (Htick : tick e w = (res, w')) :
  exists t, w_trace w' = w_trace w ++ t /\ journaled e t.
Proof. by apply (wp_run _ _ _ _ _ (follows_tick e w Hgood) Htick). Qed.

(** C3: the engine refines the job protocol.  Over any number of
    subscriptions and any finalized blocks, with errors at any point, [run]
    leaves a consistent store in which every job has advanced by protocol steps only,
    none is lost, and every job satisfies the protocol's invariant. *)
Theorem engine_refines_protocol (sessions : list Session) (w w' : World St N)
  (res : Result unit)
  (Hgood : good (w_store w)) (Hrun : run e sessions w = (res, w')) :
  good (w_store w') /\ evolves (w_store w) (w_store w').
Proof.
  destruct (wp_run _ _ _ _ _ (follows_run e sessions w Hgood) Hrun) as (Hg & He & _). done.
Qed.

(** C12: a step of one payment makes at most one broadcast, and it is
    journaled, even when the step fails. *)
Theorem step_broadcasts_at_most_once (r : PaymentRecord)
  (positions : gmap AccountId32 (list StakePosition)) (w w' : World St N) (res : Result bool)
  (Hgood : good (w_store w)) (Hheld : held r (w_store w))
  (Hstep : step e r positions w = (res, w')) :
  exists t, w_trace w' = w_trace w ++ t /\ (broadcasts t <= 1)%nat /\ journaled e t.
Proof.
  pose proof (sending_step e r positions w Hgood Hheld) as Hs. unfold sending in Hs.
  destruct (wp_run _ _ _ _ _ Hs Hstep) as (_ & _ & t & Ht & Hj & Hb). by exists t.
Qed.

(** C7: while a transaction is journaled the record takes no new action: a
    step only reconciles it, signing and broadcasting nothing. *)
Theorem pending_only_reconciles (r : PaymentRecord) (p : PendingTx)
  (positions : gmap AccountId32 (list StakePosition)) (w w' : World St N) (res : Result bool)
  (Hgood : good (w_store w)) (Hheld : held r (w_store w)) (Hpend : pr_pending r = Some p)
  (Hstep : step e r positions w = (res, w')) :
  (exists t, w_trace w' = w_trace w ++ t /\ Forall (fun o => signs o = false) t) /\
  evolves (w_store w) (w_store w').
Proof.
  assert (Hq : quietly (step e r positions) (fun _ _ => True) w).
  { unfold step. destruct (negb _); [by apply quietly_throw|].
    destruct (is_some _); [by apply quietly_ret|].
    rewrite Hpend. cbn [is_none is_some negb andb].
    by apply quietly_resolve; [|apply held_derived]. }
  unfold quietly in Hq. destruct (wp_run _ _ _ _ _ Hq Hstep) as [(_ & He & t & Ht & Hu) _].
  split; [|done]. by exists t.
Qed.

(** A record of another identity (chain, treasury, hotkey or sweep policy)
    is refused, and a quarantined one is left alone: the world does not
    change, so nothing is read, signed or written for it. *)
Theorem step_refuses_foreign_and_quarantined (r : PaymentRecord)
  (positions : gmap AccountId32 (list StakePosition)) (w : World St N) :
  (pr_identity r <> Some (job_identity e) ->
   step e r positions w = (Err (Error_Config "job execution identity missing or mismatched"), w)) /\
  (pr_identity r = Some (job_identity e) -> pr_quarantined r <> None ->
   step e r positions w = (Ok false, w)).
Proof.
  unfold step. split.
  - intros Hi. by rewrite bool_decide_eq_false_2.
  - intros Hi Hq. rewrite bool_decide_eq_true_2 by done.
    by destruct (pr_quarantined r).
Qed.

(** C4: a job that settles has done everything it was created for.  In any
    store the engine leaves behind, a settled job that requires a buyback has
    spent exactly its budget on its subnet, in a finalized transaction among
    its receipts, and, unless it keeps the alpha, has destroyed exactly the
    alpha that was bought. *)
Theorem settled_job_completed (sessions : list Session) (w w' : World St N)
  (res : Result unit) (id : string) (r : PaymentRecord)
  (Hgood : good (w_store w)) (Hrun : run e sessions w = (res, w'))
  (Hr : view (w_store w') !! id = Some r) (Hsettled : pr_state r = Settled)
  (Hreq : pr_auto_required r = Some true) :
  exists rc b, pr_buyback r = Some rc /\ pr_buyback_budget r = Some b /\
    br_tao_spent rc = bb_amount_rao b /\ br_netuid rc = bb_netuid b /\
    br_alpha_bought rc <> 0 /\ br_stake_tx rc ∈ pr_txs r /\
    (bb_destroy b <> Keep ->
     br_alpha_destroyed rc = br_alpha_bought rc /\
     exists tx, br_destroy_tx rc = Some tx /\ tx ∈ pr_txs r).
Proof.
  destruct (wp_run _ _ _ _ _ (follows_run e sessions w Hgood) Hrun) as ([_ Hok] & _).
  specialize (Hok id r Hr).
  destruct (ok_settled _ Hok Hsettled) as (req & Hreq' & Hdone).
  rewrite Hreq in Hreq'. injection Hreq' as <-. destruct (Hdone eq_refl) as [Hd _].
  destruct (ok_done _ Hok Hd) as (rc & b & Hrc & Hb & Hcomplete).
  destruct (ok_purchase _ Hok rc Hrc) as (_ & (b' & Hb' & Hsp & Hn & _) & Hne & Hin & Hdt).
  rewrite Hb in Hb'. injection Hb' as <-.
  exists rc, b. split_and!; try done. intros Hk.
  destruct Hcomplete as [?|Hs]; [done|]. apply is_some_true in Hs as [tx Htx].
  rewrite Htx in Hdt. destruct Hdt as [Hda Hin']. split; [done|]. by exists tx.
Qed.
End Theorems.

(** C11: what has been done is never undone nor done twice.  Along any sequence
    of protocol steps the stage, the receipts, the swept positions and the
    consolidation count only grow, no hotkey is swept twice, the funding
    of the wallet is settled once it is funded, a purchase is never replaced or
    repeated, and identity, budget and sealed secret are fixed. *)
Theorem job_never_repeats_work `{Ss58} (r r' : PaymentRecord)
  (Hok : job_ok r) (Hrun : rtc job_step r r') :
  progress r <= progress r' /\
  pr_txs r `prefix_of` pr_txs r' /\
  pr_swept_positions r `prefix_of` pr_swept_positions r' /\
  NoDup (fst <$> pr_swept_positions r') /\
  pr_consolidated r <= pr_consolidated r' <= Z.of_nat (length (pr_swept_positions r')) /\
  (2 <= progress r -> pr_funded_tao r' = pr_funded_tao r) /\
  (forall rc, pr_buyback r = Some rc -> exists rc', pr_buyback r' = Some rc' /\
     br_stake_tx rc' = br_stake_tx rc /\ br_tao_spent rc' = br_tao_spent rc /\
     br_alpha_bought rc' = br_alpha_bought rc /\
     (br_destroy_tx rc <> None -> rc' = rc)) /\
  pr_identity r' = pr_identity r /\ pr_buyback_budget r' = pr_buyback_budget r /\
  pr_sealed_secret r' = pr_sealed_secret r.
Proof.
  pose proof (history_ok _ _ Hrun Hok) as Hok'.
  destruct (history_grows _ _ Hrun Hok) as [Hp Ht Hs Hc _ _ Hf Hb].
  destruct (history_same _ _ Hrun) as (Hsame & _ & _). unfold same_job in Hsame.
  destruct_and! Hsame. split_and!; try done; try apply Hok'.
  intros rc Hrc. destruct (Hb rc Hrc) as (rc' & Hrc' & Hst & Hsp & Hal & Hsame').
  exists rc'. split_and!; try done. intros Hd. apply Hsame'. by destruct (br_destroy_tx rc).
Qed.

(** ** Requests *)

(** [OsRng] fills the buffer it is given. *)
Class RandomLaws (N : Type) `{EngineEnv N} : Prop :=
  env_random_length : forall k n, length (env_random k n).1 = k.

Section Requests.
Context `{CryptoLaws} `{!MnemonicLaws} `{!Ss58} {St N : Type} `{!StoreOps St} `{!StoreView St}
  `{!StoreLaws St} `{!EngineEnv N} `{!RpcLaws N} `{!RandomLaws N} `{!Peers N St}
  `{!PeersLaws N St} (e : Engine).

(** C19: a payment request is backed by a wallet the engine can open.  When
    [create_payment] answers, the record it promised is stored, pending, with
    the engine's identity and budget and nothing done, the address belongs to
    the sealed wallet, and the engine opens that wallet again; nothing has
    been signed. *)
Theorem create_payment_reopens (opts : CreatePayment) (w w' : World St N) (req : PaymentRequest)
  (Hgood : good (w_store w)) (Hkeys : keyring_ok (en_keyring e))
  (Hcreate : create_payment e opts w = (Ok req, w')) :
  (exists t, w_trace w' = w_trace w ++ t /\ Forall (fun o => signs o = false) t) /\
  exists r wl, view (w_store w') !! rq_id req = Some r /\
    pr_id r = rq_id req /\ pr_address r = rq_address req /\ pr_expires_at r = rq_expires_at req /\
    pr_state r = Pending /\ pr_pending r = None /\ pr_txs r = [] /\
    pr_min_alpha r = default (cfg_min_alpha (en_cfg e)) (cp_min_alpha opts) /\
    pr_identity r = Some (job_identity e) /\
    pr_buyback_budget r = cfg_buyback_budget (en_cfg e) /\
    wallet e r = Ok wl /\ ss58 (PaymentWallet_account_id wl) = rq_address req.
Proof.
  pose proof (quietly_create_payment e opts w Hgood) as Hq. unfold quietly in Hq.
  destruct (wp_run _ _ _ _ _ Hq Hcreate) as [(_ & _ & Ht) (r & Hv & Hc)].
  split; [exact Ht|].
  destruct Hc as (entropy & wl & nonce & t & [n1 Hent] & [n2 Hnon] & Hgen & Haddr & Hseal & Hr &
    Hmin & Hexp & Hnet & Htao).
  exists r, wl. split; [exact Hv|].
  assert (Hwl : wallet e r = Ok wl).
  { unfold wallet. rewrite Hr. cbn [pr_derivation_path pr_sealed_secret pr_id pr_address new_record].
    unfold PaymentWallet_unseal_with.
    destruct (keyring_sealed_opens (en_keyring e) (en_keyring e) nonce (pw_secret wl)
      (wallet_aad (rq_id req) (rq_address req)) (pr_sealed_secret r)) as [_ Hopen];
      [done|by rewrite Hnon, env_random_length|done|exact Hseal|].
    rewrite Hopen. cbn [result_bind].
    rewrite (generated_from_secret entropy wl); [|by rewrite Hent, env_random_length|done].
    cbn [result_bind]. by rewrite Haddr, bool_decide_eq_true_2. }
  split_and!; try done; rewrite Hr; done.
Qed.

(** C26: a sweep job is created only for the wallet the seed derives at the
    path, and only when that wallet has the expected address; it starts
    [detected], and nothing is signed. *)
Theorem create_sweep_job_checks_address (id path expected : string) (metadata : option Json)
  (w w' : World St N) (st : PaymentStatus)
  (Hgood : good (w_store w))
  (Hcreate : create_sweep_job e id path expected metadata w = (Ok st, w')) :
  exists r wl seed, view (w_store w') !! id = Some r /\ st = status r /\
    en_seed e = Some seed /\ DerivationSeed_wallet seed path = Ok wl /\
    ss58 (PaymentWallet_account_id wl) = expected /\ pr_address r = expected /\
    pr_state r = Detected /\ pr_identity r = Some (job_identity e) /\ wallet e r = Ok wl.
Proof.
  pose proof (quietly_create_sweep_job e id path expected metadata w Hgood) as Hq.
  unfold quietly in Hq.
  destruct (wp_run _ _ _ _ _ Hq Hcreate)
    as [_ (r & wl & seed & Hv & Hst & Hseed & Hwl & Haddr & Hra & Hs & Hp & Hi)].
  exists r, wl, seed. split_and!; try done.
  unfold wallet. rewrite Hp, Hseed, Hwl. cbn [result_bind].
  by rewrite bool_decide_eq_true_2 by congruence.
Qed.
End Requests.

(** ** Termination of the consolidation loop *)

Section Consolidation.
Context `{Crypto} `{!Ss58} {St N : Type} `{!StoreOps St} `{!StoreView St} `{!StoreLaws St}
  `{!EngineEnv N} `{!RpcLaws N} `{!Peers N St} `{!PeersLaws N St} (e : Engine).

Lemma fuel_step (r : PaymentRecord) fuel ha :
  0 <= pr_consolidated r ->
  pr_swept_positions r !! Z.to_nat (pr_consolidated r) = Some ha ->
  (consolidation_fuel r <= S fuel)%nat ->
  forall t, (consolidation_fuel (bump t (r <| pr_consolidated := (pr_consolidated r + 1)%Z |>)) <= fuel)%nat.
Proof.
  intros Hc Hl Hf t. apply lookup_lt_Some in Hl. unfold consolidation_fuel, bump in *. pr_cbn.
  rewrite Z2Nat.inj_add by lia. change (Z.to_nat 1) with 1%nat. lia.
Qed.

(** C22: the [while] loop of the consolidation terminates: each turn of the
    loop consolidates one position, so the number of positions left is enough
    fuel, and more fuel never changes the result. *)
Theorem consolidation_terminates (fuel extra : nat) (r : PaymentRecord) (w : World St N)
  (Hgood : good (w_store w)) (Hderived : derived r (w_store w)) (Hready : ready r)
  (Hfuel : (consolidation_fuel r <= fuel)%nat) :
  consolidate_loop e (fuel + extra) r w = consolidate_loop e fuel r w.
Proof.
  revert r w Hgood Hderived Hready Hfuel.
  induction fuel as [|fuel IH]; intros r w Hg Hd Hr Hf.
  - cbn [Nat.add]. destruct extra; [done|]. cbn [consolidate_loop].
    rewrite lookup_ge_None_2; [done|]. unfold consolidation_fuel in Hf. lia.
  - cbn [Nat.add consolidate_loop].
    destruct (pr_swept_positions r !! _) as [[hotkey a]|] eqn:Hl; [|done].
    unfold m_bind, m_lift. destruct (parse_ss58 hotkey) as [hk|]; [|done].
    set (m := if bool_decide _ then _ else _).
    assert (Hm : quietly m (fun _ _ => True) w).
    { unfold m. case_bool_decide; [by apply quietly_ret|].
      eapply quietly_mono; [by apply quietly_outside|done]. }
    unfold quietly, wp in Hm. destruct (m w) as [[live|] w1]; [|done]. cbn [fst snd] in Hm.
    destruct Hm as [Hq1 _]. destruct (live =? 0); [|done].
    destruct Hr as (Hst & Hp & Hqu).
    assert (Hd1 : derived (r <| pr_consolidated := pr_consolidated r + 1 |>) (w_store w1)).
    { eapply derived_micro; [by eapply derived_quiet|]. by eapply mi_skip. }
    pose proof (quietly_update _ w1 (quiet_good _ _ Hq1) Hd1) as Hu. unfold quietly, wp in Hu.
    destruct (store_update _ w1) as [[next|] w2]; [|done]. cbn [fst snd] in Hu.
    destruct Hu as [Hq2 [Hh (t & ->)]]. apply IH.
    + exact (quiet_good _ _ Hq2).
    + by apply held_derived.
    + done.
    + eapply fuel_step; [|exact Hl|exact Hf]. apply (derived_ok _ _ Hd).
Qed.
End Consolidation.

(** ** Receipts *)

(** What [apply] looks at before it takes the receipt of a journaled action. *)
Definition receipt_shown (r : PaymentRecord) (p : PendingTx) (amount : Z) (s : EventSummary) : Prop :=
  match pd_action p with
  | Action_Fund =>
      can_transition (pr_state r) Funded = true /\
      (pr_state r = Failed -> pr_failed_from r = Some Funded)
  | Action_Sweep _ => EventSummary_has s PALLET "StakeTransferred" = true
  | Action_Consolidate _ | Action_ReturnDust => True
  | Action_BuyStake _ _ =>
      exists alpha, es_stake_added s = Some (amount, alpha) /\ alpha <> 0
  | Action_Destroy _ _ =>
      exists b, pr_buyback r = Some b /\ es_alpha_destroyed s = Some (br_alpha_bought b) /\
        br_alpha_bought b <> 0
  end.

Lemma apply_shown r p tx s :
  pr_pending r = Some p -> is_ok (apply r tx s) = true <-> receipt_shown r p (tx_amount tx) s.
Proof.
  intros Hpend. unfold receipt_shown.
  rewrite is_ok_true. split.
  - intros [r' Ha]. apply apply_inv in Ha as (p' & r1 & Hp' & _ & Ha).
    rewrite Hpend in Hp'. injection Hp' as <-. cbn zeta in Ha. destruct (pd_action p); try done.
    + apply transition_inv in Ha as (Hc & Hres & _). split; [exact Hc|]. intros Hf.
      destruct (Hres Hf) as [?|[? ?]]; done.
    + apply Ha.
    + destruct Ha as (alpha & ? & ? & _). eauto.
    + destruct Ha as (b & ? & ? & ? & _). eauto.
  - intros Hok. unfold apply. rewrite Hpend. cbn [fmap option_fmap option_map ok_or result_bind].
    destruct (pd_action p).
    + destruct Hok as [Hc Hf]. unfold transition. pr_cbn. rewrite Hc. cbn [negb orb].
      destruct (decide (pr_state r = Failed)) as [Hs|Hs].
      * rewrite (bool_decide_eq_true_2 (pr_failed_from r = Some Funded)) by auto.
        rewrite orb_true_r. cbn [orb negb result_bind]. eauto.
      * rewrite (bool_decide_eq_false_2 (pr_state r = Failed)) by done.
        cbn [orb negb result_bind]. eauto.
    + rewrite Hok. cbn [negb result_bind]. eauto.
    + cbn [result_bind]. eauto.
    + cbn [result_bind]. eauto.
    + destruct Hok as (alpha & -> & Hne). cbn [ok_or result_bind].
      rewrite Z.eqb_refl. apply Z.eqb_neq in Hne. rewrite Hne. cbn [negb orb result_bind]. eauto.
    + destruct Hok as (b & Hb & -> & Hne). pr_cbn. rewrite Hb. cbn [ok_or result_bind].
      rewrite Z.eqb_refl. apply Z.eqb_neq in Hne. rewrite Hne. cbn [negb orb result_bind]. eauto.
Qed.

(** What an action that is taken for done makes of the record: its receipt, and the
    progress that is its own. *)
Definition action_applied (r : PaymentRecord) (p : PendingTx) (s : EventSummary) (tx : TxRef)
  (next : PaymentRecord) : Prop :=
  pr_txs next = pr_txs r ++ [tx] /\ pr_quarantined next = pr_quarantined r /\
  pr_attempts next = 0 /\
  match pd_action p with
  | Action_Fund =>
      pr_state next = Funded /\ pr_funded_tao next = u64_add (pr_funded_tao r) (tx_amount tx)
  | Action_Sweep hotkey =>
      pr_swept_alpha next = u64_add (pr_swept_alpha r) (tx_amount tx) /\
      pr_swept_positions next = pr_swept_positions r ++ [(hotkey, tx_amount tx)]
  | Action_Consolidate _ => pr_consolidated next = pr_consolidated r + 1
  | Action_ReturnDust => pr_dust_returned next = true
  | Action_BuyStake netuid limit_price =>
      exists alpha, es_stake_added s = Some (tx_amount tx, alpha) /\
        pr_buyback next = Some (mkBuybackReceipt netuid (tx_amount tx) alpha limit_price tx None 0)
  | Action_Destroy _ _ =>
      pr_buyback_done next = true /\
      exists b, pr_buyback r = Some b /\
        pr_buyback next = Some (mkBuybackReceipt (br_netuid b) (br_tao_spent b) (br_alpha_bought b)
                                  (br_limit_price b) (br_stake_tx b) (Some tx) (br_alpha_bought b))
  end.

Lemma apply_applied r p tx s next :
  pr_pending r = Some p -> apply r tx s = Ok next ->
  pr_pending next = None /\ action_applied r p s tx next.
Proof.
  intros Hpend Ha. apply apply_inv in Ha as (p' & r1 & Hp' & -> & Ha).
  rewrite Hpend in Hp'. injection Hp' as <-. unfold action_applied, finished. cbn zeta in Ha. pr_cbn.
  destruct (pd_action p).
  - apply transition_inv in Ha as (_ & _ & _ & _ & ->). by pr_cbn.
  - destruct Ha as [_ ->]. by pr_cbn.
  - subst r1. by pr_cbn.
  - subst r1. by pr_cbn.
  - destruct Ha as (alpha & Hs & _ & ->). pr_cbn. split_and!; try done. by exists alpha.
  - destruct Ha as (b & Hb & _ & _ & ->). pr_cbn. split_and!; try done. by exists b.
Qed.

(** C21: what the engine checks of a finalized extrinsic before it takes the
    journaled action for done, exactly: funding, that the job can be funded; a
    sweep, its [StakeTransferred]; a purchase, [StakeAdded] for the whole amount
    and some alpha; a destruction, exactly the alpha of the purchase receipt; a
    consolidation and the return of dust, nothing but the extrinsic's success.
    When a journaled transaction is found finalized, a failed extrinsic leaves
    the receipts as they were; a receipt that shows the action is applied, filed with
    the others and counted as the action's progress; one that does not is kept
    among the receipts, with the journal set aside in quarantine and no progress
    made. *)
Theorem apply_accepts_exactly (r : PaymentRecord) (p : PendingTx) (s : EventSummary)
  (block_hash : string) (max_attempts t : Z) (Hpend : pr_pending r = Some p) :
  let tx := mkTxRef (action_name (pd_action p)) (pd_tx_hash p) block_hash (pd_amount p) in
  let next := applied_included r p block_hash s max_attempts t in
  (is_ok (apply r tx s) = true <-> receipt_shown r p (pd_amount p) s) /\
  pr_pending next = None /\
  (es_failed s = true -> pr_txs next = pr_txs r /\ progress next = progress r) /\
  (es_failed s = false -> receipt_shown r p (pd_amount p) s ->
     apply r tx s = Ok next /\ action_applied r p s tx next) /\
  (es_failed s = false -> ~ receipt_shown r p (pd_amount p) s ->
     pr_quarantined next = Some p /\ pr_txs next = pr_txs r ++ [tx] /\ progress next = progress r /\
     pr_swept_positions next = pr_swept_positions r /\ pr_consolidated next = pr_consolidated r /\
     pr_dust_returned next = pr_dust_returned r /\ pr_buyback next = pr_buyback r).
Proof.
  intros tx next. pose proof (apply_shown r p tx s Hpend) as Hshown. cbn [tx_amount tx] in Hshown.
  assert (Hp : forall r0 m n, progress (record_failure r0 m n t) = progress r0)
    by (intros; unfold progress; by rewrite record_failure_stage).
  unfold next, applied_included. fold tx. split; [exact Hshown|].
  destruct (es_failed s).
  { rewrite Hp, record_failure_inv. by pr_cbn. }
  destruct (apply r tx s) as [applied|err] eqn:Ha.
  - destruct (apply_applied r p tx s applied Hpend Ha) as [Hnone Happ].
    split; [exact Hnone|]. split; [done|]. split; [done|].
    intros _ Hno. by destruct Hno, Hshown as [Hs _]; apply Hs.
  - split; [by rewrite record_failure_inv; pr_cbn|]. split; [done|]. split.
    + intros _ Hs. by apply Hshown in Hs.
    + intros _ _. rewrite Hp, record_failure_inv. by pr_cbn.
Qed.

(** The receipt a job with budget [b] must show. *)
Definition receipt_complete (b : BuybackBudget) (rc : BuybackReceipt) : Prop :=
  br_tao_spent rc = bb_amount_rao b /\ br_netuid rc = bb_netuid b /\ br_alpha_bought rc <> 0 /\
  tx_block_hash (br_stake_tx rc) <> EmptyString /\
  (bb_destroy b <> Keep ->
   br_alpha_destroyed rc = br_alpha_bought rc /\
   exists tx, br_destroy_tx rc = Some tx /\ tx_block_hash tx <> EmptyString /\
     tx_action tx = if bool_decide (bb_destroy b = Burn) then "burn_alpha" else "recycle_alpha").

(** The settlement check accepts a job exactly when it has a valid budget
    and a receipt that spends it all on its subnet and destroys, by the call the
    budget names, all the alpha bought. *)
Theorem validate_completed_buyback_exact `{Ss58} (r : PaymentRecord) :
  validate_completed_buyback r = Ok tt <->
  exists b rc, pr_buyback_budget r = Some b /\ pr_buyback r = Some rc /\
    BuybackBudget_validate b = Ok tt /\ receipt_complete b rc.
Proof.
  assert (Hempty : forall s, str_is_empty s = false <-> s <> EmptyString) by (by intros []).
  unfold validate_completed_buyback, receipt_complete. split.
  - intros Hv. apply result_bind_ok in Hv as (b & Hb & Hv). apply ok_or_ok in Hb.
    apply result_bind_ok in Hv as ([] & Hval & Hv).
    apply result_bind_ok in Hv as (rc & Hrc & Hv). apply ok_or_ok in Hrc.
    destruct (_ || _) eqn:Hg in Hv; [done|]. clear Hv.
    repeat (apply orb_false_iff in Hg as [Hg ?]). bool_simpl.
    exists b, rc. split_and!; try done; [by apply Hempty|]. intros Hk.
    rewrite bool_decide_eq_false_2 in * by done. cbn [negb andb] in *.
    match goal with Hd : _ || _ = false |- _ => apply orb_false_iff in Hd as [Hd1 Hd2] end.
    bool_simpl. split; [done|]. destruct (br_destroy_tx rc) as [tx|]; [|done].
    apply orb_false_iff in Hd2 as [He Ha]. bool_simpl.
    exists tx. split_and!; try done. by apply Hempty.
  - intros (b & rc & -> & -> & Hval & Hsp & Hn & Hne & Hbh & Hd).
    cbn [ok_or result_bind]. rewrite Hval. cbn [result_bind].
    rewrite Hsp, Hn, !Z.eqb_refl. apply Z.eqb_neq in Hne. apply Hempty in Hbh.
    rewrite Hne, Hbh. cbn [negb orb]. destruct (decide (bb_destroy b = Keep)) as [Hk|Hk];
      [by rewrite (bool_decide_eq_true_2 _ Hk)|rewrite (bool_decide_eq_false_2 _ Hk)].
    cbn [negb andb]. destruct (Hd Hk) as (Hda & tx & -> & Htb & Hact). apply Hempty in Htb.
    by rewrite Hda, Z.eqb_refl, Htb, Hact, bool_decide_eq_true_2.
Qed.

(** * Witnesses *)
Import ToyKeys.

Definition world_detected : World Sqlite Node := ticks 1 world_created.
Definition world_funding : World Sqlite Node := (tick toy_engine world_detected).2.

Lemma world_detected_good : good (w_store world_detected).
Proof. apply ticks_good, world_created_good. Qed.

Lemma tick_journals_before_broadcast_witness :
  broadcasts (w_trace world_funding) = 1%nat /\
  exists t, w_trace world_funding = w_trace world_detected ++ t /\ journaled toy_engine t.
Proof.
  split; [vm_compute; reflexivity|].
  apply (tick_journals_before_broadcast toy_engine world_detected world_funding
           (tick toy_engine world_detected).1 world_detected_good (surjective_pairing _)).
Defined.

(** The node is down, comes up, and drops the subscription once. *)
Definition toy_sessions : list Session :=
  [Err (Error_Chain "connection refused"); Ok (toy_blocks 3 ++ [Err (Error_Chain "closed"); Ok 7]);
   Ok (toy_blocks 5)].
Definition world_settled : World Sqlite Node := (run toy_engine toy_sessions world_created).2.
Definition settled_job : PaymentRecord :=
  match toy_job world_settled with Some r => r | None => test_record "" end.

Lemma engine_refines_protocol_witness :
  toy_job world_created <> None /\
  good (w_store world_settled) /\ evolves (w_store world_created) (w_store world_settled).
Proof.
  split; [vm_compute; discriminate|].
  apply (engine_refines_protocol toy_engine toy_sessions world_created world_settled
           (run toy_engine toy_sessions world_created).1 world_created_good
           (surjective_pairing _)).
Defined.

Definition detected_job : PaymentRecord :=
  match toy_job world_detected with Some r => r | None => test_record "" end.

Lemma detected_job_held : held detected_job (w_store world_detected).
Proof.
  apply (good_held _ toy_id); [apply world_detected_good|vm_compute; reflexivity..].
Qed.

Lemma step_broadcasts_at_most_once_witness :
  let w' := (step toy_engine detected_job ∅ world_detected).2 in
  broadcasts (w_trace w') = 1%nat /\
  exists t, w_trace w' = w_trace world_detected ++ t /\ (broadcasts t <= 1)%nat /\
    journaled toy_engine t.
Proof.
  intros w'. split; [vm_compute; reflexivity|].
  apply (step_broadcasts_at_most_once toy_engine detected_job ∅ world_detected w'
           (step toy_engine detected_job ∅ world_detected).1 world_detected_good
           detected_job_held (surjective_pairing _)).
Defined.

(** The engine stopped between the journal and the broadcast. *)
Definition crashed_db : Sqlite :=
  let r := detected_job in
  let db := (reserve (ss58 (account_of Byte.x54)) (pr_id r) (Some (pr_version r))
               (mkSEnv 5 "tok" NoFault) (w_store world_detected)).2 in
  (sqlite_update (r <| pr_pending := Some
    {| pd_action := Action_Fund; pd_reservation := Some "tok";
       pd_signer := ss58 (account_of Byte.x54); pd_nonce := 3; pd_tx_hash := "0xlost";
       pd_birth_block := 10; pd_amount := 150500 |} |>) (mkSEnv 6 "" NoFault) db).2.
Definition world_crashed : World Sqlite Node := mkWorld crashed_db (mkNode 1100 50) [].
Definition crashed_job : PaymentRecord :=
  match toy_job world_crashed with Some r => r | None => test_record "" end.
Definition crashed_pending : PendingTx :=
  match pr_pending crashed_job with Some p => p | None => toy_pending end.

(** Journaling by hand is a protocol step too. *)
Lemma crashed_step : job_step detected_job crashed_job.
Proof.
  exists (detected_job <| pr_pending := Some crashed_pending |>), 6.
  split; [|vm_compute; reflexivity]. apply rtc_once, mi_journal; [vm_compute; reflexivity..|].
  unfold journal_allowed. vm_compute. split; [reflexivity|discriminate].
Qed.

Lemma world_crashed_good : good (w_store world_crashed).
Proof.
  pose proof world_detected_good as [Hok Hg].
  assert (Hd : view (w_store world_detected) !! toy_id = Some detected_job)
    by (vm_compute; reflexivity).
  assert (Hv : view (w_store world_crashed) = {[ toy_id := crashed_job ]})
    by (vm_compute; reflexivity).
  split.
  - cbn [store_ok SqliteStore_view]. intros id row Hrow.
    assert (id = toy_id) as ->.
    { destruct (decide (id = toy_id)) as [|Hne]; [done|exfalso].
      assert (Hnone : view (w_store world_crashed) !! id = None)
        by (rewrite Hv; by apply lookup_singleton_ne).
      cbn [view SqliteStore_view] in Hnone. by rewrite lookup_fmap, Hrow in Hnone. }
    vm_compute in Hrow. injection Hrow as <-.
    split; [reflexivity|]. split; [split; vm_compute; discriminate|]. by split.
  - intros id r Hr. rewrite Hv in Hr. apply lookup_singleton_Some in Hr as [<- <-].
    exact (job_step_ok _ _ crashed_step (Hg _ _ Hd)).
Qed.

Lemma pending_only_reconciles_witness :
  let w' := (step toy_engine crashed_job ∅ world_crashed).2 in
  (pr_pending <$> toy_job w') = Some None /\
  exists t, w_trace w' = w_trace world_crashed ++ t /\ Forall (fun o => signs o = false) t.
Proof.
  intros w'. split; [vm_compute; reflexivity|].
  assert (Hh : held crashed_job (w_store world_crashed)).
  { apply (good_held _ toy_id); [apply world_crashed_good|vm_compute; reflexivity..]. }
  assert (Hp : pr_pending crashed_job = Some crashed_pending) by (vm_compute; reflexivity).
  destruct (pending_only_reconciles toy_engine crashed_job crashed_pending ∅ world_crashed w'
              (step toy_engine crashed_job ∅ world_crashed).1 world_crashed_good Hh Hp
              (surjective_pairing _)) as [Ht _].
  exact Ht.
Defined.

Lemma settled_job_completed_witness :
  pr_state settled_job = Settled /\
  exists rc b, pr_buyback settled_job = Some rc /\ pr_buyback_budget settled_job = Some b /\
    br_tao_spent rc = bb_amount_rao b /\ br_alpha_destroyed rc = br_alpha_bought rc.
Proof.
  assert (Hst : pr_state settled_job = Settled) by (vm_compute; reflexivity).
  split; [exact Hst|].
  destruct (settled_job_completed toy_engine toy_sessions world_created world_settled
              (run toy_engine toy_sessions world_created).1 toy_id settled_job
              world_created_good (surjective_pairing _)) as (rc & b & Hrc & Hb & Hsp & _ & _ & _ & Hd);
    [vm_compute; reflexivity|exact Hst|vm_compute; reflexivity|].
  exists rc, b. split; [exact Hrc|]. split; [exact Hb|]. split; [exact Hsp|].
  apply Hd. intros Hk. vm_compute in Hb. injection Hb as <-. discriminate Hk.
Defined.

Definition created_job : PaymentRecord :=
  match toy_job world_created with Some r => r | None => test_record "" end.

Lemma created_job_ok : job_ok created_job.
Proof. apply world_created_good with (id := toy_id). vm_compute. reflexivity. Qed.

Lemma settled_job_history : rtc job_step created_job settled_job.
Proof.
  assert (He : evolves (w_store world_created) (w_store world_settled))
    by apply (follows_run toy_engine toy_sessions world_created world_created_good).
  specialize (He toy_id).
  assert (H1 : view (w_store world_created) !! toy_id = Some created_job) by (vm_compute; reflexivity).
  assert (H2 : view (w_store world_settled) !! toy_id = Some settled_job) by (vm_compute; reflexivity).
  by rewrite H1, H2 in He.
Qed.

Lemma job_never_repeats_work_witness :
  progress created_job = 0 /\ progress settled_job = 4 /\
  pr_txs created_job `prefix_of` pr_txs settled_job.
Proof.
  split; [vm_compute; reflexivity|]. split; [vm_compute; reflexivity|].
  apply (job_never_repeats_work created_job settled_job created_job_ok settled_job_history).
Defined.

#[export] Instance toy_random_laws : RandomLaws (H := toy_crypto) Node.
Proof. intros k n. cbn. apply length_replicate. Qed.

Definition toy_request : PaymentRequest :=
  match (create_payment toy_engine CreatePayment_default world0).1 with
  | Ok req => req
  | Err _ => {| rq_id := ""; rq_address := ""; rq_netuid := 0; rq_min_alpha := 0;
                rq_min_tao := None; rq_expires_at := 0 |}
  end.

Lemma create_payment_reopens_witness :
  create_payment toy_engine CreatePayment_default world0 = (Ok toy_request, world_created) /\
  exists r wl, view (w_store world_created) !! rq_id toy_request = Some r /\
    wallet toy_engine r = Ok wl /\ ss58 (PaymentWallet_account_id wl) = rq_address toy_request.
Proof.
  assert (Hc : create_payment toy_engine CreatePayment_default world0 = (Ok toy_request, world_created)).
  { unfold world_created, toy_request.
    destruct (create_payment toy_engine CreatePayment_default world0) as [[req|er] w'] eqn:Hc;
      [reflexivity|]. exfalso.
    assert (Hok : is_ok (create_payment toy_engine CreatePayment_default world0).1 = true)
      by (vm_compute; reflexivity).
    rewrite Hc in Hok. discriminate Hok. }
  split; [exact Hc|].
  assert (Hk : keyring_ok (en_keyring toy_engine)) by (vm_compute; reflexivity).
  destruct (create_payment_reopens toy_engine CreatePayment_default world0 world_created toy_request
              world0_good Hk Hc) as [_ (r & wl & Hv & _ & _ & _ & _ & _ & _ & _ & _ & _ & Hw & Ha)].
  exists r, wl. split; [exact Hv|]. split; [exact Hw|exact Ha].
Defined.

Definition toy_seed : DerivationSeed := mkDerivationSeed (replicate 32 Byte.x73).
Definition seeded_engine : @Engine toy_crypto := Engine_with_seed toy_engine toy_seed.
Definition toy_deposit : string :=
  match DerivationSeed_wallet toy_seed "//deposit//7" with
  | Ok w => ss58 (PaymentWallet_account_id w)
  | Err _ => ""
  end.
Definition sweep_created : Result PaymentStatus * World Sqlite Node :=
  create_sweep_job seeded_engine "s1" "//deposit//7" toy_deposit None world0.
Definition sweep_status : PaymentStatus :=
  match sweep_created.1 with Ok st => st | Err _ => status (test_record "") end.

Lemma create_sweep_job_checks_address_witness :
  st_state sweep_status = Detected /\
  exists r wl, view (w_store sweep_created.2) !! "s1" = Some r /\ wallet seeded_engine r = Ok wl.
Proof.
  split; [vm_compute; reflexivity|].
  assert (Hc : create_sweep_job seeded_engine "s1" "//deposit//7" toy_deposit None world0
               = (Ok sweep_status, sweep_created.2)).
  { unfold sweep_status. fold sweep_created.
    destruct sweep_created as [[st|er] w'] eqn:Hc; [reflexivity|]. exfalso.
    assert (Hok : is_ok sweep_created.1 = true) by (vm_compute; reflexivity).
    rewrite Hc in Hok. discriminate Hok. }
  destruct (create_sweep_job_checks_address seeded_engine "s1" "//deposit//7" toy_deposit None world0
              sweep_created.2 sweep_status world0_good Hc)
    as (r & wl & _ & Hv & _ & _ & _ & _ & _ & _ & _ & Hw).
  exists r, wl. split; [exact Hv|exact Hw].
Defined.

(** Two swept positions on the treasury hotkey itself: nothing to move. *)
Definition swept_positions_job : PaymentRecord :=
  match toy_job (ticks 4 world_created) with Some r => r | None => test_record "" end.

Lemma consolidation_terminates_witness :
  consolidation_fuel swept_positions_job = 1%nat /\
  consolidate_loop toy_engine (1 + 5) swept_positions_job (ticks 4 world_created) =
  consolidate_loop toy_engine 1 swept_positions_job (ticks 4 world_created).
Proof.
  split; [vm_compute; reflexivity|].
  assert (Hg : good (w_store (ticks 4 world_created))) by (apply ticks_good, world_created_good).
  assert (Hh : held swept_positions_job (w_store (ticks 4 world_created)))
    by (apply (good_held _ toy_id); [exact Hg|vm_compute; reflexivity..]).
  apply (consolidation_terminates toy_engine 1 5 swept_positions_job (ticks 4 world_created) Hg
           (held_derived _ _ Hh)).
  - unfold ready. vm_compute. repeat split.
  - vm_compute. reflexivity.
Defined.

Definition bought_pending : PendingTx :=
  {| pd_action := Action_BuyStake 1 7; pd_reservation := Some "t"; pd_signer := "5t"; pd_nonce := 1;
     pd_tx_hash := "0x1"; pd_birth_block := 1; pd_amount := 2000000 |}.
Definition bought_job : PaymentRecord :=
  test_record "b" <| pr_state := Swept |> <| pr_pending := Some bought_pending |>.
Definition bought_tx : TxRef :=
  {| tx_action := "add_stake_limit"; tx_tx_hash := "0x1"; tx_block_hash := "0xb"; tx_amount := 2000000 |}.

Lemma apply_accepts_exactly_witness :
  is_ok (apply bought_job bought_tx
           (EventSummary_default <| es_stake_added := Some (2000000, 42) |>)) = true /\
  pr_quarantined (applied_included bought_job bought_pending "0xb"
                    (EventSummary_default <| es_stake_added := Some (1999999, 42) |>) 5 9)
    = Some bought_pending.
Proof.
  split.
  - destruct (apply_accepts_exactly bought_job bought_pending
                (EventSummary_default <| es_stake_added := Some (2000000, 42) |>) "0xb" 5 9 eq_refl)
      as [Hiff _].
    apply Hiff. exists 42. split; [reflexivity|discriminate].
  - destruct (apply_accepts_exactly bought_job bought_pending
                (EventSummary_default <| es_stake_added := Some (1999999, 42) |>) "0xb" 5 9 eq_refl)
      as (_ & _ & _ & _ & Hq).
    apply Hq; [reflexivity|]. intros (alpha & Hs & _). discriminate Hs.
Defined.

(** ** Findings *)

(** A finalized [move_stake] whose summary shows no [StakeMoved], or no event at
    all, counts as a consolidation once it is found on the chain: only [broadcast]
    checks the call's expected event. *)
Example consolidation_without_event :
  let p := {| pd_action := Action_Consolidate "5hot"; pd_reservation := Some "t"; pd_signer := "5t";
              pd_nonce := 1; pd_tx_hash := "0x1"; pd_birth_block := 1; pd_amount := 9 |} in
  let r := bought_job <| pr_pending := Some p |> in
  EventSummary_has EventSummary_default PALLET "StakeMoved" = false /\
  pr_consolidated (applied_included r p "0xb" EventSummary_default 5 9) = pr_consolidated r + 1.
Proof. vm_compute. split; reflexivity. Qed.

(** [retry] and [force_sweep] do not look at the state they resume from: an
    unpaid pending request moves to [detected]. *)
Example retry_detects_unpaid :
  pr_state <$> toy_job world_created = Some Pending /\
  (result_map st_state (retry toy_id world_created).1 = Ok Detected) /\
  (result_map st_state (force_sweep toy_id world_created).1 = Ok Detected).
Proof. vm_compute. repeat split. Qed.

(** An expiry near [u64::MAX] wraps: the request has expired when it is made. *)
Example expiry_wraps :
  let opts := mkCreatePayment None (Some u64_max) None None in
  match (create_payment toy_engine opts world0).1 with
  | Ok req => rq_expires_at req <? 1000
  | Err _ => false
  end = true.
Proof. vm_compute. reflexivity. Qed.
