(* ===== verification/Liveness.v ===== *)
(** Liveness: on a responsive node every accepted job settles.

    The engine runs alone on the SQLite store; the node answers every query,
    finalizes what it is sent with the events the call promises, and the
    treasury can pay for the jobs' budgets ([Responsive]).  Each pass over the
    database then takes every job in progress one step nearer its settlement:
    [steps_left] counts the steps and bounds the passes. *)
From S2P Require Import Prelude RustStd Types Units Keys State Chain.
From S2P Require Import StoreSpec SqliteStore Engine JobSpec EngineProofs ToyNode.
From Stdlib Require Import Strings.Byte.
Local Open Scope Z_scope.

(** [m] answers, whatever the state of the node, with a value [P] holds of. *)
Definition answers {N A} (m : M N Error A) (P : A -> Prop) : Prop :=
  forall n, exists a n', m n = (Ok a, n') /\ P a.
Abbreviation replies m := (answers m (fun _ => True)).

(** The inclusion of a call, as its own events report it. *)
Definition finalizes (call : ChainCall) (ft : FinalizedTx) : Prop :=
  tx_action (ft_tx ft) = ChainCall_name call /\
  tx_amount (ft_tx ft) = ChainCall_amount call /\
  tx_block_hash (ft_tx ft) <> "" /\
  match call with
  | TransferStake _ _ _ _ => EventSummary_has (ft_summary ft) PALLET "StakeTransferred" = true
  | AddStakeLimit _ _ tao _ _ =>
      exists alpha, es_stake_added (ft_summary ft) = Some (tao, alpha) /\ alpha <> 0
  | BurnAlpha _ _ alpha | RecycleAlpha _ _ alpha =>
      es_alpha_destroyed (ft_summary ft) = Some alpha
  | _ => True
  end.

(** A node that answers; no other process; stake only ever under [hotkeys]; at
    least [funds] to spend; the clock past [floor]. *)
Class Responsive `{Crypto} `{!Ss58} {N : Type} `{!EngineEnv N} `{!Peers N Sqlite}
  (e : Engine) (floor funds : Z) (hotkeys : list AccountId32) : Prop := {
  resp_alone : forall n (db : Sqlite), peers n db = db;
  resp_store : forall n, se_fault (env_store n).1 = NoFault;
  resp_floor : 0 <= floor;
  resp_clock : forall n, floor <= (env_now n).1;
  resp_free : forall who, replies (rpc_free_balance who);
  resp_account : forall who, replies (rpc_account who);
  resp_alpha_on : forall who netuid, answers (rpc_alpha_on who netuid)
    (fun ap => Forall (fun p => sp_hotkey p ∈ hotkeys) ap.2);
  resp_alpha_of : forall hotkey who netuid, replies (rpc_alpha_of hotkey who netuid);
  resp_fee : forall call signer, replies (rpc_estimate_fee call signer);
  resp_ed : replies rpc_existential_deposit;
  resp_price : forall netuid, replies (rpc_alpha_price netuid);
  resp_many : forall l, replies (rpc_stake_positions_many l);
  resp_prepare : forall call signer, answers (rpc_prepare call signer)
    (fun pt => pt_call pt = call /\ pt_signer pt = ss58 (Keypair_account_id signer));
  resp_broadcast : forall pt, answers (rpc_broadcast pt) (finalizes (pt_call pt));
  resp_funds : forall n free n1 ed n2,
    rpc_free_balance (Keypair_account_id (en_treasury e)) n = (Ok free, n1) ->
    rpc_existential_deposit n1 = (Ok ed, n2) ->
    funds <= units_spendable free (cfg_fee_reserve (en_cfg e)) ed }.

(** ** The steps a job has left *)

Definition unswept `{Ss58} (hotkeys : list AccountId32) (r : PaymentRecord) : nat :=
  length (filter (fun h => ss58 h ∉ fst <$> pr_swept_positions r) hotkeys).
Definition buyback_left (r : PaymentRecord) : nat :=
  if pr_buyback_done r || negb (bool_decide (pr_auto_required r = Some true)) then 0
  else match pr_buyback r with None => 2 | Some _ => 1 end.
Definition tail_left (r : PaymentRecord) : nat :=
  (consolidation_fuel r + (if pr_dust_returned r then 0 else 1) + buyback_left r + 1)%nat.
Definition steps_left `{Ss58} (hotkeys : list AccountId32) (r : PaymentRecord) : nat :=
  match pr_state r with
  | Pending => 3 + 2 * unswept hotkeys r + tail_left r
  | Detected => 2 + 2 * unswept hotkeys r + tail_left r
  | Funded => 1 + 2 * unswept hotkeys r + tail_left r
  | Swept => tail_left r
  | _ => 0
  end.

Definition in_progress (s : PaymentState) : bool :=
  match s with Detected | Funded | Swept => true | _ => false end.

(** The purchase of a job under its budget: not made, made, or completed. *)
Definition purchase_on_course `{Ss58} (b : BuybackBudget) (r : PaymentRecord) : Prop :=
  if pr_buyback_done r then validate_completed_buyback r = Ok tt
  else match pr_buyback r with
       | None => True
       | Some rc =>
           br_tao_spent rc = bb_amount_rao b /\ br_netuid rc = bb_netuid b /\
           br_alpha_bought rc <> 0 /\ tx_block_hash (br_stake_tx rc) <> "" /\
           br_destroy_tx rc = None
       end.

Section Liveness.
Context `{Crypto} `{!Ss58, !Ss58Laws} {N : Type} `{!EngineEnv N} `{!Peers N Sqlite}.
Context (e : Engine) (floor funds : Z) (hotkeys : list AccountId32).
Context `{Hresp : !Responsive e floor funds hotkeys}.

Abbreviation Eff A := (M (World Sqlite N) Error A).

(** A job the engine can bring to its end: it is this engine's, nothing of it
    is in flight or quarantined, its wallet opens, its policy is explicit and
    affordable, and its version counter has room. *)
Record workable (r : PaymentRecord) : Prop := {
  wk_identity : pr_identity r = Some (job_identity e);
  wk_pending : pr_pending r = None;
  wk_quarantined : pr_quarantined r = None;
  wk_wallet : exists pw, wallet e r = Ok pw;
  wk_due : pr_next_attempt_at r <= floor;
  wk_version : pr_version r + 2 * Z.of_nat (steps_left hotkeys r) <= i64_max;
  wk_positions : Forall (fun ha => exists hk, parse_ss58 ha.1 = Ok hk) (pr_swept_positions r);
  wk_consolidated : 0 <= pr_consolidated r;
  wk_policy : match pr_auto_required r with
              | Some true => exists b, pr_buyback_budget r = Some b /\
                  BuybackBudget_validate b = Ok tt /\ bb_amount_rao b <= funds /\
                  purchase_on_course b r
              | Some false => True
              | None => False
              end }.

(** ** Runs that succeed *)

(** From the store [db], whatever the node and the trace, [m] returns. *)
Definition succeeds {A} (m : Eff A) (Q : A -> Sqlite -> Prop) (db : Sqlite) : Prop :=
  forall n t, exists a w', m (mkWorld db n t) = (Ok a, w') /\ Q a (w_store w').

Lemma succ_ret {A} (a : A) (Q : A -> Sqlite -> Prop) db : Q a db -> succeeds (m_ret a) Q db.
Proof. intros HQ n t. by eexists _, _. Qed.

Lemma succ_lift {A} (r : Result A) a (Q : A -> Sqlite -> Prop) db :
  r = Ok a -> Q a db -> succeeds (m_lift r) Q db.
Proof. intros -> HQ n t. by eexists _, _. Qed.

Lemma succ_bind {A B} (m : Eff A) (k : A -> Eff B) P Q db :
  succeeds m P db -> (forall a db', P a db' -> succeeds (k a) Q db') -> succeeds (m_bind m k) Q db.
Proof.
  intros Hm Hk n t. destruct (Hm n t) as (a & [db' n' t'] & Heq & HP). unfold m_bind.
  rewrite Heq. apply (Hk a db' HP).
Qed.

Lemma succ_mono {A} (m : Eff A) (P Q : A -> Sqlite -> Prop) db :
  succeeds m P db -> (forall a db', P a db' -> Q a db') -> succeeds m Q db.
Proof. intros Hm HPQ n t. destruct (Hm n t) as (a & w' & Heq & HP). eauto. Qed.

Lemma succ_try {A} (m : Eff A) P db :
  succeeds m P db -> succeeds (m_try m) (fun res db' => exists a, res = Ok a /\ P a db') db.
Proof.
  intros Hm n t. destruct (Hm n t) as (a & w' & Heq & HP). unfold m_try. rewrite Heq. eauto 6.
Qed.

Lemma succ_outside {A} (m : M N Error A) P db :
  answers m P -> succeeds (outside m) (fun a db' => P a /\ db' = db) db.
Proof.
  intros Hm n t. destruct (Hm n) as (a & n' & Heq & HP). unfold outside. cbn. rewrite Heq. eauto.
Qed.

(** A query first. *)
Lemma succ_query {A B} (m : Eff A) (k : A -> Eff B) P Q db :
  succeeds m (fun a db' => P a /\ db' = db) db -> (forall a, P a -> succeeds (k a) Q db) ->
  succeeds (let! a := m in k a) Q db.
Proof. intros Hm Hk. eapply succ_bind; [exact Hm|]. intros a db' [Ha ->]. by apply Hk. Qed.

Lemma succ_lift_bind {A B} (res : Result A) a (k : A -> Eff B) Q db :
  res = Ok a -> succeeds (k a) Q db -> succeeds (let! a := m_lift res in k a) Q db.
Proof. intros -> Hk. exact Hk. Qed.

Lemma succ_observe o db : succeeds (observe o) (fun _ db' => db' = db) db.
Proof. intros n t. by eexists _, _. Qed.

Lemma succ_now db : succeeds now (fun t db' => floor <= t /\ db' = db) db.
Proof.
  intros n t. pose proof (resp_clock n) as Ht. unfold now, sample, outside. cbn.
  destruct (env_now n) as [t0 n']. eauto.
Qed.

(** An operation of the store that accepts in every quiet environment. *)
Lemma succ_store {A} (op : SEnv -> M Sqlite Error A) (Q : A -> Sqlite -> Prop) db :
  (forall env, se_fault env = NoFault -> exists a db', op env db = (Ok a, db') /\ Q a db') ->
  succeeds (on_store op) Q db.
Proof.
  intros Hop n t. unfold on_store. cbn. rewrite (resp_alone n db).
  pose proof (resp_store n) as Hs. destruct (env_store n) as [env n'].
  destruct (Hop env Hs) as (a & db' & -> & HQ). eauto.
Qed.


(** ** The store between two steps *)

(** Versions in the range of the store's integer column are far from overflow. *)
Lemma version_room v : v <= i64_max -> v < u64_max.
Proof. unfold i64_max, u64_max. lia. Qed.
Local Ltac room := apply version_room; lia.

(** Nothing reserved, nothing in flight. *)
Definition idle (db : Sqlite) : Prop :=
  store_ok db /\ db_reservations db = ∅ /\
  forall id r, view db !! id = Some r -> pr_pending r = None.

(** [r] is the record the store has, up to what the engine changed in memory. *)
Definition holds (db : Sqlite) (r : PaymentRecord) : Prop :=
  idle db /\ exists prev, view db !! pr_id r = Some prev /\
    pr_version prev = pr_version r /\ same_policy prev r = true.

Definition written (db db' : Sqlite) (next : PaymentRecord) : Prop :=
  idle db' /\ view db' = <[pr_id next := next]> (view db).

Lemma view_row (db : Sqlite) id r :
  view db !! id = Some r <-> exists row, db_payments db !! id = Some row /\ row_record row = r.
Proof.
  cbn. rewrite lookup_fmap, fmap_Some. split; intros (row & ? & ?); exists row; naive_solver.
Qed.

Lemma same_policy_refl r : same_policy r r = true.
Proof. by apply same_policy_true. Qed.

Lemma holds_written db db' next r :
  written db db' next -> pr_id r = pr_id next -> pr_version r = pr_version next ->
  same_policy next r = true -> holds db' r.
Proof.
  intros [Hidle Hv] Hid Hver Hp. split; [done|]. exists next.
  by rewrite Hid, Hv, lookup_insert_eq.
Qed.

Lemma holds_stored db r : idle db -> view db !! pr_id r = Some r -> holds db r.
Proof. intros Hi Hr. split; [done|]. exists r. by rewrite same_policy_refl. Qed.

(** The record in memory may change what [update] does not look at. *)
Lemma holds_like db r r' :
  holds db r -> pr_id r' = pr_id r -> pr_version r' = pr_version r ->
  pr_buyback_budget r' = pr_buyback_budget r -> pr_auto_required r' = pr_auto_required r ->
  pr_identity r' = pr_identity r -> holds db r'.
Proof.
  intros (Hi & prev & Hv & Hver & Hp) Hid Hver' Hb Ha Hid'. split; [done|]. exists prev.
  rewrite Hid, Hver'. split_and!; try done. apply same_policy_true in Hp as (? & ? & ?).
  apply same_policy_true. split_and!; congruence.
Qed.

Lemma written_twice db db1 db2 r1 r2 :
  written db db1 r1 -> written db1 db2 r2 -> pr_id r2 = pr_id r1 -> written db db2 r2.
Proof.
  intros [_ Hv1] [Hi Hv2] Hid. split; [done|]. by rewrite Hv2, Hv1, Hid, insert_insert_eq.
Qed.

(** [store.update], when [update_reservations] agrees. *)
Lemma succ_write db prev r R :
  store_ok db -> view db !! pr_id r = Some prev -> pr_version prev = pr_version r ->
  same_policy prev r = true -> pr_version r < u64_max ->
  update_reservations prev r (db_reservations db) = Ok R ->
  succeeds (store_update r)
    (fun next db' => (exists t, next = bump t r) /\
       store_ok db' /\ db_reservations db' = R /\ view db' = <[pr_id next := next]> (view db)) db.
Proof.
  intros Hok Hv Hver Hpol Hlt HR. pose proof Hv as (row & Hrow & <-)%view_row.
  eapply succ_bind; [|intros next db' HQ; eapply succ_bind;
                      [apply succ_observe|intros ? ? ->; by apply succ_ret; exact HQ]].
  apply succ_store. intros env Henv. cbn [update_record SqliteStore_ops].
  rewrite (update_accepts r env db row R) by done.
  eexists _, _. split; [done|]. split; [eauto|]. destruct (Hok _ _ Hrow) as (_ & Hu & _).
  rewrite Hver in Hu. split; [|split]; [|done|].
  - cbn. by apply (bump_row_ok db (pr_id r) r (se_now env)).
  - cbn. by rewrite fmap_insert.
Qed.

Lemma pending_insert (m : gmap string PaymentRecord) (next : PaymentRecord) :
  pr_pending next = None ->
  (forall id r, id <> pr_id next -> m !! id = Some r -> pr_pending r = None) ->
  forall id r, <[pr_id next := next]> m !! id = Some r -> pr_pending r = None.
Proof. intros Hn Hm id r. rewrite lookup_insert_Some. intros [[<- <-]|[Hne Hr]]; eauto. Qed.

(** A plain write. *)
Lemma succ_update db r :
  holds db r -> pr_pending r = None -> pr_version r < u64_max ->
  succeeds (store_update r)
    (fun next db' => (exists t, next = bump t r) /\ written db db' next) db.
Proof.
  intros ((Hok & Hres & Hp) & prev & Hv & Hver & Hpol) Hnone Hlt.
  eapply succ_mono; [apply (succ_write db prev r ∅); try done|].
  - unfold update_reservations. rewrite Hnone, Hres. cbn. by rewrite (Hp _ _ Hv).
  - intros next db' ([t ->] & Hok' & Hres' & Hv'). split; [eauto|]. split; [|done].
    split; [done|]. split; [done|]. rewrite Hv'. apply pending_insert; [done|].
    intros id q _. apply Hp.
Qed.

Lemma succ_reserve db signer r :
  holds db r -> pr_version r <= i64_max ->
  succeeds (on_store (reserve_signer_for_record signer r))
    (fun token db' => db' = db <| db_reservations := {[signer := (pr_id r, token)]} |>) db.
Proof.
  intros ((Hok & Hres & Hp) & prev & (row & Hrow & <-)%view_row & Hver & _) Hle.
  apply succ_store. intros env Henv. cbn [reserve_signer_for_record SqliteStore_ops].
  destruct (Hok _ _ Hrow) as (_ & Hu & Hrv & _).
  rewrite reserve_accepts; [by rewrite Hres; eexists _, _|done|..].
  - rewrite Hrow. cbn. rewrite Hrv, Hver. unfold i64_try_from.
    rewrite (proj2 (Z.leb_le _ _) Hle), u64_as_i64_small; [done|].
    rewrite <- Hver in *. unfold is_u64 in Hu. lia.
  - apply signer_journaled_false. intros id q Hq. unfold journal_signer.
    rewrite (Hp id (row_record q)); [done|]. apply view_row. eauto.
  - by rewrite Hres, lookup_empty.
  - apply token_used_false. intros s j t. by rewrite Hres, lookup_empty.
Qed.

(** A transaction, from the reservation of its signer to the write of its
    receipt: the record comes back resolved. *)
Lemma succ_send db r action call signer (Q : PaymentRecord -> Prop) :
  holds db r -> pr_pending r = None -> pr_version r + 2 <= i64_max ->
  (forall t p ft, pd_action p = action -> finalizes call ft ->
     exists r', apply (bump t (r <| pr_pending := Some p |>)) (ft_tx ft) (ft_summary ft) = Ok r' /\
       pr_id r' = pr_id r /\ pr_version r' = pr_version r + 1 /\ pr_pending r' = None /\
       same_policy r r' = true /\ Q r') ->
  succeeds (send_journaled r action call signer)
    (fun changed db' => changed = true /\ exists r' t, Q r' /\ written db db' (bump t r')) db.
Proof.
  intros Hh Hnone Hver Happ. pose proof Hh as ((Hok & Hres & Hp) & prev & Hv & Hpv & Hpol).
  unfold send_journaled. rewrite Hnone. cbn [is_some]. cbn zeta.
  eapply succ_bind; [apply succ_reserve; [done|lia]|]. intros token db1 ->.
  eapply succ_bind; [apply succ_observe|]. intros [] ? ->.
  eapply succ_bind; [apply succ_try, succ_outside, resp_prepare|].
  intros ? ? (pt & -> & [Hcall Hsigner] & ->).
  rewrite bool_decide_eq_true_2 by done. cbn [negb].
  set (p := mkPendingTx _ _ _ _ _ _ _). set (db1 := db <| db_reservations := _ |>).
  set (R := {[ss58 (Keypair_account_id signer) := (pr_id r, token)]} : gmap string (string * string)).
  assert (Howned : R !! pd_signer p = Some (pr_id r, token))
    by (unfold R, p; cbn; rewrite Hsigner; apply lookup_singleton_eq).
  eapply succ_bind; [apply (succ_write db1 prev (r <| pr_pending := Some p |>) R); try done; pr_cbn|].
  { room. }
  { unfold update_reservations. pr_cbn. change (pd_reservation p) with (Some token).
    cbn [ok_or result_bind]. change (db_reservations db1) with R.
    rewrite (bool_decide_eq_true_2 _ Howned).
    cbn [negb result_bind]. by rewrite (Hp _ _ Hv). }
  intros r1 db2 ([t1 ->] & Hok2 & Hres2 & Hv2).
  eapply succ_bind; [apply succ_observe|]. intros [] ? ->.
  eapply succ_bind; [apply succ_outside, resp_broadcast|]. intros ft ? [Hft ->].
  destruct (Happ t1 p ft eq_refl) as (r' & Ha & Hid & Hver' & Hnone' & Hpol' & HQ);
    [by rewrite <- Hcall|].
  eapply succ_bind; [by eapply (succ_lift _ _ (fun a db' => a = r' /\ db' = db2))|].
  intros ? ? [-> ->].
  eapply succ_bind.
  { apply (succ_write db2 (bump t1 (r <| pr_pending := Some p |>)) r' ∅); try done.
    - rewrite Hv2, Hid. apply lookup_insert_eq.
    - room.
    - unfold update_reservations, bump. pr_cbn. rewrite Hnone', Hres2.
      change (pd_reservation p) with (Some token).
    cbn [is_some is_none negb result_bind andb ok_or].
      rewrite Hid, bool_decide_eq_true_2 by done. cbn [negb].
      f_equal. unfold R, p; cbn. rewrite Hsigner. apply delete_singleton_eq. }
  intros next db3 ([t2 ->] & Hok3 & Hres3 & Hv3). apply succ_ret. split; [done|].
  exists r', t2. split; [done|]. assert (Heq : view db3 = <[pr_id r' := bump t2 r']> (view db)).
  { rewrite Hv3, Hv2. unfold bump. pr_cbn. rewrite Hid. change (view db1) with (view db).
    apply insert_insert_eq. }
  split; [|done]. split; [done|]. split; [done|]. rewrite Heq.
  apply (pending_insert _ (bump t2 r')); [done|]. intros id q _. apply Hp.
Qed.


(** ** One step nearer *)

Definition advanced (r r' : PaymentRecord) : Prop :=
  pr_id r' = pr_id r /\ pr_pending r' = None /\
  (pr_state r' = Settled \/
   (in_progress (pr_state r') = true /\ workable r' /\
    (steps_left hotkeys r' < steps_left hotkeys r)%nat)).

Definition nearer {A} (m : Eff A) (a : A) (r : PaymentRecord) (db : Sqlite) : Prop :=
  succeeds m (fun res db' => res = a /\ exists r', advanced r r' /\ written db db' r') db.

Lemma holds_prev_pending db r : holds db r -> exists prev, view db !! pr_id r = Some prev /\ pr_pending prev = None.
Proof. intros ((_ & _ & Hp) & prev & Hv & _). eauto. Qed.

(** What every step keeps of a job. *)
Definition same_job (r r' : PaymentRecord) : Prop :=
  pr_id r' = pr_id r /\ pr_address r' = pr_address r /\
  pr_sealed_secret r' = pr_sealed_secret r /\ pr_derivation_path r' = pr_derivation_path r /\
  pr_identity r' = pr_identity r /\ pr_quarantined r' = pr_quarantined r /\
  pr_auto_required r' = pr_auto_required r /\ pr_buyback_budget r' = pr_buyback_budget r.

Lemma wallet_same r r' : same_job r r' -> wallet e r' = wallet e r.
Proof. intros (Hid & Ha & Hs & Hp & _). unfold wallet. by rewrite Hid, Ha, Hs, Hp. Qed.

(** A record one or two writes later that is one step nearer is workable. *)
Lemma workable_next r r' :
  workable r -> same_job r r' -> pr_pending r' = None ->
  pr_next_attempt_at r' <= floor ->
  pr_version r' <= pr_version r + 2 * Z.of_nat (steps_left hotkeys r - steps_left hotkeys r') ->
  (steps_left hotkeys r' < steps_left hotkeys r)%nat ->
  Forall (fun ha => exists hk, parse_ss58 ha.1 = Ok hk) (pr_swept_positions r') ->
  0 <= pr_consolidated r' ->
  (forall b, pr_auto_required r = Some true -> pr_buyback_budget r = Some b ->
     purchase_on_course b r -> purchase_on_course b r') ->
  workable r'.
Proof.
  intros Hw Hsame Hp Hd Hv Hlt Hpos Hc Hpur. pose proof (wallet_same _ _ Hsame) as Hwal.
  destruct Hsame as (_ & _ & _ & _ & Hi & Hq & Ha & Hb). destruct Hw.
  constructor; rewrite ?Hi, ?Hq, ?Ha, ?Hb, ?Hwal; try done; [lia|].
  destruct (pr_auto_required r) as [[]|]; try done.
  destruct wk_policy0 as (b & Hb' & Hval & Hf & Hon). exists b. auto.
Qed.

Lemma same_job_policy r r' : same_job r r' -> same_policy r r' = true.
Proof. intros (_ & _ & _ & _ & Hi & _ & Ha & Hb). by apply same_policy_true. Qed.

(** A transaction whose receipt brings the job nearer. *)
Lemma nearer_send db r0 r action call signer :
  holds db r -> pr_pending r = None -> workable r0 -> pr_id r = pr_id r0 ->
  pr_version r + 2 <= i64_max ->
  (forall t p ft, pd_action p = action -> finalizes call ft ->
     exists r', apply (bump t (r <| pr_pending := Some p |>)) (ft_tx ft) (ft_summary ft) = Ok r' /\
       same_job r r' /\ pr_version r' = pr_version r + 1 /\ pr_pending r' = None /\
       forall t', advanced r0 (bump t' r')) ->
  nearer (send_journaled r action call signer) true r0 db.
Proof.
  intros Hh Hp Hw Hid Hver Happ.
  eapply succ_mono; [apply (succ_send db r action call signer
                              (fun r' => forall t', advanced r0 (bump t' r'))); try done|].
  - intros t p ft Hact Hft. destruct (Happ t p ft Hact Hft) as (r' & Ha & Hs & Hv & Hn & Hadv).
    exists r'. split; [done|]. split; [apply Hs|]. split; [done|]. split; [done|].
    split; [by apply same_job_policy|done].
  - intros changed db' (-> & r' & t & Hadv & Hwr). eauto.
Qed.

(** A plain write that brings the job nearer. *)
Lemma nearer_write db r0 r :
  holds db r -> pr_pending r = None -> pr_version r < i64_max ->
  (forall t, advanced r0 (bump t r)) ->
  nearer (let! _ := store_update r in m_ret true) true r0 db.
Proof.
  intros Hh Hp Hver Hadv.
  eapply succ_bind; [apply succ_update; [done..|room]|]. intros next db' ([t ->] & Hw).
  apply succ_ret. eauto.
Qed.

Lemma nearer_bind {A B} (m : Eff A) (k : A -> Eff B) P b r db :
  succeeds m (fun a db' => P a /\ db' = db) db -> (forall a, P a -> nearer (k a) b r db) ->
  nearer (let! a := m in k a) b r db.
Proof. apply succ_query. Qed.

Lemma nearer_lift {A B} (res : Result A) a (k : A -> Eff B) b r db :
  res = Ok a -> nearer (k a) b r db -> nearer (let! a := m_lift res in k a) b r db.
Proof. apply succ_lift_bind. Qed.

Lemma succ_sweep_floor netuid db : succeeds (sweep_floor e netuid) (fun _ db' => True /\ db' = db) db.
Proof.
  eapply succ_bind; [apply succ_outside, resp_price|]. intros price ? [_ ->]. by apply succ_ret.
Qed.

Lemma succ_estimate netuid kp pos fees db :
  succeeds (estimate_fees e netuid kp pos fees) (fun _ db' => True /\ db' = db) db.
Proof.
  revert fees. induction pos as [|p pos IH]; intros fees; cbn [estimate_fees].
  - by apply succ_ret.
  - eapply succ_bind; [apply succ_outside, resp_fee|]. intros fee ? [_ ->]. apply IH.
Qed.

Lemma nearer_detected db r :
  holds db r -> workable r -> pr_state r = Detected -> nearer (step_detected e r) true r db.
Proof.
  intros Hh Hw Hst. destruct (wk_wallet r Hw) as [pw Hpw].
  assert (Hleft : steps_left hotkeys r = (2 + 2 * unswept hotkeys r + tail_left r)%nat)
    by (unfold steps_left; by rewrite Hst).
  pose proof (wk_version r Hw) as Hver. pose proof (wk_pending r Hw) as Hnone.
  pose proof resp_floor as Hfloor.
  unfold step_detected. apply (nearer_lift _ pw); [done|].
  apply (nearer_bind _ _ _ _ _ _ (succ_outside _ _ _ (resp_alpha_on _ _))).
  intros [alpha pos] _. apply (nearer_bind _ _ _ _ _ _ (succ_outside _ _ _ (resp_account _))).
  intros [free nonce] _. apply (nearer_bind _ _ _ _ _ _ (succ_sweep_floor _ _)). intros fl _.
  apply (nearer_bind _ _ _ _ _ _ (succ_estimate _ _ _ _ _)). intros fees _.
  apply (nearer_bind _ _ _ _ _ _ (succ_outside _ _ _ resp_ed)). intros ed _.
  cbn zeta. set (r1 := r <| pr_detected_alpha := _ |>).
  assert (Hh1 : holds db r1) by by (by apply (holds_like db r)).
  destruct (_ =? 0).
  - apply (nearer_lift _ (moved r1 Funded)).
    { apply transition_forward; unfold r1; pr_cbn; by rewrite ?Hst. }
    apply nearer_write.
    + by apply (holds_like db r1).
    + done.
    + unfold moved, r1. pr_cbn. lia.
    + intros t. split; [done|]. split; [done|]. right. split; [done|].
      assert (Hl : steps_left hotkeys (bump t (moved r1 Funded)) = (1 + 2 * unswept hotkeys r + tail_left r)%nat) by done.
      split; [|lia]. apply (workable_next r); rewrite ?Hl; try done; try apply Hw; unfold bump, moved, r1; pr_cbn; lia.
  - apply (nearer_send db r r1); try done.
    { unfold r1. pr_cbn. lia. }
    intros t p ft Hact (Hname & Hamount & Hblock & _).
    eexists. split.
    { unfold apply, bump. pr_cbn. cbn [fmap option_fmap option_map ok_or result_bind].
      rewrite Hact. rewrite transition_forward; [|unfold r1; pr_cbn; by rewrite ?Hst..].
      reflexivity. }
    split; [by repeat split|]. split; [done|]. split; [done|].
    intros t'. split; [done|]. split; [done|]. right. split; [done|].
    match goal with |- workable ?x /\ _ => set (r' := x) end.
    assert (Hl : steps_left hotkeys r' = (1 + 2 * unswept hotkeys r + tail_left r)%nat) by done.
    split; [|lia]. apply (workable_next r); rewrite ?Hl; try done; try apply Hw; unfold r', bump, moved, r1; pr_cbn; lia.
Qed.


(** A sweep takes its hotkey off the list. *)
Lemma unswept_swept r r' h a :
  h ∈ hotkeys -> ss58 h ∉ fst <$> pr_swept_positions r ->
  pr_swept_positions r' = pr_swept_positions r ++ [(ss58 h, a)] ->
  (unswept hotkeys r' < unswept hotkeys r)%nat.
Proof.
  intros Hin Hnot Heq. unfold unswept. rewrite Heq. apply (filter_length_lt _ _ _ h); try done.
  - intros y Hy Hy'. apply Hy. rewrite fmap_app. apply elem_of_app. by left.
  - intros Hn. apply Hn. rewrite fmap_app. apply elem_of_app. right. cbn. set_solver.
Qed.

Lemma parse_ss58_round_trip a : parse_ss58 (ss58 a) = Ok a.
Proof. unfold parse_ss58. by rewrite ss58_round_trip. Qed.

Lemma nearer_funded db r :
  holds db r -> workable r -> pr_state r = Funded -> nearer (step_funded e r) true r db.
Proof.
  intros Hh Hw Hst. destruct (wk_wallet r Hw) as [pw Hpw].
  assert (Hleft : steps_left hotkeys r = (1 + 2 * unswept hotkeys r + tail_left r)%nat)
    by (unfold steps_left; by rewrite Hst).
  pose proof (wk_version r Hw) as Hver. pose proof (wk_pending r Hw) as Hnone.
  pose proof resp_floor as Hfloor. pose proof (wk_positions r Hw) as Hparse.
  unfold step_funded. apply (nearer_lift _ pw); [done|].
  apply (nearer_bind _ _ _ _ _ _ (succ_outside _ _ _ (resp_alpha_on _ _))).
  intros [alpha pos] Hpos. cbn [snd] in Hpos.
  apply (nearer_bind _ _ _ _ _ _ (succ_sweep_floor _ _)). intros fl _.
  destruct (List.find _ pos) as [p|] eqn:Hfind.
  - apply List.find_some in Hfind as [Hin Hp]. apply andb_true_iff in Hp as [_ Hp]. bool_simpl.
    apply list_elem_of_In in Hin. rewrite Forall_forall in Hpos. specialize (Hpos p Hin).
    apply (nearer_send db r r); try done; [lia|].
    intros t pd ft Hact (Hname & Hamount & Hblock & Hev).
    eexists. split.
    { unfold apply, bump. pr_cbn. cbn [fmap option_fmap option_map ok_or result_bind].
      rewrite Hact, Hev. cbn [negb result_bind]. reflexivity. }
    split; [by repeat split|]. split; [done|]. split; [done|].
    intros t'. split; [done|]. split; [done|]. right. split; [unfold bump; pr_cbn; by rewrite Hst|].
    match goal with |- workable ?x /\ _ => set (r' := x) end.
    assert (Hl : steps_left hotkeys r' = (1 + 2 * unswept hotkeys r' + tail_left r')%nat)
      by (unfold steps_left, r', bump; pr_cbn; by rewrite Hst).
    pose proof (unswept_swept r r' _ (tx_amount (ft_tx ft)) Hpos Hp eq_refl) as Hu.
    assert (Ht : (tail_left r' <= S (tail_left r))%nat).
    { unfold tail_left, consolidation_fuel, buyback_left, r', bump. pr_cbn. rewrite length_app. cbn. lia. }
    split; [|lia].
    assert (Hv' : pr_version r' = pr_version r + 2) by (unfold r', bump; pr_cbn; lia).
    apply (workable_next r); rewrite ?Hl, ?Hleft, ?Hv'; try done; try apply Hw; [lia..|].
    unfold r', bump. pr_cbn. apply Forall_app. split; [done|]. constructor; [|constructor].
    cbn. eexists. apply parse_ss58_round_trip.
  - apply (nearer_lift _ (moved r Swept)).
    { apply transition_forward; by rewrite ?Hst. }
    apply nearer_write.
    + by apply (holds_like db r).
    + done.
    + unfold moved. pr_cbn. lia.
    + intros t. split; [done|]. split; [done|]. right. split; [done|].
      assert (Hl : steps_left hotkeys (bump t (moved r Swept)) = tail_left r) by done.
      split; [|lia]. apply (workable_next r); rewrite ?Hl; try done; try apply Hw; unfold bump, moved; pr_cbn; lia.
Qed.

(** ** The last state *)

(** The job goes on, within one pass: [r] in memory, [db] in the store, both
    derived from [r0] and [db0]. *)
Record ongoing (db0 : Sqlite) (r0 : PaymentRecord) (db : Sqlite) (r : PaymentRecord) : Prop := {
  on_holds : holds db r;
  on_workable : workable r;
  on_state : pr_state r = Swept;
  on_id : pr_id r = pr_id r0;
  on_left : (steps_left hotkeys r <= steps_left hotkeys r0)%nat;
  on_frame : forall db' r', written db db' r' -> pr_id r' = pr_id r -> written db0 db' r' }.

Lemma ongoing_nearer {A} (m : Eff A) a db0 r0 db r :
  ongoing db0 r0 db r -> nearer m a r db ->
  succeeds m (fun res db' => res = a /\ exists r', advanced r0 r' /\ written db0 db' r') db.
Proof.
  intros Ho Hm. eapply succ_mono; [exact Hm|].
  intros res db' (-> & r' & (Hid & Hp & Hadv) & Hw). split; [done|]. exists r'. destruct Ho.
  split; [|by apply on_frame0]. split; [congruence|]. split; [done|].
  destruct Hadv as [?|(? & ? & ?)]; [by left|right]. split_and!; [done..|lia].
Qed.

(** What a part of [step_swept] returns: it has sent a transaction, or the rest
    goes on. *)
Definition staged (db0 : Sqlite) (r0 : PaymentRecord) (sr : option bool * PaymentRecord)
  (db : Sqlite) : Prop :=
  match sr.1 with
  | Some changed => changed = true /\ exists r', advanced r0 r' /\ written db0 db r'
  | None => ongoing db0 r0 db sr.2
  end.

Lemma staged_send db0 r0 db r (m : Eff bool) :
  ongoing db0 r0 db r -> nearer m true r db ->
  succeeds (let! changed := m in m_ret (Some changed, r)) (staged db0 r0) db.
Proof.
  intros Ho Hm. eapply succ_bind; [by eapply ongoing_nearer|].
  intros changed db' HP. apply succ_ret. exact HP.
Qed.

Lemma tail_swept r : pr_state r = Swept -> steps_left hotkeys r = tail_left r.
Proof. intros Hst. unfold steps_left. by rewrite Hst. Qed.

(** One position consolidated, however it came about. *)
Lemma consolidated_left r r' ha :
  pr_state r = Swept -> pr_state r' = Swept -> 0 <= pr_consolidated r ->
  pr_swept_positions r !! Z.to_nat (pr_consolidated r) = Some ha ->
  pr_consolidated r' = pr_consolidated r + 1 -> pr_swept_positions r' = pr_swept_positions r ->
  pr_dust_returned r' = pr_dust_returned r -> buyback_left r' = buyback_left r ->
  steps_left hotkeys r = S (steps_left hotkeys r').
Proof.
  intros Hst Hst' Hc Hha Hc' Hp Hd Hb. apply lookup_lt_Some in Hha.
  rewrite !tail_swept by done. unfold tail_left, consolidation_fuel. rewrite Hc', Hp, Hd, Hb. lia.
Qed.


Lemma ongoing_version db0 r0 db r :
  ongoing db0 r0 db r -> pr_version r + 2 <= i64_max /\ pr_pending r = None.
Proof.
  intros Ho. pose proof (on_workable _ _ _ _ Ho) as Hw. split; [|apply Hw].
  pose proof (wk_version r Hw) as Hv. rewrite tail_swept in Hv by apply Ho.
  unfold tail_left in Hv. lia.
Qed.

(** A move of consolidated stake counts as one position. *)
Lemma consolidated_next r r' ha t :
  workable r -> pr_state r = Swept ->
  pr_swept_positions r !! Z.to_nat (pr_consolidated r) = Some ha ->
  same_job r r' -> pr_pending r' = None -> pr_state r' = Swept ->
  pr_consolidated r' = pr_consolidated r + 1 -> pr_swept_positions r' = pr_swept_positions r ->
  pr_dust_returned r' = pr_dust_returned r -> pr_buyback_done r' = pr_buyback_done r ->
  pr_buyback r' = pr_buyback r -> pr_next_attempt_at r' <= floor ->
  pr_version r' <= pr_version r + 1 ->
  workable (bump t r') /\ (steps_left hotkeys (bump t r') < steps_left hotkeys r)%nat.
Proof.
  intros Hw Hst Hha Hsame Hp Hst' Hc Hpos Hdust Hdone Hbuy Hdue Hver.
  pose proof (wk_consolidated r Hw) as Hc0.
  assert (Hleft : steps_left hotkeys r = S (steps_left hotkeys (bump t r'))).
  { apply (consolidated_left r (bump t r') ha); try done. unfold buyback_left, bump. pr_cbn.
    destruct Hsame as (_ & _ & _ & _ & _ & _ & -> & _). by rewrite Hdone, Hbuy. }
  split; [|lia]. apply (workable_next r); try done; unfold bump in *; pr_cbn; try lia.
  - rewrite Hpos. apply Hw.
  - intros b _ Hb. unfold purchase_on_course. pr_cbn. rewrite Hdone, Hbuy.
    destruct Hsame as (_ & _ & _ & _ & _ & _ & _ & Hb'). unfold validate_completed_buyback.
    pr_cbn. by rewrite Hb', Hbuy.
Qed.

Lemma staged_consolidate fuel db0 r0 db r :
  ongoing db0 r0 db r -> succeeds (consolidate_loop e fuel r) (staged db0 r0) db.
Proof.
  revert db r. induction fuel as [|fuel IH]; intros db r Ho; [by apply succ_ret|].
  cbn [consolidate_loop].
  destruct (_ !! _) as [[h a]|] eqn:Hha; [|by apply succ_ret].
  pose proof (on_workable _ _ _ _ Ho) as Hw. pose proof (on_state _ _ _ _ Ho) as Hst.
  pose proof (ongoing_version _ _ _ _ Ho) as [Hver Hnone]. pose proof resp_floor as Hfl.
  pose proof (wk_positions r Hw) as Hpos. rewrite Forall_forall in Hpos.
  destruct (Hpos (h, a)) as [hk Hhk]; [by eapply list_elem_of_lookup_2|]. cbn [fst] in Hhk.
  apply (succ_lift_bind _ hk); [done|].
  apply (succ_query _ _ (fun _ => True)).
  { case_bool_decide; [by apply succ_ret|apply succ_outside, resp_alpha_of]. }
  intros live _. destruct (live =? 0).
  - set (r1 := r <| pr_consolidated := _ |>).
    eapply succ_bind.
    { apply (succ_update db r1); [by apply (holds_like db r); [apply Ho|..]|done|].
      unfold r1. pr_cbn. room. }
    intros next db1 ([t ->] & Hwr). apply IH.
    destruct (consolidated_next r r1 (h, a) t) as [Hw1 Hleft]; try done;
      [apply Hw|unfold r1; pr_cbn; lia|].
    pose proof (on_left _ _ _ _ Ho) as Hle. constructor; try done; [|apply Ho|lia|].
    + by eapply holds_written; [exact Hwr|done|done|apply same_policy_refl].
    + intros db' r' Hwr' Hid. apply (on_frame _ _ _ _ Ho); [|done].
      by eapply written_twice; [exact Hwr|..].
  - apply (staged_send _ _ db r); [done|]. apply (nearer_send db r r); try done; [apply Ho|].
    intros t p ft Hact Hft. eexists. split.
    { unfold apply, bump. pr_cbn. cbn [fmap option_fmap option_map ok_or result_bind].
      rewrite Hact. reflexivity. }
    split; [by repeat split|]. split; [done|]. split; [done|].
    intros t'. split; [done|]. split; [done|]. right. split; [unfold bump; pr_cbn; by rewrite Hst|].
    apply (consolidated_next r _ (h, a)); done.
Qed.


Lemma dust_left r r' :
  pr_dust_returned r = false -> pr_dust_returned r' = true ->
  consolidation_fuel r' = consolidation_fuel r -> buyback_left r' = buyback_left r ->
  tail_left r = S (tail_left r').
Proof. intros Hd Hd' Hf Hb. unfold tail_left. rewrite Hd, Hd', Hf, Hb. lia. Qed.

Lemma staged_dust db0 r0 db r :
  ongoing db0 r0 db r -> succeeds (return_dust e r) (staged db0 r0) db.
Proof.
  intros Ho. pose proof (on_workable _ _ _ _ Ho) as Hw. pose proof (on_state _ _ _ _ Ho) as Hst.
  pose proof (ongoing_version _ _ _ _ Ho) as [Hver Hnone]. pose proof resp_floor as Hfl.
  pose proof (on_holds _ _ _ _ Ho) as Hh. destruct (wk_wallet r Hw) as [pw Hpw].
  unfold return_dust. destruct (negb (pr_dust_returned r)) eqn:Hd; [|by apply succ_ret].
  apply negb_true_iff in Hd. destruct (_ || _); [|by apply succ_ret].
  cbn [andb]. apply (succ_lift_bind _ pw); [done|].
  apply (succ_query _ _ (fun _ => True)); [apply succ_outside, resp_free|]. intros free _.
  destruct (0 <? free).
  - apply (staged_send _ _ db r); [done|]. apply (nearer_send db r r); try done.
    intros t p ft Hact Hft. eexists. split.
    { unfold apply, bump. pr_cbn. cbn [fmap option_fmap option_map ok_or result_bind].
      rewrite Hact. reflexivity. }
    split; [by repeat split|]. split; [done|]. split; [done|].
    intros t'. split; [done|]. split; [done|]. right. split; [unfold bump; pr_cbn; by rewrite Hst|].
    match goal with |- workable ?x /\ _ => set (r' := x) end.
    assert (Hl : steps_left hotkeys r = S (steps_left hotkeys r')).
    { rewrite !tail_swept by done. by apply dust_left. }
    split; [|lia]. apply (workable_next r); rewrite ?Hl; try done; try apply Hw; [|lia].
    unfold r', bump. pr_cbn. lia.
  - apply succ_ret. unfold staged. cbn [fst snd]. set (r1 := r <| pr_dust_returned := true |>).
    assert (Hl : steps_left hotkeys r = S (steps_left hotkeys r1)).
    { rewrite !tail_swept by done. by apply dust_left. }
    pose proof (on_left _ _ _ _ Ho). constructor; try done; try apply Ho; [|lia].
    destruct Hw. constructor; try done. unfold r1 in *. pr_cbn. lia.
Qed.

(** The announcement of a settled job comes down to one write. *)
Lemma notify_run db r n t :
  pr_pending r = None -> pr_state r = Settled -> exists r1 n1 t1,
    notify e r (mkWorld db n t) = (let! _ := store_update r1 in m_ret tt) (mkWorld db n1 t1) /\
    same_job r r1 /\ pr_version r1 = pr_version r /\ pr_pending r1 = None /\ pr_state r1 = Settled.
Proof.
  intros Hp Hst.
  assert (Hend : forall (delivered : bool) n1 t1, exists r1 n2 t2,
    (if delivered then let! _ := store_update (r <| pr_notified := true |>) in m_ret tt
     else let! t := now in let! _ := store_update (r <| pr_next_attempt_at := u64_add t 30 |>) in m_ret tt)
      (mkWorld db n1 t1) = (let! _ := store_update r1 in m_ret tt) (mkWorld db n2 t2) /\
    same_job r r1 /\ pr_version r1 = pr_version r /\ pr_pending r1 = None /\ pr_state r1 = Settled).
  { intros [] n1 t1; [by eexists _, _, _|]. unfold now, sample, outside. unfold m_bind at 1.
    cbn [w_env]. destruct (env_now n1) as [t0 n2]. by eexists _, _, _. }
  unfold notify, observe, m_try, outside. unfold m_bind at 1. cbn [w_env w_store w_trace].
  destruct (pr_callback_url r) as [url|], (en_webhook e) as [secret|]; try apply (Hend true).
  unfold m_bind at 1 2. cbn [w_env w_store w_trace]. unfold m_bind at 1 2. cbn [w_env w_store w_trace].
  destruct (webhook_post secret url (status r) n) as [res n1]. apply (Hend (is_ok res)).
Qed.

Lemma same_job_holds db r r1 :
  holds db r -> same_job r r1 -> pr_version r1 = pr_version r -> holds db r1.
Proof.
  intros Hh (Hid & _ & _ & _ & Hi & _ & Ha & Hb) Hv. by apply (holds_like db r).
Qed.

(** The job stays settled. *)
Definition announced (db : Sqlite) (r : PaymentRecord) (db' : Sqlite) : Prop :=
  exists r', pr_id r' = pr_id r /\ pr_state r' = Settled /\ pr_pending r' = None /\ written db db' r'.

Lemma succ_notify db r :
  holds db r -> pr_pending r = None -> pr_state r = Settled -> pr_version r < u64_max ->
  succeeds (notify e r) (fun _ db' => announced db r db') db.
Proof.
  intros Hh Hp Hst Hver n t.
  destruct (notify_run db r n t Hp Hst) as (r1 & n1 & t1 & -> & Hs & Hv & Hp1 & Hst1).
  enough (Hw : succeeds (let! _ := store_update r1 in m_ret tt) (fun _ db' => announced db r db') db)
    by apply Hw.
  eapply succ_bind.
  { apply (succ_update db r1); [by eapply same_job_holds|done|lia]. }
  intros next db' ([t2 ->] & Hw). apply succ_ret. exists (bump t2 r1). by split; [apply Hs|].
Qed.

(** Settling: the last write, and the announcement. *)
Lemma nearer_close db r :
  holds db r -> workable r -> pr_state r = Swept ->
  nearer (let! r := m_lift (transition r Settled) in
          let! r := store_update r in
          let! _ := notify e r in
          m_ret true) true r db.
Proof.
  intros Hh Hw Hst. pose proof (wk_version r Hw) as Hver. rewrite tail_swept in Hver by done.
  unfold tail_left in Hver.
  apply (nearer_lift _ (moved r Settled)); [apply transition_forward; by rewrite ?Hst|].
  eapply succ_bind.
  { apply succ_update; [by apply (holds_like db r)|apply Hw|]. unfold moved. pr_cbn. room. }
  intros next db1 ([t ->] & Hwr). eapply succ_bind.
  { apply succ_notify; [|apply Hw|done|unfold bump, moved; pr_cbn; room].
    by eapply holds_written; [exact Hwr|..|apply same_policy_refl]. }
  intros [] db2 (r' & Hid & Hs & Hp & Hwr2). apply succ_ret. split; [done|]. exists r'.
  split; [|by eapply written_twice; [exact Hwr|..]]. split; [done|]. split; [done|]. by left.
Qed.


Lemma str_is_empty_false s : s <> "" -> str_is_empty s = false.
Proof. by destruct s. Qed.

Lemma budget_valid b :
  BuybackBudget_validate b = Ok tt ->
  (exists hk, parse_ss58 (bb_hotkey b) = Ok hk) /\ MIN_STAKE_RAO <= bb_amount_rao b.
Proof.
  unfold BuybackBudget_validate. intros Hv. apply result_bind_ok in Hv as (hk & Hhk & Hv).
  destruct (_ || _) eqn:Hg; [done|]. split; [eauto|].
  repeat (apply orb_false_iff in Hg as [Hg ?]). by bool_simpl.
Qed.

Lemma succ_spendable db : succeeds (spendable e) (fun a db' => funds <= a /\ db' = db) db.
Proof.
  intros n t. unfold spendable.
  destruct (resp_free (treasury_account e) n) as (free & n1 & Hfree & _).
  destruct (resp_ed n1) as (ed & n2 & Hed & _).
  exists (units_spendable free (cfg_fee_reserve (en_cfg e)) ed), (mkWorld db n2 t).
  unfold m_bind, outside. cbn. rewrite Hfree. cbn. rewrite Hed. split; [done|]. split; [|done].
  by eapply resp_funds.
Qed.

Lemma strict_amount_ok requested available :
  MIN_STAKE_RAO <= requested -> requested <= available ->
  strict_buyback_amount requested available = Ok requested.
Proof.
  intros Hmin Hav. unfold strict_buyback_amount.
  by rewrite (proj2 (Z.ltb_ge _ _) Hmin), (proj2 (Z.ltb_ge _ _) Hav).
Qed.

(** The purchase receipt of a job on course, completed. *)
Lemma validate_kept r b rc :
  pr_buyback_budget r = Some b -> BuybackBudget_validate b = Ok tt -> pr_buyback r = Some rc ->
  br_tao_spent rc = bb_amount_rao b -> br_netuid rc = bb_netuid b -> br_alpha_bought rc <> 0 ->
  tx_block_hash (br_stake_tx rc) <> "" ->
  bb_destroy b = Keep \/
    (br_alpha_destroyed rc = br_alpha_bought rc /\ exists tx, br_destroy_tx rc = Some tx /\
       tx_block_hash tx <> "" /\
       tx_action tx = if bool_decide (bb_destroy b = Burn) then "burn_alpha" else "recycle_alpha") ->
  validate_completed_buyback r = Ok tt.
Proof.
  intros Hb Hv Hrc Ht Hn Ha Hh Hd. unfold validate_completed_buyback. rewrite Hb. cbn [ok_or result_bind].
  rewrite Hv, Hrc. cbn [ok_or result_bind]. rewrite Ht, Hn, !Z.eqb_refl, (str_is_empty_false _ Hh).
  apply Z.eqb_neq in Ha. rewrite Ha. cbn [negb orb].
  destruct Hd as [Hk|(Hal & tx & Htx & Hth & Hact)]; [by rewrite (bool_decide_eq_true_2 _ Hk)|].
  rewrite Hal, Z.eqb_refl, Htx, (str_is_empty_false _ Hth), (bool_decide_eq_true_2 _ Hact). cbn [negb orb].
  by rewrite andb_false_r.
Qed.


(** Completing or making the purchase brings the job nearer. *)
Lemma bought_next r r' t b :
  workable r -> pr_state r = Swept -> same_job r r' -> pr_pending r' = None ->
  pr_state r' = Swept -> pr_auto_required r = Some true -> pr_buyback_budget r = Some b ->
  pr_consolidated r' = pr_consolidated r -> pr_swept_positions r' = pr_swept_positions r ->
  pr_dust_returned r' = pr_dust_returned r ->
  (buyback_left r' < buyback_left r)%nat -> purchase_on_course b r' ->
  pr_next_attempt_at r' <= floor -> pr_version r' <= pr_version r + 1 ->
  advanced r (bump t r').
Proof.
  intros Hw Hst Hsame Hp Hst' Ha Hb Hc Hpos Hd Hlt Hcourse Hdue Hver.
  assert (Hl : (steps_left hotkeys (bump t r') < steps_left hotkeys r)%nat).
  { rewrite !tail_swept by done. unfold tail_left, consolidation_fuel.
    change (buyback_left (bump t r')) with (buyback_left r'). unfold bump. pr_cbn.
    rewrite Hc, Hpos, Hd. lia. }
  split; [apply Hsame|]. split; [done|]. right.
  split; [by change (in_progress (pr_state r') = true); rewrite Hst'|].
  split; [|done]. apply (workable_next r); try done.
  - unfold bump in *. pr_cbn. lia.
  - unfold bump. pr_cbn. rewrite Hpos. apply Hw.
  - unfold bump. pr_cbn. rewrite Hc. apply Hw.
  - intros b' _ Hb' _. rewrite Hb in Hb'. injection Hb' as <-. exact Hcourse.
Qed.

Lemma nearer_destroy db r b rc :
  holds db r -> workable r -> pr_state r = Swept -> pr_auto_required r = Some true ->
  pr_buyback_budget r = Some b -> BuybackBudget_validate b = Ok tt -> pr_buyback_done r = false ->
  pr_buyback r = Some rc -> br_tao_spent rc = bb_amount_rao b -> br_netuid rc = bb_netuid b ->
  br_alpha_bought rc <> 0 -> tx_block_hash (br_stake_tx rc) <> "" -> bb_destroy b <> Keep ->
  forall hk netuid, nearer (send_journaled r (Action_Destroy netuid (bool_decide (bb_destroy b = Recycle)))
            (destroy_call (bb_destroy b) hk netuid (br_alpha_bought rc)) (en_treasury e)) true r db.
Proof.
  intros Hh Hw Hst Ha Hb Hv Hdone Hrc Ht Hn Hal Hbh Hkeep hk netuid.
  pose proof (wk_version r Hw) as Hver. rewrite tail_swept in Hver by done. unfold tail_left in Hver.
  apply (nearer_send db r r); try done; [apply Hw|lia|].
  intros t p ft Hact (Hname & Hamount & Hblock & Hev).
  assert (Hdes : es_alpha_destroyed (ft_summary ft) = Some (br_alpha_bought rc))
    by (by destruct (bb_destroy b)).
  assert (Hac : tx_action (ft_tx ft) = if bool_decide (bb_destroy b = Burn) then "burn_alpha" else "recycle_alpha").
  { rewrite Hname. by destruct (bb_destroy b). }
  eexists. split.
  { unfold apply, bump. pr_cbn. cbn [fmap option_fmap option_map ok_or result_bind].
    rewrite Hact. cbn iota. rewrite Hdes, Hrc. cbn [ok_or result_bind]. rewrite Z.eqb_refl.
    apply Z.eqb_neq in Hal as ->. cbn [negb orb result_bind]. reflexivity. }
  split; [by repeat split|]. split; [done|]. split; [done|]. intros t'.
  eapply (bought_next r _ _ b); try done.
  - unfold buyback_left. pr_cbn. rewrite Ha, Hdone, Hrc. decide_closed. lia.
  - unfold purchase_on_course. pr_cbn. eapply (validate_kept _ b); try done. right. cbn. eauto.
  - apply resp_floor.
Qed.

Lemma nearer_buyback db r :
  holds db r -> workable r -> pr_state r = Swept -> pr_auto_required r = Some true ->
  pr_buyback_done r = false -> nearer (step_auto_buyback e r) true r db.
Proof.
  intros Hh Hw Hst Ha Hdone. pose proof (wk_policy r Hw) as Hpol. rewrite Ha in Hpol.
  destruct Hpol as (b & Hb & Hv & Hfunds & Hcourse). destruct (budget_valid _ Hv) as [[hk Hhk] Hmin].
  pose proof (wk_version r Hw) as Hver. rewrite tail_swept in Hver by done. unfold tail_left in Hver.
  unfold step_auto_buyback. apply (nearer_lift _ b); [by rewrite Hb|].
  apply (nearer_lift _ tt); [done|]. cbn zeta.
  unfold purchase_on_course in Hcourse. rewrite Hdone in Hcourse.
  destruct (pr_buyback r) as [rc|] eqn:Hrc.
  - destruct Hcourse as (Ht & Hn & Hal & Hbh & Hdt).
    rewrite Ht, Hn, !Z.eqb_refl, Hdt. cbn [negb orb is_some andb].
    rewrite (proj2 (Z.eqb_neq _ _) Hal), orb_false_r.
    case_bool_decide as Hkeep.
    + apply nearer_write; [by apply (holds_like db r)|apply Hw|pr_cbn; lia|]. intros t.
      eapply (bought_next r _ _ b); try done.
      * apply Hw.
      * unfold buyback_left. pr_cbn. rewrite Ha, Hdone, Hrc. decide_closed. lia.
      * unfold purchase_on_course. pr_cbn. eapply (validate_kept _ b); try done. by left.
      * apply Hw.
      * pr_cbn. lia.
    + apply (nearer_lift _ hk); [done|]. by apply nearer_destroy.
  - apply (nearer_bind _ _ _ _ _ _ (succ_spendable _)). intros available Hav.
    apply (nearer_lift _ (bb_amount_rao b)); [apply strict_amount_ok; lia|].
    apply (nearer_bind _ _ _ _ _ _ (succ_outside _ _ _ (resp_price _))). intros price _.
    apply (nearer_lift _ hk); [done|].
    apply (nearer_send db r r); try done; [apply Hw|lia|].
    intros t p ft Hact (Hname & Hamount & Hblock & alpha & Hev & Hal).
    eexists. split.
    { unfold apply, bump. pr_cbn. cbn [fmap option_fmap option_map ok_or result_bind].
      rewrite Hact. cbn iota. rewrite Hev, Hamount. cbn [ok_or result_bind ChainCall_amount].
      rewrite Z.eqb_refl. rewrite (proj2 (Z.eqb_neq _ _) Hal). cbn [negb orb result_bind]. reflexivity. }
    split; [by repeat split|]. split; [done|]. split; [done|]. intros t'.
    eapply (bought_next r _ _ b); try done.
    + unfold buyback_left. pr_cbn. rewrite Ha, Hdone, Hrc. decide_closed. lia.
    + unfold purchase_on_course. pr_cbn. by rewrite Hdone.
    + apply resp_floor.
Qed.

Lemma nearer_settle db r :
  holds db r -> workable r -> pr_state r = Swept -> nearer (settle e r) true r db.
Proof.
  intros Hh Hw Hst. pose proof (wk_policy r Hw) as Hpol.
  unfold settle. destruct (pr_auto_required r) as [required|] eqn:Ha; [|done].
  apply (nearer_lift _ required); [done|]. destruct required; cbn [andb].
  - destruct Hpol as (b & Hb & Hv & Hfunds & Hcourse). rewrite Hb. cbn [is_none is_some negb].
    unfold purchase_on_course in Hcourse. destruct (pr_buyback_done r) eqn:Hdone; cbn [andb negb].
    + apply (nearer_lift _ tt); [done|]. by apply nearer_close.
    + apply (nearer_lift _ tt); [done|]. by apply nearer_buyback.
  - apply (nearer_lift _ tt); [done|]. by apply nearer_close.
Qed.

Lemma nearer_swept db r :
  holds db r -> workable r -> pr_state r = Swept -> nearer (step_swept e r) true r db.
Proof.
  intros Hh Hw Hst.
  assert (Ho : ongoing db r db r) by by constructor.
  unfold step_swept.
  eapply (succ_bind _ _ (staged db r)).
  { destruct (cfg_consolidate _); [by apply staged_consolidate|by apply succ_ret]. }
  intros [[changed|] r1] db1 Hs; [by apply succ_ret; exact Hs|]. cbn [staged fst snd] in Hs.
  eapply (succ_bind _ _ (staged db r)); [by apply staged_dust|].
  intros [[changed|] r2] db2 Hs2; [by apply succ_ret; exact Hs2|]. cbn [staged fst snd] in Hs2.
  eapply ongoing_nearer; [exact Hs2|]. apply nearer_settle; apply Hs2.
Qed.


(** ** A pass over the database *)

(** What [m] leaves the store as, whatever it returns. *)
Definition leaves {A} (m : Eff A) (Q : Sqlite -> Prop) (db : Sqlite) : Prop :=
  forall n t, Q (w_store (m (mkWorld db n t)).2).

Lemma succeeds_leaves {A} (m : Eff A) (P : A -> Sqlite -> Prop) (Q : Sqlite -> Prop) db :
  succeeds m P db -> (forall a db', P a db' -> Q db') -> leaves m Q db.
Proof. intros Hm HQ n t. destruct (Hm n t) as (a & w' & -> & HP). eauto. Qed.

Lemma leaves_try {A} (m : Eff A) Q db :
  leaves m Q db -> succeeds (m_try m) (fun _ db' => Q db') db.
Proof.
  intros Hm n t. specialize (Hm n t). unfold m_try. destruct (m _) as [res w'].
  by eexists _, _.
Qed.

Lemma leaves_bind {A B} (m : Eff A) (k : A -> Eff B) P Q db :
  succeeds m P db -> (forall a db', P a db' -> leaves (k a) Q db') -> leaves (m_bind m k) Q db.
Proof.
  intros Hm Hk n t. destruct (Hm n t) as (a & [db' n' t'] & Heq & HP). unfold m_bind.
  rewrite Heq. apply (Hk a db' HP).
Qed.

(** A job a pass may meet: workable, or at rest. *)
Definition calm_record (r : PaymentRecord) : Prop :=
  if is_active (pr_state r) then workable r else pr_pending r = None.
Definition calm (db : Sqlite) : Prop :=
  idle db /\ forall id r, view db !! id = Some r -> calm_record r.

(** What a pass makes of a job. *)
Definition later (r r' : PaymentRecord) : Prop :=
  pr_id r' = pr_id r /\ calm_record r' /\
  (in_progress (pr_state r) = true -> pr_state r' = Settled \/
     (in_progress (pr_state r') = true /\ (steps_left hotkeys r' < steps_left hotkeys r)%nat)) /\
  (pr_state r = Settled -> pr_state r' = Settled).

Definition moves (db : Sqlite) (r : PaymentRecord) (db' : Sqlite) : Prop :=
  exists r', later r r' /\ written db db' r'.

Lemma later_refl r : calm_record r -> in_progress (pr_state r) = false -> later r r.
Proof. intros Hc Hp. split_and!; try done. congruence. Qed.

Lemma advanced_later r r' : advanced r r' -> later r r'.
Proof.
  intros (Hid & Hp & Hadv). split; [done|]. destruct Hadv as [Hs|(Hs & Hw & Hl)].
  - split; [by unfold calm_record; rewrite Hs|]. split; [by left|done].
  - split; [unfold calm_record; by destruct (pr_state r')|]. split; [by right|]. intros Hst.
    unfold steps_left in Hl. rewrite Hst in Hl. lia.
Qed.

Lemma moves_same db r : idle db -> view db !! pr_id r = Some r -> later r r -> moves db r db.
Proof. intros Hi Hv Hl. exists r. split; [done|]. split; [done|]. by rewrite insert_id. Qed.


Lemma succ_announce r db : succeeds (announce_if_final r) (fun _ db' => True /\ db' = db) db.
Proof.
  unfold announce_if_final. destruct (_ || _); [|by apply succ_ret].
  eapply succ_mono; [apply succ_observe|done].
Qed.

Lemma leaves_pending positions db r :
  holds db r -> view db !! pr_id r = Some r -> workable r -> pr_state r = Pending ->
  leaves (step_pending r positions) (moves db r) db.
Proof.
  intros Hh Hview Hw Hst. pose proof (wk_pending r Hw) as Hnone. pose proof resp_floor as Hfl.
  pose proof (wk_version r Hw) as Hver.
  assert (Hleft : steps_left hotkeys r = (3 + 2 * unswept hotkeys r + tail_left r)%nat)
    by (unfold steps_left; by rewrite Hst).
  assert (Hstay : moves db r db).
  { apply moves_same; [apply Hh|done|]. apply later_refl; [|by rewrite Hst].
    unfold calm_record. by rewrite Hst. }
  unfold step_pending. destruct (parse_ss58 (pr_address r)) as [who|err]; [|by intros n t].
  eapply (leaves_bind _ _ (fun a db' => a = who /\ db' = db)); [by apply succ_ret|]. intros ? ? [-> ->].
  eapply (leaves_bind _ _ (fun _ db' => True /\ db' = db)).
  { destruct (is_some _); [apply succ_outside, resp_free|by apply succ_ret]. }
  intros tao ? [_ ->]. cbn zeta. set (alpha := match _ with Some _ => _ | None => _ end).
  set (tao_ok := match pr_min_tao r with Some _ => _ | None => _ end).
  destruct (_ || _).
  - set (r1 := r <| pr_detected_alpha := _ |> <| pr_detected_tao := _ |>).
    eapply (succeeds_leaves _ (fun _ db' => moves db r db')); [|done].
    apply (succ_lift_bind _ (moved r1 Detected)); [apply transition_forward; unfold r1; pr_cbn; by rewrite ?Hst|].
    eapply succ_bind.
    { apply succ_update; [by apply (holds_like db r)|done|unfold moved, r1; pr_cbn; room]. }
    intros next db' ([t ->] & Hwr). apply succ_ret. exists (bump t (moved r1 Detected)).
    split; [|done]. apply advanced_later. split; [done|]. split; [done|]. right. split; [done|].
    assert (Hl : steps_left hotkeys (bump t (moved r1 Detected)) = (2 + 2 * unswept hotkeys r + tail_left r)%nat) by done.
    split; [|lia]. apply (workable_next r); rewrite ?Hl; try done; try apply Hw; unfold bump, moved, r1; pr_cbn; lia.
  - eapply leaves_bind; [apply succ_now|]. intros t ? [_ ->]. destruct (_ <? t); [|by intros ? ?].
    set (r1 := r <| pr_detected_alpha := _ |>).
    eapply (succeeds_leaves _ (fun _ db' => moves db r db')); [|done].
    apply (succ_lift_bind _ (moved r1 Expired)); [apply transition_forward; unfold r1; pr_cbn; by rewrite ?Hst|].
    eapply succ_bind.
    { apply succ_update; [by apply (holds_like db r)|done|unfold moved, r1; pr_cbn; room]. }
    intros next db' ([t' ->] & Hwr). eapply succ_bind; [apply succ_announce|]. intros [] ? [_ ->].
    apply succ_ret. exists (bump t' (moved r1 Expired)). split; [|done].
    split_and!; try done; by rewrite Hst.
Qed.

(** A write that may be refused. *)
Lemma leaves_update db r (Q : Sqlite -> Prop) :
  holds db r -> pr_pending r = None ->
  (forall t db', written db db' (bump t r) -> Q db') -> Q db ->
  leaves (let! _ := store_update r in m_ret tt) Q db.
Proof.
  intros Hh Hp HQ Hsame. destruct (Z.ltb_spec (pr_version r) u64_max) as [Hlt|Hge].
  - eapply succeeds_leaves; [eapply succ_bind; [by apply succ_update|]|].
    { intros next db' HP. apply (succ_ret tt (fun _ db' => exists t, written db db' (bump t r))).
      destruct HP as ([t ->] & Hw). eauto. }
    intros _ db' [t Hw]. by eapply HQ.
  - intros n t. unfold store_update, on_store, m_bind. cbn [w_store w_env].
    rewrite (resp_alone n db). destruct (env_store n) as [env n'].
    cbn [update_record SqliteStore_ops].
    destruct (sqlite_update r env db) as [[next|err] db'] eqn:Hu.
    + apply update_ok in Hu as (_ & _ & _ & _ & _ & _ & Hlt & _). lia.
    + apply transaction_err in Hu as ->. done.
Qed.

Lemma leaves_settled db r :
  holds db r -> view db !! pr_id r = Some r -> pr_pending r = None -> pr_state r = Settled ->
  leaves (let! _ := notify e r in m_ret true) (moves db r) db.
Proof.
  intros Hh Hv Hp Hst n t. unfold m_bind.
  destruct (notify_run db r n t Hp Hst) as (r1 & n1 & t1 & -> & Hs & Hver & Hp1 & Hst1).
  assert (Hstay : forall r', pr_id r' = pr_id r -> pr_pending r' = None -> pr_state r' = Settled -> later r r').
  { intros r' Hid Hn' Hs'. split_and!; try done; [unfold calm_record; by rewrite Hs'|]. by left. }
  assert (Hw : leaves (let! _ := store_update r1 in m_ret tt) (moves db r) db).
  { apply leaves_update; [by eapply same_job_holds|done|..].
    - intros t2 db' Hw. exists (bump t2 r1). split; [|done]. apply Hstay; [apply Hs|done..].
    - apply moves_same; [apply Hh|done|]. by apply Hstay. }
  specialize (Hw n1 t1). destruct ((let! _ := store_update r1 in m_ret tt) _) as [[[]|err] w']; exact Hw.
Qed.

Lemma guarded_ok {W A} (m : M W Error A) (k : Error -> M W Error A) w a w' :
  m w = (Ok a, w') ->
  (let! res := m_try m in
   match res with
   | Ok changed => m_ret changed
   | Err (Error_Conflict id) => m_throw (Error_Conflict id)
   | Err err => k err
   end) w = (Ok a, w').
Proof. intros Hm. unfold m_bind, m_try. by rewrite Hm. Qed.

Lemma leaves_step positions db r :
  calm db -> view db !! pr_id r = Some r -> leaves (step e r positions) (moves db r) db.
Proof.
  intros [Hi Hc] Hv. pose proof (Hc _ _ Hv) as Hcr. pose proof (holds_stored _ _ Hi Hv) as Hh.
  assert (Hstay : in_progress (pr_state r) = false -> moves db r db)
    by (intros; by apply moves_same; [..|apply later_refl]).
  unfold step. unfold calm_record in Hcr.
  destruct (is_active (pr_state r)) eqn:Hact.
  - rewrite (bool_decide_eq_true_2 _ (wk_identity r Hcr)), (wk_quarantined r Hcr), (wk_pending r Hcr).
    cbn [negb is_some is_none andb].
    match goal with |- leaves (if ?c then _ else _) _ _ => assert (c = false) as -> end.
    { pose proof (wk_policy r Hcr) as Hp. destruct (pr_auto_required r) as [[]|]; [|done..].
      destruct Hp as (b & -> & _). by rewrite andb_false_r. }
    assert (Hnear : forall m, nearer m true r db -> leaves m (moves db r) db).
    { intros m Hm. eapply succeeds_leaves; [exact Hm|]. intros ? db' (_ & r' & Ha & Hw).
      exists r'. split; [by apply advanced_later|done]. }
    destruct (pr_state r) eqn:Hst; try done.
    + by apply leaves_pending.
    + apply Hnear. intros n t. destruct (nearer_detected db r Hh Hcr Hst n t) as (a & w' & Hm & HQ).
      exists a, w'. split; [|done]. by apply guarded_ok.
    + apply Hnear. intros n t. destruct (nearer_funded db r Hh Hcr Hst n t) as (a & w' & Hm & HQ).
      exists a, w'. split; [|done]. by apply guarded_ok.
    + apply Hnear. intros n t. destruct (nearer_swept db r Hh Hcr Hst n t) as (a & w' & Hm & HQ).
      exists a, w'. split; [|done]. by apply guarded_ok.
  - rewrite Hcr. cbn [is_none is_some negb].
    destruct (negb _); [intros n t; apply Hstay; by destruct (pr_state r)|].
    destruct (is_some _); [intros n t; apply Hstay; by destruct (pr_state r)|].
    destruct (_ && _); [intros n t; apply Hstay; by destruct (pr_state r)|].
    destruct (pr_state r) eqn:Hst; try done; [by apply leaves_settled| |]; intros n t; by apply Hstay.
Qed.


Lemma moves_calm db r db' : calm db -> moves db r db' -> calm db'.
Proof.
  intros [_ Hc] (r' & (Hid & Hcr & _) & [Hi Hv]). split; [done|]. intros id q.
  rewrite Hv, lookup_insert_Some. intros [[_ <-]|[_ Hq]]; eauto.
Qed.

(** A pass over some of the records: the others stay as they are. *)
Definition passed (ids : list string) (db db' : Sqlite) : Prop :=
  calm db' /\ forall id r, view db !! id = Some r -> exists r', view db' !! id = Some r' /\
    (later r r' \/ (r' = r /\ id ∉ ids)).

Lemma skipped_later t r :
  calm_record r -> floor <= t -> tick_skips t r = true -> later r r.
Proof.
  intros Hc Ht Hs. apply later_refl; [done|].
  destruct (in_progress (pr_state r)) eqn:Hp; [|done]. exfalso.
  unfold calm_record in Hc. assert (Hw : workable r) by (by destruct (pr_state r)).
  unfold tick_skips in Hs. pose proof (wk_due r Hw) as Hdue.
  rewrite (proj2 (Z.ltb_ge t (pr_next_attempt_at r))) in Hs by lia.
  destruct (pr_state r); try done; decide_closed; by rewrite andb_false_r in Hs.
Qed.

Lemma passed_loop positions t recs k db :
  floor <= t -> NoDup (pr_id <$> recs) -> calm db ->
  (forall r, r ∈ recs -> view db !! pr_id r = Some r) ->
  succeeds (tick_loop e positions t recs k) (fun _ db' => passed (pr_id <$> recs) db db') db.
Proof.
  intros Ht. revert k db. induction recs as [|r recs IH]; intros k db Hnd Hc Hrecs.
  { apply succ_ret. split; [done|]. intros id q Hq. exists q. split; [done|]. right.
    split; [done|]. apply not_elem_of_nil. }
  rewrite fmap_cons in Hnd. apply NoDup_cons in Hnd as [Hni Hnd].
  assert (Hv : view db !! pr_id r = Some r) by (apply Hrecs; set_solver).
  assert (Hrest : forall k' db1, moves db r db1 ->
    succeeds (tick_loop e positions t recs k') (fun _ db' => passed (pr_id <$> r :: recs) db db') db1).
  { intros k' db1 Hm. pose proof Hm as (r1 & Hl & Hi1 & Hv1). pose proof Hl as (Hid & _).
    eapply succ_mono; [apply IH; [done|by eapply moves_calm|]|].
    - intros q Hq. rewrite Hv1, lookup_insert_ne; [apply Hrecs; set_solver|].
      rewrite Hid. intros Heq. apply Hni. rewrite Heq. apply list_elem_of_fmap. eauto.
    - intros _ db' [Hc' Hp]. split; [done|]. intros id q Hq.
      destruct (decide (id = pr_id r)) as [->|Hne].
      + rewrite Hv in Hq. injection Hq as <-. destruct (Hp (pr_id r) r1) as (r2 & Hr2 & Hl2).
        { by rewrite Hv1, Hid, lookup_insert_eq. }
        exists r2. split; [done|]. left. destruct Hl2 as [Hl2|[-> _]]; [|done].
        destruct Hl as (_ & _ & Hp1 & Hs1), Hl2 as (Hid2 & Hc2 & Hp2 & Hs2).
        split; [congruence|]. split; [done|]. split; [|auto].
        intros Hprog. destruct (Hp1 Hprog) as [?|[Hpr ?]]; [by left; auto|].
        destruct (Hp2 Hpr) as [?|[? ?]]; [by left|right]. split; [done|lia].
      + destruct (Hp id q) as (r2 & Hr2 & Hl2); [by rewrite Hv1, Hid, lookup_insert_ne|].
        exists r2. split; [done|]. destruct Hl2 as [?|[-> ?]]; [by left|right].
        split; [done|]. rewrite fmap_cons. set_solver. }
  cbn [tick_loop]. destruct (tick_skips t r) eqn:Hskip.
  - apply Hrest. apply moves_same; [apply Hc|done|]. eapply skipped_later; [|done..].
    destruct Hc as [_ Hc]. by eapply Hc.
  - eapply succ_bind; [apply leaves_try, leaves_step; done|].
    intros res db1 Hm. by apply Hrest.
Qed.

Lemma passed_tick db :
  calm db -> succeeds (tick e) (fun _ db' => calm db' /\ forall id r, view db !! id = Some r ->
    exists r', view db' !! id = Some r' /\ later r r') db.
Proof.
  intros Hc. pose proof Hc as [[Hok _] _]. unfold tick.
  set (states := [Pending; Detected; Funded; Swept; Settled; Failed]).
  apply (succ_query _ _ (fun recs => NoDup (pr_id <$> recs) /\
    forall r, r ∈ recs <-> view db !! pr_id r = Some r /\ pr_state r ∈ states)).
  { apply succ_store. intros env Henv. cbn [list_records SqliteStore_ops].
    unfold sqlite_list, transaction. rewrite Henv. eexists _, _. split; [done|]. split; [|done].
    split; [by apply list_rows_nodup|]. intros r. by apply list_rows_spec. }
  intros recs [Hnd Hrecs]. apply (succ_query _ _ (fun t => floor <= t)); [apply succ_now|]. intros t Ht.
  apply (succ_query _ _ (fun _ => True)).
  { destruct (omap _ _); [by apply succ_ret|]. apply succ_outside, resp_many. }
  intros positions _. eapply succ_mono; [apply passed_loop; try done|].
  - intros r Hr. by apply Hrecs in Hr as [? _].
  - intros _ db' [Hc' Hp]. split; [done|]. intros id r Hr.
    destruct (Hp id r Hr) as (r' & Hr' & [Hl|[-> Hni]]); [by eauto|].
    exists r. split; [done|]. destruct Hc as [_ Hc].
    assert (Hid : pr_id r = id).
    { apply view_row in Hr as (row & Hrow & <-). by destruct (Hok _ _ Hrow). }
    apply later_refl; [by eapply Hc|]. destruct (in_progress (pr_state r)) eqn:Hpr; [|done].
    destruct Hni. rewrite <- Hid. apply list_elem_of_fmap. exists r. split; [done|].
    apply Hrecs. rewrite Hid. split; [done|]. unfold states. destruct (pr_state r); try done; set_solver.
Qed.

Fixpoint passes (k : nat) (w : World Sqlite N) : World Sqlite N :=
  match k with
  | O => w
  | S k => passes k (tick e w).2
  end.

Lemma passes_app j k w : passes (j + k) w = passes k (passes j w).
Proof. revert w. induction j as [|j IH]; intros w; [done|]. apply IH. Qed.

(** The passes [run] makes: one per block that comes before an error. *)
Fixpoint blocks_seen (blocks : list (result Error Z)) : nat :=
  match blocks with
  | Ok _ :: blocks => S (blocks_seen blocks)
  | _ => O
  end.
Definition passes_in (sessions : list Session) : nat :=
  foldr (fun s k => (match s with Ok blocks => blocks_seen blocks | Err _ => 0 end + k)%nat) O sessions.

Lemma follow_passes blocks w : follow_blocks e blocks w = (Ok tt, passes (blocks_seen blocks) w).
Proof.
  revert w. induction blocks as [|[n|er] blocks IH]; intros w; try done.
  cbn [follow_blocks blocks_seen passes]. unfold m_bind, m_try. destruct (tick e w) as [res w'].
  apply IH.
Qed.

Lemma run_passes sessions w : run e sessions w = (Ok tt, passes (passes_in sessions) w).
Proof.
  revert w. induction sessions as [|[blocks|er] sessions IH]; intros w; [done| |apply IH].
  cbn [run passes_in foldr]. rewrite passes_app. unfold m_bind. rewrite follow_passes. apply IH.
Qed.

Lemma passes_settle id k w r :
  calm (w_store w) -> view (w_store w) !! id = Some r ->
  pr_state r = Settled \/ (in_progress (pr_state r) = true /\ (steps_left hotkeys r <= k)%nat) ->
  calm (w_store (passes k w)) /\
  exists r', view (w_store (passes k w)) !! id = Some r' /\ pr_state r' = Settled.
Proof.
  revert w r. induction k as [|k IH]; intros w r Hc Hr Hcase.
  - destruct Hcase as [Hs|[Hp Hl]]; [by eauto|]. exfalso.
    unfold steps_left, tail_left in Hl. destruct (pr_state r); done || lia.
  - destruct w as [db n t]. cbn [w_store] in *.
    destruct (passed_tick db Hc n t) as (a & w' & Heq & Hc' & Hp). cbn [passes]. rewrite Heq.
    destruct (Hp id r Hr) as (r' & Hr' & Hl). apply (IH w' r'); try done.
    destruct Hl as (_ & _ & Hprog & Hset). destruct Hcase as [Hs|[Hpr Hle]]; [by left; auto|].
    destruct (Hprog Hpr) as [?|[? ?]]; [by left|right]. split; [done|lia].
Qed.

(** C5: liveness.  On a responsive node, from any database in which the jobs
    under way are workable and nothing is in flight, [run] returns from every
    pass, and once it has seen [steps_left] finalized blocks, over however many
    subscriptions, the job is settled: none waits for ever, none starves
    another, and none is left between two states with a transaction in flight or
    a signer reserved. *)
Theorem jobs_settle (w : World Sqlite N) (Hcalm : calm (w_store w)) (id : string)
  (r : PaymentRecord) (Hr : view (w_store w) !! id = Some r)
  (Hprog : in_progress (pr_state r) = true) (sessions : list Session)
  (Henough : (steps_left hotkeys r <= passes_in sessions)%nat) :
  exists w' r', run e sessions w = (Ok tt, w') /\
    view (w_store w') !! id = Some r' /\ pr_state r' = Settled /\ idle (w_store w').
Proof.
  destruct (passes_settle id (passes_in sessions) w r Hcalm Hr) as ([Hi _] & r' & Hr' & Hs); [by right|].
  exists (passes (passes_in sessions) w), r'. by rewrite run_passes.
Qed.
End Liveness.

(** * Witness: the toy node *)
Import ToyKeys.

#[export] Instance toy_responsive :
  Responsive toy_engine 0 2000000 [toy_validator].
Proof.
  constructor; try done; try (intros; by eexists _, _).
  - intros n. apply Z.le_max_l.
  - intros who netuid n. eexists _, _. split; [reflexivity|]. constructor; [|constructor].
    cbn. set_solver.
  - intros call signer n. eexists _, _. split; [reflexivity|]. done.
  - intros pt n. eexists _, _. split; [reflexivity|]. unfold finalizes. cbn [ft_tx ft_summary tx_action tx_amount].
    split; [done|]. split; [done|]. split; [done|]. destruct (pt_call pt); try done.
    exists 42. done.
  - intros n free n1 ed n2 Hf Hed. injection Hf as <- <-. injection Hed as <- <-. vm_compute. discriminate.
Qed.

Definition live_world : World Sqlite Node := ticks 1 world_created.
Definition live_job : PaymentRecord := default (test_record toy_id) (toy_job live_world).

Lemma live_world_calm : calm toy_engine 0 2000000 [toy_validator] (w_store live_world).
Proof.
  assert (Hview : view (w_store live_world) = {[toy_id := live_job]}) by (vm_compute; reflexivity).
  split; [split; [|split]|].
  - apply (ticks_good 1 world_created world_created_good).
  - vm_compute. reflexivity.
  - intros id r. rewrite Hview, lookup_singleton_Some. intros [_ <-]. vm_compute. reflexivity.
  - intros id r. rewrite Hview, lookup_singleton_Some. intros [_ <-].
    unfold calm_record. change (is_active (pr_state live_job)) with true. cbn iota. constructor.
    + vm_compute. reflexivity.
    + vm_compute. reflexivity.
    + vm_compute. reflexivity.
    + eexists. vm_compute. reflexivity.
    + vm_compute. discriminate.
    + vm_compute. discriminate.
    + vm_compute. constructor.
    + vm_compute. discriminate.
    + assert (Ha : pr_auto_required live_job = Some true) by (vm_compute; reflexivity).
      rewrite Ha. exists toy_budget. split; [vm_compute; reflexivity|]. split; [vm_compute; reflexivity|].
      split; [vm_compute; discriminate|]. vm_compute. exact I.
Qed.

(** The node is down, comes up, and drops the subscription once. *)
Definition live_sessions : list Session :=
  [Err (Error_Chain "connection refused"); Ok (toy_blocks 3 ++ [Err (Error_Chain "closed"); Ok 7]);
   Ok (toy_blocks 5)].

Lemma jobs_settle_witness :
  pr_state live_job = Detected /\ steps_left [toy_validator] live_job = 8%nat /\
  exists w' r', run toy_engine live_sessions live_world = (Ok tt, w') /\
    view (w_store w') !! toy_id = Some r' /\ pr_state r' = Settled.
Proof.
  assert (Hs : pr_state live_job = Detected) by (vm_compute; reflexivity).
  assert (Hl : steps_left [toy_validator] live_job = 8%nat) by (vm_compute; reflexivity).
  assert (Hv : view (w_store live_world) !! toy_id = Some live_job) by (vm_compute; reflexivity).
  assert (Hp : in_progress (pr_state live_job) = true) by (rewrite Hs; reflexivity).
  assert (Hk : (steps_left [toy_validator] live_job <= passes_in live_sessions)%nat)
    by (rewrite Hl; cbn; lia).
  split; [exact Hs|]. split; [exact Hl|].
  destruct (jobs_settle toy_engine 0 2000000 [toy_validator] live_world live_world_calm toy_id live_job
              Hv Hp live_sessions Hk) as (w' & r' & Hrun & Hr' & Hst & _).
  exists w', r'. split; [exact Hrun|]. split; [exact Hr'|exact Hst].
Defined.
