(* ===== verification/FileStore.v ===== *)
(** [FileStore] (src/src/store.rs): one JSON file per payment, written by
    rename, for a single process.

    The directory is a finite map from file stems to the parsed content, or the
    parser's message for a corrupt file ([read_dir] lists it in no particular
    order).  It keeps the trait's default signing methods, so an engine on it
    refuses every request.  [FaultBefore] is a failure of the first access to
    the file system, [FaultAfter] a failure to sync the directory after the
    rename: the error is reported and the write is there. *)
From stdpp Require Import sorting.
From S2P Require Import Prelude RustStd Types Units Keys State Chain StoreSpec Engine.
From Stdlib Require Import Ascii.
Local Open Scope Z_scope.

Definition Dir : Type := gmap string (result string PaymentRecord).

Definition FileStore_id_ok (id : string) : bool :=
  negb (str_is_empty id)
  && str_forall (fun c => is_ascii_alphanumeric c || bool_decide (c = "-"%char)) id.

(** [FileStore::path]: the stem of the file. *)
Definition FileStore_path (id : string) : Result string :=
  if FileStore_id_ok id then Ok id else Err (Error_Store ("invalid id " +:+ str_debug id)).

Definition FileStore_read (d : Dir) (stem : string) : Result (option PaymentRecord) :=
  match d !! stem with
  | Some (Ok r) => Ok (Some r)
  | Some (Err msg) => Err (Error_Store msg)
  | None => Ok None
  end.

(** What the first access to the file system answers. *)
Definition fs_access (env : SEnv) : Result unit :=
  match se_fault env with FaultBefore e => Err (Error_Store e) | _ => Ok tt end.

Definition FileStore_write (env : SEnv) (stem : string) (rec : PaymentRecord) : M Dir Error unit :=
  fun d =>
    match se_fault env with
    | NoFault => (Ok tt, <[stem := Ok rec]> d)
    | FaultBefore e => (Err (Error_Store e), d)
    | FaultAfter e => (Err (Error_Store e), <[stem := Ok rec]> d)
    end.

Definition m_get {S E} : M S E S := fun s => (Ok s, s).

Definition file_migrate_legacy_policy `{Ss58} (id : string) (version : Z)
  (budget : option BuybackBudget) (env : SEnv) : M Dir Error PaymentRecord :=
  let! path := m_lift (FileStore_path id) in
  let! _ := m_lift (fs_access env) in
  let! d := m_get in
  let! o := m_lift (FileStore_read d path) in
  let! previous := m_lift (ok_or o (Error_NotFound id)) in
  let! next := m_lift (migrated_policy previous version budget (se_now env)) in
  let! _ := FileStore_write env path next in
  m_ret next.

Definition file_insert (rec : PaymentRecord) (env : SEnv) : M Dir Error unit :=
  let! p := m_lift (FileStore_path (pr_id rec)) in
  let! d := m_get in
  if is_some (d !! p) then m_throw (Error_Store (pr_id rec +:+ " exists"))
  else FileStore_write env p rec.

Definition file_get (id : string) (env : SEnv) : M Dir Error (option PaymentRecord) :=
  let! p := m_lift (FileStore_path id) in
  let! _ := m_lift (fs_access env) in
  let! d := m_get in
  m_lift (FileStore_read d p).

Definition created_le (a b : PaymentRecord) : Prop := pr_created_at a <= pr_created_at b.
#[export] Instance created_le_dec : RelDecision created_le.
Proof. intros a b. unfold created_le. apply _. Defined.

Definition file_list (states : list PaymentState) (env : SEnv) : M Dir Error (list PaymentRecord) :=
  let! _ := m_lift (fs_access env) in
  let! d := m_get in
  let! records := m_lift (collect ((fun kv => FileStore_read d kv.1) <$> map_to_list d)) in
  m_ret (merge_sort created_le (filter (fun r => pr_state r ∈ states) (omap id records))).

Definition file_update (rec : PaymentRecord) (env : SEnv) : M Dir Error PaymentRecord :=
  let! p := m_lift (FileStore_path (pr_id rec)) in
  let! _ := m_lift (fs_access env) in
  let! d := m_get in
  let! o := m_lift (FileStore_read d p) in
  let! cur := m_lift (ok_or o (Error_NotFound (pr_id rec))) in
  if negb (same_policy cur rec) then m_throw (Error_Store "immutable job budget")
  else if negb (pr_version cur =? pr_version rec) then m_throw (Error_Conflict (pr_id rec))
  else
    let next := rec <| pr_version := u64_add (pr_version rec) 1 |> <| pr_updated_at := se_now env |> in
    let! _ := FileStore_write env p next in
    m_ret next.

#[export] Instance FileStore_ops `{Ss58} : StoreOps Dir := {|
  require_signing := default_require_signing;
  reserve_signer_for_record := default_reserve_signer_for_record;
  reserve_signer := default_reserve_signer;
  cancel_preparation := default_cancel_preparation;
  migrate_legacy_policy := file_migrate_legacy_policy;
  insert_record := file_insert;
  get_record := file_get;
  list_records := file_list;
  update_record := file_update |}.

(** [open_store]: which store a spec names. *)
Inductive OpenedStore : Type :=
| Opened_file (dir : string)
| Opened_sqlite (path : string).
Definition open_store (spec : string) : OpenedStore :=
  match strip_prefix "file:" spec with
  | Some dir => Opened_file dir
  | None => Opened_sqlite (default spec (strip_prefix "sqlite:" spec))
  end.

(** * Theorems *)

Lemma file_path_ok id p : FileStore_path id = Ok p <-> p = id /\ FileStore_id_ok id = true.
Proof. unfold FileStore_path. destruct (FileStore_id_ok id); naive_solver. Qed.

(** An id names a file of the directory and nothing else: an accepted id is
    not empty and has no separator, no dot and no drive or stream colon. *)
Theorem file_path_confined (id p : string) (Hpath : FileStore_path id = Ok p) :
  p = id /\ id <> EmptyString /\
  str_contains "/" id = false /\ str_contains "\" id = false /\
  str_contains "." id = false /\ str_contains ":" id = false.
Proof.
  apply file_path_ok in Hpath as [-> Hok]. unfold FileStore_id_ok in Hok.
  apply andb_true_iff in Hok as [Hne Hok]. split; [done|]. split; [by destruct id|].
  unfold str_contains. split_and!; apply negb_false_iff; (eapply str_forall_impl; [|exact Hok]);
    intros a Ha; apply negb_true_iff, bool_decide_eq_false; intros ->; vm_compute in Ha; done.
Qed.

(** The record an accepted [update] writes. *)
Definition file_next (rec : PaymentRecord) (env : SEnv) : PaymentRecord :=
  rec <| pr_version := u64_add (pr_version rec) 1 |> <| pr_updated_at := se_now env |>.

(** The file of [rec] holds the version it was read at, under its policy. *)
Definition file_current (rec : PaymentRecord) (d : Dir) : Prop :=
  FileStore_id_ok (pr_id rec) = true /\
  exists cur, d !! pr_id rec = Some (Ok cur) /\ same_policy cur rec = true /\
    pr_version cur = pr_version rec.

(** What [update] answers when the file system does not fail. *)
Lemma file_update_reads rec env d :
  file_update rec env d =
  match FileStore_path (pr_id rec), fs_access env with
  | Err e, _ | Ok _, Err e => (Err e, d)
  | Ok p, Ok _ =>
      match d !! pr_id rec with
      | None => (Err (Error_NotFound (pr_id rec)), d)
      | Some (Err msg) => (Err (Error_Store msg), d)
      | Some (Ok cur) =>
          if negb (same_policy cur rec) then (Err (Error_Store "immutable job budget"), d)
          else if negb (pr_version cur =? pr_version rec) then (Err (Error_Conflict (pr_id rec)), d)
          else (match se_fault env with FaultAfter e => Err (Error_Store e) | _ => Ok (file_next rec env) end,
                <[pr_id rec := Ok (file_next rec env)]> d)
      end
  end.
Proof.
  unfold file_update, m_bind, m_lift, m_get, m_throw, m_ret.
  destruct (FileStore_path (pr_id rec)) as [p|e] eqn:Hp; [|done].
  apply file_path_ok in Hp as [-> _]. unfold fs_access.
  unfold FileStore_read, FileStore_write.
  destruct (se_fault env); [|done|];
    (destruct (d !! pr_id rec) as [[cur|msg]|]; [|done..]); cbn [ok_or];
    (destruct (negb (same_policy cur rec)); [done|]);
    by destruct (negb (pr_version cur =? pr_version rec)).
Qed.

Lemma file_update_current rec env d :
  file_current rec d -> (forall e, se_fault env <> FaultBefore e) ->
  file_update rec env d =
    (match se_fault env with FaultAfter e => Err (Error_Store e) | _ => Ok (file_next rec env) end,
     <[pr_id rec := Ok (file_next rec env)]> d).
Proof.
  intros (Hid & cur & Hcur & Hp & Hv) Hf. rewrite file_update_reads.
  rewrite (proj2 (file_path_ok _ (pr_id rec))) by done. unfold fs_access.
  rewrite Hcur, Hp, (proj2 (Z.eqb_eq _ _) Hv). destruct (se_fault env) eqn:He; try done. by destruct (Hf e).
Qed.

(** Anything else leaves the directory alone. *)
Lemma file_update_other rec env d :
  ~ (file_current rec d /\ forall e, se_fault env <> FaultBefore e) ->
  exists e, file_update rec env d = (Err e, d).
Proof.
  intros Hno. rewrite file_update_reads.
  destruct (FileStore_path (pr_id rec)) as [p|e] eqn:Hp; [|eauto].
  apply file_path_ok in Hp as [-> Hid].
  destruct (fs_access env) as [[]|e] eqn:Ha; [|eauto].
  destruct (d !! pr_id rec) as [[cur|msg]|] eqn:Hcur; [|eauto..].
  destruct (same_policy cur rec) eqn:Hpol; cbn [negb]; [|eauto].
  destruct (pr_version cur =? pr_version rec) eqn:Hv; cbn [negb]; [|eauto].
  destruct Hno. split.
  - split; [done|]. exists cur. split; [done|]. split; [done|]. by apply Z.eqb_eq.
  - intros e He. unfold fs_access in Ha. by rewrite He in Ha.
Qed.

Lemma file_update_cases rec env d :
  (file_current rec d /\ forall e, se_fault env <> FaultBefore e) \/
  ~ (file_current rec d /\ forall e, se_fault env <> FaultBefore e).
Proof.
  destruct (FileStore_id_ok (pr_id rec)) eqn:Hid; [|right; intros [[? _] _]; congruence].
  destruct (d !! pr_id rec) as [[cur|msg]|] eqn:Hcur;
    [|right; intros [(_ & ? & ? & _) _]; congruence..].
  destruct (decide (same_policy cur rec = true /\ pr_version cur = pr_version rec)) as [[Hp Hv]|Hno].
  - destruct (se_fault env) as [|e|e]; [left|right; intros [_ Hf]; by destruct (Hf e)|left];
      (split; [|done]); (split; [done|]); by exists cur.
  - right. intros [(_ & c & Hc & Hpv) _]. destruct Hno. congruence.
Qed.

Lemma file_update_conflict rec env d id :
  (file_update rec env d).1 = Err (Error_Conflict id) <->
  id = pr_id rec /\ FileStore_id_ok id = true /\ (forall e, se_fault env <> FaultBefore e) /\
  exists cur, d !! id = Some (Ok cur) /\ same_policy cur rec = true /\
    pr_version cur <> pr_version rec.
Proof.
  rewrite file_update_reads. split.
  - destruct (FileStore_path (pr_id rec)) as [p|e] eqn:Hp;
      [|unfold FileStore_path in Hp; destruct (FileStore_id_ok _); [done|by injection Hp as <-]].
    apply file_path_ok in Hp as [-> Hid]. unfold fs_access.
    destruct (se_fault env) as [|e|e]; [|done|];
      (destruct (d !! pr_id rec) as [[cur|msg]|] eqn:Hcur; [|done..]);
      (destruct (same_policy cur rec) eqn:Hpol; [cbn [negb]|done]);
      (destruct (pr_version cur =? pr_version rec) eqn:Hv; [done|]);
      intros [= <-]; (split; [done|]); (split; [done|]); (split; [done|]); exists cur;
      by apply Z.eqb_neq in Hv.
  - intros (-> & Hid & Hf & cur & Hcur & Hpol & Hv).
    rewrite (proj2 (file_path_ok _ (pr_id rec))) by done. unfold fs_access.
    rewrite Hcur, Hpol. apply Z.eqb_neq in Hv. rewrite Hv.
    destruct (se_fault env) as [|e|e]; [done| |done]. by destruct (Hf e).
Qed.

(** The write of one update makes every other at the same version stale. *)
Lemma file_update_once rec env rec' env' d :
  0 <= pr_version rec < u64_max -> pr_id rec' = pr_id rec -> pr_version rec' = pr_version rec ->
  exists e, file_update rec' env' (<[pr_id rec := Ok (file_next rec env)]> d)
            = (Err e, <[pr_id rec := Ok (file_next rec env)]> d).
Proof.
  intros Hv Hid Hver. apply file_update_other. intros [(_ & cur & Hcur & _ & Hcv) _].
  rewrite Hid in Hcur. unfold Dir in *. rewrite lookup_insert_eq in Hcur. injection Hcur as <-.
  unfold file_next in Hcv. pr_cbn.
  rewrite u64_add_small in Hcv by (u64_unfold; lia). lia.
Qed.

(** C40: [update] of the file store is a compare-and-swap on the version and the
    policy, for one process.  Whatever the record, the directory and the failures
    of the file system: it succeeds exactly when nothing fails and the record's
    file holds the same version and policy, and then that file, and no other,
    holds the record with its version incremented; the same update again, by
    whoever read the same version, is refused.  It fails without a change, but for
    one case: a failure after the rename is reported although the write is there.
    A stale version under another policy is a store error, and not the [Conflict]
    the trait announces: [Conflict] means the same policy at another version. *)
Theorem file_update_exact (rec : PaymentRecord) (env : SEnv) (d : Dir) :
  let '(res, d') := file_update rec env d in
  (is_ok res = true <-> se_fault env = NoFault /\ file_current rec d) /\
  (forall next, res = Ok next ->
     next = file_next rec env /\ d' = <[pr_id rec := Ok next]> d /\
     (0 <= pr_version rec < u64_max -> pr_version next = pr_version rec + 1 /\
      forall rec' env', pr_id rec' = pr_id rec -> pr_version rec' = pr_version rec ->
        exists e, file_update rec' env' d' = (Err e, d'))) /\
  (forall e, res = Err e -> d' = d \/
     exists msg, se_fault env = FaultAfter msg /\ e = Error_Store msg /\ file_current rec d /\
       d' = <[pr_id rec := Ok (file_next rec env)]> d) /\
  (forall id, res = Err (Error_Conflict id) <->
     id = pr_id rec /\ FileStore_id_ok id = true /\ (forall e, se_fault env <> FaultBefore e) /\
     exists cur, d !! id = Some (Ok cur) /\ same_policy cur rec = true /\
       pr_version cur <> pr_version rec).
Proof.
  pose proof (file_update_conflict rec env d) as Hconf.
  destruct (file_update_cases rec env d) as [[Hc Hf]|Hno].
  - rewrite (file_update_current rec env d Hc Hf) in *. split; [|split; [|split; [|exact Hconf]]].
    + destruct (se_fault env) as [|e|e]; [done|by destruct (Hf e)|]. by split; [|intros [? _]].
    + intros next Hn. assert (next = file_next rec env) as ->
        by (destruct (se_fault env); congruence).
      split; [done|]. split; [done|]. intros Hv. split.
      * unfold file_next. pr_cbn. apply u64_add_small. u64_unfold. lia.
      * intros rec' env'. by apply file_update_once.
    + intros e He. right. destruct (se_fault env) as [|m|m] eqn:Hm; [done..|].
      injection He as <-. by exists m.
  - destruct (file_update_other rec env d Hno) as [e He]. rewrite He in *.
    split; [|split; [done|split; [by left|exact Hconf]]]. split; [done|].
    intros [Hnf Hc]. destruct Hno. split; [done|]. by rewrite Hnf.
Qed.

(** A store without signer reservations never starts a job: on it
    [create_payment] and [create_sweep_job] refuse before anything is generated,
    stored or observed. *)
Theorem file_store_takes_no_requests `{Crypto} `{!Ss58} {N : Type} `{!EngineEnv N}
  `{!Peers N Dir} (e : Engine) (opts : CreatePayment) (id path expected : string)
  (metadata : option Json) (w : World Dir N) :
  let refused := Error_Store "shared signer reservations unsupported; requests disabled" in
  (create_payment e opts w).1 = Err refused /\
  (create_sweep_job e id path expected metadata w).1 = Err refused /\
  w_store (create_payment e opts w).2 = peers (w_env w) (w_store w) /\
  w_store (create_sweep_job e id path expected metadata w).2 = peers (w_env w) (w_store w) /\
  w_trace (create_payment e opts w).2 = w_trace w.
Proof.
  intros refused. unfold create_payment, create_sweep_job, m_bind, on_store.
  destruct (env_store (w_env w)) as [env n]. done.
Qed.

Lemma merge_sort_members (states : list PaymentState) (d : Dir) records r :
  collect ((fun kv => FileStore_read d kv.1) <$> map_to_list d) = Ok records ->
  r ∈ merge_sort created_le (filter (fun r => pr_state r ∈ states) (omap id records)) <->
  (exists stem, d !! stem = Some (Ok r)) /\ pr_state r ∈ states.
Proof.
  intros Hc. apply collect_ok in Hc. rewrite merge_sort_Permutation, list_elem_of_filter.
  rewrite list_elem_of_omap. split.
  - intros [Hst (o & Ho & Hid)]. split; [|done]. cbn in Hid. subst o.
    assert (Hin : Ok (Some r) ∈ (Ok <$> records : list (Result (option PaymentRecord))))
      by (apply list_elem_of_fmap; eauto).
    rewrite <- Hc in Hin. apply list_elem_of_fmap in Hin as ([stem c] & Hr & _).
    exists stem. unfold FileStore_read in Hr. cbn [fst] in Hr.
    destruct (d !! stem) as [[r'|]|]; try done. by injection Hr as ->.
  - intros [[stem Hstem] Hst]. split; [done|]. exists (Some r). split; [|done].
    assert (Hin : Ok (Some r) ∈ ((fun kv => FileStore_read d kv.1) <$> map_to_list d)).
    { apply list_elem_of_fmap. exists (stem, Ok r). split; [|by apply elem_of_map_to_list].
      unfold FileStore_read. cbn [fst]. by rewrite Hstem. }
    rewrite Hc in Hin. apply list_elem_of_fmap in Hin as (o & [= <-] & Hin). done.
Qed.

(** [list] returns exactly the stored records in the wanted states, oldest
    first; a corrupt file is an error, never skipped. *)
Theorem file_list_exact (states : list PaymentState) (env : SEnv) (d d' : Dir)
  (l : list PaymentRecord) (Hlist : file_list states env d = (Ok l, d')) :
  d' = d /\ Sorted created_le l /\
  (forall r, r ∈ l <-> (exists stem, d !! stem = Some (Ok r)) /\ pr_state r ∈ states) /\
  (forall stem msg, d !! stem <> Some (Err msg)).
Proof.
  unfold file_list, m_bind, m_lift, m_get, m_ret in Hlist.
  destruct (fs_access env); [|done].
  destruct (collect _) as [records|] eqn:Hc; [|done]. injection Hlist as <- <-.
  split; [done|]. split; [|split].
  - apply Sorted_merge_sort. intros x y. unfold created_le. lia.
  - intros r. by apply merge_sort_members.
  - intros stem msg Hs. apply collect_ok in Hc.
    assert (Hin : Err (Error_Store msg) ∈ ((fun kv => FileStore_read d kv.1) <$> map_to_list d)).
    { apply list_elem_of_fmap. exists (stem, Err msg). split; [|by apply elem_of_map_to_list].
      unfold FileStore_read. cbn [fst]. by rewrite Hs. }
    rewrite Hc in Hin. apply list_elem_of_fmap in Hin as (o & ? & _). done.
Qed.

(** ** Witnesses *)
Import ToyKeys.

Lemma file_path_confined_witness :
  FileStore_path "job-2" = Ok "job-2" /\ is_ok (FileStore_path "../etc/passwd") = false /\
  str_contains "/" "job-2" = false.
Proof.
  split; [reflexivity|]. split; [reflexivity|].
  apply (file_path_confined "job-2" "job-2"). reflexivity.
Defined.

Definition toy_dir : Dir :=
  {[ "a" := Ok (test_record "a"); "b" := Ok (test_record "b" <| pr_state := Settled |>) ]}.

(** A stale record with another policy: the policy is reported, where SQLite
    reports the conflict. *)
Example file_update_policy_first :
  let rec := test_record "a" <| pr_auto_required := None |> <| pr_version := 9 |> in
  file_update rec (mkSEnv 5 "" NoFault) toy_dir = (Err (Error_Store "immutable job budget"), toy_dir).
Proof. vm_compute. reflexivity. Qed.

(** Two updates from the same version: the second is refused. *)
Lemma file_update_exact_witness :
  let rec := test_record "a" <| pr_state := Detected |> in
  let '(res, d') := file_update rec (mkSEnv 5 "" NoFault) toy_dir in
  is_ok res = true /\ exists e, file_update rec (mkSEnv 6 "" NoFault) d' = (Err e, d').
Proof.
  intros rec. pose proof (file_update_exact rec (mkSEnv 5 "" NoFault) toy_dir) as H.
  destruct (file_update rec (mkSEnv 5 "" NoFault) toy_dir) as [res d'] eqn:Hrun.
  destruct H as (_ & Hok & _). destruct res as [next|e]; [|vm_compute in Hrun; discriminate Hrun].
  split; [reflexivity|]. destruct (Hok next eq_refl) as (_ & _ & Honce).
  assert (Hv : 0 <= pr_version rec < u64_max) by (vm_compute; split; [discriminate|reflexivity]).
  destruct (Honce Hv) as [_ Hst]. apply Hst; reflexivity.
Defined.

Lemma file_list_exact_witness :
  exists l, file_list [Settled] (mkSEnv 5 "" NoFault) toy_dir = (Ok l, toy_dir) /\
    Sorted created_le l /\ length l = 1%nat.
Proof.
  destruct (file_list [Settled] (mkSEnv 5 "" NoFault) toy_dir) as [[l|] d'] eqn:Hl;
    [|vm_compute in Hl; discriminate].
  destruct (file_list_exact [Settled] (mkSEnv 5 "" NoFault) toy_dir d' l Hl) as (-> & Hs & _).
  exists l. split; [reflexivity|]. split; [exact Hs|].
  vm_compute in Hl. injection Hl as <-. reflexivity.
Defined.

Example open_store_specs :
  open_store "file:/data" = Opened_file "/data" /\ open_store "sqlite:a.db" = Opened_sqlite "a.db" /\
  open_store "a.db" = Opened_sqlite "a.db".
Proof. repeat split. Qed.
