(* ===== verification/FileEngine.v ===== *)
(** The engine on the file store (src/src/engine.rs on [FileStore] of
    src/src/store.rs): without signer reservations it signs nothing. *)
From S2P Require Import Prelude RustStd Types Units Keys State Chain.
From S2P Require Import StoreSpec SqliteStore Engine JobSpec EngineProofs FileStore.
Local Open Scope Z_scope.

Create HintDb mute.

Section FileEngine.
Context `{Crypto} `{!Ss58} {N : Type} `{!EngineEnv N} `{!Peers N Dir}.

Abbreviation W := (World Dir N).

(** [m] signs and broadcasts nothing, whatever it starts from. *)
Definition mute {E A} (m : M W E A) : Prop :=
  forall w, exists t, w_trace (m w).2 = w_trace w ++ t /\ unsigned t.

Lemma mute_silent {E A} (m : M W E A) :
  (forall w, w_trace (m w).2 = w_trace w) -> mute m.
Proof. intros Hm w. exists []. rewrite app_nil_r. split; [done|constructor]. Qed.

Lemma mute_ret {E A} (a : A) : mute (m_ret (E := E) a).
Proof. by apply mute_silent. Qed.
Lemma mute_throw {E A} (er : E) : mute (m_throw (A := A) er).
Proof. by apply mute_silent. Qed.
Lemma mute_lift {E A} (r : result E A) : mute (m_lift r).
Proof. by apply mute_silent. Qed.

Lemma mute_outside {A} (op : M N Error A) : mute (outside op).
Proof. apply mute_silent. intros w. unfold outside. by destruct (op (w_env w)). Qed.

Lemma mute_store {A} (op : SEnv -> M Dir Error A) : mute (on_store op).
Proof.
  apply mute_silent. intros w. unfold on_store. destruct (env_store (w_env w)) as [env n].
  by destruct (op env (peers (w_env w) (w_store w))).
Qed.

Lemma mute_observe o : signs o = false -> mute (observe o).
Proof. intros Ho w. exists [o]. split; [done|]. by constructor. Qed.

Lemma mute_bind {E A B} (m : M W E A) (k : A -> M W E B) :
  mute m -> (forall a, mute (k a)) -> mute (m_bind m k).
Proof.
  intros Hm Hk w. unfold m_bind. destruct (Hm w) as (t & Ht & Hu).
  destruct (m w) as [[a|er] w1]; [|by exists t]. cbn in Ht.
  destruct (Hk a w1) as (u & Hu' & Huu). exists (t ++ u). rewrite Hu', Ht, app_assoc.
  split; [done|]. by apply Forall_app.
Qed.

Lemma mute_try {E A} (m : M W E A) : mute m -> mute (m_try m).
Proof. intros Hm w. unfold m_try. specialize (Hm w). destruct (m w) as [r w1]. exact Hm. Qed.

(** The default [reserve_signer_for_record] refuses, before anything is signed. *)
Lemma mute_send r action call signer : mute (send_journaled r action call signer).
Proof.
  apply mute_silent. intros w. unfold send_journaled, m_bind, m_throw, on_store.
  destruct (is_some _); [done|]. by destruct (env_store (w_env w)).
Qed.

Lemma mute_update r : mute (store_update r).
Proof.
  apply mute_bind; [apply mute_store|]. intros next.
  apply mute_bind; [by apply mute_observe|]. intros _. apply mute_ret.
Qed.

Lemma mute_get id : mute (store_get id).
Proof. apply mute_bind; [apply mute_store|]. intros o. apply mute_lift. Qed.

#[local] Hint Resolve mute_ret mute_throw mute_lift mute_outside mute_store mute_send mute_update
  mute_get : mute.

(** Walk a method: its binds, its branches, its leaves. *)
Ltac mute :=
  repeat first
    [ progress intros
    | solve [eauto with mute]
    | apply mute_bind
    | apply mute_try
    | apply mute_observe; reflexivity
    | match goal with
      | |- mute (if ?b then _ else _) => destruct b
      | |- mute (match ?x with _ => _ end) => destruct x
      | |- mute (let '_ := ?x in _) => destruct x
      end
    | progress cbv zeta ].

Context (e : Engine).

Lemma mute_now : mute (now (St := Dir)).
Proof. apply mute_outside. Qed.
Lemma mute_sample {A} (f : N -> A * N) : mute (sample (St := Dir) f).
Proof. apply mute_outside. Qed.
#[local] Hint Resolve mute_now mute_sample : mute.

Lemma mute_announce r : mute (announce_if_final r).
Proof. unfold announce_if_final. mute. Qed.
#[local] Hint Resolve mute_announce : mute.

Lemma mute_resolve r p : mute (resolve_pending e r p).
Proof. unfold resolve_pending, reconcile_journaled. mute. Qed.
Lemma mute_notify r : mute (notify e r).
Proof. unfold notify. mute. Qed.
Lemma mute_spendable : mute (spendable (St := Dir) e).
Proof. unfold spendable. mute. Qed.
Lemma mute_sweep_floor netuid : mute (sweep_floor (St := Dir) e netuid).
Proof. unfold sweep_floor. mute. Qed.
Lemma mute_estimate netuid kp pos fees : mute (estimate_fees (St := Dir) e netuid kp pos fees).
Proof. revert fees. induction pos as [|q pos IH]; intros fees; cbn [estimate_fees]; mute. Qed.
#[local] Hint Resolve mute_resolve mute_notify mute_spendable mute_sweep_floor mute_estimate : mute.

Lemma mute_step_pending r positions : mute (step_pending r positions).
Proof. unfold step_pending. mute. Qed.
Lemma mute_step_detected r : mute (step_detected e r).
Proof. unfold step_detected. mute. Qed.
Lemma mute_step_funded r : mute (step_funded e r).
Proof. unfold step_funded. mute. Qed.
Lemma mute_step_auto_buyback r : mute (step_auto_buyback e r).
Proof. unfold step_auto_buyback. mute. Qed.
Lemma mute_consolidate fuel r : mute (consolidate_loop e fuel r).
Proof. revert r. induction fuel as [|fuel IH]; intros r; cbn [consolidate_loop]; mute. Qed.
Lemma mute_return_dust r : mute (return_dust e r).
Proof. unfold return_dust. mute. Qed.
#[local] Hint Resolve mute_step_pending mute_step_detected mute_step_funded mute_step_auto_buyback
  mute_consolidate mute_return_dust : mute.

Lemma mute_settle r : mute (settle e r).
Proof. unfold settle. mute. Qed.
#[local] Hint Resolve mute_settle : mute.
Lemma mute_step_swept r : mute (step_swept e r).
Proof. unfold step_swept. mute. Qed.
Lemma mute_step_failed id er : mute (step_failed e id er).
Proof. unfold step_failed. mute. Qed.
#[local] Hint Resolve mute_step_swept mute_step_failed : mute.

Lemma mute_step r positions : mute (step e r positions).
Proof. unfold step. mute. Qed.
#[local] Hint Resolve mute_step : mute.

Lemma mute_tick_loop positions t recs n : mute (tick_loop e positions t recs n).
Proof. revert n. induction recs as [|r recs IH]; intros n; cbn [tick_loop]; mute. Qed.
#[local] Hint Resolve mute_tick_loop : mute.
Lemma mute_tick : mute (tick e).
Proof. unfold tick. mute. Qed.
#[local] Hint Resolve mute_tick : mute.
Lemma mute_follow blocks : mute (follow_blocks e blocks).
Proof. induction blocks as [|[b|er] blocks IH]; cbn [follow_blocks]; mute. Qed.
#[local] Hint Resolve mute_follow : mute.
Lemma mute_run sessions : mute (run e sessions).
Proof. induction sessions as [|s sessions IH]; cbn [run]; mute. Qed.

Lemma mute_create_payment opts : mute (create_payment e opts).
Proof. unfold create_payment, insert_job. mute. Qed.
Lemma mute_create_sweep_job id path expected metadata : mute (create_sweep_job e id path expected metadata).
Proof. unfold create_sweep_job, insert_job. mute. Qed.
Lemma mute_get_status id : mute (get_status id).
Proof. unfold get_status. mute. Qed.
Lemma mute_retry id : mute (retry id).
Proof. unfold retry. mute. Qed.
Lemma mute_force_sweep id : mute (force_sweep id).
Proof. unfold force_sweep. mute. Qed.

(** C25: an engine on the file store signs nothing.  The store keeps the trait's
    default signing methods, so every request is refused before anything is
    generated or stored, and whatever records its directory holds and whatever the
    node answers, [run], over any subscriptions, neither has a transaction signed
    nor broadcasts one: a job that needs one stops before it. *)
Theorem file_engine_signs_nothing (w : W) :
  (forall sessions, exists t, w_trace (run e sessions w).2 = w_trace w ++ t /\ unsigned t) /\
  (forall opts, (create_payment e opts w).1 =
     Err (Error_Store "shared signer reservations unsupported; requests disabled")) /\
  (forall id path expected metadata, (create_sweep_job e id path expected metadata w).1 =
     Err (Error_Store "shared signer reservations unsupported; requests disabled")) /\
  (forall r action call signer, pr_pending r = None -> (send_journaled r action call signer w).1 =
     Err (Error_Store "atomic signer reservation unsupported")).
Proof.
  split; [intros sessions; apply mute_run|].
  split; [intros opts; apply (file_store_takes_no_requests e opts "" "" "" None w)|].
  split; [intros; by apply (file_store_takes_no_requests e CreatePayment_default)|].
  intros r action call signer Hp. unfold send_journaled, m_bind, on_store. rewrite Hp. cbn [is_some].
  by destruct (env_store (w_env w)).
Qed.
End FileEngine.
