(* ===== verification/Connect.v ===== *)
(** Connecting to a node (src/src/chain.rs, [Chain::connect_endpoint],
    [Chain::connect_any]): the transport policy and the rotation over endpoints.
    URL parsing, the websocket and the backend are the class [Transport]. *)
From S2P Require Import Prelude RustStd Types Chain.
Local Open Scope Z_scope.

Class Transport (N : Type) : Type := {
  Url : Type;
  Url_parse : string -> option Url;
  url_scheme : Url -> string;
  url_host_str : Url -> option string;
  (** [HeaderValue::from_str] accepts the text *)
  header_value_ok : string -> bool;
  Wire : Type;
  (** the websocket handshake, with the [authorization] header *)
  ws_build : Url -> option string -> M N string Wire;
  Conn : Type;
  from_backend : Wire -> M N string Conn;
  conn_best_finalized : Conn -> M N Error Z;
  sleep_secs : Z -> N -> N }.

Section Connect.
Context {N : Type} `{!Transport N}.

Definition url_loopback (url : Url) : bool :=
  match url_host_str url with
  | Some h => bool_decide (h ∈ ["127.0.0.1"; "localhost"; "::1"; "[::1]"])
  | None => false
  end.
(** [wss], or [ws] to this machine. *)
Definition url_secure (url : Url) : bool :=
  bool_decide (url_scheme url = "wss") || (bool_decide (url_scheme url = "ws") && url_loopback url).

Definition bearer_header (bearer : option string) : Result (option string) :=
  match bearer with
  | Some key =>
      let v := "Bearer " +:+ key in
      if header_value_ok v then Ok (Some v)
      else Err (Error_Config "RPC key is not a valid header value")
  | None => Ok None
  end.

Definition connect_endpoint (ep : Endpoint) : M N Error Conn :=
  match Url_parse (ep_url ep) with
  | None => m_throw (Error_Config ("bad RPC url " +:+ str_debug (ep_url ep)))
  | Some url =>
      if negb (url_secure url) then
        m_throw (Error_Config ("RPC url " +:+ str_debug (ep_url ep)
                               +:+ " must be wss:// (ws:// only on loopback)"))
      else
        let! header := m_lift (bearer_header (ep_bearer ep)) in
        let! wire := m_try (fun w => let '(r, w) := ws_build url header w in (chain_err r, w)) in
        match wire with
        | Err _ => m_throw (Error_Chain ("cannot connect to " +:+ redact_url (ep_url ep)))
        | Ok wire => fun w => let '(r, w) := from_backend wire w in (chain_err r, w)
        end
  end.

(** One attempt: the connection, when it also answers a finalized head. *)
Definition try_endpoint (ep : Endpoint) : M N Error Conn :=
  let! c := connect_endpoint ep in
  let! _ := conn_best_finalized c in
  m_ret c.

(** One round over the endpoints: the connection, or the last error. *)
Fixpoint connect_round (endpoints : list Endpoint) (last : Error) (w : N) : result Error Conn * N :=
  match endpoints with
  | [] => (Err last, w)
  | ep :: endpoints =>
      match try_endpoint ep w with
      | (Ok c, w) => (Ok c, w)
      | (Err e, w) => connect_round endpoints e w
      end
  end.

Fixpoint connect_rounds (endpoints : list Endpoint) (rounds : nat) (round : Z) (last : Error) (w : N)
  : result Error Conn * N :=
  match rounds with
  | O => (Err last, w)
  | S rounds =>
      match connect_round endpoints last w with
      | (Ok c, w) => (Ok c, w)
      | (Err e, w) =>
          connect_rounds endpoints rounds (round + 1) e
            (sleep_secs (Z.shiftl 2 (Z.min round 4)) w)
      end
  end.

Definition connect_any (endpoints : list Endpoint) (attempts : Z) : M N Error Conn :=
  connect_rounds endpoints (Z.to_nat (Z.max attempts 1)) 0
    (Error_Config "no RPC endpoint configured").

(** * Theorems *)

(** The endpoint parses and may be connected to. *)
Definition endpoint_secure (ep : Endpoint) : Prop :=
  exists url, Url_parse (ep_url ep) = Some url /\ url_secure url = true.

Lemma connect_endpoint_insecure ep w :
  ~ endpoint_secure ep -> exists e, connect_endpoint ep w = (Err (Error_Config e), w).
Proof.
  intros Hns. unfold connect_endpoint. destruct (Url_parse (ep_url ep)) as [url|] eqn:Hu; [|by eexists].
  destruct (url_secure url) eqn:Hs; [|by eexists]. destruct Hns. by exists url.
Qed.

Lemma try_endpoint_secure ep w c w' : try_endpoint ep w = (Ok c, w') -> endpoint_secure ep.
Proof.
  unfold try_endpoint, connect_endpoint, m_bind, endpoint_secure. intros Ht.
  destruct (Url_parse (ep_url ep)) as [url|]; [|done]. destruct (url_secure url) eqn:Hs; [|done].
  by exists url.
Qed.

(** The endpoints before the one that answered were tried, in order, and failed. *)
Inductive tried : list Endpoint -> N -> N -> Prop :=
| tried_nil w : tried [] w w
| tried_cons ep eps w e w1 w' :
    try_endpoint ep w = (Err e, w1) -> tried eps w1 w' -> tried (ep :: eps) w w'.

Lemma connect_round_ok endpoints last w c w' :
  connect_round endpoints last w = (Ok c, w') ->
  exists pre ep post w1, endpoints = pre ++ ep :: post /\ tried pre w w1 /\
    try_endpoint ep w1 = (Ok c, w').
Proof.
  revert last w. induction endpoints as [|ep endpoints IH]; intros last w Hc; [done|].
  cbn in Hc. destruct (try_endpoint ep w) as [[c'|e] w1] eqn:Ht.
  - injection Hc as -> ->. exists [], ep, endpoints, w. split_and!; [done|constructor|done].
  - apply IH in Hc as (pre & ep' & post & w2 & -> & Hpre & Hep).
    exists (ep :: pre), ep', post, w2. split_and!; [done|by econstructor|done].
Qed.

Lemma connect_rounds_ok endpoints rounds round last w c w' :
  connect_rounds endpoints rounds round last w = (Ok c, w') ->
  exists last' w0, connect_round endpoints last' w0 = (Ok c, w').
Proof.
  revert round last w. induction rounds as [|rounds IH]; intros round last w Hc; [done|].
  cbn in Hc. destruct (connect_round endpoints last w) as [[c'|e] w1] eqn:Hr.
  - injection Hc as -> ->. by exists last, w.
  - by apply IH in Hc.
Qed.

(** C32: connections are never in the clear. An endpoint that is neither [wss]
    nor [ws] to the machine itself is refused before anything is sent, its key
    included; and the connection [connect_any] returns is that of the first
    endpoint of a round that was secure and answered a finalized head, those
    before it in the round having been tried and failed. *)
Theorem connect_any_secure (endpoints : list Endpoint) (attempts : Z) (w w' : N) (c : Conn)
  (Hconnect : connect_any endpoints attempts w = (Ok c, w')) :
  (forall ep w0, ~ endpoint_secure ep -> exists e, connect_endpoint ep w0 = (Err (Error_Config e), w0)) /\
  exists pre ep post w0 w1, endpoints = pre ++ ep :: post /\ tried pre w0 w1 /\
    endpoint_secure ep /\ try_endpoint ep w1 = (Ok c, w').
Proof.
  split; [intros ep w0; apply connect_endpoint_insecure|].
  apply connect_rounds_ok in Hconnect as (last & w0 & Hr).
  apply connect_round_ok in Hr as (pre & ep & post & w1 & -> & Hpre & Hep).
  exists pre, ep, post, w0, w1. split_and!; try done. by eapply try_endpoint_secure.
Qed.
End Connect.

(** A concrete transport: URLs are scheme and host, one host answers, and the
    world counts the handshakes. *)
Module ToyTransport.
#[export] Instance toy_transport : Transport Z := {|
  Url := string * string;
  Url_parse := split_once "://";
  url_scheme := fst;
  url_host_str u := Some u.2;
  header_value_ok _ := true;
  Wire := string;
  ws_build u header := fun n =>
    (if bool_decide (u.2 = "node.example") then Ok u.2 else Err "unreachable", n + 1);
  Conn := string;
  from_backend s := m_ret s;
  conn_best_finalized c := m_ret 7;
  sleep_secs s n := n |}.

Definition toy_endpoints : list Endpoint :=
  [ Endpoint_new "ws://node.example"; Endpoint_new "wss://down.example";
    Endpoint_new "wss://node.example" ].

(** The clear endpoint is skipped without a handshake, the dead one costs one. *)
Lemma connect_any_secure_witness :
  connect_any toy_endpoints 1 0 = (Ok "node.example", 2) /\
  exists ep, ep ∈ toy_endpoints /\ endpoint_secure ep.
Proof.
  assert (H : connect_any toy_endpoints 1 0 = (Ok "node.example", 2)) by (vm_compute; reflexivity).
  split; [exact H|].
  destruct (connect_any_secure (N := Z) toy_endpoints 1 0 2 _ H)
    as (_ & pre & ep & post & w0 & w1 & Heps & _ & Hsec & _).
  exists ep. split; [rewrite Heps; set_solver|exact Hsec].
Defined.
End ToyTransport.
