(* ===== verification/Cli.v ===== *)
(** The command line (src/src/bin/buyback.rs): the options shared by the
    commands, the engine they configure, and the loading of its keys
    (src/src/keys.rs, [MasterKey::from_env], [TreasuryKeySource]).  Environment
    variables, files and the secret URI parser are the class [Process]; options
    arrive parsed. *)
From S2P Require Import Prelude RustStd Types Units Keys State Chain StoreSpec Engine FileStore Connect.
From Stdlib Require Import Strings.Byte.
Local Open Scope Z_scope.

Class Process `{Crypto} : Type := {
  env_var : string -> option string;
  read_to_string : string -> result string string;
  SecretUri_keypair : string -> option Keypair;
  sealed_from_json : string -> option SealedSecret }.

(** [Box<dyn Error>]: an error of the library or a message. *)
Inductive BoxError : Type :=
| Box_lib (e : Error)
| Box_msg (msg : string).

(** [?] on a library result. *)
Definition boxed {A} (r : Result A) : result BoxError A :=
  match r with Ok a => Ok a | Err e => Err (Box_lib e) end.

(** ** keys.rs: where keys come from *)

Inductive TreasuryKeySource : Type :=
| EnvUri (var : string)
| MnemonicFile (path : string)
| EncryptedKeystore (path : string).

Definition TREASURY_AAD : list Byte.byte := bytes_of_string "bittensor-buyback/v1/treasury".

Section Keys.
Context `{Process}.

Definition var_or_config (var : string) : Result string :=
  ok_or (env_var var) (Error_Config (var +:+ " is not set")).
Definition file_or_config (path : string) : Result string :=
  match read_to_string path with
  | Ok s => Ok s
  | Err e => Err (Error_Config ("read " +:+ path +:+ ": " +:+ e))
  end.

Definition MasterKey_from_env (var : string) : Result MasterKey :=
  let? v := var_or_config var in
  MasterKey_from_hex v.

Definition keypair_from_uri (uri : string) : Result Keypair :=
  ok_or (SecretUri_keypair uri) (Error_Config "invalid secret uri").

Definition TreasuryKeySource_load (src : TreasuryKeySource) (master : option MasterKey)
  : Result Keypair :=
  let? uri :=
    match src with
    | EnvUri var => var_or_config var
    | MnemonicFile p => file_or_config p
    | EncryptedKeystore p =>
        let? master := ok_or master (Error_Config "encrypted keystore needs a master key") in
        let? raw := file_or_config p in
        let? sealed := ok_or (sealed_from_json raw) (Error_Config "keystore is not a sealed secret") in
        let? bytes := MasterKey_open master sealed TREASURY_AAD in
        ok_or (string_from_utf8 bytes) (Error_Crypto "keystore is not utf-8")
    end in
  keypair_from_uri (str_trim uri).
End Keys.

(** ** The options *)

Record Common := mkCommon {
  co_network : string;
  co_netuid : Z;
  co_store : string;
  co_master_key_var : string;
  co_treasury_uri_var : string;
  co_treasury_mnemonic_file : option string;
  co_treasury_keystore : option string;
  co_treasury_hotkey : string;
  co_min_alpha : string;
  co_min_tao : option string;
  co_expiry_secs : Z;
  co_buyback_netuid : Z;
  co_slippage_bps : Z;
  co_fee_margin_bps : Z;
  co_fee_reserve : string;
  co_auto : string;
  co_auto_amount : string;
  co_auto_source : option string;
  co_webhook_url : option string;
  co_allow_mainnet : bool }.

Definition cli_destroy (s : string) : result BoxError Destroy :=
  if bool_decide (s = "keep") then Ok Keep
  else if bool_decide (s = "burn") then Ok Burn
  else if bool_decide (s = "recycle") then Ok Recycle
  else Err (Box_msg ("expected keep|burn|recycle, got " +:+ s)).

Section Cli.
Context `{Crypto} `{!Process} `{Ss58} {N : Type} `{!Transport N}.

(** The automatic buyback the options ask for: a validated budget. *)
Definition cli_auto (c : Common) : result BoxError (option BuybackBudget * AutoBuyback) :=
  if bool_decide (co_auto c = "off") then Ok (None, AutoBuyback_Off)
  else
    let? amount := boxed (parse_amount (co_auto_amount c)) in
    let? destroy := cli_destroy (co_auto c) in
    let? source := ok_or (co_auto_source c)
                     (Box_msg "--auto-source required for automatic buyback") in
    let budget := {| bb_amount_rao := amount; bb_currency := "TAO"; bb_source := source;
                     bb_netuid := co_buyback_netuid c; bb_destroy := destroy;
                     bb_hotkey := co_treasury_hotkey c |} in
    let? _ := boxed (BuybackBudget_validate budget) in
    Ok (Some budget, AutoBuyback_On destroy (AutoAmount_Fixed amount)).

Definition cli_key_source (c : Common) : TreasuryKeySource :=
  match co_treasury_keystore c, co_treasury_mnemonic_file c with
  | Some p, _ => EncryptedKeystore p
  | None, Some p => MnemonicFile p
  | None, None => EnvUri (co_treasury_uri_var c)
  end.

(** [engine] up to the connection: the keys and the configuration. *)
Definition cli_config (c : Common) : result BoxError (MasterKey * Keypair * Config) :=
  let? net := boxed (Network_from_str (co_network c)) in
  if match net with Finney => negb (co_allow_mainnet c) | _ => false end then
    Err (Box_msg "refusing to use finney without --allow-mainnet / BUYBACK_ALLOW_MAINNET")
  else
    let? master := boxed (MasterKey_from_env (co_master_key_var c)) in
    let? treasury := boxed (TreasuryKeySource_load (cli_key_source c) (Some master)) in
    let? hotkey := boxed (parse_ss58 (co_treasury_hotkey c)) in
    let cfg := Config_new (Network_url net) (co_netuid c) hotkey in
    let? min_alpha := boxed (parse_amount (co_min_alpha c)) in
    let? min_tao := match co_min_tao c with
                    | Some s => let? m := boxed (parse_amount s) in Ok (Some m)
                    | None => Ok None
                    end in
    let? fee_reserve := boxed (parse_amount (co_fee_reserve c)) in
    let? (budget, auto) := cli_auto c in
    Ok (master, treasury,
        {| cfg_url := cfg_url cfg; cfg_netuid := cfg_netuid cfg; cfg_min_alpha := min_alpha;
           cfg_min_tao := min_tao; cfg_expiry_secs := co_expiry_secs c;
           cfg_treasury_hotkey := cfg_treasury_hotkey cfg; cfg_sweep_dust := cfg_sweep_dust cfg;
           cfg_consolidate := cfg_consolidate cfg; cfg_return_dust := cfg_return_dust cfg;
           cfg_fee_margin_bps := co_fee_margin_bps c; cfg_fee_reserve := fee_reserve;
           cfg_buyback_netuid := co_buyback_netuid c; cfg_slippage_bps := co_slippage_bps c;
           cfg_allow_partial := cfg_allow_partial cfg; cfg_auto := auto;
           cfg_buyback_budget := budget; cfg_max_attempts := cfg_max_attempts cfg;
           cfg_webhook_url := co_webhook_url c |}).

(** [engine]: the connection, the store to open and the engine. *)
Definition cli_engine (c : Common) : M N BoxError (Conn * OpenedStore * Engine) :=
  let! (master, treasury, cfg) := m_lift (cli_config c) in
  let! chain := fun w => let '(r, w) := connect_endpoint (Endpoint_new (cfg_url cfg)) w in
                         (boxed r, w) in
  let e := Engine_new (Keyring_from_master master) treasury cfg in
  m_ret (chain, open_store (co_store c),
         match env_var "BUYBACK_WEBHOOK_SECRET" with
         | Some s => Engine_with_webhook_secret e (bytes_of_string s)
         | None => e
         end).

(** * Theorems *)

Lemma boxed_ok {A} (r : Result A) a : boxed r = Ok a <-> r = Ok a.
Proof. by destruct r; cbn; split; intros [= ->]. Qed.

(** A configuration under which [insert_job] refuses no job for its budget. *)
Definition budget_settled (cfg : Config) : Prop :=
  match cfg_auto cfg with
  | AutoBuyback_Off => cfg_buyback_budget cfg = None
  | AutoBuyback_On destroy amount => exists b, cfg_buyback_budget cfg = Some b /\
      BuybackBudget_validate b = Ok tt /\ bb_destroy b = destroy /\
      amount = AutoAmount_Fixed (bb_amount_rao b)
  end.

Lemma cli_auto_settled c budget auto cfg :
  cli_auto c = Ok (budget, auto) -> cfg_auto cfg = auto -> cfg_buyback_budget cfg = budget ->
  budget_settled cfg.
Proof.
  unfold cli_auto, budget_settled. intros Ha -> ->. case_bool_decide; [by injection Ha as <- <-|].
  apply result_bind_ok in Ha as (amount & _ & Ha). apply result_bind_ok in Ha as (destroy & _ & Ha).
  apply result_bind_ok in Ha as (source & _ & Ha). apply result_bind_ok in Ha as ([] & Hv & Ha).
  apply boxed_ok in Hv. injection Ha as <- <-. by eexists.
Qed.

Lemma cli_config_ok c master treasury cfg :
  cli_config c = Ok (master, treasury, cfg) ->
  (exists net, Network_from_str (co_network c) = Ok net /\ cfg_url cfg = Network_url net /\
     (net = Finney -> co_allow_mainnet c = true)) /\
  MasterKey_from_env (co_master_key_var c) = Ok master /\
  TreasuryKeySource_load (cli_key_source c) (Some master) = Ok treasury /\ budget_settled cfg.
Proof.
  unfold cli_config. intros Hc. apply result_bind_ok in Hc as (net & Hnet & Hc).
  destruct (match net with Finney => _ | _ => _ end) eqn:Hguard; [done|].
  apply result_bind_ok in Hc as (mk & Hm & Hc). apply result_bind_ok in Hc as (kp & Ht & Hc).
  apply result_bind_ok in Hc as (hk & _ & Hc). apply result_bind_ok in Hc as (ma & _ & Hc).
  apply result_bind_ok in Hc as (mt & _ & Hc). apply result_bind_ok in Hc as (fr & _ & Hc).
  apply result_bind_ok in Hc as ([budget auto] & Ha & Hc). injection Hc as <- <- <-.
  apply boxed_ok in Hnet, Hm, Ht. split_and!; try done; [|by eapply cli_auto_settled].
  exists net. split_and!; try done. intros ->. by apply negb_false_iff in Hguard.
Qed.

(** The names of the main network. *)
Lemma Network_from_str_finney s net :
  Network_from_str s = Ok net -> (net = Finney <-> s = "finney" \/ s = "mainnet").
Proof.
  unfold Network_from_str. repeat case_bool_decide; cbn [orb]; try destruct (_ || _); intros [= <-];
    naive_solver.
Qed.

(** C33: what the command line checks before it starts an engine.  The network
    named [finney] or [mainnet] needs the explicit permission, and those two names
    are all the permission is about: any other network, a URL that is finney's own
    among them, is used without it.  The node is reached over a secure endpoint at
    the network's URL, the keys are the ones the options name, and an automatic
    buyback always comes with a validated budget of the same fixed amount and
    destruction, and no budget is set without one. *)
Theorem cli_engine_safeguarded (c : Common) (w w' : N) (chain : Conn) (store : OpenedStore) (e : Engine)
  (Hrun : cli_engine c w = (Ok (chain, store, e), w')) :
  (exists net, Network_from_str (co_network c) = Ok net /\ cfg_url (en_cfg e) = Network_url net /\
     (net = Finney <-> co_network c = "finney" \/ co_network c = "mainnet") /\
     (net = Finney -> co_allow_mainnet c = true) /\ endpoint_secure (Endpoint_new (Network_url net))) /\
  (exists master, MasterKey_from_env (co_master_key_var c) = Ok master /\
     en_keyring e = Keyring_from_master master /\
     TreasuryKeySource_load (cli_key_source c) (Some master) = Ok (en_treasury e)) /\
  budget_settled (en_cfg e).
Proof.
  unfold cli_engine, m_bind, m_lift, m_ret in Hrun.
  destruct (cli_config c) as [[[master treasury] cfg]|] eqn:Hc; [|done].
  apply cli_config_ok in Hc as ((net & Hnet & Hurl & Hallow) & Hm & Ht & Hb). rewrite Hurl in Hrun.
  destruct (connect_endpoint _ w) as [[conn|] w1] eqn:Hconn; [|done]. cbn in Hrun.
  assert (Hsec : endpoint_secure (Endpoint_new (Network_url net))).
  { destruct (Url_parse (ep_url (Endpoint_new (Network_url net)))) as [url|] eqn:Hu.
    - exists url. split; [done|]. unfold connect_endpoint in Hconn. rewrite Hu in Hconn.
      by destruct (url_secure url).
    - unfold connect_endpoint in Hconn. by rewrite Hu in Hconn. }
  injection Hrun as <- <- <- <-.
  pose proof (Network_from_str_finney _ _ Hnet) as Hname.
  destruct (env_var "BUYBACK_WEBHOOK_SECRET"); cbn; (split; [by exists net|]); (split; [|done]);
    by exists master.
Qed.
End Cli.

(** * A concrete process *)
Module ToyProcess.
Import ToyKeys ToyTransport.

Definition toy_master : MasterKey := toy_key Byte.x01.
Definition toy_uri : string := "//Treasury".

#[export] Instance toy_process : Process := {|
  env_var v :=
    if bool_decide (v = "MASTER") then Some (hex_encode (mk_bytes toy_master))
    else if bool_decide (v = "URI") then Some (" " +:+ toy_uri) else None;
  read_to_string p := Err "no such file";
  SecretUri_keypair s := if bool_decide (s = toy_uri) then Some (replicate 32 Byte.x54) else None;
  sealed_from_json s := None |}.

Definition toy_hotkey : string := ss58 (mkAccountId32 (replicate 32 Byte.x48)).
Definition toy_common : Common :=
  {| co_network := "wss://node.example"; co_netuid := 1; co_store := "sqlite:buyback.sqlite";
     co_master_key_var := "MASTER"; co_treasury_uri_var := "URI"; co_treasury_mnemonic_file := None;
     co_treasury_keystore := None; co_treasury_hotkey := toy_hotkey; co_min_alpha := "1";
     co_min_tao := None; co_expiry_secs := 86400; co_buyback_netuid := 100; co_slippage_bps := 100;
     co_fee_margin_bps := 5000; co_fee_reserve := "0.1"; co_auto := "burn"; co_auto_amount := "0.5";
     co_auto_source := Some "fees"; co_webhook_url := None; co_allow_mainnet := false |}.

Lemma cli_engine_safeguarded_witness :
  exists chain e, cli_engine toy_common 0 = (Ok (chain, Opened_sqlite "buyback.sqlite", e), 1) /\
    cfg_min_alpha (en_cfg e) = 1000000000 /\ budget_settled (en_cfg e).
Proof.
  assert (H : exists chain e, cli_engine toy_common 0 = (Ok (chain, Opened_sqlite "buyback.sqlite", e), 1) /\
                              cfg_min_alpha (en_cfg e) = 1000000000)
    by (eexists; eexists; split; [vm_compute; reflexivity|vm_compute; reflexivity]).
  destruct H as (chain & e & H & Hm). exists chain, e. split; [exact H|]. split; [exact Hm|].
  destruct (cli_engine_safeguarded toy_common 0 1 chain (Opened_sqlite "buyback.sqlite") e H)
    as (_ & _ & Hb).
  exact Hb.
Defined.

(** Finney at its own URL, without permission: it is a custom network, and its
    configuration is accepted. *)
Definition finney_common : Common :=
  {| co_network := Network_url Finney; co_netuid := 1; co_store := "sqlite:buyback.sqlite";
     co_master_key_var := "MASTER"; co_treasury_uri_var := "URI"; co_treasury_mnemonic_file := None;
     co_treasury_keystore := None; co_treasury_hotkey := toy_hotkey; co_min_alpha := "1";
     co_min_tao := None; co_expiry_secs := 86400; co_buyback_netuid := 100; co_slippage_bps := 100;
     co_fee_margin_bps := 5000; co_fee_reserve := "0.1"; co_auto := "off"; co_auto_amount := "0.5";
     co_auto_source := None; co_webhook_url := None; co_allow_mainnet := false |}.
Example finney_url_unguarded :
  co_allow_mainnet finney_common = false /\
  exists master treasury cfg, cli_config finney_common = Ok (master, treasury, cfg) /\
    cfg_url cfg = Network_url Finney.
Proof. split; [reflexivity|]. do 3 eexists. split; vm_compute; reflexivity. Qed.

(** Without a source the automatic buyback is refused; so is finney. *)
Example auto_needs_source :
  cli_auto {| co_network := ""; co_netuid := 1; co_store := ""; co_master_key_var := "";
    co_treasury_uri_var := ""; co_treasury_mnemonic_file := None; co_treasury_keystore := None;
    co_treasury_hotkey := toy_hotkey; co_min_alpha := "1"; co_min_tao := None; co_expiry_secs := 1;
    co_buyback_netuid := 100; co_slippage_bps := 100; co_fee_margin_bps := 5000; co_fee_reserve := "0";
    co_auto := "burn"; co_auto_amount := "0.5"; co_auto_source := None; co_webhook_url := None;
    co_allow_mainnet := false |}
  = Err (Box_msg "--auto-source required for automatic buyback").
Proof. vm_compute. reflexivity. Qed.
End ToyProcess.
