(* ===== verification/Machine.v ===== *)
(** The machine a command runs on, and the opening of stores (src/src/store.rs:
    [FileStore::open], [SqliteStore::open], [SqliteStore::open_read_only],
    [SqliteStore::init], [open_store]).

    A machine is its files, its SQLite database files and store directories by
    path, the world of its node and the trace of the engine's effects.  A database
    file has a schema beside its tables, a directory a mode beside its files, so
    what opening a store leaves behind is there to see. *)
From S2P Require Import Prelude RustStd Types Units Keys State Chain StoreSpec SqliteStore.
From S2P Require Import Engine FileStore Cli.
Local Open Scope Z_scope.

(** What the statements of [init] leave in a database file; the other two pragmas
    ([synchronous], [busy_timeout]) are of the connection. *)
Inductive DbObject : Type :=
| Wal_mode
| Reservations_table
| Payments_table
| State_index.
#[export] Instance DbObject_eq_dec : EqDecision DbObject.
Proof. solve_decision. Defined.

Record DbFile := mkDbFile { df_schema : list DbObject; df_tables : Sqlite }.
Definition DbFile_empty : DbFile := mkDbFile [] SqliteStore_init.

Record StoreDir := mkStoreDir { sd_mode : Z; sd_files : Dir }.

Record Machine (N : Type) := mkMachine {
  m_files : gmap string string;
  m_databases : gmap string DbFile;
  m_dirs : gmap string StoreDir;
  m_node : N;
  m_trace : list Obs }.
Arguments mkMachine {N}.
Arguments m_files {N}.
Arguments m_databases {N}.
Arguments m_dirs {N}.
Arguments m_node {N}.
Arguments m_trace {N}.

Definition set_node {N} (n : N) (m : Machine N) : Machine N :=
  mkMachine (m_files m) (m_databases m) (m_dirs m) n (m_trace m).
Definition set_file {N} (path content : string) (m : Machine N) : Machine N :=
  mkMachine (<[path := content]> (m_files m)) (m_databases m) (m_dirs m) (m_node m) (m_trace m).
Definition set_database {N} (path : string) (f : DbFile) (m : Machine N) : Machine N :=
  mkMachine (m_files m) (<[path := f]> (m_databases m)) (m_dirs m) (m_node m) (m_trace m).
Definition set_dir {N} (dir : string) (d : StoreDir) (m : Machine N) : Machine N :=
  mkMachine (m_files m) (m_databases m) (<[dir := d]> (m_dirs m)) (m_node m) (m_trace m).

(** What the libraries and the operating system answer: serde_json on the documents
    of the commands; a connection to a database file, and a batch of statements,
    which stops at the one that fails; directories, their modes and the mode a new
    one gets; the HTTP listener; the creation and writing of a file, a failed write
    leaving a part of the content behind. *)
Class Shell (N : Type) : Type := {
  sealed_to_json : SealedSecret -> string;
  manifest_from_slice : string -> result string LegacyManifest;
  json_from_str : string -> option Json;
  json_string : string -> Json;
  open_connection : bool -> string -> M N string unit;
  execute_batch : string -> M N (nat * string) unit;
  create_dir_all : string -> M N string unit;
  new_dir_mode : Z;
  set_permissions : string -> M N string unit;
  http_bind : string -> M N string unit;
  create_file : string -> M N string unit;
  write_all : string -> M N (string * string) unit }.

(** The persistent statements of [init]'s batch, in order; each creates its object
    only if it is not there. *)
Definition init_batch : list DbObject := [Wal_mode; Reservations_table; Payments_table; State_index].
Definition execute_one (schema : list DbObject) (o : DbObject) : list DbObject :=
  if bool_decide (o ∈ schema) then schema else schema ++ [o].
(** The first [k] statements. *)
Definition execute_statements (k : nat) (f : DbFile) : DbFile :=
  mkDbFile (fold_left execute_one (take k init_batch) (df_schema f)) (df_tables f).

Section Opening.
Context {N : Type} `{!Shell N}.
Abbreviation Run_ A := (M (Machine N) BoxError A).

(** [map_err(store_err)], boxed. *)
Definition store_answer {A} (r : result string A) : result BoxError A :=
  match r with Ok a => Ok a | Err e => Err (Box_lib (Error_Store e)) end.

(** [init] on a connection. *)
Definition init_connection (path : string) : Run_ unit := fun m =>
  let f := default DbFile_empty (m_databases m !! path) in
  match execute_batch path (m_node m) with
  | (Ok _, n) => (Ok tt, set_node n (set_database path (execute_statements (length init_batch) f) m))
  | (Err (k, e), n) =>
      (Err (Box_lib (Error_Store e)), set_node n (set_database path (execute_statements k f) m))
  end.

(** [SqliteStore::open]: a connection creates an absent file. *)
Definition SqliteStore_open (path : string) : Run_ unit :=
  let! _ := fun m =>
    let '(r, n) := open_connection false path (m_node m) in
    (store_answer r,
     set_node n (match r with
                 | Ok _ => set_database path (default DbFile_empty (m_databases m !! path)) m
                 | Err _ => m
                 end)) in
  init_connection path.

(** [SqliteStore::open_read_only]: an absent file is an error. *)
Definition SqliteStore_open_read_only (path : string) : Run_ unit := fun m =>
  let '(r, n) := open_connection true path (m_node m) in
  (match m_databases m !! path with
   | Some _ => store_answer r
   | None => Err (Box_lib (Error_Store ("unable to open database file: " +:+ path)))
   end, set_node n m).

(** [FileStore::open]: the directory is made if it is not there, then its mode set. *)
Definition dir_at (m : Machine N) (dir : string) : StoreDir :=
  default (mkStoreDir new_dir_mode ∅) (m_dirs m !! dir).
Definition FileStore_mode : Z := 448.  (* 0o700 *)
Definition FileStore_open (dir : string) : Run_ unit :=
  let! _ := fun m =>
    let '(r, n) := create_dir_all dir (m_node m) in
    (store_answer r,
     set_node n (match r with Ok _ => set_dir dir (dir_at m dir) m | Err _ => m end)) in
  fun m =>
    let '(r, n) := set_permissions dir (m_node m) in
    (store_answer r,
     set_node n (match r with
                 | Ok _ => set_dir dir (mkStoreDir FileStore_mode (sd_files (dir_at m dir))) m
                 | Err _ => m
                 end)).
End Opening.

(** ** What opening leaves *)

Lemma execute_statements_tables k f : df_tables (execute_statements k f) = df_tables f.
Proof. done. Qed.

(** A database file with all that [init] creates. *)
Definition initialised (f : DbFile) : Prop := forall o, o ∈ init_batch -> o ∈ df_schema f.

Lemma execute_one_keeps schema o o' : o ∈ schema -> o ∈ execute_one schema o'.
Proof. unfold execute_one. case_bool_decide; [done|]. intros Ho. apply elem_of_app. by left. Qed.

Lemma execute_list_has l schema o :
  o ∈ schema \/ o ∈ l -> o ∈ fold_left execute_one l schema.
Proof.
  revert schema. induction l as [|o' l IH]; intros schema [Ho|Ho]; cbn [fold_left].
  - done.
  - by apply not_elem_of_nil in Ho.
  - apply IH. left. by apply execute_one_keeps.
  - apply elem_of_cons in Ho as [->|Ho]; [|by apply IH; right]. apply IH. left. unfold execute_one.
    case_bool_decide; [done|]. apply elem_of_app. right. by apply list_elem_of_singleton.
Qed.

Lemma execute_all_initialised f : initialised (execute_statements (length init_batch) f).
Proof. intros o Ho. apply execute_list_has. right. by rewrite firstn_all. Qed.

(** [IF NOT EXISTS]: on an initialised file the statements change nothing. *)
Lemma execute_statements_initialised k f : initialised f -> execute_statements k f = f.
Proof.
  intros Hf. destruct f as [schema tables]. unfold execute_statements. cbn. f_equal.
  assert (Hl : forall o, o ∈ take k init_batch -> o ∈ schema).
  { intros o Ho. apply Hf. cbn. eapply elem_of_submseteq; [exact Ho|].
    apply sublist_submseteq, sublist_take. }
  revert Hl. generalize (take k init_batch) as l. induction l as [|o l IH]; intros Hl; [done|].
  cbn [fold_left]. unfold execute_one at 2.
  rewrite bool_decide_eq_true_2 by (apply Hl; by left).
  apply IH. intros o' Ho'. apply Hl. by right.
Qed.
