(* ===== verification/Http.v ===== *)
(** The HTTP handlers and the webhook (src/src/http.rs, src/src/webhook.rs).

    [axum] parses requests and serialises responses, [reqwest] sends webhooks,
    [hmac] and [hex] sign them: a request is its method, its decoded path
    segments and its body when it parsed; a response is its code and its body;
    [WebhookTransport] is the rest. *)
From S2P Require Import Prelude RustStd Types Units Keys State Chain StoreSpec Engine.
From Stdlib Require Import Strings.Byte.
Local Open Scope Z_scope.

Inductive Body : Type :=
| Body_text (s : string)
| Body_request (r : PaymentRequest)
| Body_status (s : PaymentStatus).

Record Response := mkResponse {
  rs_code : Z;
  rs_body : Body }.

Definition http_error (err : Error) : Response :=
  let code := match err with
              | Error_NotFound _ => 404
              | Error_Config _ => 400
              | _ => 500
              end in
  if code =? 500 then mkResponse code (Body_text "internal error")
  else mkResponse code (Body_text (Error_to_string err)).

Inductive Method : Type := GET | POST | Other_method.

Section Handlers.
Context `{Crypto} `{Ss58} {St N : Type} `{!StoreOps St} `{!EngineEnv N} `{!Peers N St}.
Context (e : Engine).

Definition http_create (body : option CreatePayment) : M (World St N) Error Response :=
  let opts := default CreatePayment_default body in
  let! res := m_try (create_payment e opts) in
  m_ret match res with
        | Ok req => mkResponse 201 (Body_request req)
        | Err err => http_error err
        end.

Definition http_status (id : string) : M (World St N) Error Response :=
  let! res := m_try (get_status id) in
  m_ret match res with
        | Ok s => mkResponse 200 (Body_status s)
        | Err err => http_error err
        end.

(** Unknown paths are 404, known paths with another method 405 ([axum]). *)
Definition router (method : Method) (path : list string) (body : option CreatePayment)
  : M (World St N) Error Response :=
  match path, method with
  | ["payments"], POST => http_create body
  | ["payments"; id], GET => http_status id
  | ["health"], GET => m_ret (mkResponse 200 (Body_text "ok"))
  | ["payments"], _ | ["payments"; _], _ | ["health"], _ => m_ret (mkResponse 405 (Body_text ""))
  | _, _ => m_ret (mkResponse 404 (Body_text ""))
  end.
End Handlers.

(** ** Webhooks *)

Class WebhookTransport : Type := {
  hmac_sha256 : list Byte.byte -> list Byte.byte -> list Byte.byte;
  status_json : PaymentStatus -> result string (list Byte.byte);
  (** url, headers and body to the response's code *)
  http_post : string -> list (string * string) -> list Byte.byte -> result string Z }.

Section Webhook.
Context `{Crypto} `{WebhookTransport}.

Definition webhook_sign (secret body : list Byte.byte) : string :=
  "sha256=" +:+ hex_encode (hmac_sha256 secret body).

Definition Webhook_post (secret : list Byte.byte) (url : string) (st : PaymentStatus) : Result unit :=
  match status_json st with
  | Err e => Err (Error_Config e)
  | Ok body =>
      let headers := [("content-type", "application/json");
                      ("x-buyback-signature", webhook_sign secret body)] in
      match http_post url headers body with
      | Err e => Err (Error_Chain ("webhook: " +:+ e))
      | Ok code =>
          if negb ((200 <=? code) && (code <=? 299))
          then Err (Error_Chain ("webhook returned " +:+ u64_display code))
          else Ok tt
      end
  end.
End Webhook.

(** * Theorems *)

(** The HTTP interface is total and opaque.  Every request gets a response;
    an error that is neither a missing payment nor the caller's mistake is
    answered with a fixed text whatever it says; and of a stored record only its
    public status is shown. *)
Theorem http_opaque `{Crypto} `{!Ss58} {St N : Type} `{!StoreOps St} `{!EngineEnv N}
  `{!Peers N St} (e : Engine) (method : Method) (path : list string) (body : option CreatePayment)
  (w : World St N) :
  exists resp, (router e method path body w).1 = Ok resp /\
    (rs_code resp = 500 -> rs_body resp = Body_text "internal error") /\
    (forall st, rs_body resp = Body_status st -> exists r, st = status r).
Proof.
  assert (Herr : forall err, let resp := http_error err in
            (rs_code resp = 500 -> rs_body resp = Body_text "internal error") /\
            (forall st, rs_body resp = Body_status st -> exists r, st = status r))
    by (by intros []).
  assert (Hfix : forall code txt, code <> 500 ->
            exists resp, (m_ret (mkResponse code (Body_text txt)) w).1 = (Ok resp : Result Response) /\
              (rs_code resp = 500 -> rs_body resp = Body_text "internal error") /\
              (forall st, rs_body resp = Body_status st -> exists r, st = status r))
    by (intros code txt Hc; eexists; split; [reflexivity|]; by split).
  assert (Hcreate : exists resp, (http_create e body w).1 = Ok resp /\
            (rs_code resp = 500 -> rs_body resp = Body_text "internal error") /\
            (forall st, rs_body resp = Body_status st -> exists r, st = status r)).
  { unfold http_create, m_bind, m_try.
    destruct (create_payment e _ w) as [[req|err] w']; cbn [m_ret fst].
    - eexists. split; [reflexivity|]. by split.
    - eexists. split; [reflexivity|]. apply Herr. }
  assert (Hstatus : forall id, exists resp, (http_status id w).1 = Ok resp /\
            (rs_code resp = 500 -> rs_body resp = Body_text "internal error") /\
            (forall st, rs_body resp = Body_status st -> exists r, st = status r)).
  { intros id. unfold http_status, m_bind at 1, m_try.
    destruct (get_status id w) as [[st|err] w'] eqn:Hst; cbn [m_ret fst].
    - eexists. split; [reflexivity|]. split; [done|]. intros st' [= <-].
      unfold get_status, m_bind in Hst. destruct (store_get id w) as [[r|] w1]; [|done].
      injection Hst as <- _. by exists r.
    - eexists. split; [reflexivity|]. apply Herr. }
  unfold router. destruct path as [|p [|q [|]]]; try (by apply Hfix);
    repeat match goal with
    | |- context [match ?x with _ => _ end] => is_var x; destruct x; try (by apply Hfix)
    end; auto.
Qed.

(** A webhook delivery succeeds exactly when the receiver answers 2xx to a
    body signed with the shared secret. *)
Theorem webhook_delivered_exactly `{Crypto} `{WebhookTransport} (secret : list Byte.byte)
  (url : string) (st : PaymentStatus) :
  Webhook_post secret url st = Ok tt <->
  exists body code, status_json st = Ok body /\
    http_post url [("content-type", "application/json");
                   ("x-buyback-signature", "sha256=" +:+ hex_encode (hmac_sha256 secret body))] body
      = Ok code /\ 200 <= code <= 299.
Proof.
  unfold Webhook_post, webhook_sign. destruct (status_json st) as [body|]; [|naive_solver].
  destruct (http_post _ _ body) as [code|] eqn:Hp.
  - destruct (_ && _) eqn:Hc; cbn [negb].
    + bool_simpl. split; [|done]. intros _. exists body, code. done.
    + split; [done|]. intros (b & c & [= <-] & Hp' & Hr). rewrite Hp in Hp'. injection Hp' as <-.
      apply andb_false_iff in Hc as [Hc|Hc]; bool_simpl; lia.
  - split; [done|]. intros (b & c & [= <-] & Hp' & _). congruence.
Qed.
