(* ===== verification/RecoveryChain.v ===== *)
(** Legacy recovery on a chain: the archive is the scan of a node
    ([Chain::verify_legacy_archive], src/src/chain.rs), and what a recovery adopts
    is what the finalized chain says. *)
From S2P Require Import Prelude RustStd Types Units Keys State Chain StoreSpec SqliteStore.
From S2P Require Import Recovery ChainClient.
Local Open Scope Z_scope.

Section OnChain.
Context `{Runtime} `{Crypto} `{Ss58} {N : Type} `{!NodeApi N} `{!FinalizedChain N}.

(** C16: a recovered job is what the chain says. When a recovery whose archive is
    the node's scan is applied, everything the deposit account and the treasury
    did in the finalized blocks from the first audited one to a head past every
    old signature is, one for one, the record's receipts, and the stored
    accounting is what those extrinsics add up to. *)
Theorem recovered_job_matches_chain (m : LegacyManifest) (env : SEnv) (db db' : Sqlite) (row : PayRow)
  (w : N) (report : RecoveryReport) (Hfirst : is_u64 (lm_first_block m))
  (Hrow : db_payments db !! lm_job m = Some row)
  (Hrun : recover_legacy (verify_legacy_archive (row_record row) m w).1 m env db = (Ok report, db')) :
  exists treasury deposit head events,
    parse_ss58 (lm_treasury m) = Ok treasury /\
    parse_ss58 (pr_address (row_record row)) = Ok deposit /\ treasury <> deposit /\
    lm_stopped_at m + lm_maximum_mortality m + 1 < head /\
    Forall3 explains (activity treasury deposit (range_inclusive (lm_first_block m) head))
      (lm_transactions m) events /\
    lt_receipt <$> lm_transactions m = pr_txs (row_record row) /\
    accounted (row_record row) (lm_transactions m) events.
Proof.
  pose proof (recover_legacy_ok _ _ _ _ _ _ Hrun) as (row' & events & head & hash & Hr & Harch & Hval & Hacc & _).
  rewrite Hrow in Hr. injection Hr as <-.
  apply validate_manifest_ok in Hval as (_ & _ & Hrej & _ & (tr & dep & Htr & Hdep & Hne) & _ & _ & Hrc).
  unfold manifest_rejected in Hrej. repeat (apply orb_false_iff in Hrej as [Hrej ?]). bool_simpl.
  destruct (verify_legacy_archive (row_record row) m w) as [res w'] eqn:Hscan. cbn in Harch. subst res.
  apply archive_scan_complete in Hscan as (tr' & dep' & acts & Htr' & Hdep' & _ & Hhead & _ & -> & Hex & _);
    [|unfold is_u64 in Hfirst; lia].
  exists tr', dep', head, events. split_and!; try done. congruence.
Qed.
End OnChain.

(** The concrete chain of [ToyChain], recovered. *)
Module OnToyChain.
Import ToyKeys Toy ToyChain.

Lemma recovered_job_matches_chain_witness :
  exists report db', recover_legacy (verify_legacy_archive toy_record toy_manifest 30%nat).1
      toy_manifest (env_at 9 "")
      ((sqlite_insert toy_record (env_at 1 "") SqliteStore_init).2) = (Ok report, db') /\
    lt_receipt <$> lm_transactions toy_manifest = pr_txs toy_record.
Proof.
  assert (H : exists report db',
    recover_legacy (verify_legacy_archive toy_record toy_manifest 30%nat).1
      toy_manifest (env_at 9 "")
      ((sqlite_insert toy_record (env_at 1 "") SqliteStore_init).2) = (Ok report, db'))
    by (vm_compute; eexists; eexists; reflexivity).
  destruct H as (report & db' & H). exists report, db'. split; [exact H|].
  assert (Hrow : exists row, row_record row = toy_record /\
    db_payments ((sqlite_insert toy_record (env_at 1 "") SqliteStore_init).2) !! "legacy" = Some row)
    by (eexists; split; [|vm_compute; reflexivity]; reflexivity).
  destruct Hrow as (row & Hrec & Hrow). rewrite <- Hrec in H.
  destruct (recovered_job_matches_chain toy_manifest (env_at 9 "")
              ((sqlite_insert (row_record row) (env_at 1 "") SqliteStore_init).2) db' row 30%nat report
              ltac:(unfold is_u64, u64_max; cbn; lia) ltac:(rewrite Hrec; exact Hrow) H)
    as (t & d & hd & ev & _ & _ & _ & _ & _ & Hrc & _).
  rewrite Hrec in Hrc. exact Hrc.
Defined.
End OnToyChain.
