(* ===== verification/Commands.v ===== *)
(** The commands (src/src/bin/buyback.rs, [main]): what each does to the files,
    the databases and the node of the machine it runs on ([Machine]).

    Argument parsing, logging and the JSON of the output are left out: a command
    arrives parsed and prints a value. *)
From S2P Require Import Prelude RustStd Types Units Keys State Chain StoreSpec SqliteStore Recovery.
From S2P Require Import Engine JobSpec EngineProofs ChainClient EngineTheorems NodeQueries FileStore FileEngine.
From S2P Require Import Connect Cli Machine.
From Stdlib Require Import Ascii Strings.Byte.
Local Open Scope Z_scope.

Inductive Cmd : Type :=
| GenMasterKey
| SealTreasury (master_key_var treasury_uri_var out : string)
| VerifyMetadata (network : string)
| RecoverLegacy (manifest database archive : string) (apply : bool)
| Create (c : Common) (metadata callback_url : option string)
| Status (c : Common) (id : string)
| Retry (c : Common) (id : string)
| ForceSweep (c : Common) (id : string)
| Run (c : Common) (listen : option string)
| Buyback (c : Common) (amount then_ : string)
| Balances (c : Common).

(** What a command prints. *)
Inductive Output : Type :=
| Out_text (s : string)
| Out_lines (l : list string)
| Out_report (r : RecoveryReport)
| Out_request (r : PaymentRequest)
| Out_status (st : PaymentStatus)
| Out_balances (treasury free_tao spendable_tao : string) (stake : list (string * Z * string)).

Definition no_such_file : string := "No such file or directory (os error 2)".
Definition file_exists : string := "File exists (os error 17)".

(** The process sees the machine's files. *)
Definition with_files `{Crypto} (p : Process) (files : gmap string string) : Process :=
  {| env_var := env_var;
     read_to_string path := match files !! path with Some s => Ok s | None => Err no_such_file end;
     SecretUri_keypair := SecretUri_keypair;
     sealed_from_json := sealed_from_json |}.

Definition MANIFEST_LIMIT : Z := 4 * 1024 * 1024.

Section Commands.
Context `{Runtime} `{Crypto} `{Ss58} {p : Process} {N : Type}.
Context `{!NodeApi N, !HeadApi N, !Host N, !Transport N, !Shell N}.
Context `{!Peers N Sqlite, !Peers N Dir}.

Abbreviation Run_ A := (M (Machine N) BoxError A).

Definition on_node {A} (op : M N Error A) : Run_ A := fun m =>
  let '(r, n) := op (m_node m) in (boxed r, set_node n m).
(** [std::io::Error] and the like, boxed. *)
Definition on_host {A} (op : M N string A) : Run_ A := fun m =>
  let '(r, n) := op (m_node m) in
  (match r with Ok a => Ok a | Err e => Err (Box_msg e) end, set_node n m).
Definition on_boxed {A} (op : M N BoxError A) : Run_ A := fun m =>
  let '(r, n) := op (m_node m) in (r, set_node n m).

(** The process with the files as they are. *)
Definition process_of (m : Machine N) : Process := with_files p (m_files m).
Definition ask {A} (f : Process -> result BoxError A) : Run_ A := fun m => (f (process_of m), m).

(** *** [seal-treasury] *)
Definition write_to (out content : string) : Run_ unit := fun m =>
  match write_all content (m_node m) with
  | (Ok _, n) => (Ok tt, set_file out content (set_node n m))
  | (Err (part, e), n) => (Err (Box_msg e), set_file out part (set_node n m))
  end.
Definition seal_treasury (master_key_var treasury_uri_var out : string) : Run_ string :=
  let! master := ask (fun q => boxed (@MasterKey_from_env _ q master_key_var)) in
  let! uri := m_lift (ok_or (env_var treasury_uri_var) (Box_msg (treasury_uri_var +:+ " not set"))) in
  let! kp := ask (fun q => boxed (@keypair_from_uri _ q (str_trim uri))) in
  let! nonce := on_node (fun n => let '(b, n) := env_random 24 n in (Ok b, n)) in
  let! sealed := m_lift (boxed (MasterKey_seal master nonce (bytes_of_string (str_trim uri)) TREASURY_AAD)) in
  (* create_new: an existing file is never overwritten *)
  let! _ := fun m =>
    match m_files m !! out with
    | Some _ => (Err (Box_msg file_exists), m)
    | None => on_host (create_file out) m
    end in
  let! _ := write_to out (sealed_to_json sealed) in
  m_ret ("sealed treasury " +:+ ss58 (Keypair_account_id kp) +:+ " -> " +:+ out).

(** *** [verify-metadata] *)
Definition verify_network (network : string) : Run_ (list string) :=
  let! net := m_lift (boxed (Network_from_str network)) in
  let! _ := on_node (connect_endpoint (Endpoint_new (Network_url net))) in
  on_node chain_verify_metadata.

(** *** [recover-legacy] *)

(** An operation of an open store on its database. *)
Definition on_tables {A} (path : string) (op : M (World Sqlite N) BoxError A) : Run_ A := fun m =>
  let f := default DbFile_empty (m_databases m !! path) in
  let '(r, w) := op (mkWorld (df_tables f) (m_node m) (m_trace m)) in
  (r, mkMachine (m_files m) (<[path := mkDbFile (df_schema f) (w_store w)]> (m_databases m)) (m_dirs m)
        (w_env w) (w_trace w)).
Definition on_files {A} (dir : string) (op : M (World Dir N) BoxError A) : Run_ A := fun m =>
  let d := dir_at m dir in
  let '(r, w) := op (mkWorld (sd_files d) (m_node m) (m_trace m)) in
  (r, mkMachine (m_files m) (m_databases m) (<[dir := mkStoreDir (sd_mode d) (w_store w)]> (m_dirs m))
        (w_env w) (w_trace w)).

(** [?] on a call of the library. *)
Definition lib {W A} (m : M W Error A) : M W BoxError A := fun w =>
  let '(r, w) := m w in (boxed r, w).

(** A query of [payments]: a file opened read-only may have no such table. *)
Definition get_from (path id : string) : Run_ (option PaymentRecord) := fun m =>
  if bool_decide (Payments_table ∈ df_schema (default DbFile_empty (m_databases m !! path)))
  then on_tables path (lib (on_store (get_record id))) m
  else (Err (Box_lib (Error_Store "no such table: payments")), m).

(** The archive is scanned inside the transaction, for the record it reads. *)
Definition recover_from_node (manifest : LegacyManifest) (n : N) (env : SEnv)
  : M Sqlite Error RecoveryReport := fun db =>
  recover_legacy
    match db_payments db !! lm_job manifest with
    | Some row => (verify_legacy_archive (row_record row) manifest n).1
    | None => Err no_rows
    end manifest env db.

Definition recover_command (manifest database archive : string) (apply : bool) : Run_ RecoveryReport :=
  let! bytes := fun m => (ok_or (m_files m !! manifest) (Box_msg no_such_file), m) in
  if MANIFEST_LIMIT <? str_len bytes then m_throw (Box_msg "manifest too large")
  else
    let! manifest := m_lift (match manifest_from_slice bytes with
                             | Ok v => Ok v | Err e => Err (Box_msg e) end) in
    let! _ := if apply then SqliteStore_open database else SqliteStore_open_read_only database in
    let! record := get_from database (lm_job manifest) in
    let! record := m_lift (ok_or record (Box_msg "legacy job not found")) in
    let! _ := on_node (connect_endpoint (Endpoint_new archive)) in
    if apply then
      fun m => on_tables database (lib (on_store (recover_from_node manifest (m_node m)))) m
    else
      let! summaries := match validate_manifest record manifest with
                        | Ok _ => on_node (m_try (verify_legacy_archive record manifest))
                        | Err e => m_ret (Err e)
                        end in
      m_lift (boxed (dry_run summaries record manifest)).

(** *** The commands of an engine *)

(** [engine(&c)], then [k] on the store the options name. *)
Definition with_engine (c : Common)
  (k : forall St, StoreOps St -> Peers N St -> Engine -> M (World St N) BoxError Output)
  : Run_ Output :=
  let! (_, store, e) := fun m => on_boxed (@cli_engine _ (process_of m) _ _ _ c) m in
  match store with
  | Opened_sqlite path => let! _ := SqliteStore_open path in on_tables path (k Sqlite _ _ e)
  | Opened_file dir => let! _ := FileStore_open dir in on_files dir (k Dir _ _ e)
  end.

Section OnStore.
Context {St : Type} `{!StoreOps St, !Peers N St} (e : Engine).
Abbreviation On := (M (World St N) BoxError Output).

Definition create_command (metadata callback_url : option string) : On :=
  let metadata := (fun s => default (json_string s) (json_from_str s)) <$> metadata in
  let! req := lib (create_payment e (mkCreatePayment None None metadata callback_url)) in
  m_ret (Out_request req).
Definition status_command (id : string) : On :=
  let! st := lib (get_status id) in m_ret (Out_status st).
Definition retry_command (id : string) : On :=
  let! st := lib (retry id) in m_ret (Out_status st).
Definition force_sweep_command (id : string) : On :=
  let! st := lib (force_sweep id) in m_ret (Out_status st).

(** [run] does not return; [sessions] are the subscriptions so far. *)
Definition run_command (listen : option string) (sessions : list Session) : On :=
  let! lines := lib (outside chain_verify_metadata) in
  let! _ := lib (ensure_treasury_hotkey e) in
  let! _ := match listen with
            | Some addr => fun w =>
                let '(r, n) := http_bind addr (w_env w) in
                (match r with Ok _ => Ok tt | Err msg => Err (Box_msg msg) end,
                 mkWorld (w_store w) n (w_trace w))
            | None => m_ret tt
            end in
  let! _ := lib (run e sessions) in
  m_ret (Out_lines lines).

Definition balances_command : On :=
  let t := treasury_account e in
  let! free := lib (outside (free_balance t)) in
  let! pos := lib (outside (stake_positions t)) in
  let! available := lib (spendable e) in
  m_ret (Out_balances (ss58 t) (format_amount free) (format_amount available)
           ((fun q => (ss58 (sp_hotkey q), sp_netuid q, format_amount (sp_alpha q))) <$> pos)).
End OnStore.

Definition standalone_disabled : Error := Error_Config
  "standalone buyback disabled; use a durable payment/sweep job with an explicit buyback budget".

(** *** [main] *)
Definition command (cmd : Cmd) (sessions : list Session) : Run_ Output :=
  match cmd with
  | GenMasterKey =>
      let! entropy := on_node (fun n => let '(b, n) := env_random 32 n in (Ok b, n)) in
      m_ret (Out_text (MasterKey_to_hex (MasterKey_generate entropy)))
  | SealTreasury master_key_var treasury_uri_var out =>
      let! line := seal_treasury master_key_var treasury_uri_var out in m_ret (Out_text line)
  | VerifyMetadata network => let! lines := verify_network network in m_ret (Out_lines lines)
  | RecoverLegacy manifest database archive apply =>
      let! report := recover_command manifest database archive apply in m_ret (Out_report report)
  | Create c metadata callback_url =>
      with_engine c (fun St _ _ e => create_command e metadata callback_url)
  | Status c id => with_engine c (fun St _ _ e => status_command id)
  | Retry c id => with_engine c (fun St _ _ e => retry_command id)
  | ForceSweep c id => with_engine c (fun St _ _ e => force_sweep_command id)
  | Run c listen => with_engine c (fun St _ _ e => run_command e listen sessions)
  | Buyback _ _ _ => m_throw (Box_lib standalone_disabled)
  | Balances c => with_engine c (fun St _ _ e => balances_command e)
  end.
End Commands.


(** * Theorems *)
Section Theorems.
Context `{Runtime} `{Crypto} `{Ss58} {p : Process} {N : Type}.
Context `{!NodeApi N, !HeadApi N, !Host N, !Transport N, !Shell N}.
Context `{!Peers N Sqlite, !Peers N Dir}.

Abbreviation Run_ A := (M (Machine N) BoxError A).

(** ** Commands that only read *)

(** The machine but for what its node and its clock went through. *)
Definition still (m m' : Machine N) : Prop :=
  m_files m' = m_files m /\ m_trace m' = m_trace m /\
  m_databases m' = m_databases m /\ m_dirs m' = m_dirs m.

#[export] Instance still_preorder : PreOrder still.
Proof.
  split; [by intros m|]. intros a b c (Hf & Ht & Hd & Hr) (Hf' & Ht' & Hd' & Hr').
  split_and!; congruence.
Qed.

Definition frozen {A} (op : Run_ A) : Prop := forall m, still m (op m).2.

Lemma frozen_bind {A B} (op : Run_ A) (k : A -> Run_ B) :
  frozen op -> (forall a, frozen (k a)) -> frozen (m_bind op k).
Proof.
  intros Ho Hk m. unfold m_bind. specialize (Ho m). destruct (op m) as [[a|er] m1]; [|done].
  etrans; [exact Ho|apply Hk].
Qed.

Lemma frozen_pure {A} (f : Machine N -> result BoxError A) : frozen (fun m => (f m, m)).
Proof. by intros m. Qed.

Lemma frozen_on_node {A} (op : M N Error A) : frozen (on_node op).
Proof. intros m. unfold on_node. by destruct (op (m_node m)). Qed.

Lemma frozen_on_boxed {A} (op : M N BoxError A) : frozen (on_boxed op).
Proof. intros m. unfold on_boxed. by destruct (op (m_node m)). Qed.

Lemma frozen_read_only path : frozen (SqliteStore_open_read_only path).
Proof. intros m. unfold SqliteStore_open_read_only. by destruct (open_connection true path (m_node m)). Qed.

(** Computations over a store that leave it, and the trace, alone. *)
Definition reads {St E A} (op : M (World St N) E A) : Prop :=
  forall w, w_store (op w).2 = w_store w /\ w_trace (op w).2 = w_trace w.

Lemma reads_bind {St E A B} (op : M (World St N) E A) (k : A -> M (World St N) E B) :
  reads op -> (forall a, reads (k a)) -> reads (m_bind op k).
Proof.
  intros Ho Hk w. unfold m_bind. specialize (Ho w). destruct (op w) as [[a|er] w1]; [|done].
  destruct (Hk a w1) as [-> ->]. exact Ho.
Qed.

Lemma reads_lib {St A} (op : M (World St N) Error A) : reads op -> reads (lib op).
Proof. intros Ho w. specialize (Ho w). unfold lib. by destruct (op w). Qed.

Lemma reads_pure {St E A} (r : result E A) : reads (St := St) (m_lift r).
Proof. by intros w. Qed.

Lemma reads_outside {St A} (op : M N Error A) : reads (outside (St := St) op).
Proof. intros w. unfold outside. by destruct (op (w_env w)). Qed.

Lemma reads_ret {St E A} (a : A) : reads (St := St) (E := E) (m_ret a).
Proof. by intros w. Qed.

Lemma reads_status {St} `{!StoreOps St, !Peers N St} id :
  (forall n (s : St), peers n s = s) ->
  (forall env s, (get_record id env s).2 = s) -> reads (St := St) (status_command id).
Proof.
  intros Hp Hg. apply reads_bind; [|intros st; apply reads_ret].
  apply reads_lib, reads_bind; [|intros r; apply reads_ret].
  apply reads_bind; [|intros o; apply reads_pure].
  intros w. unfold on_store. rewrite Hp. destruct (env_store (w_env w)) as [env n].
  specialize (Hg env (w_store w)). destruct (get_record id env (w_store w)) as [res s'].
  cbn in *. by subst s'.
Qed.

Lemma reads_balances {St} `{!StoreOps St, !Peers N St} e : reads (St := St) (balances_command e).
Proof.
  unfold balances_command, spendable.
  repeat first [apply reads_bind; [|intros ?]|apply reads_lib|apply reads_outside|apply reads_ret].
Qed.

Lemma get_same_sqlite id env (db : Sqlite) : (sqlite_get id env db).2 = db.
Proof. unfold sqlite_get, transaction. by destruct (se_fault env). Qed.

Lemma get_same_file id env (d : Dir) : (file_get id env d).2 = d.
Proof.
  unfold file_get, m_bind, m_lift, m_get. destruct (FileStore_path id); [|done].
  by destruct (fs_access env).
Qed.

Lemma reads_get {St} `{!StoreOps St, !Peers N St} id :
  (forall n (s : St), peers n s = s) ->
  (forall env s, (get_record id env s).2 = s) -> reads (St := St) (on_store (get_record id)).
Proof.
  intros Hp Hg w. unfold on_store. rewrite Hp. destruct (env_store (w_env w)) as [env n].
  specialize (Hg env (w_store w)). destruct (get_record id env (w_store w)) as [res s'].
  cbn in *. by subst s'.
Qed.

(** Reading an open store leaves the machine alone. *)
Lemma on_tables_reads {A} path (op : M (World Sqlite N) BoxError A) m :
  reads op -> is_Some (m_databases m !! path) -> still m (on_tables path op m).2.
Proof.
  intros Hr [f Hf]. unfold on_tables. rewrite Hf. cbn [default].
  specialize (Hr (mkWorld (df_tables f) (m_node m) (m_trace m))).
  destruct (op _) as [r w]. cbn in *. destruct Hr as [-> ->].
  split_and!; try done. cbn. destruct f. by apply insert_id.
Qed.

Lemma on_files_reads {A} dir (op : M (World Dir N) BoxError A) m :
  reads op -> is_Some (m_dirs m !! dir) -> still m (on_files dir op m).2.
Proof.
  intros Hr [d Hd]. unfold on_files, dir_at. rewrite Hd. cbn [default].
  specialize (Hr (mkWorld (sd_files d) (m_node m) (m_trace m))).
  destruct (op _) as [r w]. cbn in *. destruct Hr as [-> ->].
  split_and!; try done. cbn. destruct d. by apply insert_id.
Qed.

Lemma frozen_get_from path id :
  (forall n (db : Sqlite), peers n db = db) -> frozen (get_from path id).
Proof.
  intros Hp m. unfold get_from. case_bool_decide as Hin; [|done].
  apply on_tables_reads; [apply reads_lib, reads_get; [done|]; intros env db; apply get_same_sqlite|].
  destruct (m_databases m !! path); [by eexists|by apply not_elem_of_nil in Hin].
Qed.

(** *** What opening a store does to the machine *)

(** [m'] is [m] with the store opened, at least in part, and entirely when [ok]:
    some of [init]'s statements run on the database file, which is created if it was
    not there; or the directory made and its mode set.  The content of the store
    and everything else is as before. *)
Definition opened (store : OpenedStore) (ok : bool) (m m' : Machine N) : Prop :=
  m_files m' = m_files m /\ m_trace m' = m_trace m /\
  match store with
  | Opened_sqlite path =>
      m_dirs m' = m_dirs m /\
      exists ran : option nat,
        m_databases m' = match ran with
                         | Some k => <[path := execute_statements k
                                                 (default DbFile_empty (m_databases m !! path))]>
                                       (m_databases m)
                         | None => m_databases m
                         end /\
        (ok = true -> ran = Some (length init_batch))
  | Opened_file dir =>
      m_databases m' = m_databases m /\
      exists made : option Z,
        m_dirs m' = match made with
                    | Some mode => <[dir := mkStoreDir mode (sd_files (dir_at m dir))]> (m_dirs m)
                    | None => m_dirs m
                    end /\
        (forall mode, made = Some mode -> mode = sd_mode (dir_at m dir) \/ mode = FileStore_mode) /\
        (ok = true -> made = Some FileStore_mode)
  end.

Lemma opened_none store m m' : still m m' -> opened store false m m'.
Proof.
  intros (Hf & Ht & Hd & Hr). unfold opened. destruct store; split_and!; try done; by exists None.
Qed.

Lemma sqlite_opened path m :
  let '(res, m') := SqliteStore_open path m in opened (Opened_sqlite path) (is_ok res) m m'.
Proof.
  unfold SqliteStore_open, m_bind.
  destruct (open_connection false path (m_node m)) as [[u|msg] n]; cbn [store_answer];
    [|by apply opened_none].
  unfold init_connection. cbn [set_node m_databases m_node set_database].
  rewrite lookup_insert_eq. cbn [default].
  destruct (execute_batch path n) as [[v|[k msg]] n']; (split; [done|]); (split; [done|]);
    (split; [done|]); cbn [is_ok set_node set_database m_databases]; rewrite insert_insert_eq;
    [by exists (Some (length init_batch))|by exists (Some k)].
Qed.

Lemma dir_at_made n dir d (m : Machine N) : dir_at (set_node n (set_dir dir d m)) dir = d.
Proof. unfold dir_at. cbn [set_node set_dir m_dirs]. by rewrite lookup_insert_eq. Qed.

Lemma file_opened dir m :
  let '(res, m') := FileStore_open dir m in opened (Opened_file dir) (is_ok res) m m'.
Proof.
  unfold FileStore_open, m_bind.
  destruct (create_dir_all dir (m_node m)) as [[u|msg] n]; cbn [store_answer];
    [|by apply opened_none].
  rewrite dir_at_made. cbn [set_node m_node set_dir].
  destruct (set_permissions dir n) as [[v|msg] n']; (split; [done|]); (split; [done|]);
    (split; [done|]); cbn [is_ok set_node set_dir m_dirs].
  - exists (Some FileStore_mode). rewrite insert_insert_eq. split_and!; try done.
    intros mode [= <-]. by right.
  - exists (Some (sd_mode (dir_at m dir))). split_and!; try done; [by destruct (dir_at m dir)|].
    intros mode [= <-]. by left.
Qed.

Lemma opened_still store m m1 m' ok : opened store true m m1 -> still m1 m' -> opened store ok m m'.
Proof.
  intros (Hf & Ht & Ho) (Hf' & Ht' & Hd' & Hr'). unfold opened. rewrite Hf', Ht', Hd', Hr'.
  split; [done|]. split; [done|]. destruct store as [dir|path].
  - destruct Ho as (? & made & ? & ? & Hok). split; [done|]. exists made. split_and!; try done.
    intros _. by apply Hok.
  - destruct Ho as (? & ran & ? & Hok). split; [done|]. exists ran. split_and!; try done.
    intros _. by apply Hok.
Qed.

Lemma opened_after n store ok m m' : opened store ok (set_node n m) m' -> opened store ok m m'.
Proof. done. Qed.

(** The store that an engine of the command line is on. *)
Lemma cli_engine_store (q : Process) c (n n' : N) conn store e :
  @cli_engine _ q _ _ _ c n = (Ok (conn, store, e), n') -> store = open_store (co_store c).
Proof.
  unfold cli_engine, m_bind, m_lift, m_ret. intros Hcli.
  destruct (cli_config c) as [[[mk kp] cfg]|]; [|done].
  destruct (connect_endpoint _ _) as [[cn|] n2]; [|done]. cbn in Hcli. by injection Hcli as _ <- _ _.
Qed.

Lemma with_engine_opens c k m :
  (forall e, reads (k Sqlite _ _ e)) -> (forall e, reads (k Dir _ _ e)) ->
  let '(res, m') := with_engine c k m in opened (open_store (co_store c)) (is_ok res) m m'.
Proof.
  intros Hs Hd. destruct (with_engine c k m) as [res m'] eqn:Hrun.
  unfold with_engine, m_bind, on_boxed in Hrun.
  destruct (cli_engine c (m_node m)) as [[[[conn store] e]|er] n1] eqn:Hcli;
    [|injection Hrun as <- <-; by apply opened_none].
  rewrite (cli_engine_store _ _ _ _ _ _ _ Hcli) in Hrun. clear Hcli store.
  apply (opened_after n1). destruct (open_store (co_store c)) as [dir|path].
  - pose proof (file_opened dir (set_node n1 m)) as Ho.
    destruct (FileStore_open dir (set_node n1 m)) as [[u|msg] m1]; [|by injection Hrun as <- <-].
    cbn [is_ok] in Ho. pose proof (on_files_reads dir (k Dir _ _ e) m1 (Hd e)) as Hst.
    rewrite Hrun in Hst. eapply opened_still; [exact Ho|]. apply Hst.
    destruct Ho as (_ & _ & _ & made & Hm & _ & Hok). rewrite (Hok eq_refl) in Hm. rewrite Hm.
    rewrite lookup_insert_eq. by eexists.
  - pose proof (sqlite_opened path (set_node n1 m)) as Ho.
    destruct (SqliteStore_open path (set_node n1 m)) as [[u|msg] m1]; [|by injection Hrun as <- <-].
    cbn [is_ok] in Ho. pose proof (on_tables_reads path (k Sqlite _ _ e) m1 (Hs e)) as Hst.
    rewrite Hrun in Hst. eapply opened_still; [exact Ho|]. apply Hst.
    destruct Ho as (_ & _ & _ & ran & Hm & Hok). rewrite (Hok eq_refl) in Hm. rewrite Hm.
    rewrite lookup_insert_eq. by eexists.
Qed.

(** The commands that claim to look only; some of them open the store they look
    at. *)
Definition looks_only (cmd : Cmd) : bool :=
  match cmd with
  | GenMasterKey | VerifyMetadata _ | RecoverLegacy _ _ _ false | Status _ _ | Buyback _ _ _
  | Balances _ => true
  | _ => false
  end.
Definition store_looked_at (cmd : Cmd) : option OpenedStore :=
  match cmd with
  | Status c _ | Balances c => Some (open_store (co_store c))
  | _ => None
  end.

Lemma looking_frozen cmd sessions :
  (forall n (db : Sqlite), peers n db = db) -> looks_only cmd = true -> store_looked_at cmd = None ->
  frozen (command cmd sessions).
Proof.
  intros Hdb Hlook Hnone.
  destruct cmd as [| |network|manifest database archive [] | | | | | | |]; try discriminate;
    cbn [command]; apply frozen_bind || apply (frozen_pure (fun _ => Err _)).
  - apply frozen_on_node.
  - intros a. apply (frozen_pure (fun _ => Ok _)).
  - apply frozen_bind; [apply (frozen_pure (fun _ => _))|]. intros net.
    apply frozen_bind; [apply frozen_on_node|]. intros _. apply frozen_on_node.
  - intros a. apply (frozen_pure (fun _ => Ok _)).
  - apply frozen_bind; [apply (frozen_pure (fun m => ok_or _ _))|]. intros bytes.
    destruct (_ <? _); [apply (frozen_pure (fun _ => Err _))|].
    apply frozen_bind; [apply (frozen_pure (fun _ => _))|]. intros mf.
    apply frozen_bind; [apply frozen_read_only|]. intros _.
    apply frozen_bind; [by apply frozen_get_from|]. intros o.
    apply frozen_bind; [apply (frozen_pure (fun _ => _))|]. intros record.
    apply frozen_bind; [apply frozen_on_node|]. intros _.
    apply frozen_bind; [|intros sums; apply (frozen_pure (fun _ => _))].
    destruct (validate_manifest record mf); [apply frozen_on_node|apply (frozen_pure (fun _ => Ok _))].
  - intros a. apply (frozen_pure (fun _ => Ok _)).
Qed.

(** C31: the commands that look leave no trace.  With no other process at work,
    whatever the node and the operating system answer and whichever error they end
    with, the dry run of a recovery, the metadata check, the generation of a key and
    the disabled standalone buyback leave every file, every database file with its
    schema, every store directory with its mode, and the trace exactly as they were;
    the status and the balances do what opening their store does and nothing else:
    [init]'s statements on the database file of the options, or the directory of
    the options and its mode, never the content of a store, and on a database that
    is initialised already nothing at all.  The standalone buyback always ends with
    its error. *)
Theorem looking_changes_nothing (cmd : Cmd) (sessions : list Session) (m m' : Machine N)
  (res : result BoxError Output)
  (Hlook : looks_only cmd = true)
  (Hdb : forall n (db : Sqlite), peers n db = db) (Hdir : forall n (d : Dir), peers n d = d)
  (Hrun : command cmd sessions m = (res, m')) :
  match store_looked_at cmd with
  | None => still m m'
  | Some store => opened store (is_ok res) m m'
  end /\
  (forall path f, store_looked_at cmd = Some (Opened_sqlite path) -> m_databases m !! path = Some f ->
     initialised f -> still m m') /\
  (forall c amount then_, cmd = Buyback c amount then_ -> res = Err (Box_lib standalone_disabled)).
Proof.
  assert (Hres : match store_looked_at cmd with
                 | None => still m m'
                 | Some store => opened store (is_ok res) m m'
                 end).
  { destruct (store_looked_at cmd) as [store|] eqn:Hst.
    - destruct cmd; try discriminate Hst; injection Hst as <-; cbn [command] in Hrun.
      + pose proof (with_engine_opens c (fun St _ _ e => status_command id) m) as Ho.
        rewrite Hrun in Ho. apply Ho; intros e.
        * apply reads_status; [done|]. intros env db. apply get_same_sqlite.
        * apply reads_status; [done|]. intros env d. apply get_same_file.
      + pose proof (with_engine_opens c (fun St _ _ e => balances_command e) m) as Ho.
        rewrite Hrun in Ho. apply Ho; intros e; apply reads_balances.
    - pose proof (looking_frozen cmd sessions Hdb Hlook Hst m) as Hf. by rewrite Hrun in Hf. }
  split; [exact Hres|]. split; [|by intros c a t ->; injection Hrun as <- _].
  intros path f Hst Hf Hini. rewrite Hst in Hres. destruct Hres as (Hfi & Ht & Hd & ran & Hm & _).
  split_and!; try done. rewrite Hm, Hf. destruct ran as [k|]; [|done]. cbn [default].
  rewrite execute_statements_initialised by done. by apply insert_id.
Qed.


(** ** The treasury's keystore *)

(** serde_json reads back what it wrote. *)
Definition sealed_json_law : Prop :=
  forall s, sealed_from_json (sealed_to_json s) = Some s.

(** C30: a sealed treasury key opens again.  [seal-treasury] refuses an existing
    file, writes exactly one new file and nothing else, and a process started on
    the machine it leaves, with the same master key, loads from that file the
    very keypair of the secret URI. *)
Theorem sealed_treasury_loads `{!CryptoLaws, !RandomLaws N} (mv tv out : string)
  (m m' : Machine N) (line : string) (Hjson : sealed_json_law)
  (Hutf8 : forall uri, env_var tv = Some uri ->
     utf8_valid (byte_to_Z <$> bytes_of_string (str_trim uri)) = true)
  (Hrun : seal_treasury mv tv out m = (Ok line, m')) :
  m_files m !! out = None /\
  (exists json, m_files m' = <[out := json]> (m_files m)) /\
  m_databases m' = m_databases m /\ m_dirs m' = m_dirs m /\ m_trace m' = m_trace m /\
  exists master uri kp,
    @MasterKey_from_env _ p mv = Ok master /\ env_var tv = Some uri /\
    @keypair_from_uri _ p (str_trim uri) = Ok kp /\
    @TreasuryKeySource_load _ (process_of (p := p) m') (EncryptedKeystore out) (Some master) = Ok kp.
Proof.
  unfold seal_treasury in Hrun.
  run_bind Hrun master m1 Hmaster. unfold ask in Hmaster. injection Hmaster as Hmaster <-.
  apply boxed_ok in Hmaster.
  run_bind Hrun uri m2 Huri. unfold m_lift in Huri. injection Huri as Huri <-. apply ok_or_ok in Huri.
  run_bind Hrun kp m3 Hkp. unfold ask in Hkp. injection Hkp as Hkp <-. apply boxed_ok in Hkp.
  run_bind Hrun nonce m4 Hnonce. unfold on_node in Hnonce.
  pose proof (env_random_length 24 (m_node m)) as Hlen.
  destruct (env_random 24 (m_node m)) as [b n] eqn:Hrand. cbn in Hnonce. injection Hnonce as <- <-.
  run_bind Hrun sealed m5 Hsealed. unfold m_lift in Hsealed. injection Hsealed as Hsealed <-.
  apply boxed_ok in Hsealed.
  run_bind Hrun u m6 Hnew. cbn in Hnew. destruct (m_files m !! out) eqn:Hout; [done|].
  unfold on_host in Hnew. destruct (create_file out _) as [[x|msg] n6]; [|done].
  injection Hnew as _ <-.
  run_bind Hrun v m7 Hfile. unfold write_to in Hfile.
  destruct (write_all _ _) as [[y|[part msg]] n7]; [|done].
  injection Hfile as _ <-. injection Hrun as _ <-. cbn.
  split; [done|]. split; [by eexists|]. do 3 (split; [done|]).
  exists master, uri, kp. split_and!; try done.
  unfold TreasuryKeySource_load, file_or_config, process_of, with_files. cbn.
  rewrite lookup_insert_eq. cbn. rewrite Hjson. cbn.
  pose proof (master_seal_open master b _ TREASURY_AAD sealed (ss_kid sealed) Hlen Hsealed) as Hopen.
  destruct sealed. cbn in Hopen. rewrite Hopen. cbn.
  unfold string_from_utf8. rewrite (Hutf8 uri Huri). cbn. unfold bytes_of_string.
  rewrite Stdlib.Strings.String.string_of_list_byte_of_string, str_trim_idem. exact Hkp.
Qed.


(** ** Commands that run an engine *)

Definition machine_good (m : Machine N) : Prop :=
  map_Forall (fun _ f => good (df_tables f)) (m_databases m).

(** The options of an engine's command. *)
Definition engine_options (cmd : Cmd) : option Common :=
  match cmd with
  | Create c _ _ | Status c _ | Retry c _ | ForceSweep c _ | Run c _ | Balances c => Some c
  | _ => None
  end.

Lemma init_good : good SqliteStore_init.
Proof.
  split; [apply map_Forall_empty|]. intros id r Hr. cbn in Hr.
  by rewrite fmap_empty, lookup_empty in Hr.
Qed.

Section Follows.
Context `{!PeersLaws N Sqlite} (e : Engine).
Abbreviation On A := (M (World Sqlite N) BoxError A).

(** From a good store, [m] follows the protocol with every broadcast journaled. *)
Definition orderly {A} (m : On A) : Prop :=
  forall w, good (w_store w) -> wp m (fun _ w' => follows e w w') w.

Lemma orderly_refl (w : World Sqlite N) : good (w_store w) -> follows e w w.
Proof. intros Hg. by apply sent_follows, quiet_sent, quiet_refl. Qed.

Lemma orderly_bind {A B} (m : On A) (k : A -> On B) :
  orderly m -> (forall a, orderly (k a)) -> orderly (m_bind m k).
Proof.
  intros Hm Hk w Hg. apply wp_bind, (wp_mono _ _ _ _ (Hm w Hg)). intros [a|er] w1 Hf; [|done].
  apply (wp_mono _ _ _ _ (Hk a w1 (proj1 Hf))). intros res w2 Hf2. by eapply follows_trans.
Qed.

Lemma orderly_lib {A} (m : M (World Sqlite N) Error A) :
  (forall w, good (w_store w) -> wp m (fun _ w' => follows e w w') w) -> orderly (lib m).
Proof.
  intros Hm w Hg. specialize (Hm w Hg). unfold wp, lib in *. by destruct (m w).
Qed.

Lemma orderly_quiet {A} (m : M (World Sqlite N) Error A) (P : World Sqlite N -> A -> World Sqlite N -> Prop) :
  (forall w, good (w_store w) -> quietly m (P w) w) -> orderly (lib m).
Proof.
  intros Hm. apply orderly_lib. intros w Hg. pose proof (Hm w Hg) as Hq. unfold quietly in Hq.
  apply (wp_mono _ _ _ _ Hq). intros res w' [Hw _]. by apply sent_follows, quiet_sent.
Qed.

Lemma orderly_reads {A} (m : On A) : reads m -> orderly m.
Proof.
  intros Hr w Hg. specialize (Hr w). unfold wp. destruct (m w) as [res w']. cbn in *.
  destruct Hr as [Hs Ht]. split; [by rewrite Hs|]. rewrite Hs, Ht. split; [done|].
  exists []. split; [by rewrite app_nil_r|]. by apply no_broadcast_journaled.
Qed.

Lemma orderly_status id : orderly (status_command id).
Proof.
  apply orderly_bind; [|intros st; apply orderly_reads, reads_ret].
  apply (orderly_quiet _ (fun _ _ _ => True)). intros w Hg. unfold get_status.
  eapply quietly_bind; [by apply quietly_get|]. intros r w1 Hq _. apply quietly_ret; [|done].
  by eapply quiet_good.
Qed.

Lemma orderly_run listen sessions : orderly (run_command e listen sessions).
Proof.
  apply orderly_bind; [apply orderly_reads, reads_lib, reads_outside|]. intros lines.
  apply orderly_bind.
  { apply orderly_reads, reads_lib, reads_bind; [apply reads_outside|].
    intros [owner|]; [apply reads_ret|apply (reads_pure (Err _))]. }
  intros _. apply orderly_bind.
  { apply orderly_reads. destruct listen as [addr|]; [|apply reads_ret].
    intros w. by destruct (http_bind addr (w_env w)). }
  intros _. apply orderly_bind; [|intros _; apply orderly_reads, reads_ret].
  apply orderly_lib. intros w Hg. by apply follows_run.
Qed.
End Follows.

(** On the file store the commands are mute. *)
Section Mute.
Context (e : Engine).

Lemma mute_lib {A} (m : M (World Dir N) Error A) : mute m -> mute (lib m).
Proof. intros Hm w. unfold lib. specialize (Hm w). destruct (m w) as [r w1]. exact Hm. Qed.

Lemma mute_reads {E A} (m : M (World Dir N) E A) : reads m -> mute m.
Proof. intros Hr. apply mute_silent. intros w. apply Hr. Qed.

Lemma mute_run_command listen sessions : mute (run_command (St := Dir) e listen sessions).
Proof.
  apply mute_bind; [apply mute_lib, mute_outside|]. intros lines.
  apply mute_bind.
  { apply mute_lib, mute_bind; [apply mute_outside|]. intros [owner|]; [apply mute_ret|apply mute_throw]. }
  intros _. apply mute_bind; [|intros _; apply mute_bind; [apply mute_lib, mute_run|intros _; apply mute_ret]].
  destruct listen as [addr|]; [|apply mute_ret]. apply mute_silent. intros w.
  by destruct (http_bind addr (w_env w)).
Qed.
End Mute.

(** ** The machine around them *)

(** What a command may touch: the one store it opens. *)
Definition touches (store : OpenedStore) (m m' : Machine N) : Prop :=
  m_files m' = m_files m /\
  match store with
  | Opened_sqlite path => m_dirs m' = m_dirs m /\
      forall path', path' <> path -> m_databases m' !! path' = m_databases m !! path'
  | Opened_file dir => m_databases m' = m_databases m /\
      forall dir', dir' <> dir -> m_dirs m' !! dir' = m_dirs m !! dir'
  end.

Lemma touches_trans store a b c : touches store a b -> touches store b c -> touches store a c.
Proof.
  unfold touches. destruct store; intros (Hf & Hd & Ho) (Hf' & Hd' & Ho');
    (split; [congruence|]); (split; [congruence|]); intros q Hq; rewrite Ho', Ho; done.
Qed.

Lemma opened_touches store ok m m' : opened store ok m m' -> touches store m m'.
Proof.
  intros (Hf & _ & Ho). split; [done|]. destruct store as [dir|path].
  - destruct Ho as (? & [mode|] & -> & _); (split; [done|]); [|done].
    intros q Hq. by apply lookup_insert_ne.
  - destruct Ho as (? & [k|] & -> & _); (split; [done|]); [|done].
    intros q Hq. by apply lookup_insert_ne.
Qed.

Lemma database_good path m : machine_good m -> good (df_tables (default DbFile_empty (m_databases m !! path))).
Proof.
  intros Hg. destruct (m_databases m !! path) as [f|] eqn:Hf; [by apply (Hg path f)|apply init_good].
Qed.

Lemma opened_good store ok m m' : opened store ok m m' -> machine_good m -> machine_good m'.
Proof.
  intros (_ & _ & Ho) Hg. unfold machine_good. destruct store as [dir|path].
  - destruct Ho as [-> _]. exact Hg.
  - destruct Ho as (_ & [k|] & -> & _); [|exact Hg].
    apply map_Forall_insert_2; [|exact Hg]. by apply database_good.
Qed.

Lemma on_tables_orderly `{!PeersLaws N Sqlite} {A} e path (op : M (World Sqlite N) BoxError A) m :
  machine_good m -> orderly e op ->
  let m' := (on_tables path op m).2 in
  machine_good m' /\ touches (Opened_sqlite path) m m' /\
  exists t, m_trace m' = m_trace m ++ t /\ journaled e t.
Proof.
  intros Hg Ho. unfold on_tables. set (f := default DbFile_empty (m_databases m !! path)).
  set (w0 := mkWorld (df_tables f) (m_node m) (m_trace m)).
  assert (Hg0 : good (w_store w0)) by by apply database_good.
  pose proof (Ho w0 Hg0) as Hf. unfold wp in Hf. destruct (op w0) as [r w].
  destruct Hf as (Hg' & _ & t & Ht & Hj). split; [by apply map_Forall_insert_2|].
  split; [|by exists t]. split; [done|]. split; [done|]. intros q Hq. by apply lookup_insert_ne.
Qed.

Lemma on_files_mute {A} dir (op : M (World Dir N) BoxError A) m :
  mute op ->
  let m' := (on_files dir op m).2 in
  m_databases m' = m_databases m /\ touches (Opened_file dir) m m' /\
  exists t, m_trace m' = m_trace m ++ t /\ unsigned t.
Proof.
  intros Ho. unfold on_files. set (w0 := mkWorld (sd_files (dir_at m dir)) (m_node m) (m_trace m)).
  destruct (Ho w0) as (t & Ht & Hu). destruct (op w0) as [r w].
  split; [done|]. split; [|by exists t]. split; [done|]. split; [done|]. intros q Hq.
  by apply lookup_insert_ne.
Qed.

(** What a command on an engine may do to the machine [m]. *)
Definition accounted_for (c : Common) (m m' : Machine N) : Prop :=
  machine_good m' /\ touches (open_store (co_store c)) m m' /\
  exists t, m_trace m' = m_trace m ++ t /\
    (t = [] \/ exists conn e n',
       @cli_engine _ (process_of (p := p) m) _ _ _ c (m_node m) = (Ok (conn, open_store (co_store c), e), n') /\
       journaled e t /\ forall dir, open_store (co_store c) = Opened_file dir -> unsigned t).

Lemma accounted_opened c ok m m' :
  machine_good m -> opened (open_store (co_store c)) ok m m' -> accounted_for c m m'.
Proof.
  intros Hg Ho. split; [by eapply opened_good|]. split; [by eapply opened_touches|].
  exists []. destruct Ho as (_ & -> & _). rewrite app_nil_r. by split; [|left].
Qed.

Lemma with_engine_accounted `{!PeersLaws N Sqlite} c
  (k : forall St, StoreOps St -> Peers N St -> Engine -> M (World St N) BoxError Output) m :
  machine_good m -> (forall e, orderly e (k Sqlite _ _ e)) -> (forall e, mute (k Dir _ _ e)) ->
  accounted_for c m (with_engine c k m).2.
Proof.
  intros Hgood Hs Hd. destruct (with_engine c k m) as [res m'] eqn:Hrun.
  unfold with_engine, m_bind, on_boxed in Hrun.
  destruct (cli_engine c (m_node m)) as [[[[conn store] e]|er] n1] eqn:Hcli.
  2:{ injection Hrun as <- <-. apply (accounted_opened c false); [exact Hgood|]. by apply opened_none. }
  assert (Hs0 : store = open_store (co_store c)) by exact (cli_engine_store _ _ _ _ _ _ _ Hcli).
  subst store. cbn [snd].
  unfold accounted_for. destruct (open_store (co_store c)) as [dir|path] eqn:Hst.
  - pose proof (file_opened dir (set_node n1 m)) as Ho.
    destruct (FileStore_open dir (set_node n1 m)) as [[u|msg] m1].
    2:{ injection Hrun as <- <-. rewrite <- Hst. apply (accounted_opened c false); [exact Hgood|].
        rewrite Hst. by apply (opened_after n1). }
    apply opened_after in Ho.
    pose proof (on_files_mute dir (k Dir _ _ e) m1 (Hd e)) as Hk. rewrite Hrun in Hk.
    destruct Hk as (Hdb & Ht & t & Htr & Hu). cbn [snd] in *.
    split; [unfold machine_good; rewrite Hdb; by eapply opened_good|].
    split; [eapply touches_trans; [by apply (opened_touches _ _ _ _ Ho)|exact Ht]|].
    exists t. split; [rewrite Htr; by destruct Ho as (_ & -> & _)|]. right.
    exists conn, e, n1. split; [exact Hcli|]. split; [|done].
    by apply no_broadcast_journaled, unsigned_broadcasts.
  - pose proof (sqlite_opened path (set_node n1 m)) as Ho.
    destruct (SqliteStore_open path (set_node n1 m)) as [[u|msg] m1].
    2:{ injection Hrun as <- <-. rewrite <- Hst. apply (accounted_opened c false); [exact Hgood|].
        rewrite Hst. by apply (opened_after n1). }
    apply opened_after in Ho.
    assert (Hg1 : machine_good m1) by by eapply opened_good.
    pose proof (on_tables_orderly e path (k Sqlite _ _ e) m1 Hg1 (Hs e)) as Hk. rewrite Hrun in Hk.
    destruct Hk as (Hg & Ht & t & Htr & Hj). cbn [snd] in *. split; [exact Hg|].
    split; [eapply touches_trans; [by apply (opened_touches _ _ _ _ Ho)|exact Ht]|].
    exists t. split; [rewrite Htr; by destruct Ho as (_ & -> & _)|]. right.
    by exists conn, e, n1.
Qed.

(** C6: the guarantees of the engine are the guarantees of the program.  Whatever
    command of an engine runs, on whichever store its options name, on a machine
    whose databases are consistent and with whatever other processes on the
    database, it leaves consistent databases, touches no file and no store but the
    one it opens, and every transaction it broadcasts was journaled first by an
    engine that was started under the command line's safeguards; on a file store it
    neither signs nor broadcasts. *)
Theorem commands_journal_before_broadcast `{!PeersLaws N Sqlite} (cmd : Cmd) (c : Common)
  (sessions : list Session) (m m' : Machine N) (res : result BoxError Output)
  (Hcmd : engine_options cmd = Some c) (Hgood : machine_good m)
  (Hrun : command cmd sessions m = (res, m')) :
  machine_good m' /\ touches (open_store (co_store c)) m m' /\
  exists t, m_trace m' = m_trace m ++ t /\
    (t = [] \/ exists conn e n',
       @cli_engine _ (process_of (p := p) m) _ _ _ c (m_node m) = (Ok (conn, open_store (co_store c), e), n') /\
       journaled e t /\ forall dir, open_store (co_store c) = Opened_file dir -> unsigned t).
Proof.
  assert (Hm : m' = (command cmd sessions m).2) by by rewrite Hrun.
  rewrite Hm. destruct cmd; try discriminate Hcmd; injection Hcmd as <-; cbn [command];
    apply with_engine_accounted; try done; intros e.
  - apply orderly_bind; [|intros req; apply orderly_reads, reads_ret].
    eapply orderly_quiet. intros w Hg. by apply quietly_create_payment.
  - apply mute_bind; [apply mute_lib, mute_create_payment|intros req; apply mute_ret].
  - apply orderly_status.
  - apply mute_bind; [apply mute_lib, mute_get_status|intros st; apply mute_ret].
  - apply orderly_bind; [|intros st; apply orderly_reads, reads_ret].
    eapply (orderly_quiet _ _ (fun _ _ _ => True)). intros w Hg. by apply quietly_retry.
  - apply mute_bind; [apply mute_lib, mute_retry|intros st; apply mute_ret].
  - apply orderly_bind; [|intros st; apply orderly_reads, reads_ret].
    eapply (orderly_quiet _ _ (fun _ _ _ => True)). intros w Hg. by apply quietly_force_sweep.
  - apply mute_bind; [apply mute_lib, mute_force_sweep|intros st; apply mute_ret].
  - apply orderly_run.
  - apply mute_run_command.
  - apply orderly_reads, reads_balances.
  - apply mute_reads, reads_balances.
Qed.
End Theorems.

(** * A concrete machine, on the chain of [ToyChain] *)
Module ToyMachine.
Import Toy ToyKeys ToyChain.

Definition master_key : MasterKey := mkMasterKey (replicate 32 Byte.x01).
Definition treasury_uri : string := "//Treasury".

(** A sealed secret is the binary expansion of its code. *)
Fixpoint pos_digits (q : positive) : string :=
  match q with
  | xH => EmptyString
  | xO q => String "0" (pos_digits q)
  | xI q => String "1" (pos_digits q)
  end.
Fixpoint digits_pos (s : string) : positive :=
  match s with
  | EmptyString => xH
  | String a s => if Ascii.eqb a "0" then xO (digits_pos s) else xI (digits_pos s)
  end.
Definition sealed_code (s : SealedSecret) : positive :=
  encode (ss_v s, ss_nonce s, ss_ct s, ss_kid s).
Definition sealed_of_code (q : positive) : option SealedSecret :=
  (fun '(v, n, c, k) => mkSealedSecret v n c k) <$> decode q.

#[export] Instance machine_process : Process := {|
  env_var v :=
    if bool_decide (v = "MASTER") then Some (hex_encode (mk_bytes master_key))
    else if bool_decide (v = "URI") then Some (" " +:+ treasury_uri) else None;
  read_to_string path := Err no_such_file;
  SecretUri_keypair s := if bool_decide (s = treasury_uri) then Some (replicate 32 Byte.x54) else None;
  sealed_from_json s := sealed_of_code (digits_pos s) |}.

#[export] Instance machine_shell : Shell nat := {|
  sealed_to_json s := pos_digits (sealed_code s);
  manifest_from_slice s := if bool_decide (s = "toy manifest") then Ok toy_manifest else Err "not a manifest";
  json_from_str s := None;
  json_string s := s;
  open_connection read_only path := m_ret tt;
  execute_batch path := m_ret tt;
  create_dir_all dir := m_ret tt;
  new_dir_mode := 493;
  set_permissions dir := m_ret tt;
  http_bind addr := m_ret tt;
  create_file path := m_ret tt;
  write_all content := m_ret tt |}.

#[export] Instance machine_host : Host nat := {|
  host_now n := (1000, n);
  host_random k n := (replicate k Byte.x61, n);
  host_uuid n := ("job-1", n);
  host_store n := (mkSEnv 1000 "token" NoFault, n);
  host_webhook secret url st := m_ret tt |}.

#[export] Instance machine_transport : Transport nat := {|
  Url := string * string;
  Url_parse := split_once "://";
  url_scheme := fst;
  url_host_str u := Some u.2;
  header_value_ok _ := true;
  Wire := string;
  ws_build u header := m_ret u.2;
  Conn := string;
  from_backend s := m_ret s;
  conn_best_finalized c := m_ret 7;
  sleep_secs s n := n |}.

#[export] Instance machine_head : HeadApi nat := {|
  chain_getHeader := m_ret "0x9";
  at_block_hash hash := at_current_block;
  fetch_timestamp b := m_ret None;
  stream_blocks := m_ret [];
  spec_version b := 1;
  metadata b := toy_metadata |}.

#[export] Instance alone_db : Peers nat Sqlite := fun _ db => db.
#[export] Instance alone_dir : Peers nat Dir := fun _ d => d.
#[export] Instance alone_db_laws : PeersLaws nat Sqlite.
Proof. intros n db Hg. by split. Qed.
#[export] Instance machine_random : RandomLaws nat.
Proof. intros k n. apply length_replicate. Qed.

Lemma machine_json : sealed_json_law.
Proof.
  intros s. cbn. assert (Hd : forall q, digits_pos (pos_digits q) = q).
  { induction q as [q IH|q IH|]; cbn; by rewrite ?IH. }
  rewrite Hd. unfold sealed_of_code, sealed_code. rewrite decode_encode. by destruct s.
Qed.

Definition bare : Machine nat := mkMachine ∅ ∅ ∅ 9%nat [].
Definition options_on (store : string) : Common :=
  {| co_network := "wss://node.example"; co_netuid := 1; co_store := store;
     co_master_key_var := "MASTER"; co_treasury_uri_var := "URI"; co_treasury_mnemonic_file := None;
     co_treasury_keystore := None; co_treasury_hotkey := ss58 miner; co_min_alpha := "0.00000004";
     co_min_tao := None; co_expiry_secs := 86400; co_buyback_netuid := 100; co_slippage_bps := 100;
     co_fee_margin_bps := 5000; co_fee_reserve := "0"; co_auto := "burn"; co_auto_amount := "0.5";
     co_auto_source := Some "fees"; co_webhook_url := None; co_allow_mainnet := false |}.

Definition options : Common := options_on "sqlite:buyback.sqlite".
Definition file_options : Common := options_on "file:payments".

(** A request is created, then the engine runs. *)
Definition creates (c : Common) : Cmd := Create c (Some "order 7") None.
Definition created : Machine nat := (command (creates options) [] bare).2.
Definition sessions_seen : list Session := [Ok [Ok 9; Ok 10]].
Definition driven : Machine nat := (command (Run options None) sessions_seen created).2.
Definition file_created : Machine nat := (command (creates file_options) [] bare).2.

Lemma bare_good : machine_good bare.
Proof. apply map_Forall_empty. Qed.

(** The deposit is seen and its funding broadcast, after the journal that names it.
    On a file store a payment is refused, and the engine runs without a signature. *)
Lemma commands_journal_before_broadcast_witness :
  (broadcasts (m_trace driven) = 1%nat /\ machine_good driven /\ m_dirs driven = ∅ /\
   exists e t, m_trace driven = m_trace created ++ t /\ journaled e t) /\
  ((command (creates file_options) [] bare).1 =
     Err (Box_lib (Error_Store "shared signer reservations unsupported; requests disabled")) /\
   length (m_trace (command (Run file_options None) sessions_seen file_created).2) = 0%nat /\
   m_databases (command (Run file_options None) sessions_seen file_created).2 = ∅).
Proof.
  assert (Hgood : machine_good created).
  { destruct (commands_journal_before_broadcast (creates options) options [] bare created
                (command (creates options) [] bare).1 eq_refl bare_good (surjective_pairing _)) as [Hg _].
    exact Hg. }
  assert (Hfile : machine_good file_created).
  { destruct (commands_journal_before_broadcast (creates file_options) file_options [] bare file_created
                (command (creates file_options) [] bare).1 eq_refl bare_good (surjective_pairing _))
      as [Hg _].
    exact Hg. }
  split.
  - split; [vm_compute; reflexivity|].
    destruct (commands_journal_before_broadcast (Run options None) options sessions_seen created driven
                (command (Run options None) sessions_seen created).1 eq_refl Hgood
                (surjective_pairing _)) as (Hg & Htouch & t & Ht & He).
    change (open_store (co_store options)) with (Opened_sqlite "buyback.sqlite") in Htouch.
    destruct Htouch as (_ & Hd & _). split; [exact Hg|].
    split; [rewrite Hd; vm_compute; reflexivity|].
    destruct He as [->|(_ & e & _ & _ & Hj & _)]; [|exists e, t; exact (conj Ht Hj)].
    exfalso. rewrite app_nil_r in Ht. apply (f_equal length) in Ht as Hlen.
    vm_compute in Hlen. discriminate Hlen.
  - split; [vm_compute; reflexivity|]. split; [vm_compute; reflexivity|].
    destruct (commands_journal_before_broadcast (Run file_options None) file_options sessions_seen
                file_created (command (Run file_options None) sessions_seen file_created).2
                (command (Run file_options None) sessions_seen file_created).1 eq_refl Hfile
                (surjective_pairing _)) as (_ & Ht & _).
    change (open_store (co_store file_options)) with (Opened_file "payments") in Ht.
    destruct Ht as (_ & Hd & _). rewrite Hd. vm_compute. reflexivity.
Defined.

(** A database with a job of an older release, and its manifest. *)
Definition legacy : Machine nat :=
  mkMachine {[ "manifest.json" := "toy manifest" ]}
    {[ "legacy.sqlite" := mkDbFile init_batch (sqlite_insert toy_record (env_at 1 "") SqliteStore_init).2 ]}
    ∅ 30%nat [].
Definition recovers (apply : bool) : Cmd :=
  RecoverLegacy "manifest.json" "legacy.sqlite" "wss://archive.example" apply.

(** A dry run that verifies the whole manifest leaves the machine still, and so does
    the status of a payment on the database the engine runs on.  On a bare machine
    the status fails, and what it leaves is an empty database with its tables; on
    a file store, an empty directory of the owner's. *)
Lemma looking_changes_nothing_witness :
  ((exists r, (command (recovers false) [] legacy).1 = Ok (Out_report r) /\ rr_applied r = false) /\
   still legacy (command (recovers false) [] legacy).2) /\
  ((exists st, (command (Status options "job-1") [] driven).1 = Ok (Out_status st) /\
               st_state st = Detected) /\
   still driven (command (Status options "job-1") [] driven).2) /\
  opened (Opened_sqlite "buyback.sqlite") false bare (command (Status options "job-1") [] bare).2 /\
  opened (Opened_file "payments") false bare (command (Status file_options "job-1") [] bare).2.
Proof.
  split_and!.
  - eexists. split; vm_compute; reflexivity.
  - destruct (looking_changes_nothing (recovers false) [] legacy
                (command (recovers false) [] legacy).2 (command (recovers false) [] legacy).1
                eq_refl (fun _ _ => eq_refl) (fun _ _ => eq_refl) (surjective_pairing _)) as [Hs _].
    exact Hs.
  - eexists. split; vm_compute; reflexivity.
  - destruct (looking_changes_nothing (Status options "job-1") [] driven
                (command (Status options "job-1") [] driven).2
                (command (Status options "job-1") [] driven).1
                eq_refl (fun _ _ => eq_refl) (fun _ _ => eq_refl) (surjective_pairing _)) as (_ & Hs & _).
    assert (Hf : exists f, m_databases driven !! "buyback.sqlite" = Some f /\ df_schema f = init_batch)
      by (eexists; split; vm_compute; reflexivity).
    destruct Hf as (f & Hf & Hini). apply (Hs "buyback.sqlite" f eq_refl Hf).
    intros o Ho. rewrite Hini. exact Ho.
  - assert (He : (command (Status options "job-1") [] bare).1 = Err (Box_lib (Error_NotFound "job-1")))
      by (vm_compute; reflexivity).
    destruct (looking_changes_nothing (Status options "job-1") [] bare
                (command (Status options "job-1") [] bare).2 (command (Status options "job-1") [] bare).1
                eq_refl (fun _ _ => eq_refl) (fun _ _ => eq_refl) (surjective_pairing _)) as [Ho _].
    change (opened (Opened_sqlite "buyback.sqlite") (is_ok (command (Status options "job-1") [] bare).1) bare
              (command (Status options "job-1") [] bare).2) in Ho.
    rewrite He in Ho. exact Ho.
  - assert (He : (command (Status file_options "job-1") [] bare).1 = Err (Box_lib (Error_NotFound "job-1")))
      by (vm_compute; reflexivity).
    destruct (looking_changes_nothing (Status file_options "job-1") [] bare
                (command (Status file_options "job-1") [] bare).2
                (command (Status file_options "job-1") [] bare).1
                eq_refl (fun _ _ => eq_refl) (fun _ _ => eq_refl) (surjective_pairing _)) as [Ho _].
    change (opened (Opened_file "payments") (is_ok (command (Status file_options "job-1") [] bare).1) bare
              (command (Status file_options "job-1") [] bare).2) in Ho.
    rewrite He in Ho. exact Ho.
Defined.

Example status_on_bare :
  m_databases (command (Status options "job-1") [] bare).2 !! "buyback.sqlite" =
    Some (mkDbFile init_batch SqliteStore_init) /\
  m_dirs (command (Status file_options "job-1") [] bare).2 !! "payments" =
    Some (mkStoreDir FileStore_mode ∅).
Proof. split; vm_compute; reflexivity. Qed.

(** With [--apply] the same manifest is adopted, once. *)
Example recovery_applied :
  (exists r, (command (recovers true) [] legacy).1 = Ok (Out_report r) /\ rr_applied r = true) /\
  exists e, (command (recovers true) [] (command (recovers true) [] legacy).2).1 = Err e.
Proof. split; eexists; [split|]; vm_compute; reflexivity. Qed.

Definition sealed_machine : Machine nat := (seal_treasury "MASTER" "URI" "treasury.json" bare).2.

Lemma sealed_treasury_loads_witness :
  (exists line, (seal_treasury "MASTER" "URI" "treasury.json" bare).1 = Ok line) /\
  (seal_treasury "MASTER" "URI" "treasury.json" sealed_machine).1 = Err (Box_msg file_exists) /\
  exists kp, @TreasuryKeySource_load _ (process_of sealed_machine) (EncryptedKeystore "treasury.json")
               (Some master_key) = Ok kp.
Proof.
  assert (Hrun : exists line, seal_treasury "MASTER" "URI" "treasury.json" bare = (Ok line, sealed_machine))
    by (eexists; vm_compute; reflexivity).
  split; [destruct Hrun as [line Hrun]; exists line; by rewrite Hrun|].
  split; [vm_compute; reflexivity|]. destruct Hrun as [line Hrun].
  destruct (sealed_treasury_loads "MASTER" "URI" "treasury.json" bare sealed_machine line machine_json)
    as (_ & _ & _ & _ & _ & master & uri & kp & Hm & _ & _ & Hload).
  - intros uri Huri. cbn in Huri. vm_compute in Huri. injection Huri as <-. vm_compute. reflexivity.
  - exact Hrun.
  - assert (Hmk : @MasterKey_from_env _ machine_process "MASTER" = Ok master_key)
      by (vm_compute; reflexivity).
    rewrite Hmk in Hm. injection Hm as <-. exists kp. exact Hload.
Defined.

(** A full disk leaves a part of the keystore, which the next attempt refuses to
    replace and no process can load. *)
Definition full_disk : Shell nat := {|
  sealed_to_json := sealed_to_json;
  manifest_from_slice := manifest_from_slice;
  json_from_str := json_from_str;
  json_string := json_string;
  open_connection := open_connection;
  execute_batch := execute_batch;
  create_dir_all := create_dir_all;
  new_dir_mode := new_dir_mode;
  set_permissions := set_permissions;
  http_bind := http_bind;
  create_file path := m_ret tt;
  write_all content := m_throw (EmptyString, "No space left on device (os error 28)") |}.
Example partial_keystore_left :
  let m := (seal_treasury (Shell0 := full_disk) "MASTER" "URI" "treasury.json" bare).2 in
  m_files m !! "treasury.json" = Some EmptyString /\
  (seal_treasury "MASTER" "URI" "treasury.json" m).1 = Err (Box_msg file_exists).
Proof. split; vm_compute; reflexivity. Qed.
End ToyMachine.
