(* ===== verification/UnitTests.v ===== *)
(** The unit tests of units.rs, state.rs, chain.rs and keys.rs, run on the model.

    A test is a computation that panics on a failed assertion; what it asserts
    of the source's functions is asserted here of their definitions, and the
    kernel runs it.  Where a test draws randomness the bytes are arguments, and
    where it needs the cryptographic crates it runs on [ToyKeys].  Left out are
    the assertions about [Debug] and serde output, about the statistics of the
    generator, and about the addresses sr25519 gives the development phrases. *)
From S2P Require Import Prelude RustStd Types Units Keys State Chain Connect.
From Stdlib Require Import Ascii Strings.Byte.
Local Open Scope Z_scope.

(** * The harness *)
Section Harness.
Context {W : Type}.

Definition Test (A : Type) : Type := M W string A.

Definition check (b : bool) : Test unit := if b then m_ret tt else m_throw "assertion failed".
(** [m.unwrap()]. *)
Definition unwrap {E A} (m : M W E A) : Test A := fun w =>
  let '(r, w) := m w in
  (match r with Ok a => Ok a | Err _ => Err "called `unwrap` on an error" end, w).
Definition unwrap_some {A} (o : option A) : Test A :=
  m_lift (ok_or o "called `unwrap` on `None`").
(** [assert!(m.is_err())]. *)
Definition fails {E A} (m : M W E A) : Test unit :=
  let! r := unwrap (E := E) (m_try m) in check (negb (is_ok r)).
(** [assert_eq!(m.unwrap(), a)]. *)
Definition yields {E A} `{EqDecision A} (m : M W E A) (a : A) : Test unit :=
  let! x := unwrap m in check (bool_decide (x = a)).

Fixpoint for_each {A} (l : list A) (body : A -> Test unit) : Test unit :=
  match l with
  | [] => m_ret tt
  | a :: l => let! _ := body a in for_each l body
  end.

Definition passes (t : Test unit) (w : W) : bool := is_ok (t w).1.
End Harness.
Arguments Test : clear implicits.

Declare Scope test_scope.
Notation "a ;; b" := (m_bind a (fun _ => b)) (at level 100, b at level 200, right associativity) : test_scope.
Local Open Scope test_scope.

(** Pure tests: no state, a [Result] at a time. *)
Abbreviation PureTest := (Test unit unit).
Abbreviation pure r := (m_lift (W := unit) r).

(** * units.rs *)
Definition parse_and_format : PureTest :=
  yields (pure (parse_amount "1")) RAO_PER_TAO ;;
  yields (pure (parse_amount "0.5")) 500000000 ;;
  yields (pure (parse_amount ".000000001")) 1 ;;
  yields (pure (parse_amount "12.000000001")) 12000000001 ;;
  for_each [EmptyString; "."; "1.0000000001"; "-1"; "1e9"; "abc"; "99999999999999999999"]
    (fun bad => fails (pure (parse_amount bad))) ;;
  check (bool_decide (format_amount 1500000000 = "1.500000000")) ;;
  yields (pure (parse_amount (format_amount 123456789012))) 123456789012.

Definition fee_math : PureTest :=
  check (add_bps_ceil 1000 5000 =? 1500) ;;
  check (add_bps_ceil 1 1 =? 2) ;;
  check (add_bps_ceil u64_max 5000 =? u64_max) ;;
  check (funding_needed 200000 5000 500 0 =? 300500) ;;
  check (funding_needed 200000 5000 500 300000 =? 500) ;;
  check (funding_needed 200000 5000 500 1000000 =? 0) ;;
  check (units_spendable (10 * RAO_PER_TAO) RAO_PER_TAO 500 =? 9 * RAO_PER_TAO - 500) ;;
  check (units_spendable 100 1000 500 =? 0).

Definition slippage_math : PureTest :=
  check (buy_limit_price 20000000 100 =? 20200000) ;;
  check (buy_limit_price 0 100 =? 1) ;;
  check (buy_limit_price RAO_PER_TAO 0 =? RAO_PER_TAO) ;;
  check (alpha_value_in_tao (2 * RAO_PER_TAO) 20000000 =? 40000000).

Example units_tests :
  passes parse_and_format tt && passes fee_math tt && passes slippage_math tt = true.
Proof. vm_compute. reflexivity. Qed.

(** * state.rs *)
Definition ALL : list PaymentState := [Pending; Detected; Funded; Swept; Settled; Failed; Expired].

(** [for s in states { r.transition(s).unwrap() }]. *)
Fixpoint walk (r : PaymentRecord) (states : list PaymentState) : Test unit PaymentRecord :=
  match states with
  | [] => m_ret r
  | s :: states => let! r := unwrap (pure (transition r s)) in walk r states
  end.

Definition happy_path : PureTest :=
  let! r := walk (test_record "a") [Detected; Funded; Swept; Settled] in
  check (bool_decide (pr_state r = Settled)) ;;
  check (negb (is_active (pr_state r))).

Definition no_skipping_or_going_back : PureTest :=
  let r := test_record "a" in
  fails (pure (transition r Funded)) ;;
  fails (pure (transition r Swept)) ;;
  fails (pure (transition r Settled)) ;;
  let! r := unwrap (pure (transition r Detected)) in
  fails (pure (transition r Pending)) ;;
  fails (pure (transition r Detected)).

Definition settled_is_final : PureTest :=
  for_each ALL (fun to => check (negb (can_transition Settled to))).

(** The states reached from a stack of states, [Failed] resuming none; a state
    is pushed once, so the stack is popped at most eight times. *)
Fixpoint reach_from (fuel : nat) (reach stack : list PaymentState) : list PaymentState :=
  match fuel, stack with
  | S fuel, s :: stack =>
      let new := filter (fun to => s <> Failed /\ can_transition s to = true /\ to ∉ reach) ALL in
      reach_from fuel (reach ++ new) (reverse new ++ stack)
  | _, _ => reach
  end.

Definition sweep_happens_exactly_once_per_path : PureTest :=
  let reach := reach_from 8 [] [Swept] in
  check (bool_decide (Funded ∉ reach)) ;;
  check (bool_decide (Detected ∉ reach)) ;;
  let! r := walk (test_record "a") [Detected; Funded; Swept] in
  let! r := unwrap (pure (transition r Failed)) in
  fails (pure (transition r Funded)) ;;
  fails (pure (transition r Detected)) ;;
  let! _ := unwrap (pure (transition r Swept)) in
  m_ret tt.

Definition failures_back_off_then_fail_then_retry : PureTest :=
  let! r := walk (test_record "a") [Detected; Funded] in
  let r := record_failure r "boom" 3 1000 in
  check (bool_decide ((pr_state r, pr_attempts r, pr_next_attempt_at r) = (Funded, 1, 1010))) ;;
  let r := record_failure r "boom" 3 1000 in
  check (pr_next_attempt_at r =? 1020) ;;
  let r := record_failure r "boom" 3 1000 in
  check (bool_decide (pr_state r = Failed)) ;;
  check (bool_decide (pr_failed_from r = Some Funded)) ;;
  let! r := unwrap (pure (transition r Funded)) in
  check (bool_decide ((pr_attempts r, pr_last_error r) = (0, None))).

Definition expiry_and_force_sweep : PureTest :=
  let! r := unwrap (pure (transition (test_record "a") Expired)) in
  check (negb (is_active (pr_state r))) ;;
  let! _ := unwrap (pure (transition r Detected)) in
  m_ret tt.

Example state_tests :
  forallb (fun t => passes t tt)
    [happy_path; no_skipping_or_going_back; settled_is_final; sweep_happens_exactly_once_per_path;
     failures_back_off_then_fail_then_retry; expiry_and_force_sweep] = true.
Proof. vm_compute. reflexivity. Qed.

(** * chain.rs *)
Section ChainTests.
Context `{Runtime}.

(** [head]: the encoding of the two weights and the class; [le]: the little
    endian encoding of an integer on so many bytes. *)
Definition partial_fee_u64_and_u128 (head : list Byte.byte) (encode : nat -> Z -> list Byte.byte)
  : PureTest :=
  let a := head ++ encode 8%nat 55000 in
  yields (pure (decode_partial_fee a)) 55000 ;;
  let b := head ++ encode 16%nat 66000 in
  yields (pure (decode_partial_fee b)) 66000 ;;
  fails (pure (decode_partial_fee head)).
End ChainTests.

Definition fixed_point_prices : PureTest :=
  check (fixed_bits_to_rao (Z.shiftl 1 31) 32 =? 500000000) ;;
  check (fixed_bits_to_rao (Z.shiftl 3 32) 32 =? 3000000000) ;;
  check (fixed_bits_to_rao 0 32 =? 0) ;;
  check (fixed_bits_to_rao u128_max 32 =? u64_max).

Definition urls_are_redacted : PureTest :=
  check (bool_decide (redact_url "wss://rpc.example.io/v1?key=abc" = "wss://rpc.example.io")) ;;
  check (bool_decide (redact_url "wss://user:pw@host:443/x" = "wss://host:443")).
Definition blank_bearer_is_none : PureTest :=
  check (is_none (ep_bearer (Endpoint_with_bearer (Endpoint_new "wss://x") "  "))).

(** Nothing was sent: the transport's world is as it was. *)
Definition plaintext_remote_rpc_is_refused {W : Type} `{!Transport W} : Test W unit :=
  let! r := unwrap (E := Error) (m_try (connect_endpoint (Endpoint_new "ws://example.com:9944"))) in
  match r with
  | Ok _ => m_throw "called `Option::unwrap()` on a `None` value"
  | Err e => check (str_contains_str "wss" (Error_to_string e))
  end.

Definition signer_decoding : PureTest :=
  let b := Byte.x00 :: replicate 32 Byte.x07 in
  check (bool_decide (signer_of b = Some (mkAccountId32 (replicate 32 Byte.x07)))) ;;
  check (bool_decide (signer_of (replicate 21 Byte.x01) = None)).

Definition network_parse : PureTest :=
  let! finney := unwrap (pure (Network_from_str "finney")) in
  check (bool_decide (Network_url finney = "wss://entrypoint-finney.opentensor.ai:443")) ;;
  let! local := unwrap (pure (Network_from_str "local")) in
  check (bool_decide (Network_url local = "ws://127.0.0.1:9944")) ;;
  fails (pure (Network_from_str "nope")).

(** An integer on [n] bytes, in the order [toy_runtime] reads them. *)
Fixpoint toy_encode (n : nat) (v : Z) : list Byte.byte :=
  match n with
  | O => []
  | S n => toy_encode n (v / 256) ++ [default Byte.x00 (Byte.of_N (Z.to_N (v mod 256)))]
  end.

Example chain_tests :
  forallb (fun t => passes t tt)
    [@partial_fee_u64_and_u128 Toy.toy_runtime [Byte.x01; Byte.x02; Byte.x03] toy_encode;
     fixed_point_prices; urls_are_redacted; blank_bearer_is_none; signer_decoding; network_parse]
  && passes (@plaintext_remote_rpc_is_refused Z ToyTransport.toy_transport) 0 = true.
Proof. vm_compute. reflexivity. Qed.

(** * keys.rs *)
Section KeyTests.
Context `{Ss58} `{Crypto}.

Definition xor_byte (b : Byte.byte) (mask : N) : Byte.byte :=
  default Byte.x00 (Byte.of_N (N.lxor (Byte.to_N b) mask)).
(** [let mut ct = hex::decode(&t.ct).unwrap(); ct[i] ^= mask; t.ct = hex::encode(ct);] *)
Definition tampered (i : nat) (mask : N) (t : SealedSecret) : Test unit SealedSecret :=
  let! ct := unwrap_some (hex_decode (ss_ct t)) in
  let! b := unwrap_some (ct !! i) in
  m_ret (mkSealedSecret (ss_v t) (ss_nonce t) (hex_encode (<[i := xor_byte b mask]> ct)) (ss_kid t)).

Definition seal_roundtrip_and_tamper_detection
  (key_bytes other_bytes entropy nonce1 nonce2 : list Byte.byte) : PureTest :=
  let key := MasterKey_generate key_bytes in
  let! w := unwrap (pure (PaymentWallet_generate entropy)) in
  let addr := ss58 (PaymentWallet_account_id w) in
  let aad := wallet_aad "id-1" addr in
  let! sealed := unwrap (pure (PaymentWallet_seal w nonce1 key aad)) in
  check (negb (str_contains_str (hex_encode (pw_secret w)) (ss_ct sealed))) ;;
  let! back := unwrap (pure (PaymentWallet_unseal key sealed aad)) in
  check (bool_decide (PaymentWallet_account_id back = PaymentWallet_account_id w)) ;;
  (* wrong key *)
  fails (pure (PaymentWallet_unseal (MasterKey_generate other_bytes) sealed aad)) ;;
  (* wrong record binding *)
  fails (pure (PaymentWallet_unseal key sealed (wallet_aad "id-2" addr))) ;;
  (* flipped ciphertext bit *)
  let! t := tampered 0 1 sealed in
  fails (pure (PaymentWallet_unseal key t aad)) ;;
  (* nonces are random *)
  let! again := unwrap (pure (PaymentWallet_seal w nonce2 key aad)) in
  check (negb (bool_decide (ss_nonce again = ss_nonce sealed))).

Definition master_key_hex (key_bytes nonce : list Byte.byte) : PureTest :=
  let k := MasterKey_generate key_bytes in
  let! k2 := unwrap (pure (MasterKey_from_hex (MasterKey_to_hex k))) in
  let! s := unwrap (pure (MasterKey_seal k nonce (bytes_of_string "x") (bytes_of_string "a"))) in
  yields (pure (MasterKey_open k2 s (bytes_of_string "a"))) (bytes_of_string "x") ;;
  fails (pure (MasterKey_from_hex "abcd")).

Definition derivation_refuses_soft_and_malformed_paths (PHRASE : string) : PureTest :=
  let! seed := unwrap (pure (DerivationSeed_from_phrase PHRASE)) in
  for_each [EmptyString; "/soft"; "//a/soft"; "//"; "//a////b"; "opentype"]
    (fun bad => fails (pure (derive_mini seed bad))) ;;
  fails (pure (DerivationSeed_from_phrase "not a mnemonic")).

(** The last part of [derivation_matches_substrate_uris_and_is_deterministic]. *)
Definition derivation_separates_siblings (PHRASE : string) : PureTest :=
  let! seed := unwrap (pure (DerivationSeed_from_phrase PHRASE)) in
  let! a := unwrap (pure (DerivationSeed_wallet seed "//opentype//deposit//1")) in
  let! b := unwrap (pure (DerivationSeed_wallet seed "//opentype//deposit//2")) in
  check (negb (bool_decide (PaymentWallet_account_id a = PaymentWallet_account_id b))) ;;
  (* the mini secret alone rebuilds the key *)
  let! mini := unwrap (pure (derive_mini seed "//opentype//deposit//1")) in
  let! again := unwrap (pure (PaymentWallet_from_mini_secret mini)) in
  check (bool_decide (PaymentWallet_account_id again = PaymentWallet_account_id a)).

Definition keyring_roundtrip_rotation_and_tamper (PHRASE : string)
  (k1_bytes k2_bytes nonce nonce2 : list Byte.byte) : PureTest :=
  let k1 := MasterKey_generate k1_bytes in
  let k1_hex := MasterKey_to_hex k1 in
  let! old := unwrap (pure (Keyring_new "k1" [("k1", k1)])) in
  let! seed := unwrap (pure (DerivationSeed_from_phrase PHRASE)) in
  let! w := unwrap (pure (DerivationSeed_wallet seed "//opentype//deposit//3")) in
  let aad := bytes_of_string "tenant-a/5Fxyz" in
  let! sealed := unwrap (pure (PaymentWallet_seal_with w nonce old aad)) in
  check (bool_decide (ss_kid sealed = Some "k1")) ;;
  let! back := unwrap (pure (PaymentWallet_unseal_with old sealed aad)) in
  check (bool_decide (PaymentWallet_account_id back = PaymentWallet_account_id w)) ;;
  (* wrong AAD, tampered ciphertext, unknown key id *)
  fails (pure (PaymentWallet_unseal_with old sealed (bytes_of_string "tenant-b/5Fxyz"))) ;;
  let! t := tampered 5 128 sealed in
  fails (pure (PaymentWallet_unseal_with old t aad)) ;;
  let t := mkSealedSecret (ss_v sealed) (ss_nonce sealed) (ss_ct sealed) (Some "k9") in
  fails (pure (PaymentWallet_unseal_with old t aad)) ;;
  (* rotate: k2 active, k1 kept for reading *)
  let k2_hex := MasterKey_to_hex (MasterKey_generate k2_bytes) in
  let! new := unwrap (pure (Keyring_parse ("k1:" +:+ k1_hex +:+ ",k2:" +:+ k2_hex) "k2")) in
  let! back := unwrap (pure (PaymentWallet_unseal_with new sealed aad)) in
  check (bool_decide (PaymentWallet_account_id back = PaymentWallet_account_id w)) ;;
  let! o := unwrap (pure (Keyring_reseal new nonce2 sealed aad)) in
  let! resealed := unwrap_some o in
  check (bool_decide (ss_kid resealed = Some "k2")) ;;
  let! o := unwrap (pure (Keyring_reseal new nonce2 resealed aad)) in
  check (is_none o) ;;
  (* after dropping k1 only the re-sealed copy opens *)
  let! zero := unwrap (pure (MasterKey_from_hex (hex_encode (replicate 32 Byte.x00)))) in
  let! only_k2 := unwrap (pure (Keyring_parse ("k2:" +:+ MasterKey_to_hex zero) "k2")) in
  fails (pure (PaymentWallet_unseal_with only_k2 sealed aad)) ;;
  fails (pure (Keyring_new "nope" [])).

Definition legacy_sealed_without_kid_opens_with_default_key
  (key_bytes entropy nonce : list Byte.byte) : PureTest :=
  let k := MasterKey_generate key_bytes in
  let hexk := MasterKey_to_hex k in
  let! w := unwrap (pure (PaymentWallet_generate entropy)) in
  let! sealed := unwrap (pure (PaymentWallet_seal w nonce k (bytes_of_string "x"))) in
  check (is_none (ss_kid sealed)) ;;
  let! k' := unwrap (pure (MasterKey_from_hex hexk)) in
  let ring := Keyring_from_master k' in
  let! back := unwrap (pure (PaymentWallet_unseal_with ring sealed (bytes_of_string "x"))) in
  check (bool_decide (PaymentWallet_account_id back = PaymentWallet_account_id w)).
End KeyTests.

Import ToyKeys.

(** A phrase of [ToyKeys] is the hexadecimal text of its entropy. *)
Definition toy_phrase : string :=
  Stdlib.Strings.String.string_of_list_byte (hex_bytes (replicate 32 Byte.x62)).
Definition toy_bytes (n : nat) (b : Byte.byte) : list Byte.byte := replicate n b.

Example keys_tests :
  forallb (fun t => passes t tt)
    [seal_roundtrip_and_tamper_detection (toy_bytes 32 Byte.x11) (toy_bytes 32 Byte.x12) (toy_bytes 32 Byte.x13)
       (toy_bytes 24 Byte.x14) (toy_bytes 24 Byte.x15);
     master_key_hex (toy_bytes 32 Byte.x11) (toy_bytes 24 Byte.x14);
     derivation_refuses_soft_and_malformed_paths toy_phrase;
     derivation_separates_siblings toy_phrase;
     keyring_roundtrip_rotation_and_tamper toy_phrase (toy_bytes 32 Byte.x11) (toy_bytes 32 Byte.x12)
       (toy_bytes 24 Byte.x14) (toy_bytes 24 Byte.x15);
     legacy_sealed_without_kid_opens_with_default_key (toy_bytes 32 Byte.x11) (toy_bytes 32 Byte.x13) (toy_bytes 24 Byte.x14)]
  = true.
Proof. vm_compute. reflexivity. Qed.
