(* ===== verification/StoreTests.v ===== *)
(** The unit tests of store.rs and recovery.rs, run on the model.

    A test runs on a bench: a store and the number of operations done on it,
    which gives each operation a fresh token.  Opening a store again is going on
    with the same store, since nothing of it lives in the process.  Left out are
    the assertions about serde and the test against a local network. *)
From S2P Require Import Prelude RustStd Types Units Keys State Chain StoreSpec SqliteStore Engine.
From S2P Require Import FileStore Recovery UnitTests.
From Stdlib Require Import Ascii Strings.Byte.
Local Open Scope Z_scope.
Local Open Scope test_scope.

#[local] Instance upd_id : Updater pr_id := ltac:(pr_updater pr_id).
#[export] Instance PaymentRecord_eq_dec : EqDecision PaymentRecord.
Proof. solve_decision. Defined.

(** * The bench *)
Definition Bench (St : Type) : Type := St * nat.
Definition bench_env (fault : Fault) (n : nat) : SEnv :=
  mkSEnv 1000 ("token-" +:+ u64_display (Z.of_nat n)) fault.

(** An operation awaited on the bench's store. *)
Definition awaits {St A} (op : SEnv -> M St Error A) : M (Bench St) Error A := fun b =>
  let '(r, s) := op (bench_env NoFault b.2) b.1 in (r, (s, S b.2)).
(** An operation whose process is killed before it commits. *)
Definition killed {St A} (op : SEnv -> M St Error A) : Test (Bench St) unit := fun b =>
  let '(_, s) := op (bench_env (FaultBefore "killed") b.2) b.1 in (Ok tt, (s, S b.2)).
(** [assert!(matches!(m, Err(Error::Conflict(_))))] and the like. *)
Definition fails_with {W A} (expected : Error -> bool) (m : M W Error A) : Test W unit :=
  let! r := unwrap (E := Error) (m_try m) in
  check (match r with Ok _ => false | Err e => expected e end).
Definition is_conflict (e : Error) : bool := match e with Error_Conflict _ => true | _ => false end.
Definition is_not_found (e : Error) : bool := match e with Error_NotFound _ => true | _ => false end.
Definition is_config (e : Error) : bool := match e with Error_Config _ => true | _ => false end.

Definition test_journal (signer : string) (reservation : option string) (nonce birth : Z) : PendingTx :=
  {| pd_action := Action_Fund; pd_reservation := reservation; pd_signer := signer; pd_nonce := nonce;
     pd_tx_hash := "hash"; pd_birth_block := birth; pd_amount := 1 |}.

(** * store.rs, on any store *)
Section AnyStore.
Context {St : Type} `{!StoreOps St}.

(** [store.get(id).await.unwrap().unwrap()]. *)
Definition stored (id : string) : Test (Bench St) PaymentRecord :=
  let! o := unwrap (awaits (get_record id)) in unwrap_some o.

Definition explicit_legacy_policy_migration_preserves_evidence : Test (Bench St) unit :=
  let legacy := test_record "legacy-policy" <| pr_auto_required := None |> in
  unwrap (awaits (insert_record legacy)) ;;
  fails (awaits (migrate_legacy_policy (pr_id legacy) 1 None)) ;;
  let! migrated := unwrap (awaits (migrate_legacy_policy (pr_id legacy) 0 None)) in
  check (bool_decide (pr_auto_required migrated = Some false)) ;;
  check (pr_version migrated =? 1) ;;
  fails (awaits (migrate_legacy_policy (pr_id legacy) 1 None)) ;;
  let evidence := legacy <| pr_id := "legacy-evidence" |> <| pr_funded_tao := 1 |> in
  unwrap (awaits (insert_record evidence)) ;;
  fails (awaits (migrate_legacy_policy (pr_id evidence) 0 None)) ;;
  let! got := stored (pr_id evidence) in
  check (pr_funded_tao got =? 1).

Definition exercise : Test (Bench St) unit :=
  let r := test_record "p-1" in
  unwrap (awaits (insert_record r)) ;;
  fails (awaits (insert_record r)) ;;
  let! got := stored "p-1" in
  check (pr_version got =? 0) ;;
  let! got := unwrap (m_lift (transition got Detected)) in
  let! v1 := unwrap (awaits (update_record got)) in
  check (pr_version v1 =? 1) ;;
  (* stale writer loses *)
  fails_with is_conflict (awaits (update_record got)) ;;
  let! now := stored "p-1" in
  check (bool_decide (pr_state now = Detected)) ;;
  unwrap (awaits (insert_record (test_record "p-2"))) ;;
  let! pending := unwrap (awaits (list_records [Pending])) in
  check (length pending =? 1)%nat ;;
  let! both := unwrap (awaits (list_records [Pending; Detected])) in
  check (length both =? 2)%nat ;;
  let! nope := unwrap (awaits (get_record "nope")) in
  check (is_none nope) ;;
  let ghost := test_record "ghost" <| pr_version := 0 |> in
  fails_with is_not_found (awaits (update_record ghost)).
End AnyStore.

(** * store.rs, the file store *)
Section Stores.
Context `{Ss58}.

Definition file_store : Test (Bench Dir) unit :=
  exercise ;;
  fails (awaits (get_record "../etc/passwd")) ;;
  (* survives reopen (restart) *)
  let! got := stored "p-1" in
  check (pr_version got =? 1).

(** * store.rs, the SQLite store *)

(** In memory or in a file, the database is the same. *)
Definition sqlite_store : Test (Bench Sqlite) unit :=
  exercise ;;
  let! got := stored "p-1" in
  check (pr_version got =? 1).

Definition preparation_cancellation_requires_current_token_and_no_journal : Test (Bench Sqlite) unit :=
  let rec := test_record "prepare-cancel" <| pr_auto_required := None |> in
  unwrap (awaits (insert_record rec)) ;;
  let! token := unwrap (awaits (reserve_signer_for_record "signer" rec)) in
  fails (awaits (migrate_legacy_policy (pr_id rec) (pr_version rec) None)) ;;
  fails (awaits (cancel_preparation "signer" (pr_id rec) "wrong")) ;;
  unwrap (awaits (cancel_preparation "signer" (pr_id rec) token)) ;;
  let! replacement := unwrap (awaits (reserve_signer_for_record "signer" rec)) in
  fails (awaits (cancel_preparation "signer" (pr_id rec) token)) ;;
  let rec := rec <| pr_pending := Some (test_journal "signer" (Some replacement) 0 1) |> in
  let! _ := unwrap (awaits (update_record rec)) in
  fails (awaits (cancel_preparation "signer" (pr_id rec) replacement)) ;;
  fails (awaits (reserve_signer "signer" "other")).

(** [hotkey]: the address of //Bob. *)
Definition legacy_migration_fences_stale_reservers_and_freezes_validated_budget (hotkey : string)
  : Test (Bench Sqlite) unit :=
  let rec := test_record "legacy-budget" <| pr_auto_required := None |> in
  unwrap (awaits (insert_record rec)) ;;
  let budget amount := {| bb_amount_rao := amount; bb_currency := "TAO";
                          bb_source := "operator-allocation"; bb_netuid := 100; bb_destroy := Burn;
                          bb_hotkey := hotkey |} in
  fails (awaits (migrate_legacy_policy (pr_id rec) 0 (Some (budget 0)))) ;;
  let budget := budget MIN_STAKE_RAO in
  let! migrated := unwrap (awaits (migrate_legacy_policy (pr_id rec) 0 (Some budget))) in
  check (bool_decide (pr_auto_required migrated = Some true)) ;;
  let! got := stored (pr_id rec) in
  check (bool_decide (pr_buyback_budget got = Some budget)) ;;
  fails (awaits (reserve_signer_for_record "signer" rec)) ;;
  fails (awaits (update_record (migrated <| pr_buyback_budget := None |>))).

(** The child process: whether it won the signer. *)
Definition reservation_child_process (job : string) : Test (Bench Sqlite) bool :=
  let! r := unwrap (E := Error) (m_try (awaits (reserve_signer "shared-signer" job))) in
  m_ret (is_ok r).

(** [order]: the order in which the children's transactions are serialized. *)
Definition two_processes_one_signer_orphan_survives_restart (order : string * string)
  : Test (Bench Sqlite) unit :=
  let! won1 := reservation_child_process order.1 in
  let! won2 := reservation_child_process order.2 in
  check (length (filter (fun won => won = true) [won1; won2]) =? 1)%nat ;;
  for_each ["job-a"; "job-b"; "job-c"] (fun job => fails (awaits (reserve_signer "shared-signer" job))) ;;
  let! _ := unwrap (awaits (reserve_signer "different-signer" "job-c")) in
  m_ret tt.

Definition legacy_pending_signer_is_quarantined_on_upgrade : Test (Bench Sqlite) unit :=
  let rec := test_record "legacy" <| pr_pending := Some (test_journal "legacy-signer" None 1 10) |> in
  unwrap (awaits (insert_record rec)) ;;
  fails (awaits (reserve_signer "legacy-signer" "new-job")) ;;
  let! _ := unwrap (awaits (reserve_signer "other-signer" "new-job")) in
  check (negb (is_ok (require_signing (S := Dir) (bench_env NoFault 0) ∅).1)).

(** * recovery.rs *)

(** [treasury]: the account of //Bob. *)
Definition fixture (treasury : AccountId32)
  : Result (PaymentRecord * LegacyManifest * EventSummary) :=
  let r := test_record "legacy" <| pr_auto_required := None |> <| pr_state := Funded |>
             <| pr_funded_tao := 123 |> in
  let? dest := parse_ss58 (pr_address r) in
  let call := TransferTao dest 123 in
  let receipt := mkTxRef (ChainCall_name call) "hash" "block" 123 in
  let r := r <| pr_txs := pr_txs r ++ [receipt] |> in
  let m := {| lm_job := pr_id r; lm_version := pr_version r; lm_genesis_hash := "test-genesis";
              lm_treasury := ss58 treasury; lm_treasury_hotkey := ss58 treasury;
              lm_consolidate := false; lm_return_dust := false; lm_budget := None;
              lm_first_block := 1; lm_stopped_at := 2; lm_maximum_mortality := 128;
              lm_operator_attestation := "offline shutdown and historical mortality evidence";
              lm_all_old_emitters_stopped_no_immortal_signatures := true;
              lm_transactions := [mkLegacyTransaction 2 0 (ss58 treasury) 0 receipt call] |} in
  let s := {| es_names := [("System", "ExtrinsicSuccess"); ("Balances", "Transfer")];
              es_failed := false; es_stake_added := None; es_alpha_destroyed := None;
              es_stake_moved_tao := None; es_transferred := Some 123 |} in
  Ok (r, m, s).

(** The manifest with some of its fields replaced. *)
Definition with_history (attestation : string) (stopped : bool) (mortality version : Z)
  (txs : list LegacyTransaction) (m : LegacyManifest) : LegacyManifest :=
  mkLegacyManifest (lm_job m) version (lm_genesis_hash m) (lm_treasury m) (lm_treasury_hotkey m)
    (lm_consolidate m) (lm_return_dust m) (lm_budget m) (lm_first_block m) (lm_stopped_at m)
    mortality attestation stopped txs.

Definition pristine_identity_requires_explicit_history_and_configuration (treasury : AccountId32)
  : Test unit unit :=
  let! (r, m, _) := unwrap (m_lift (fixture treasury)) in
  let r := r <| pr_state := Detected |> <| pr_funded_tao := 0 |> <| pr_txs := [] |> in
  let m := with_history (lm_operator_attestation m) true (lm_maximum_mortality m) (lm_version m) [] m in
  let! (next, _) := unwrap (m_lift (replay r m ([], 200, "anchor"))) in
  let! identity := unwrap_some (pr_identity next) in
  check (bool_decide (ji_genesis_hash identity = "test-genesis")) ;;
  let m := with_history EmptyString true (lm_maximum_mortality m) (lm_version m) [] m in
  fails (m_lift (validate_manifest r m)).

(** The receipt of the first transaction claims one rao more. *)
Definition overstated (txs : list LegacyTransaction) : list LegacyTransaction :=
  match txs with
  | t :: txs =>
      let x := lt_receipt t in
      mkLegacyTransaction (lt_block t) (lt_index t) (lt_signer t) (lt_nonce t)
        (mkTxRef (tx_action x) (tx_tx_hash x) (tx_block_hash x) (tx_amount x + 1)) (lt_call t) :: txs
  | [] => []
  end.

Definition replay_preserves_evidence_and_rejects_missing_proof (treasury : AccountId32)
  : Test unit unit :=
  let! (r, m, s) := unwrap (m_lift (fixture treasury)) in
  let! (next, report) := unwrap (m_lift (replay r m ([s], 200, "anchor"))) in
  check (bool_decide (pr_txs next = pr_txs r)) ;;
  check (pr_version next =? pr_version r) ;;
  check (bool_decide (pr_state next = pr_state r)) ;;
  let! identity := unwrap_some (pr_identity next) in
  check (bool_decide (ji_genesis_hash identity = lm_genesis_hash m)) ;;
  check (negb (rr_applied report)) ;;
  fails (m_lift (replay r m ([], 200, "anchor"))) ;;
  let invalid := {| es_names := es_names s; es_failed := es_failed s;
                    es_stake_added := es_stake_added s; es_alpha_destroyed := es_alpha_destroyed s;
                    es_stake_moved_tao := es_stake_moved_tao s; es_transferred := Some 122 |} in
  fails (m_lift (replay r m ([invalid], 200, "anchor"))) ;;
  let a := lm_operator_attestation m in
  let mortality := lm_maximum_mortality m in
  let v := lm_version m in
  let txs := lm_transactions m in
  for_each
    [with_history a true 0 v txs m; with_history a false mortality v txs m;
     with_history EmptyString true mortality v txs m; with_history a true mortality v [] m;
     with_history a true mortality v (overstated txs) m; with_history a true mortality (v + 1) txs m]
    (fun bad => fails (m_lift (validate_manifest r bad))).

(** The child's transaction, which is never committed. *)
Definition recovery_transaction_child (m : LegacyManifest) (report : RecoveryReport)
  : SEnv -> M Sqlite Error unit :=
  transaction (fun _ db =>
    Ok (tt, db <| db_payments := (fun row => update_row None 99 (row_record row) row) <$> db_payments db |>
               <| db_recoveries := <[("uncommitted", 0) := (m, report)]> (db_recoveries db) |>)).

Definition killed_writer_preserves_record_and_signer_ownership (m : LegacyManifest)
  (report : RecoveryReport) : Test (Bench Sqlite) unit :=
  let r := test_record "crash" in
  unwrap (awaits (insert_record r)) ;;
  let! token := unwrap (awaits (reserve_signer "signer" (pr_id r))) in
  killed (recovery_transaction_child m report) ;;
  let! reopened := stored (pr_id r) in
  check (bool_decide (reopened = r)) ;;
  fails (awaits (reserve_signer "signer" "other")) ;;
  let! (db, _) := fun b => (Ok b, b) in
  check (bool_decide (snd <$> db_reservations db !! "signer" = Some token)) ;;
  check (size (db_recoveries db) =? 0)%nat.
End Stores.

(** * The tests pass *)
Import ToyKeys.

Definition bob : AccountId32 := mkAccountId32 (replicate 32 Byte.x42).
Definition new_sqlite : Bench Sqlite := (SqliteStore_init, 0%nat).
Definition new_dir : Bench Dir := (∅, 0%nat).

Example any_store_tests :
  passes explicit_legacy_policy_migration_preserves_evidence new_dir
  && passes explicit_legacy_policy_migration_preserves_evidence new_sqlite
  && passes file_store new_dir && passes sqlite_store new_sqlite = true.
Proof. vm_compute. reflexivity. Qed.

Example sqlite_tests :
  forallb (fun t => passes t new_sqlite)
    [preparation_cancellation_requires_current_token_and_no_journal;
     legacy_migration_fences_stale_reservers_and_freezes_validated_budget (ss58 bob);
     two_processes_one_signer_orphan_survives_restart ("job-a", "job-b");
     two_processes_one_signer_orphan_survives_restart ("job-b", "job-a");
     legacy_pending_signer_is_quarantined_on_upgrade] = true.
Proof. vm_compute. reflexivity. Qed.

Example recovery_tests :
  passes (pristine_identity_requires_explicit_history_and_configuration bob) tt
  && passes (replay_preserves_evidence_and_rejects_missing_proof bob) tt
  && match fixture bob with
     | Ok (r, m, s) =>
         passes (killed_writer_preserves_record_and_signer_ownership m
                   (mkRecoveryReport "uncommitted" 0 EmptyString 0 EmptyString 0 false)) new_sqlite
     | Err _ => false
     end = true.
Proof. vm_compute. reflexivity. Qed.
