(* ===== verification/EngineTests.v ===== *)
(** The unit tests of engine.rs, run on the model.

    The chains the tests put in the place of a node are environments of the
    engine over one record of what they count and answer; a [panic!] in one is a
    flag no test may end with.  A new process on the same database is a new
    engine on the same store. *)
From S2P Require Import Prelude RustStd Types Units Keys State Chain StoreSpec SqliteStore Engine.
From S2P Require Import UnitTests StoreTests.
From Stdlib Require Import Ascii Strings.Byte.
Local Open Scope Z_scope.
Local Open Scope test_scope.

#[local] Instance upd_address : Updater pr_address := ltac:(pr_updater pr_address).
#[local] Instance upd_netuid : Updater pr_netuid := ltac:(pr_updater pr_netuid).
#[local] Instance upd_sealed : Updater pr_sealed_secret := ltac:(pr_updater pr_sealed_secret).

Definition no_silent_clamp_or_skipped_success : Test unit unit :=
  fails (m_lift (strict_buyback_amount 0 u64_max)) ;;
  fails (m_lift (strict_buyback_amount (MIN_STAKE_RAO - 1) u64_max)) ;;
  fails (m_lift (strict_buyback_amount MIN_STAKE_RAO (MIN_STAKE_RAO - 1))) ;;
  yields (m_lift (strict_buyback_amount MIN_STAKE_RAO MIN_STAKE_RAO)) MIN_STAKE_RAO ;;
  yields (m_lift (strict_buyback_amount MIN_STAKE_RAO u64_max)) MIN_STAKE_RAO.

(** * The chains *)

Record Sim := mkSim {
  sim_broadcasts : Z;
  sim_lookup : Z;
  sim_summary : EventSummary;
  sim_dead : bool;
  sim_hotkey : AccountId32;
  sim_owner : option AccountId32;
  (** tokens and identifiers handed out *)
  sim_ops : Z;
  sim_panicked : bool }.
Definition eta_Sim (n : Sim) : Sim :=
  mkSim (sim_broadcasts n) (sim_lookup n) (sim_summary n) (sim_dead n) (sim_hotkey n) (sim_owner n)
    (sim_ops n) (sim_panicked n).
#[local] Instance upd_broadcasts : Updater sim_broadcasts := ltac:(solve_updater eta_Sim sim_broadcasts).
#[local] Instance upd_lookup : Updater sim_lookup := ltac:(solve_updater eta_Sim sim_lookup).
#[local] Instance upd_summary : Updater sim_summary := ltac:(solve_updater eta_Sim sim_summary).
#[local] Instance upd_dead : Updater sim_dead := ltac:(solve_updater eta_Sim sim_dead).
#[local] Instance upd_ops : Updater sim_ops := ltac:(solve_updater eta_Sim sim_ops).
#[local] Instance upd_panicked : Updater sim_panicked := ltac:(solve_updater eta_Sim sim_panicked).

Definition panics {A} : M Sim Error A := fun n =>
  (Err (Error_Chain "panic"), n <| sim_panicked := true |>).
Definition sim_now (n : Sim) : Z * Sim := (1700000000, n).
Definition sim_name (prefix : string) (n : Sim) : string * Sim :=
  (prefix +:+ u64_display (sim_ops n), n <| sim_ops := sim_ops n + 1 |>).
Definition sim_store (n : Sim) : SEnv * Sim :=
  let '(token, n) := sim_name "token-" n in (mkSEnv 1700000000 token NoFault, n).
Definition sim_random (k : nat) (n : Sim) : list Byte.byte * Sim := (replicate k Byte.x61, n).

Section Chains.
Context `{Ss58} `{Crypto}.

(** The trait's methods for sending; the other queries are not made. *)
Definition sending_only (prepare : ChainCall -> Keypair -> M Sim Error PreparedTx)
  (broadcast : PreparedTx -> M Sim Error FinalizedTx)
  (find : PendingTx -> M Sim Error PendingOutcome) : EngineEnv Sim := {|
  genesis_hash := "unused";
  rpc_free_balance who := panics;
  rpc_account who := panics;
  rpc_alpha_on who netuid := panics;
  rpc_alpha_of hotkey coldkey netuid := panics;
  rpc_estimate_fee call signer := panics;
  rpc_existential_deposit := panics;
  rpc_alpha_price netuid := panics;
  rpc_hotkey_owner hotkey := panics;
  rpc_stake_positions_many l := panics;
  rpc_prepare := prepare;
  rpc_broadcast := broadcast;
  rpc_find_pending := find;
  env_now := sim_now;
  env_random := sim_random;
  env_uuid := sim_name "job-";
  env_store := sim_store;
  webhook_post secret url st := panics |}.

Definition PrepareFailure : EngineEnv Sim :=
  sending_only (fun _ _ => m_throw (Error_Chain "prepare RPC timeout before submission"))
    (fun _ => panics) (fun _ => panics).

Definition LostReply_prepare (call : ChainCall) (signer : Keypair) : M Sim Error PreparedTx := fun n =>
  (Ok {| pt_call := call; pt_signer := ss58 (Keypair_account_id signer); pt_nonce := 7;
         pt_tx_hash := "hash-" +:+ u64_display (sim_broadcasts n); pt_birth_block := 100;
         pt_bytes := [] |}, n).
Definition LostReply_broadcast (_ : PreparedTx) : M Sim Error FinalizedTx := fun n =>
  (Err (Error_Chain "connection lost after inclusion"),
   n <| sim_broadcasts := sim_broadcasts n + 1 |>).
Definition LostReply_find_pending (_ : PendingTx) : M Sim Error PendingOutcome := fun n =>
  if sim_dead n then (Ok Dead, n)
  else
    let next := n <| sim_lookup := sim_lookup n + 1 |> in
    if sim_lookup n =? 0 then (Err (Error_Chain "intermittent RPC"), next)
    else if sim_lookup n =? 1 then (Ok Wait, next)
    else (Ok (Included "finalized-test-block" (sim_summary n)), next).
Definition LostReply : EngineEnv Sim :=
  sending_only LostReply_prepare LostReply_broadcast LostReply_find_pending.

Definition SimulatedChain_prepare (call : ChainCall) (signer : Keypair) : M Sim Error PreparedTx :=
  fun n =>
  let nonce := sim_broadcasts n in
  (Ok {| pt_call := call; pt_signer := ss58 (Keypair_account_id signer); pt_nonce := nonce;
         pt_tx_hash := "simulated-" +:+ u64_display nonce; pt_birth_block := 100;
         pt_bytes := [] |}, n).
Definition SimulatedChain_broadcast (tx : PreparedTx) : M Sim Error FinalizedTx := fun n =>
  let n := n <| sim_broadcasts := sim_broadcasts n + 1 |> in
  let lost summary := (Err (Error_Chain "simulated lost broadcast response"), n <| sim_summary := summary |>) in
  match pt_call tx with
  | TransferTao _ _ => lost EventSummary_default
  | TransferStake _ _ _ _ => lost (EventSummary_default <| es_names := [(PALLET, "StakeTransferred")] |>)
  | AddStakeLimit _ _ tao _ allow_partial =>
      if allow_partial then panics n
      else lost (EventSummary_default <| es_stake_added := Some (tao, 20) |>)
  | BurnAlpha _ _ alpha => lost (EventSummary_default <| es_alpha_destroyed := Some alpha |>)
  | _ => panics n
  end.
Definition SimulatedChain_find_pending (_ : PendingTx) : M Sim Error PendingOutcome := fun n =>
  (Ok (Included "simulated-finalized-block" (sim_summary n)), n).

Definition SimulatedChain : EngineEnv Sim := {|
  genesis_hash := "simulated-genesis";
  rpc_free_balance who := m_ret 1000000000;
  rpc_account who := m_ret (0, 0);
  rpc_alpha_on who netuid := fun n =>
    (Ok (1000000000, [mkStakePosition (sim_hotkey n) netuid 1000000000]), n);
  rpc_alpha_of hotkey coldkey netuid := panics;
  rpc_estimate_fee call signer := m_ret 100;
  rpc_existential_deposit := m_ret 100;
  rpc_alpha_price netuid := m_ret 1000000000;
  rpc_hotkey_owner hotkey := fun n => (Ok (sim_owner n), n);
  rpc_stake_positions_many l := panics;
  rpc_prepare := SimulatedChain_prepare;
  rpc_broadcast := SimulatedChain_broadcast;
  rpc_find_pending := SimulatedChain_find_pending;
  env_now := sim_now;
  env_random := sim_random;
  env_uuid := sim_name "job-";
  env_store := sim_store;
  webhook_post secret url st := panics |}.
End Chains.

#[export] Instance sim_alone : Peers Sim Sqlite := fun _ db => db.

(** * The bench: a database and a chain *)
Abbreviation EngineTest A := (Test (World Sqlite Sim) A).

(** A chain with its counters at zero: [LostReply { .. }]. *)
Definition new_rpc (summary : EventSummary) (lookup : Z) (dead : bool) : EngineTest unit := fun w =>
  (Ok tt, mkWorld (w_store w)
            (w_env w <| sim_broadcasts := 0 |> <| sim_lookup := lookup |> <| sim_summary := summary |>
                     <| sim_dead := dead |>) (w_trace w)).
(** [assert_eq!(rpc.broadcasts.load(..), n)]. *)
Definition broadcasts_are (n : Z) : EngineTest unit := fun w =>
  check (sim_broadcasts (w_env w) =? n) w.

Definition new_chain (hotkey : AccountId32) (owner : option AccountId32) : World Sqlite Sim :=
  mkWorld SqliteStore_init (mkSim 0 0 EventSummary_default false hotkey owner 0 false) [].
(** The test passes and the chain did not panic. *)
Definition completes (t : EngineTest unit) (w : World Sqlite Sim) : bool :=
  match t w with
  | (Ok _, w) => negb (sim_panicked (w_env w))
  | (Err _, _) => false
  end.

(** * Journals *)
Section PrepareFails.
Context `{Ss58} `{Crypto}.
#[local] Existing Instance PrepareFailure.

Definition returned_prepare_failure_releases_only_prebroadcast_ownership (signer : Keypair)
  : EngineTest unit :=
  let rec := test_record "prepare-error" in
  unwrap (on_store (insert_record rec)) ;;
  let address := ss58 (Keypair_account_id signer) in
  let call := TransferTao (Keypair_account_id signer) 1 in
  for_each [0; 1] (fun _ =>
    fails (send_journaled rec Action_Fund call signer) ;;
    let! got := unwrap (store_get (pr_id rec)) in
    check (is_none (pr_pending got))) ;;
  let! _ := unwrap (on_store (reserve_signer address "other-job")) in
  m_ret tt.
End PrepareFails.

Section LostReplies.
Context `{Ss58} `{Crypto}.
#[local] Existing Instance LostReply.

(** [send_journaled] dropped while it awaits [prepare] ([StalledPrepare]): what
    it did before that await. *)
Definition cancelled_send (r : PaymentRecord) (signer : Keypair) : EngineTest unit :=
  let! _ := unwrap (on_store (reserve_signer_for_record (ss58 (Keypair_account_id signer)) r)) in
  m_ret tt.

Definition cancelled_preparation_and_crash_before_journal_stay_fenced (signer bob : Keypair)
  : EngineTest unit :=
  let rec := test_record "cancelled-prepare" in
  unwrap (on_store (insert_record rec)) ;;
  let address := ss58 (Keypair_account_id signer) in
  let call := TransferTao (Keypair_account_id signer) 1 in
  cancelled_send rec signer ;;
  fails (on_store (reserve_signer address "other")) ;;
  let bob_address := ss58 (Keypair_account_id bob) in
  new_rpc EventSummary_default 0 false ;;
  let! _ := unwrap (on_store (reserve_signer bob_address (pr_id rec))) in
  let! prepared := unwrap (outside (rpc_prepare call bob)) in
  check (bool_decide (pt_signer prepared = bob_address)) ;;
  (* the process disappears after prepare, before the journal *)
  fails (on_store (reserve_signer bob_address "other")) ;;
  broadcasts_are 0.

(** One action of the test: its reply is lost, the process restarts, the journal
    refuses another send, and reconciliation fails, waits, then applies.  The
    record the next action starts from. *)
Definition lost_reply_step (keypair : Keypair) (rec : PaymentRecord)
  (action_call_summary : Action * ChainCall * EventSummary) : EngineTest PaymentRecord :=
  let '(action, call, summary) := action_call_summary in
  new_rpc summary 0 false ;;
  fails (send_journaled rec action call keypair) ;;
  (* only the journal on disk survives *)
  let! rec := unwrap (store_get "simulation") in
  let! pending := unwrap_some (pr_pending rec) in
  check (bool_decide (pd_action pending = action)) ;;
  check (bool_decide (pd_tx_hash pending = "hash-0")) ;;
  fails (send_journaled rec action call keypair) ;;
  broadcasts_are 1 ;;
  let before := pr_version rec in
  fails (reconcile_journaled rec pending 8) ;;
  let! (changed, rec) := unwrap (reconcile_journaled rec pending 8) in
  check (negb changed) ;;
  check (pr_version rec =? before) ;;
  let! got := unwrap (store_get "simulation") in
  check (bool_decide (pr_pending got = Some pending)) ;;
  let! (changed, rec) := unwrap (reconcile_journaled rec pending 8) in
  check (changed : bool) ;;
  check (is_none (pr_pending rec)) ;;
  fails (reconcile_journaled rec pending 8) ;;
  if bool_decide (pr_state rec = Funded) && (0 <? pr_swept_alpha rec) then
    let! rec := unwrap (m_lift (transition rec Swept)) in
    unwrap (on_store (update_record rec))
  else m_ret rec.

Fixpoint lost_reply_steps (keypair : Keypair) (rec : PaymentRecord)
  (steps : list (Action * ChainCall * EventSummary)) : EngineTest PaymentRecord :=
  match steps with
  | [] => m_ret rec
  | s :: steps => let! rec := lost_reply_step keypair rec s in lost_reply_steps keypair rec steps
  end.

(** [key], [entropy], [nonce]: the bytes drawn for the master key, the wallet
    and its seal. *)
Definition durable_journal_recovers_lost_replies_without_rebroadcast
  (key entropy nonce : list Byte.byte) : EngineTest unit :=
  let! wallet := unwrap (m_lift (PaymentWallet_generate entropy)) in
  let! sealed := unwrap (m_lift (PaymentWallet_seal_with wallet nonce
                   (Keyring_from_master (MasterKey_generate key)) (bytes_of_string "test"))) in
  let who := PaymentWallet_account_id wallet in
  let rec :=
    {| pr_id := "simulation"; pr_address := ss58 who; pr_netuid := 100; pr_min_alpha := 0;
       pr_min_tao := None; pr_created_at := 1; pr_expires_at := 9999999999; pr_state := Detected;
       pr_version := 0; pr_sealed_secret := sealed; pr_metadata := None; pr_callback_url := None;
       pr_detected_alpha := 0; pr_detected_tao := 0; pr_funded_tao := 0; pr_swept_alpha := 0;
       pr_txs := []; pr_buyback := None; pr_buyback_budget := None; pr_auto_required := None;
       pr_identity := None; pr_attempts := 0; pr_next_attempt_at := 0; pr_last_error := None;
       pr_failed_from := None; pr_pending := None; pr_quarantined := None;
       pr_swept_positions := []; pr_consolidated := 0; pr_dust_returned := false;
       pr_buyback_done := false; pr_notified := false; pr_updated_at := 1;
       pr_derivation_path := None |} in
  unwrap (on_store (insert_record rec)) ;;
  let steps :=
    [(Action_Fund, TransferTao who 3000000, EventSummary_default);
     (Action_Sweep (ss58 who), TransferStake who who 100 10,
      EventSummary_default <| es_names := [(PALLET, "StakeTransferred")] |>);
     (Action_BuyStake 100 1, AddStakeLimit who 100 MIN_STAKE_RAO 1 false,
      EventSummary_default <| es_stake_added := Some (MIN_STAKE_RAO, 20) |>);
     (Action_Destroy 100 false, BurnAlpha who 100 20,
      EventSummary_default <| es_alpha_destroyed := Some 20 |>)] in
  let! rec := lost_reply_steps (pw_keypair wallet) rec steps in
  check (length (pr_txs rec) =? 4)%nat ;;
  check (pr_swept_alpha rec =? 10) ;;
  let! b := unwrap_some (pr_buyback rec) in
  check (br_tao_spent b =? MIN_STAKE_RAO) ;;
  check (br_alpha_destroyed b =? 20) ;;
  check (pr_buyback_done rec) ;;
  let! rec := unwrap (m_lift (transition rec Settled)) in
  let! _ := unwrap (on_store (update_record rec)) in
  m_ret tt.

Definition stale_journal_cannot_broadcast (entropy : list Byte.byte) : EngineTest unit :=
  let rec := test_record "stale" in
  unwrap (on_store (insert_record rec)) ;;
  let! _ := unwrap (on_store (update_record rec)) in
  new_rpc EventSummary_default 2 false ;;
  let! wallet := unwrap (m_lift (PaymentWallet_generate entropy)) in
  let call := TransferTao (PaymentWallet_account_id wallet) 1 in
  fails_with is_conflict (send_journaled rec Action_Fund call (pw_keypair wallet)) ;;
  broadcasts_are 0 ;;
  check (is_none (pr_pending rec)) ;;
  let! _ := unwrap (on_store (reserve_signer (ss58 (PaymentWallet_account_id wallet)) "next")) in
  m_ret tt.

Definition invalid_finalized_burn_quarantines_job_and_releases_signer : EngineTest unit :=
  let tx := mkTxRef "add_stake_limit" "buy" "block" MIN_STAKE_RAO in
  let rec := test_record "burn" <| pr_state := Swept |>
               <| pr_buyback := Some (mkBuybackReceipt 100 MIN_STAKE_RAO 20 1 tx None 0) |> in
  let! reservation := unwrap (on_store (reserve_signer "test-only" "burn")) in
  let pending := {| pd_action := Action_Destroy 100 false; pd_reservation := Some reservation;
                    pd_signer := "test-only"; pd_nonce := 1; pd_tx_hash := "burn";
                    pd_birth_block := 100; pd_amount := 20 |} in
  let rec := rec <| pr_pending := Some pending |> in
  unwrap (on_store (insert_record rec)) ;;
  new_rpc (EventSummary_default <| es_alpha_destroyed := Some 19 |>) 2 false ;;
  let! (changed, _) := unwrap (reconcile_journaled rec pending 8) in
  check (changed : bool) ;;
  let! stored := unwrap (store_get "burn") in
  check (is_none (pr_pending stored)) ;;
  check (bool_decide (pr_quarantined stored = Some pending)) ;;
  check (negb (pr_buyback_done stored)) ;;
  check (bool_decide (pr_state stored = Failed)) ;;
  check (length (pr_txs stored) =? 1)%nat ;;
  let! _ := unwrap (on_store (reserve_signer "test-only" "another-job")) in
  broadcasts_are 0.

Definition verified_dead_intent_releases_signer_without_completion : EngineTest unit :=
  let rec := test_record "dead" in
  let! reservation := unwrap (on_store (reserve_signer "signer" "dead")) in
  let pending := {| pd_action := Action_Fund; pd_reservation := Some reservation;
                    pd_signer := "signer"; pd_nonce := 1; pd_tx_hash := "dead-hash";
                    pd_birth_block := 1; pd_amount := 1 |} in
  let rec := rec <| pr_pending := Some pending |> in
  unwrap (on_store (insert_record rec)) ;;
  new_rpc EventSummary_default 0 true ;;
  let! (changed, rec) := unwrap (reconcile_journaled rec pending 8) in
  check (changed : bool) ;;
  check (is_none (pr_pending rec)) ;;
  check (negb (pr_buyback_done rec)) ;;
  let! _ := unwrap (on_store (reserve_signer "signer" "next")) in
  broadcasts_are 0.
End LostReplies.

(** * Whole engines *)

(** [Config::new("unused", 100, hotkey)] with the fields the tests set. *)
Definition test_config (hotkey : AccountId32) (auto : AutoBuyback) (consolidate return_dust : bool)
  : Config :=
  let c := Config_new "unused" 100 hotkey in
  {| cfg_url := cfg_url c; cfg_netuid := cfg_netuid c; cfg_min_alpha := cfg_min_alpha c;
     cfg_min_tao := cfg_min_tao c; cfg_expiry_secs := cfg_expiry_secs c;
     cfg_treasury_hotkey := cfg_treasury_hotkey c; cfg_sweep_dust := cfg_sweep_dust c;
     cfg_consolidate := consolidate; cfg_return_dust := return_dust;
     cfg_fee_margin_bps := cfg_fee_margin_bps c; cfg_fee_reserve := cfg_fee_reserve c;
     cfg_buyback_netuid := cfg_buyback_netuid c; cfg_slippage_bps := cfg_slippage_bps c;
     cfg_allow_partial := cfg_allow_partial c; cfg_auto := auto; cfg_buyback_budget := None;
     cfg_max_attempts := cfg_max_attempts c; cfg_webhook_url := cfg_webhook_url c |}.

Section Engines.
Context `{Ss58} `{Crypto}.
#[local] Existing Instance SimulatedChain.

Definition test_engine (treasury : PaymentWallet) (cfg : Config) : Engine :=
  Engine_new (Keyring_from_master (mkMasterKey (replicate 32 Byte.x2a))) (pw_keypair treasury) cfg.

(** On a chain whose owner of the hotkey is unknown. *)
Definition startup_missing_hotkey_never_submits_or_releases_ownership (treasury : PaymentWallet)
  : EngineTest unit :=
  let hotkey := PaymentWallet_account_id treasury in
  let signer := ss58 hotkey in
  let! _ := unwrap (on_store (reserve_signer signer "unresolved")) in
  let engine := test_engine treasury (Config_new "unused" 100 hotkey) in
  fails_with is_config (ensure_treasury_hotkey engine) ;;
  fails_with is_config (ensure_treasury_hotkey engine) ;;
  for_each [buyback 1; buyback_and_burn 1; buyback_and_recycle 1; buyback_all Burn; buyback_with 1 Keep]
    (fun result => fails_with is_config result) ;;
  broadcasts_are 0 ;;
  fails (on_store (reserve_signer signer "other")).

(** The record with the identity of each case of the test. *)
Definition bad_identities (record : PaymentRecord) (i : JobIdentity) : list PaymentRecord :=
  let other := "other" in
  (fun o => record <| pr_identity := o |>) <$>
    [None;
     Some (mkJobIdentity other (ji_treasury i) (ji_treasury_hotkey i) (ji_consolidate i) (ji_return_dust i));
     Some (mkJobIdentity (ji_genesis_hash i) other (ji_treasury_hotkey i) (ji_consolidate i) (ji_return_dust i));
     Some (mkJobIdentity (ji_genesis_hash i) (ji_treasury i) other (ji_consolidate i) (ji_return_dust i))].

Definition identity_is_persisted_and_mismatch_never_broadcasts (treasury : PaymentWallet)
  : EngineTest unit :=
  let engine := test_engine treasury (Config_new "unused" 100 (PaymentWallet_account_id treasury)) in
  let! request := unwrap (create_payment engine CreatePayment_default) in
  let! record := unwrap (store_get (rq_id request)) in
  check (bool_decide (pr_identity record = Some (job_identity engine))) ;;
  let! identity := unwrap_some (pr_identity record) in
  for_each (bad_identities record identity) (fun bad =>
    fails (on_store (update_record bad)) ;;
    fails (step engine bad ∅)) ;;
  broadcasts_are 0.

(** [record.transition(state); record = store.update(&record)], for each state. *)
Fixpoint advance (record : PaymentRecord) (states : list PaymentState) : EngineTest PaymentRecord :=
  match states with
  | [] => m_ret record
  | s :: states =>
      let! next := unwrap (m_lift (transition record s)) in
      let! next := unwrap (on_store (update_record next)) in
      advance next states
  end.

Definition persisted_auto_off_settles_after_runtime_enables_buyback (treasury : PaymentWallet)
  : EngineTest unit :=
  let hotkey := PaymentWallet_account_id treasury in
  let engine := test_engine treasury (test_config hotkey AutoBuyback_Off false false) in
  let! request := unwrap (create_payment engine CreatePayment_default) in
  let! record := unwrap (store_get (rq_id request)) in
  check (bool_decide (pr_auto_required record = Some false)) ;;
  check (is_none (pr_buyback_budget record)) ;;
  let! _ := advance record [Detected; Funded; Swept] in
  let auto := AutoBuyback_On Burn (AutoAmount_Fixed MIN_STAKE_RAO) in
  let engine := test_engine treasury (test_config hotkey auto false false) in
  yields (tick engine) 1 ;;
  let! settled := unwrap (store_get (rq_id request)) in
  check (bool_decide (pr_state settled = Settled)) ;;
  check (pr_notified settled) ;;
  check (is_none (pr_buyback settled)) ;;
  check (bool_decide (pr_auto_required settled = Some false)) ;;
  broadcasts_are 0.

(** [for _ in 0..n]: a new engine and a pass, until the job is settled. *)
Fixpoint tick_until_settled (n : nat) (engine : Engine) (rec : PaymentRecord)
  : EngineTest PaymentRecord :=
  match n with
  | O => m_ret rec
  | S n =>
      let! _ := unwrap (tick engine) in
      let! rec := unwrap (store_get "engine") in
      if bool_decide (pr_state rec = Settled) then m_ret rec else tick_until_settled n engine rec
  end.

Definition engine_ticks_complete_after_each_lost_response_and_restart
  (wallet treasury : PaymentWallet) (nonce : list Byte.byte) : EngineTest unit :=
  let keyring := Keyring_from_master (mkMasterKey (replicate 32 Byte.x2a)) in
  let address := ss58 (PaymentWallet_account_id wallet) in
  let treasury_address := ss58 (PaymentWallet_account_id treasury) in
  let! sealed := unwrap (m_lift (PaymentWallet_seal_with wallet nonce keyring (wallet_aad "engine" address))) in
  let budget := {| bb_amount_rao := MIN_STAKE_RAO; bb_currency := "TAO";
                   bb_source := "explicit-test-allocation"; bb_netuid := 100; bb_destroy := Burn;
                   bb_hotkey := treasury_address |} in
  let rec := test_record "engine"
    <| pr_identity := Some (mkJobIdentity "simulated-genesis" treasury_address treasury_address false false) |>
    <| pr_netuid := 100 |> <| pr_auto_required := Some true |> <| pr_address := address |>
    <| pr_sealed_secret := sealed |> <| pr_state := Detected |> <| pr_buyback_budget := Some budget |> in
  unwrap (on_store (insert_record rec)) ;;
  (* runtime defaults deliberately differ: the persisted job budget wins *)
  let cfg := test_config (PaymentWallet_account_id treasury) AutoBuyback_Off false false in
  let! rec := tick_until_settled 12 (test_engine treasury cfg) rec in
  check (bool_decide (pr_state rec = Settled)) ;;
  check (pr_buyback_done rec) ;;
  broadcasts_are 4 ;;
  check (length (pr_txs rec) =? 4)%nat ;;
  let! b := unwrap_some (pr_buyback rec) in
  check (br_tao_spent b =? MIN_STAKE_RAO) ;;
  check (br_alpha_destroyed b =? 20) ;;
  check (is_none (pr_pending rec)) ;;
  let! _ := unwrap (on_store (reserve_signer treasury_address "next-job")) in
  let budget := {| bb_amount_rao := bb_amount_rao budget + 1; bb_currency := bb_currency budget;
                   bb_source := bb_source budget; bb_netuid := bb_netuid budget;
                   bb_destroy := bb_destroy budget; bb_hotkey := bb_hotkey budget |} in
  fails (on_store (update_record (rec <| pr_buyback_budget := Some budget |>))).
End Engines.

(** * The tests pass *)
Import ToyKeys.

Definition toy_wallet (b : Byte.byte) : PaymentWallet :=
  match PaymentWallet_generate (replicate 32 b) with
  | Ok w => w
  | Err _ => mkPaymentWallet [] []
  end.
Definition sim_treasury : PaymentWallet := toy_wallet Byte.x54.
Definition owned_chain : World Sqlite Sim :=
  new_chain (PaymentWallet_account_id sim_treasury) (Some (PaymentWallet_account_id sim_treasury)).
Definition orphan_chain : World Sqlite Sim :=
  new_chain (PaymentWallet_account_id sim_treasury) None.

Example journal_tests :
  passes no_silent_clamp_or_skipped_success tt
  && forallb (fun t => completes t owned_chain)
    [returned_prepare_failure_releases_only_prebroadcast_ownership (pw_keypair sim_treasury);
     cancelled_preparation_and_crash_before_journal_stay_fenced (pw_keypair sim_treasury)
       (pw_keypair (toy_wallet Byte.x42));
     durable_journal_recovers_lost_replies_without_rebroadcast (replicate 32 Byte.x11)
       (replicate 32 Byte.x12) (replicate 24 Byte.x13);
     stale_journal_cannot_broadcast (replicate 32 Byte.x12);
     invalid_finalized_burn_quarantines_job_and_releases_signer;
     verified_dead_intent_releases_signer_without_completion] = true.
Proof. vm_compute. reflexivity. Qed.

Example engine_tests :
  completes (startup_missing_hotkey_never_submits_or_releases_ownership sim_treasury) orphan_chain
  && forallb (fun t => completes t owned_chain)
    [identity_is_persisted_and_mismatch_never_broadcasts sim_treasury;
     persisted_auto_off_settles_after_runtime_enables_buyback sim_treasury;
     engine_ticks_complete_after_each_lost_response_and_restart (toy_wallet Byte.x57) sim_treasury
       (replicate 24 Byte.x13)] = true.
Proof. vm_compute. reflexivity. Qed.
